(** * workFlow: the DAG execution engine and its operator library

    A shallow embedding of [backend/services/workflow_engine.py]: the
    [WorkflowEngine] runner ([execute_workflow]), the dispatcher
    ([_execute_node_by_type]) and the operators behind every node type.

    Tables are pandas DataFrames.  pandas objects are mutable and shared
    between the nodes of a run, so the operators run in a state monad over a
    heap of DataFrame objects: [df.copy()] allocates, [df[col] = v] writes in
    place, and every library call that returns a new frame allocates one. *)

From Stdlib Require Import ZArith QArith Qabs Qcanon Qcabs SpecFloat String List Permutation.
From stdpp Require Import gmap strings list sorting pretty.

Set Warnings "-register-all,-clear-no-such-hyp".

Open Scope string_scope.
Open Scope nat_scope.
Open Scope list_scope.
Open Scope stdpp_scope.

(** ** Cells and frames *)

(** A cell of a table: the Python value at that place.  [Int] is an
    integer (an element of an int64 column, or an [int] of an object
    column) and [Num] a float64.  A finite float is a rational number, and
    [Num] holds it as such; the infinities, the sign of zero and the
    wrap-around of int64 are outside the model. *)
Inductive cell : Type :=
  | NaN
  | Int (z : Z)
  | Num (q : Qc)
  | Str (s : string)
  | Bool (b : bool)
  | Time (t : Z).

#[global] Instance cell_eq_dec : EqDecision cell.
Proof. solve_decision. Defined.

#[global] Instance cell_inhabited : Inhabited cell := populate NaN.

(** A DataFrame: the column labels and the rows, every row aligned with
    [columns].  The index is positional. *)
Record DataFrame : Type := mkDF {
  columns : list string;
  rows : list (list cell)
}.

#[global] Instance DataFrame_eq_dec : EqDecision DataFrame.
Proof. solve_decision. Defined.

#[global] Instance DataFrame_inhabited : Inhabited DataFrame :=
  populate (mkDF [] []).

(** [len(df)] *)
Definition len (df : DataFrame) : nat := length (rows df).

(** The dtype pandas gives a column is read off its cells: integers only
    make an int64 column, floats and nulls a float64 column, anything else
    an object column.  (An object column that holds nothing but integers,
    or nothing but floats, is so read as a column of that type.) *)
Definition is_int (x : cell) : bool :=
  match x with Int _ => true | _ => false end.

Definition is_float (x : cell) : bool :=
  match x with Num _ | NaN => true | _ => false end.

Definition int64_column (xs : list cell) : bool := forallb is_int xs.

Definition float64_column (xs : list cell) : bool := forallb is_float xs.

(** ** float64

    Arithmetic on float64 is that of IEEE 754 binary64, as the Standard
    Library specifies it ([SpecFloat]), with rounding to nearest even. *)

Definition float_of_Z (z : Z) : spec_float := binary_normalize 53 1024 z 0 false.

(** The float64 nearest to a number: the quotient of its numerator and
    denominator, rounded once. *)
Definition float_of_positive (sign : bool) (n d : positive) : spec_float :=
  let '(m, e, l) := SFdiv_core_binary 53 1024 (Zpos n) 0 (Zpos d) 0 in
  binary_round_aux 53 1024 sign m e l.

Definition float_of_Qc (q : Qc) : spec_float :=
  match Qnum q with
  | Z0 => S754_zero false
  | Zpos n => float_of_positive false n (Qden q)
  | Zneg n => float_of_positive true n (Qden q)
  end.

Definition Qc_of_float (x : spec_float) : option Qc :=
  match x with
  | S754_zero _ => Some 0%Qc
  | S754_finite s m e =>
      Some (Q2Qc (inject_Z (if s then Zneg m else Zpos m) * Qpower (inject_Z 2) e))
  | S754_infinity _ | S754_nan => None
  end.

(** A float64 as a cell; what overflows is a null in the model. *)
Definition cell_of_float (x : spec_float) : cell :=
  match Qc_of_float x with Some q => Num q | None => NaN end.

(** [float(x)] of a number, and of an integer: an int64 column that
    receives a null becomes a float64 column. *)
Definition round64 (q : Qc) : cell := cell_of_float (float_of_Qc q).

Definition Qc_of_Z (z : Z) : Qc := Q2Qc (inject_Z z).

Definition widen (x : cell) : cell :=
  match x with Int z => round64 (Qc_of_Z z) | _ => x end.

(** The float64 nearest to a number, as a number. *)
Definition nearest64 (q : Qc) : Qc :=
  match Qc_of_float (float_of_Qc q) with Some q' => q' | None => q end.

(** The number a cell holds, for the cells Python takes for numbers
    ([True] is 1 and [False] is 0). *)
Definition as_number (x : cell) : option Qc :=
  match x with
  | Int z => Some (Qc_of_Z z)
  | Num q => Some q
  | Bool b => Some (if b then 1%Qc else 0%Qc)
  | _ => None
  end.

(** The integer a cell holds, for the cells Python takes for integers. *)
Definition as_int (x : cell) : option Z :=
  match x with
  | Int z => Some z
  | Bool b => Some (if b then 1%Z else 0%Z)
  | _ => None
  end.

(** [x == y] on cells: numbers are compared by value, so [1 == 1.0] and
    [True == 1]. *)
Definition cell_eqb (x y : cell) : bool :=
  match as_number x, as_number y with
  | Some a, Some b => bool_decide (a = b)
  | None, None => bool_decide (x = y)
  | _, _ => false
  end.

(** [a - b] on float64 *)
Definition float_sub (a b : Qc) : cell :=
  cell_of_float (SFsub 53 1024 (float_of_Qc a) (float_of_Qc b)).

(** A number within the range of float64. *)
Definition finite64 (q : Qc) : bool :=
  match float_of_Qc q with
  | S754_infinity _ | S754_nan => false
  | _ => true
  end.

(** ** Results of fallible code: a value or a raised exception *)

Inductive outcome (A : Type) : Type :=
  | Ok (a : A)
  | Raise (msg : string).
Arguments Ok {A} a.
Arguments Raise {A} msg.

Definition is_ok {A} (o : outcome A) : bool :=
  match o with Ok _ => true | Raise _ => false end.

(** ** Configs: JSON dictionaries *)

Inductive pyval : Type :=
  | PNone
  | PBool (b : bool)
  | PNum (q : Qc)
  | PStr (s : string)
  | PList (l : list pyval)
  | PDict (d : list (string * pyval)).

Abbreviation Config := (gmap string pyval).

(** Python truthiness, as used by [if x:] and [x or y]. *)
Definition truthy (v : pyval) : bool :=
  match v with
  | PNone => false
  | PBool b => b
  | PNum q => negb (bool_decide (q = 0%Qc))
  | PStr s => negb (bool_decide (s = ""))
  | PList l => negb (bool_decide (length l = 0))
  | PDict d => negb (bool_decide (length d = 0))
  end.

(** [a or b] on optional values ([None] when the key is absent). *)
Definition py_or (a b : option pyval) : option pyval :=
  match a with
  | Some v => if truthy v then a else b
  | None => b
  end.

(** Configs are read at the shape the operator expects: a key that holds a
    value of another shape is read like an absent key. *)
Definition as_str (v : option pyval) : option string :=
  match v with Some (PStr s) => Some s | _ => None end.

(** A non-empty string, for [if s:] on a string-valued key. *)
Definition as_name (v : option pyval) : option string :=
  match v with
  | Some (PStr s) => if bool_decide (s = "") then None else Some s
  | _ => None
  end.

Definition as_num (v : option pyval) : option Qc :=
  match v with Some (PNum q) => Some q | _ => None end.

Definition strs_of (l : list pyval) : list string :=
  omap (fun v => match v with PStr s => Some s | _ => None end) l.

(** A list of names; [[]] when absent. *)
Definition as_names (v : option pyval) : list string :=
  match v with Some (PList l) => strs_of l | _ => [] end.

(** A name or a list of names ([isinstance(x, str)] turns one name into a
    one-element list). *)
Definition as_name_or_names (v : option pyval) : list string :=
  match v with
  | Some (PStr s) => if bool_decide (s = "") then [] else [s]
  | Some (PList l) => strs_of l
  | _ => []
  end.

(** A dictionary from names to names (the [rename_map]). *)
Definition as_str_dict (v : option pyval) : list (string * string) :=
  match v with
  | Some (PDict d) =>
      omap (fun kv => match kv.2 with PStr s => Some (kv.1, s) | _ => None end) d
  | _ => []
  end.

(** A list of dictionaries (the [calculations], [aggregations], ...). *)
Definition as_dicts (v : option pyval) : list Config :=
  match v with
  | Some (PList l) =>
      omap (fun x => match x with
                     | PDict d => Some (list_to_map d : gmap string pyval)
                     | _ => None end) l
  | _ => []
  end.

(** Where an operator does not test the shape of a value before it uses
    it, the value is used as Python uses it. *)

(** [type(v).__name__]; a number without a fractional part is an [int]. *)
Definition type_name (v : pyval) : string :=
  match v with
  | PNone => "NoneType"
  | PBool _ => "bool"
  | PNum q => if bool_decide (Qden q = 1%positive) then "int" else "float"
  | PStr _ => "str"
  | PList _ => "list"
  | PDict _ => "dict"
  end.

(** The characters of a text held in UTF-8: a byte [10xxxxxx] continues
    the character that the bytes before it began. *)
Definition continuation (c : Ascii.ascii) : bool :=
  let n := Ascii.nat_of_ascii c in (128 <=? n) && (n <? 192).

Fixpoint characters_from (cur : string) (s : string) : list string :=
  match s with
  | EmptyString => [cur]
  | String c s' =>
      if continuation c then characters_from (cur +:+ String c EmptyString) s'
      else cur :: characters_from (String c EmptyString) s'
  end.

Definition characters (s : string) : list string :=
  match s with
  | EmptyString => []
  | String c s' => characters_from (String c EmptyString) s'
  end.

(** [for x in v]: the values the loop visits, or the [TypeError] of a
    value that cannot be iterated. *)
Definition py_iter (v : pyval) : outcome (list pyval) :=
  match v with
  | PList l => Ok l
  | PStr s => Ok (PStr <$> characters s)
  | PDict d => Ok ((fun kv : string * pyval => PStr kv.1) <$> d)
  | _ => Raise ("'" +:+ type_name v +:+ "' object is not iterable")
  end.

(** [v.get(k)]: [None] when the dictionary has no such key, and an
    [AttributeError] when [v] is not a dictionary. *)
Definition py_get (v : pyval) (k : string) : outcome pyval :=
  match v with
  | PDict d => Ok (default PNone ((list_to_map d : gmap string pyval) !! k))
  | _ => Raise ("'" +:+ type_name v +:+ "' object has no attribute 'get'")
  end.

(** ** Frame values: the pandas calls with a fixed meaning *)

(** Position of the first column labelled [c]. *)
Fixpoint index_of (c : string) (cols : list string) : option nat :=
  match cols with
  | [] => None
  | c' :: cols' =>
      if bool_decide (c' = c) then Some 0 else S <$> index_of c cols'
  end.

(** [c in df.columns] *)
Definition has_column (df : DataFrame) (c : string) : bool :=
  bool_decide (c ∈ columns df).

(** The values of [df[c]], top to bottom. *)
Definition column (df : DataFrame) (c : string) : list cell :=
  match index_of c (columns df) with
  | Some i => (fun r => r !!! i) <$> rows df
  | None => []
  end.

(** The frame after [df[c] = vals]: the column is overwritten where it
    exists and appended on the right where it does not. *)
Definition set_column (df : DataFrame) (c : string) (vals : list cell) : DataFrame :=
  match index_of c (columns df) with
  | Some i => mkDF (columns df) (imap (fun j r => <[i := vals !!! j]> r) (rows df))
  | None => mkDF (columns df ++ [c]) (imap (fun j r => r ++ [vals !!! j]) (rows df))
  end.

Fixpoint mask_filter {A} (mask : list bool) (l : list A) : list A :=
  match mask, l with
  | b :: mask', x :: l' =>
      if b then x :: mask_filter mask' l' else mask_filter mask' l'
  | _, _ => []
  end.

(** Keep the columns whose label satisfies [p], in place. *)
Definition keep_columns (p : string -> bool) (df : DataFrame) : DataFrame :=
  let mask := p <$> columns df in
  mkDF (mask_filter mask (columns df)) (mask_filter mask <$> rows df).

(** [df.drop(columns=cs, errors='ignore')] *)
Definition drop (df : DataFrame) (cs : list string) : DataFrame :=
  keep_columns (fun c => negb (bool_decide (c ∈ cs))) df.

(** [df.rename(columns=m)]: labels outside [m] are kept. *)
Definition rename (df : DataFrame) (m : list (string * string)) : DataFrame :=
  let d : gmap string string := list_to_map m in
  mkDF ((fun c => default c (d !! c)) <$> columns df) (rows df).

(** The positions of the columns labelled [c], from position [i] on. *)
Fixpoint indices_from (i : nat) (c : string) (cols : list string) : list nat :=
  match cols with
  | [] => []
  | c' :: cols' =>
      if bool_decide (c' = c) then i :: indices_from (S i) c cols'
      else indices_from (S i) c cols'
  end.

Definition indices_of (c : string) (cols : list string) : list nat :=
  indices_from 0 c cols.

(** The columns that [df[cs]] takes for the label [c], each with its
    position. *)
Definition picked_of (cols : list string) (c : string) : option (list (string * nat)) :=
  match indices_of c cols with
  | [] => None
  | idx => Some ((fun i => (c, i)) <$> idx)
  end.

(** [df[cs]] for a list of labels: [KeyError] on a label that is not a
    column.  The result takes the labels in the order of [cs], and for
    each label every column that carries it. *)
Definition select (df : DataFrame) (cs : list string) : outcome DataFrame :=
  match mapM (picked_of (columns df)) cs with
  | Some picked =>
      let picked := concat picked in
      Ok (mkDF (fst <$> picked)
               ((fun r : list cell => (fun p : string * nat => r !!! p.2) <$> picked)
                  <$> rows df))
  | None => Raise "KeyError"
  end.

(** The cells at position [j], top to bottom. *)
Definition column_at (j : nat) (rs : list (list cell)) : list cell :=
  (fun r : list cell => r !!! j) <$> rs.

(** [widen] at the flagged positions of a row. *)
Fixpoint widen_where (flags : list bool) (r : list cell) : list cell :=
  match flags, r with
  | b :: flags', x :: r' => (if b then widen x else x) :: widen_where flags' r'
  | _, _ => r
  end.

(** [df.head(n)] *)
Definition frame_head (df : DataFrame) (n : nat) : DataFrame :=
  mkDF (columns df) (take n (rows df)).

(** [df[mask]]: the rows at which [mask] holds. *)
Definition filter_rows (p : list cell -> bool) (df : DataFrame) : DataFrame :=
  mkDF (columns df) (List.filter p (rows df)).

(** [bool(x)], the coercion behind [astype(bool)]. *)
Definition py_bool (x : cell) : bool :=
  match x with
  | NaN => true
  | Int z => negb (bool_decide (z = 0%Z))
  | Num q => negb (bool_decide (q = 0%Qc))
  | Str s => negb (bool_decide (s = ""))
  | Bool b => b
  | Time _ => true
  end.

Definition isna (x : cell) : bool :=
  match x with NaN => true | _ => false end.

(** [series.fillna(v)] *)
Definition fillna (v : cell) (xs : list cell) : list cell :=
  (fun x => if isna x then v else x) <$> xs.

(** [df.fillna("").to_dict(orient="records")]: one dictionary per row. *)
Definition to_records (df : DataFrame) : list (list (string * cell)) :=
  (fun r => zip (columns df) (fillna (Str "") r)) <$> rows df.

(** ** The pandas interface

    pandas and the Python runtime are libraries the engine calls; what the
    engine relies on from them without fixing the result is collected here.
    Every function is pure: it reads frame values and returns new ones. *)
Class Pandas : Type := {
  (** [str(x)]; [series.astype(str)] applies it to every cell *)
  py_str : cell -> string;
  (** [float(s)] on text *)
  float_of_text : string -> outcome Qc;
  (** [df.query(expr)] *)
  pd_query : DataFrame -> string -> outcome DataFrame;
  (** [df.eval(formula)], one value per row *)
  pd_eval : DataFrame -> string -> outcome (list cell);
  (** [df.sort_values(by=c, ascending=b)] *)
  pd_sort_values : DataFrame -> string -> bool -> outcome DataFrame;
  (** [pd.to_numeric(s, errors='coerce')] *)
  pd_to_numeric : list cell -> outcome (list cell);
  (** [series.astype('Int64')] *)
  astype_Int64 : list cell -> outcome (list cell);
  (** [pd.to_datetime(s, errors='coerce')] *)
  pd_to_datetime : list cell -> outcome (list cell);
  (** [df.dropna(subset=cs)] *)
  pd_dropna : DataFrame -> list string -> outcome DataFrame;
  (** [df[cs].fillna(v)], [df[cs].ffill()], [df[cs].bfill()] *)
  pd_fillna : DataFrame -> list string -> option pyval -> outcome DataFrame;
  pd_ffill : DataFrame -> list string -> outcome DataFrame;
  pd_bfill : DataFrame -> list string -> outcome DataFrame;
  (** [series.dtype in ['int64', 'float64']] *)
  numeric_dtype : list cell -> bool;
  (** [series.mean()], [series.median()] *)
  series_mean : list cell -> cell;
  series_median : list cell -> cell;
  (** [df.drop_duplicates(subset=cs, keep=k)] *)
  pd_drop_duplicates : DataFrame -> option (list string) -> option pyval -> outcome DataFrame;
  (** [s.strip()], [s.lower()], [s.upper()] *)
  str_strip : string -> string;
  str_lower : string -> string;
  str_upper : string -> string;
  (** [series.str.replace(pattern, replacement, regex=True)] *)
  str_replace : string -> string -> list cell -> outcome (list cell);
  (** [series.str.extract(pattern, expand=False)] *)
  str_extract : string -> list cell -> outcome (list cell);
  (** the [.dt] accessors and date arithmetic of [date_process] *)
  dt_part : string -> list cell -> outcome (list cell);
  dt_shift : string -> list cell -> outcome (list cell);
  (** [df.groupby(by).agg(spec).reset_index()]; an empty [spec] is
      [df.groupby(by).sum().reset_index()] *)
  pd_groupby_agg : DataFrame -> list string -> list (string * string) -> outcome DataFrame;
  (** [pd.pivot_table(...).reset_index()] *)
  pd_pivot_table : DataFrame -> list string -> string -> string -> string -> outcome DataFrame;
  (** [pd.melt(...)] *)
  pd_melt : DataFrame -> option (list string) -> option (list string) -> string -> string -> outcome DataFrame;
  (** [pd.concat(dfs, join=j, ignore_index=b)] *)
  pd_concat : list DataFrame -> string -> bool -> outcome DataFrame;
  (** the float64 that [sum] returns for the numbers of a group, in the
      order of the rows *)
  float_sum : list Qc -> Qc
}.

(** ** Ordering of keys

    [groupby] and the outer merge return their keys sorted.  Numbers are
    ordered by value, and so are texts and timestamps; across types the
    order is by type, numbers first. *)
Definition cell_rank (x : cell) : nat :=
  match x with
  | Bool _ | Int _ | Num _ => 1 | Time _ => 2 | Str _ => 3 | NaN => 4
  end.

Definition cell_leb (x y : cell) : bool :=
  match as_number x, as_number y with
  | Some a, Some b => bool_decide (a <= b)%Qc
  | _, _ =>
      match x, y with
      | Str a, Str b => String.leb a b
      | Time a, Time b => (a <=? b)%Z
      | _, _ => cell_rank x <=? cell_rank y
      end
  end.

Fixpoint key_leb (k1 k2 : list cell) : bool :=
  match k1, k2 with
  | [], _ => true
  | _ :: _, [] => false
  | x :: k1', y :: k2' =>
      if bool_decide (x = y) then key_leb k1' k2' else cell_leb x y
  end.

Definition key_le (k1 k2 : list cell) : Prop := key_leb k1 k2 = true.

#[global] Instance key_le_dec : RelDecision key_le.
Proof. intros k1 k2. unfold key_le. apply _. Defined.

(** The distinct keys of [ks], sorted. *)
Definition sorted_keys (ks : list (list cell)) : list (list cell) :=
  remove_dups (merge_sort key_le ks).

(** The cells of row [r] at the positions [idx]. *)
Definition row_key (idx : list nat) (r : list cell) : list cell :=
  (fun i => r !!! i) <$> idx.

(** The rows of [rs] whose key is [k]. *)
Definition rows_with_key (idx : list nat) (k : list cell) (rs : list (list cell))
  : list (list cell) :=
  List.filter (fun r => bool_decide (row_key idx r = k)) rs.

(** ** The exception monad of pure library calls *)

#[global] Instance outcome_ret : MRet outcome := fun A a => Ok a.
#[global] Instance outcome_bind : MBind outcome := fun A B f m =>
  match m with Ok a => f a | Raise e => Raise e end.
#[global] Instance outcome_fmap : FMap outcome := fun A B f m =>
  match m with Ok a => Ok (f a) | Raise e => Raise e end.

(** [d[k]] on an optional position: [KeyError] when there is none. *)
Definition or_raise {A} (msg : string) (o : option A) : outcome A :=
  match o with Some a => Ok a | None => Raise msg end.

Definition positions (df : DataFrame) (cs : list string) : outcome (list nat) :=
  or_raise "KeyError" (mapM (M:=option) (fun c => index_of c (columns df)) cs).

(** ** [pd.merge(left, right, left_on=.., right_on=.., how=..)] *)

(** A row of the result comes from a left row, a right row, or a matching
    pair. *)
Abbreviation pairing := (option (list cell) * option (list cell))%type.

Section Merge.
Variables lidx ridx : list nat.
Variables lrows rrows : list (list cell).

(** [how='left']: the left rows in order, each with its matches in the
    order of the right frame, or alone when it has none. *)
Definition left_pairs : list pairing :=
  l ← lrows;
  match rows_with_key ridx (row_key lidx l) rrows with
  | [] => [(Some l, None)]
  | rs => (fun r => (Some l, Some r)) <$> rs
  end.

(** [how='inner'] *)
Definition inner_pairs : list pairing :=
  l ← lrows;
  (fun r => (Some l, Some r)) <$> rows_with_key ridx (row_key lidx l) rrows.

(** [how='right'] *)
Definition right_pairs : list pairing :=
  r ← rrows;
  match rows_with_key lidx (row_key ridx r) lrows with
  | [] => [(None, Some r)]
  | ls => (fun l => (Some l, Some r)) <$> ls
  end.

(** The rows of one key of an outer merge. *)
Definition outer_block (k : list cell) : list pairing :=
  match rows_with_key lidx k lrows, rows_with_key ridx k rrows with
  | ls, [] => (fun l => (Some l, None)) <$> ls
  | [], rs => (fun r => (None, Some r)) <$> rs
  | ls, rs => l ← ls; (fun r => (Some l, Some r)) <$> rs
  end.

(** [how='outer']: the union of the keys, sorted. *)
Definition outer_pairs : list pairing :=
  k ← sorted_keys ((row_key lidx <$> lrows) ++ (row_key ridx <$> rrows));
  outer_block k.

Definition merge_pairs (how : string) : outcome (list pairing) :=
  if bool_decide (how = "left") then Ok left_pairs
  else if bool_decide (how = "inner") then Ok inner_pairs
  else if bool_decide (how = "right") then Ok right_pairs
  else if bool_decide (how = "outer") then Ok outer_pairs
  else Raise "MergeError".
End Merge.

(** Key labels shared by both sides: pandas keeps one column for them. *)
Definition coalesced (left_on right_on : list string) : list string :=
  fst <$> List.filter (fun p => bool_decide (p.1 = p.2)) (zip left_on right_on).

Section MergeLayout.
Variables left right : DataFrame.
Variables left_on right_on : list string.

Definition right_mask : list bool :=
  (fun c => negb (bool_decide (c ∈ coalesced left_on right_on))) <$> columns right.

Definition right_kept : list string := mask_filter right_mask (columns right).

(** A label on both sides gets the suffixes [_x] and [_y]. *)
Definition overlaps (c : string) : bool :=
  bool_decide (c ∈ columns left) && bool_decide (c ∈ right_kept).

Definition merge_columns : list string :=
  ((fun c => if overlaps c then c +:+ "_x" else c) <$> columns left)
  ++ ((fun c => if overlaps c then c +:+ "_y" else c) <$> right_kept).

(** The left part of a row that exists on the right only: the shared key
    columns take the right key, the rest is null. *)
Definition left_part_of_right (r : list cell) : list cell :=
  (fun c =>
     if bool_decide (c ∈ coalesced left_on right_on)
     then match index_of c (columns right) with
          | Some i => r !!! i
          | None => NaN
          end
     else NaN) <$> columns left.

(** The columns that pandas stores as float64 from the merge on: an int64
    column of one side, when a row of the result has no row of that side
    and so holds a null there.  One flag per column of the left table, and
    one per kept column of the right table. *)
Definition left_widened (ps : list pairing) : list bool :=
  imap (fun j c =>
          existsb (fun p : pairing => bool_decide (p.1 = None)) ps
          && negb (bool_decide (c ∈ coalesced left_on right_on))
          && int64_column (column_at j (rows left)))
       (columns left).

Definition right_widened (ps : list pairing) : list bool :=
  mask_filter right_mask
    (imap (fun j (_ : string) =>
             existsb (fun p : pairing => bool_decide (p.2 = None)) ps
             && int64_column (column_at j (rows right)))
          (columns right)).

(** The row of the result for a pairing, among the pairings [ps] of the
    merge. *)
Definition merge_row (ps : list pairing) (p : pairing) : list cell :=
  let left_cells (l : list cell) := widen_where (left_widened ps) l in
  let right_cells (r : list cell) :=
    widen_where (right_widened ps) (mask_filter right_mask r) in
  match p with
  | (Some l, Some r) => left_cells l ++ right_cells r
  | (Some l, None) => left_cells l ++ replicate (length right_kept) NaN
  | (None, Some r) => left_part_of_right r ++ right_cells r
  | (None, None) => []
  end.

(** The keys are compared cell by cell as they are: the engine merges on
    key columns it has coerced to text. *)
Definition merge (how : string) : outcome DataFrame :=
  lidx ← positions left left_on;
  ridx ← positions right right_on;
  if negb (bool_decide (length left_on = length right_on))
  then Raise "ValueError: len(right_on) must equal len(left_on)"
  else
    ps ← merge_pairs lidx ridx (rows left) (rows right) how;
    Ok (mkDF merge_columns (merge_row ps <$> ps)).
End MergeLayout.

(** ** [df.groupby(keys)[col].sum().reset_index()] *)

(** A cell as a number; a null counts as missing. *)
Definition to_number (x : cell) : outcome (option Qc) :=
  match x with
  | NaN => Ok None
  | Int z => Ok (Some (Qc_of_Z z))
  | Num q => Ok (Some q)
  | Bool b => Ok (Some (if b then 1%Qc else 0%Qc))
  | Str _ | Time _ => Raise "TypeError"
  end.

Section GroupBy.
Context `{Pandas}.

(** [series.sum()] of the cells of one group: nulls are skipped.  The sum
    of integers is an integer, unless the column is a float64 column (a
    group of nulls only); the sum of texts is their concatenation; any
    other sum of numbers is the float64 [float_sum] gives. *)
Definition sum_cells (float : bool) (xs : list cell) : outcome cell :=
  let values := List.filter (fun x => negb (isna x)) xs in
  match mapM (M:=option) (fun x => match x with Str s => Some s | _ => None end) values with
  | Some (s :: texts) => Ok (Str (String.concat "" (s :: texts)))
  | _ =>
      vs ← mapM to_number xs;
      match mapM (M:=option) as_int values with
      | Some zs => if float then Ok (Num (float_sum [])) else Ok (Int (foldr Z.add 0%Z zs))
      | None => Ok (Num (float_sum (omap id vs)))
      end
  end.

(** The label of the group of [x]: the first cell of the key column that
    is equal to it. *)
Definition group_label (xs : list cell) (x : cell) : cell :=
  default x (List.find (cell_eqb x) xs).

(** The group labels of a row. *)
Definition group_key (kidx : list nat) (rs : list (list cell)) (r : list cell) : list cell :=
  (fun i => group_label (column_at i rs) (r !!! i)) <$> kidx.

(** Rows with a null key are left out; the groups come sorted by key. *)
Definition groupby_sum (df : DataFrame) (keys : list string) (col : string)
  : outcome DataFrame :=
  kidx ← positions df keys;
  cidx ← or_raise "KeyError" (index_of col (columns df));
  let kept := List.filter (fun r => forallb (fun x => negb (isna x)) (row_key kidx r)) (rows df) in
  let float := float64_column (column_at cidx (rows df)) in
  rs ← mapM (fun k =>
               s ← sum_cells float
                     ((fun r => r !!! cidx)
                        <$> List.filter (fun r => bool_decide (group_key kidx (rows df) r = k)) kept);
               Ok (k ++ [s]))
            (sorted_keys (group_key kidx (rows df) <$> kept));
  Ok (mkDF (keys ++ [col]) rs).
End GroupBy.

(** ** The world outside the engine *)

(** What an HTTP POST to the chat-completion endpoint comes back with: a
    response, or the text of the exception the request raised.  A response
    has a status, a body text, and what reading the reply out of the body
    gives: the text at [resp.json()['choices'][0]['message']['content']],
    or the text [str(e)] of the exception [e] that reading it raises (the
    body is not JSON, a key is missing, the content is not text). *)
Inductive http_reply : Type :=
  | HttpResponse (status : Z) (text : string) (content : outcome string)
  | HttpException (msg : string).

Record World : Type := {
  (** [datetime.now().strftime("%H:%M:%S")] at the k-th call of [log] *)
  now : nat -> string;
  (** [uuid4().hex[:8]] at the k-th call *)
  uuid4_hex8 : nat -> string;
  (** [os.listdir(UPLOAD_DIR)] *)
  listdir : list string;
  (** [pd.read_excel] and [pd.read_csv] on a stored file, with the reading
      options of the node's config *)
  read_excel : string -> Config -> outcome DataFrame;
  read_csv : string -> Config -> outcome DataFrame;
  (** [df.to_excel] / [df.to_csv]: [Raise] when the write fails *)
  write_file : string -> DataFrame -> outcome unit;
  (** [import httpx] and the imports from [config] *)
  import_httpx : outcome unit;
  (** the k-th request of the run, with its prompt *)
  http_post : nat -> string -> http_reply;
  (** [exec(code, {}, scope)] of a code node: any effect on the frames of
      the heap; returns the frame bound to [result], when it is one *)
  py_exec : string -> list nat -> list DataFrame -> outcome (option nat) * list DataFrame
}.

(** ** The heap of frames and the monad of the operators *)

Abbreviation ref := nat.

Record State : Type := mkState {
  heap : list DataFrame;          (** the DataFrame objects alive in the run *)
  requests : list string;         (** prompts sent so far, oldest first *)
  uuids : nat;                    (** calls of [uuid4] so far *)
  written : list (string * DataFrame)  (** files written so far *)
}.

Definition M (A : Type) : Type := State -> outcome A * State.

#[global] Instance M_ret : MRet M := fun A a s => (Ok a, s).
#[global] Instance M_bind : MBind M := fun A B f m s =>
  match m s with
  | (Ok a, s') => f a s'
  | (Raise e, s') => (Raise e, s')
  end.

Definition raise {A} (msg : string) : M A := fun s => (Raise msg, s).

Definition lift {A} (o : outcome A) : M A := fun s => (o, s).

(** [try: m except Exception as e: h e] — what [m] did to the state before
    it raised stays done. *)
Definition try_except {A} (m : M A) (h : string -> M A) : M A := fun s =>
  match m s with
  | (Ok a, s') => (Ok a, s')
  | (Raise e, s') => h e s'
  end.

Fixpoint for_each {A} (l : list A) (body : A -> M unit) : M unit :=
  match l with
  | [] => mret tt
  | x :: l' => _ ← body x; for_each l' body
  end.

Definition with_heap (s : State) (h : list DataFrame) : State :=
  mkState h (requests s) (uuids s) (written s).

(** A new frame object. *)
Definition df_new (d : DataFrame) : M ref := fun s =>
  (Ok (length (heap s)), with_heap s (heap s ++ [d])).

(** The current value of a frame object. *)
Definition df_get (r : ref) : M DataFrame := fun s => (Ok (heap s !!! r), s).

(** In-place update of a frame object. *)
Definition df_put (r : ref) (d : DataFrame) : M unit := fun s =>
  (Ok tt, with_heap s (<[r := d]> (heap s))).

(** [df.copy()] *)
Definition df_copy (r : ref) : M ref := d ← df_get r; df_new d.

(** [df[c] = vals] *)
Definition setitem (r : ref) (c : string) (vals : list cell) : M unit :=
  d ← df_get r; df_put r (set_column d c vals).

(** A library call that reads [r] and returns a new frame. *)
Definition df_call (f : DataFrame -> outcome DataFrame) (r : ref) : M ref :=
  d ← df_get r; d' ← lift (f d); df_new d'.

(** A library call that reads a column of [r]. *)
Definition series_call (f : list cell -> outcome (list cell)) (r : ref) (c : string)
  : M (list cell) :=
  d ← df_get r; lift (f (column d c)).

(** ** Python string operations *)

Definition newline : string := String (Ascii.ascii_of_nat 10) "".

(** [pat in s] *)
Fixpoint contains (pat s : string) : bool :=
  String.prefix pat s ||
  match s with
  | EmptyString => false
  | String _ s' => contains pat s'
  end.

(** [s.replace(old, new)] for a non-empty [old]: every occurrence, left to
    right; [skip] counts the characters of an occurrence still to pass. *)
Fixpoint replace_from (old new : string) (skip : nat) (s : string) : string :=
  match s with
  | EmptyString => EmptyString
  | String c s' =>
      match skip with
      | S k => replace_from old new k s'
      | O =>
          if String.prefix old s
          then new +:+ replace_from old new (String.length old - 1) s'
          else String c (replace_from old new 0 s')
      end
  end.

Definition replace_all (old new s : string) : string := replace_from old new 0 s.

(** [s.endswith(suffix)] *)
Definition endswith (s suffix : string) : bool :=
  String.prefix (String.rev suffix) (String.rev s).

(** [repr(s)] of a text: in single quotes, or in double quotes when the
    text has a single quote and no double quote; the quote, the backslash
    and the control characters are escaped.  The characters outside ASCII
    are taken for printable ones, which come as they are. *)
Definition hex_digit (n : nat) : string := String.substring n 1 "0123456789abcdef".

Definition escape_char (quote c : Ascii.ascii) : string :=
  let n := Ascii.nat_of_ascii c in
  if bool_decide (c = quote) || bool_decide (n = 92) then "\" +:+ String c ""
  else if bool_decide (n = 9) then "\t"
  else if bool_decide (n = 10) then "\n"
  else if bool_decide (n = 13) then "\r"
  else if (n <? 32) || bool_decide (n = 127)
  then "\x" +:+ hex_digit (n / 16) +:+ hex_digit (n mod 16)
  else String c "".

Fixpoint escaped (quote : Ascii.ascii) (s : string) : string :=
  match s with
  | EmptyString => EmptyString
  | String c s' => escape_char quote c +:+ escaped quote s'
  end.

Definition py_repr (s : string) : string :=
  let single := Ascii.ascii_of_nat 39 in
  let double := Ascii.ascii_of_nat 34 in
  let quote :=
    if contains (String single "") s && negb (contains (String double "") s)
    then double else single in
  String quote (escaped quote s) +:+ String quote "".

(** [s[:n]]: the first [n] characters. *)
Fixpoint str_take (n : nat) (s : string) : string :=
  match s with
  | EmptyString => EmptyString
  | String c s' =>
      if continuation c then String c (str_take n s')
      else match n with
           | O => EmptyString
           | S k => String c (str_take k s')
           end
  end.

(** * The operators *)

Section Operators.
Context `{Pandas} (w : World).

(** [series.astype(str)] *)
Definition astype_str (xs : list cell) : list cell :=
  (fun x => Str (py_str x)) <$> xs.

(** [df[c] = df[c].astype(str)] *)
Definition coerce_key_to_text (df : ref) (c : string) : M unit :=
  d ← df_get df; setitem df c (astype_str (column d c)).

(** ** Sources *)

(** The first stored file whose name starts with the mapped id. *)
Definition find_upload (config : Config) (file_mapping : gmap string string)
  : outcome string :=
  match as_str (config !! "file_id") with
  | Some file_id =>
      let mapped_id := default file_id (file_mapping !! file_id) in
      or_raise ("找不到文件: " +:+ file_id)
               (List.find (String.prefix mapped_id) (listdir w))
  | None =>
      match listdir w with
      | [] => Raise "找不到文件: None"
      | _ => Raise "TypeError: startswith first arg must be str"
      end
  end.

Definition _execute_source (config : Config) (file_mapping : gmap string string)
  : M ref :=
  f ← lift (find_upload config file_mapping);
  df ← lift (read_excel w f config);
  df_new df.

Definition _execute_source_csv (config : Config) (file_mapping : gmap string string)
  : M ref :=
  f ← lift (find_upload config file_mapping);
  df ← lift (read_csv w f config);
  df_new df.

(** ** Cleaning *)

Definition _execute_transform (df : ref) (config : Config) : M ref :=
  df ← df_copy df;
  (* filter *)
  df ← match as_name (config !! "filter_code") with
       | Some filter_expr => df_call (fun d => pd_query d filter_expr) df
       | None => mret df
       end;
  (* drop columns *)
  let drop_cols := as_names (config !! "drop_columns") in
  df ← (if bool_decide (drop_cols = []) then mret df
        else df_call (fun d => Ok (drop d (List.filter (has_column d) drop_cols))) df);
  (* calculated columns *)
  _ ← for_each (as_dicts (config !! "calculations")) (fun calc =>
        match as_name (calc !! "target"), as_name (calc !! "formula") with
        | Some target, Some formula =>
            try_except
              (d ← df_get df;
               v ← lift (pd_eval d formula);
               setitem df target v)
              (fun _ => mret tt)
        | _, _ => mret tt
        end);
  (* rename *)
  let rename_map := as_str_dict (config !! "rename_map") in
  df ← (if bool_decide (rename_map = []) then mret df
        else df_call (fun d => Ok (rename d rename_map)) df);
  (* select columns *)
  let selected_cols := as_names (config !! "selected_columns") in
  df ← (if bool_decide (selected_cols = []) then mret df
        else
          d ← df_get df;
          let cols_to_keep := List.filter (has_column d) selected_cols in
          if bool_decide (cols_to_keep = []) then mret df
          else df_call (fun d => select d cols_to_keep) df);
  (* sort *)
  let ascending := match config !! "sort_order" with
                   | None => true
                   | Some (PStr o) => bool_decide (o = "asc")
                   | Some _ => false
                   end in
  d ← df_get df;
  match as_name (config !! "sort_by") with
  | Some sort_by =>
      if has_column d sort_by
      then df_call (fun d => pd_sort_values d sort_by ascending) df
      else mret df
  | None => mret df
  end.

(** A statement under [try: ... except: pass]. *)
Definition attempt (m : M unit) : M unit := try_except m (fun _ => mret tt).

(** [col and dtype and col in df.columns]: the column the conversion is
    for, when the test holds.  The labels of a table are text, so a number
    is no column; a list or a dictionary cannot be looked up. *)
Definition conversion_column (d : DataFrame) (col dtype : pyval) : outcome (option string) :=
  if truthy col && truthy dtype then
    match col with
    | PStr c => Ok (if has_column d c then Some c else None)
    | PList _ | PDict _ => Raise ("unhashable type: '" +:+ type_name col +:+ "'")
    | _ => Ok None
    end
  else Ok None.

Definition _execute_type_convert (df : ref) (config : Config) : M ref :=
  df ← df_copy df;
  conversions ← lift (py_iter (default (PList []) (config !! "conversions")));
  _ ← for_each conversions (fun conv =>
        col ← lift (py_get conv "column");
        dtype ← lift (py_get conv "dtype");
        d ← df_get df;
        target ← lift (conversion_column d col dtype);
        match target with
        | Some col =>
            let dtype := as_str (Some dtype) in
            attempt
              (if bool_decide (dtype = Some "int") then
                 v ← series_call (fun s => pd_to_numeric s ≫= astype_Int64) df col;
                 setitem df col v
               else if bool_decide (dtype = Some "float") then
                 v ← series_call pd_to_numeric df col; setitem df col v
               else if bool_decide (dtype = Some "str") then
                 v ← series_call (fun s => Ok (astype_str s)) df col;
                 setitem df col v
               else if bool_decide (dtype = Some "datetime") then
                 v ← series_call pd_to_datetime df col; setitem df col v
               else if bool_decide (dtype = Some "bool") then
                 v ← series_call (fun s => Ok ((fun x => Bool (py_bool x)) <$> s)) df col;
                 setitem df col v
               else mret tt)
        | None => mret tt
        end);
  mret df.

(** [df[col]]: [KeyError] when the column does not exist. *)
Definition getitem (df : ref) (col : string) : M (list cell) :=
  d ← df_get df;
  if has_column d col then mret (column d col) else raise "KeyError".

(** [df[cols] = f(df[cols])]: the columns are written in place. *)
Definition update_columns (f : DataFrame -> outcome DataFrame) (df : ref) : M unit :=
  d ← df_get df; d' ← lift (f d); df_put df d'.

Definition _execute_fill_na (df : ref) (config : Config) : M ref :=
  df ← df_copy df;
  let strategy := match config !! "strategy" with
                  | None => Some "drop"
                  | v => as_str v
                  end in
  let columns_ := as_names (config !! "columns") in
  let fill_value := config !! "fill_value" in
  d ← df_get df;
  let target_cols := if bool_decide (columns_ = []) then columns d else columns_ in
  if bool_decide (strategy = Some "drop") then
    df_call (fun d => pd_dropna d target_cols) df
  else if bool_decide (strategy = Some "fill_value") then
    _ ← update_columns (fun d => pd_fillna d target_cols fill_value) df; mret df
  else if bool_decide (strategy = Some "ffill") then
    _ ← update_columns (fun d => pd_ffill d target_cols) df; mret df
  else if bool_decide (strategy = Some "bfill") then
    _ ← update_columns (fun d => pd_bfill d target_cols) df; mret df
  else if bool_decide (strategy = Some "mean") then
    _ ← for_each target_cols (fun col =>
          s ← getitem df col;
          if numeric_dtype s then setitem df col (fillna (series_mean s) s)
          else mret tt);
    mret df
  else if bool_decide (strategy = Some "median") then
    _ ← for_each target_cols (fun col =>
          s ← getitem df col;
          if numeric_dtype s then setitem df col (fillna (series_median s) s)
          else mret tt);
    mret df
  else mret df.

Definition _execute_deduplicate (df : ref) (config : Config) : M ref :=
  let subset := as_names (config !! "subset") in
  let keep := match config !! "keep" with
              | None => Some (PStr "first")
              | Some (PStr k) =>
                  if bool_decide (k = "false") then Some (PBool false)
                  else Some (PStr k)
              | v => v
              end in
  df_call (fun d => pd_drop_duplicates d
                      (if bool_decide (subset = []) then None else Some subset)
                      keep) df.

Definition _execute_text_process (df : ref) (config : Config) : M ref :=
  df ← df_copy df;
  let operation := as_str (config !! "operation") in
  let pattern := default "" (as_str (config !! "pattern")) in
  let replacement := default "" (as_str (config !! "replacement")) in
  d ← df_get df;
  match as_name (config !! "column") with
  | None => mret df
  | Some col =>
      if negb (has_column d col) then mret df
      else
        let texts := py_str <$> column d col in
        if bool_decide (operation = Some "trim") then
          _ ← setitem df col ((fun s => Str (str_strip s)) <$> texts); mret df
        else if bool_decide (operation = Some "lower") then
          _ ← setitem df col ((fun s => Str (str_lower s)) <$> texts); mret df
        else if bool_decide (operation = Some "upper") then
          _ ← setitem df col ((fun s => Str (str_upper s)) <$> texts); mret df
        else if bool_decide (operation = Some "replace") then
          v ← lift (str_replace pattern replacement (Str <$> texts));
          _ ← setitem df col v; mret df
        else if bool_decide (operation = Some "extract") then
          v ← lift (str_extract ("(" +:+ pattern +:+ ")") (Str <$> texts));
          _ ← setitem df (col +:+ "_extracted") v; mret df
        else mret df
  end.

(** The column suffix of each extract tag of [date_process]. *)
Definition date_suffix (ext : string) : option string :=
  if bool_decide (ext = "year") then Some "_年"
  else if bool_decide (ext = "month") then Some "_月"
  else if bool_decide (ext = "day") then Some "_日"
  else if bool_decide (ext = "weekday") then Some "_周几"
  else if bool_decide (ext = "quarter") then Some "_季度"
  else None.

Definition _execute_date_process (df : ref) (config : Config) : M ref :=
  df ← df_copy df;
  let extracts := as_names (config !! "extract") in
  let offset := default "" (as_str (config !! "offset")) in
  d ← df_get df;
  match as_name (config !! "column") with
  | None => mret df
  | Some col =>
      if negb (has_column d col) then mret df
      else
        v ← series_call pd_to_datetime df col;
        _ ← setitem df col v;
        _ ← for_each extracts (fun ext =>
              match date_suffix ext with
              | Some suffix =>
                  v ← series_call (dt_part ext) df col;
                  setitem df (col +:+ suffix) v
              | None => mret tt
              end);
        _ ← (if bool_decide (offset = "") then mret tt
             else v ← series_call (dt_shift offset) df col; setitem df col v);
        mret df
  end.

(** ** Analysis *)

(** [d[k] = v] on a dictionary that keeps insertion order. *)
Fixpoint dict_set (k v : string) (d : list (string * string)) : list (string * string) :=
  match d with
  | [] => [(k, v)]
  | (k', v') :: d' =>
      if bool_decide (k' = k) then (k, v) :: d' else (k', v') :: dict_set k v d'
  end.

Definition _execute_group_aggregate (df : ref) (config : Config) : M ref :=
  let group_by := as_name_or_names (config !! "group_by") in
  let aggregations := as_dicts (config !! "aggregations") in
  if bool_decide (group_by = []) then mret df
  else
    d ← df_get df;
    let picked :=
      foldl (fun acc agg =>
               match as_name (agg !! "column") with
               | Some col =>
                   let func := default "sum" (as_str (agg !! "func")) in
                   let alias := default (col +:+ "_" +:+ func) (as_str (agg !! "alias")) in
                   if has_column d col
                   then (dict_set col func acc.1, dict_set col alias acc.2)
                   else acc
               | None => acc
               end) ([], []) aggregations in
    let agg_dict := picked.1 in
    let rename_dict := picked.2 in
    if bool_decide (agg_dict = []) then
      df_call (fun d => pd_groupby_agg d group_by []) df
    else
      result ← df_call (fun d => pd_groupby_agg d group_by agg_dict) df;
      df_call (fun d => Ok (rename d rename_dict)) result.

Definition _execute_pivot (df : ref) (config : Config) : M ref :=
  let index := as_name_or_names (config !! "index") in
  let aggfunc := default "sum" (as_str (config !! "aggfunc")) in
  match as_name (config !! "columns"), as_name (config !! "values") with
  | Some columns_, Some values =>
      if bool_decide (index = []) then mret df
      else df_call (fun d => pd_pivot_table d index columns_ values aggfunc) df
  | _, _ => mret df
  end.

Definition _execute_unpivot (df : ref) (config : Config) : M ref :=
  let id_vars := as_names (config !! "id_vars") in
  let value_vars := as_names (config !! "value_vars") in
  let var_name := default "variable" (as_str (config !! "var_name")) in
  let value_name := default "value" (as_str (config !! "value_name")) in
  df_call (fun d => pd_melt d
                      (if bool_decide (id_vars = []) then None else Some id_vars)
                      (if bool_decide (value_vars = []) then None else Some value_vars)
                      var_name value_name) df.

(** ** Several tables *)

(** [str(list(df.columns))] *)
Definition repr_columns (d : DataFrame) : string :=
  "[" +:+ String.concat ", " (py_repr <$> columns d) +:+ "]".

(** [pd.merge] on two frame objects: a new frame. *)
Definition df_merge (df1 df2 : ref) (left_on right_on : list string) (how : string)
  : M ref :=
  d1 ← df_get df1; d2 ← df_get df2;
  d ← lift (merge d1 d2 left_on right_on how);
  df_new d.

(** [if l != r and r in result.columns: result = result.drop(columns=[r])] *)
Definition drop_right_key (l r : string) (result : ref) : M ref :=
  d ← df_get result;
  if negb (bool_decide (l = r)) && has_column d r
  then df_call (fun d => Ok (drop d [r])) result
  else mret result.

Fixpoint drop_right_keys (keys : list (string * string)) (result : ref) : M ref :=
  match keys with
  | [] => mret result
  | (l, r) :: keys' => result ← drop_right_key l r result; drop_right_keys keys' result
  end.

(** The check-and-coerce loop over the key columns of one side. *)
Definition coerce_keys (side : string) (df : ref) (keys : list string) : M unit :=
  for_each keys (fun col =>
    d ← df_get df;
    if negb (has_column d col)
    then raise ("Join失败: " +:+ side +:+ "中找不到关联列 '" +:+ col +:+ "'。现有列: "
                +:+ repr_columns d)
    else coerce_key_to_text df col).

Definition _execute_join (df1 df2 : ref) (config : Config) : M ref :=
  let how := match config !! "how" with
             | None => "inner"
             | Some (PStr h) => if bool_decide (h = "full_outer") then "outer" else h
             | Some _ => "?"
             end in
  let left_on := py_or (config !! "left_on") (config !! "on") in
  let right_on := py_or (config !! "right_on") (config !! "on") in
  if negb (bool_decide (as_name_or_names left_on = []))
     && negb (bool_decide (as_name_or_names right_on = []))
  then
    let left_on := as_name_or_names left_on in
    let right_on := as_name_or_names right_on in
    df1 ← df_copy df1;
    df2 ← df_copy df2;
    _ ← coerce_keys "左表" df1 left_on;
    _ ← coerce_keys "右表" df2 right_on;
    result ← df_merge df1 df2 left_on right_on how;
    drop_right_keys (zip left_on right_on) result
  else raise "Join节点必须指定关联键 (left_on/right_on 或 on)".

Definition _execute_concat (dfs : list ref) (config : Config) : M ref :=
  let join := default "outer" (as_str (config !! "join")) in
  let ignore_index := match config !! "ignore_index" with
                      | None => true
                      | Some v => truthy v
                      end in
  ds ← mapM df_get dfs;
  d ← lift (pd_concat ds join ignore_index);
  df_new d.

Definition _execute_vlookup (main_df lookup_df : ref) (config : Config) : M ref :=
  let left_key := as_name (py_or (config !! "left_key") (config !! "lookup_key")) in
  let right_key :=
    match as_name (py_or (config !! "right_key") (config !! "lookup_key")) with
    | Some k => Some k
    | None => left_key
    end in
  let return_columns :=
    as_names (py_or (config !! "columns_to_get") (config !! "return_columns")) in
  match left_key, right_key with
  | None, _ => raise "VLOOKUP必须指定主表关联列 (left_key 或 lookup_key)"
  | _, None => raise "VLOOKUP必须指定查找表关联列 (right_key 或 lookup_key)"
  | Some left_key, Some right_key =>
      main_df ← df_copy main_df;
      lookup_df ← df_copy lookup_df;
      main ← df_get main_df;
      lookup ← df_get lookup_df;
      if negb (has_column main left_key) then
        raise ("VLOOKUP失败: 主表中找不到关联列 '" +:+ left_key +:+ "'。现有列: "
               +:+ repr_columns main)
      else if negb (has_column lookup right_key) then
        raise ("VLOOKUP失败: 查找表中找不到关联列 '" +:+ right_key +:+ "'。现有列: "
               +:+ repr_columns lookup)
      else
        _ ← coerce_key_to_text main_df left_key;
        _ ← coerce_key_to_text lookup_df right_key;
        main ← df_get main_df;
        lookup ← df_get lookup_df;
        let valid_return_columns :=
          List.filter (fun c => has_column lookup c && negb (bool_decide (c = right_key)))
                      return_columns in
        let valid_return_columns :=
          if bool_decide (valid_return_columns = [])
          then List.filter (fun c => negb (bool_decide (c = right_key))
                                     && negb (has_column main c))
                           (columns lookup)
          else valid_return_columns in
        let cols_to_merge := right_key :: valid_return_columns in
        narrowed ← df_call (fun d => select d cols_to_merge) lookup_df;
        result ← df_merge main_df narrowed [left_key] [right_key] "left";
        drop_right_key left_key right_key result
  end.

Definition _execute_diff (df1 df2 : ref) (config : Config) : M ref :=
  d1 ← df_get df1; d2 ← df_get df2;
  let compare_columns := as_names (config !! "compare_columns") in
  let compare_columns :=
    if bool_decide (compare_columns = [])
    then List.filter (has_column d2) (columns d1)
    else compare_columns in
  k1 ← lift (select d1 compare_columns);
  k2 ← lift (select d2 compare_columns);
  let absent_from (ks : list (list cell)) (dk : DataFrame * DataFrame) : DataFrame :=
    mkDF (columns dk.1)
         (fst <$> List.filter (fun rk => negb (bool_decide (rk.2 ∈ ks)))
                              (zip (rows dk.1) (rows dk.2))) in
  only_in_df1 ← df_new (absent_from (rows k2) (d1, k1));
  only_in_df1 ← df_copy only_in_df1;
  o1 ← df_get only_in_df1;
  _ ← setitem only_in_df1 "_diff_status" (replicate (len o1) (Str "仅在表1"));
  only_in_df2 ← df_new (absent_from (rows k1) (d2, k2));
  only_in_df2 ← df_copy only_in_df2;
  o2 ← df_get only_in_df2;
  _ ← setitem only_in_df2 "_diff_status" (replicate (len o2) (Str "仅在表2"));
  _execute_concat [only_in_df1; only_in_df2] {[ "ignore_index" := PBool true ]}.

(** [float(x)] on a config value. *)
Definition py_float (v : pyval) : outcome Qc :=
  match v with
  | PNum q => Ok (nearest64 q)
  | PBool b => Ok (if b then 1%Qc else 0%Qc)
  | PStr s => float_of_text s
  | _ => Raise "TypeError: float() argument must be a string or a real number"
  end.

(** [x - y]: the difference of two integers is an integer; any other
    difference of numbers is the float64 difference of the two as float64;
    a null gives a null. *)
Definition cell_sub (x y : cell) : outcome cell :=
  match as_int x, as_int y with
  | Some a, Some b => Ok (Int (a - b))
  | _, _ =>
      a ← to_number x; b ← to_number y;
      Ok (match a, b with
          | Some a, Some b => float_sub a b
          | _, _ => NaN
          end)
  end.

(** [a - b] on two columns *)
Definition series_sub (a b : list cell) : outcome (list cell) :=
  mapM (fun xy : cell * cell => cell_sub xy.1 xy.2) (zip a b).

(** [abs(x)] *)
Definition cell_abs (x : cell) : outcome cell :=
  match as_int x with
  | Some a => Ok (Int (Z.abs a))
  | None => v ← to_number x; Ok (from_option (fun q => Num (Qcabs q)) NaN v)
  end.

(** [series.abs()] *)
Definition series_abs (a : list cell) : outcome (list cell) := mapM cell_abs a.

(** [x <= tolerance] and [x > tolerance] on a cell; both fail on a null. *)
Definition cell_le (tolerance : Qc) (x : cell) : bool :=
  match as_number x with
  | Some q => bool_decide (q <= tolerance)%Qc
  | None => false
  end.

Definition cell_gt (tolerance : Qc) (x : cell) : bool :=
  match as_number x with
  | Some q => bool_decide (tolerance < q)%Qc
  | None => false
  end.

(** The [0] of [series.fillna(0)]: a float64 column takes it as [0.0]. *)
Definition zero_of (xs : list cell) : cell :=
  if float64_column xs then Num 0%Qc else Int 0.

Definition verdict (tolerance : Qc) (x : cell) : cell :=
  if cell_le tolerance x then Str "✅ 一致" else Str "❌ 不一致".

(** Steps 5 to 7 of [_execute_reconcile], on the merged table: the
    difference, the verdict and the output mode. *)
Definition compare_amounts (merged : ref) (tolerance : Qc) (diff_only : bool) : M ref :=
  (* 5. difference *)
  a ← getitem merged "明细汇总金额";
  _ ← setitem merged "明细汇总金额" (fillna (zero_of a) a);
  b ← getitem merged "汇总表金额";
  _ ← setitem merged "汇总表金额" (fillna (zero_of b) b);
  a ← getitem merged "明细汇总金额";
  b ← getitem merged "汇总表金额";
  diff ← lift (series_sub a b);
  _ ← setitem merged "差额" diff;
  diff ← getitem merged "差额";
  absdiff ← lift (series_abs diff);
  _ ← setitem merged "差额绝对值" absdiff;
  (* 6. verdict *)
  absdiff ← getitem merged "差额绝对值";
  _ ← setitem merged "核算结果" (verdict tolerance <$> absdiff);
  (* 7. output mode *)
  result ← (if diff_only then
              absdiff ← getitem merged "差额绝对值";
              m ← df_get merged;
              kept ← df_new (mkDF (columns m)
                                  (mask_filter (cell_gt tolerance <$> absdiff) (rows m)));
              df_copy kept
            else df_copy merged);
  df_call (fun d => if has_column d "差额绝对值"
                    then Ok (drop d ["差额绝对值"])
                    else Raise "KeyError") result.

(** The key columns of both tables as text, key by key. *)
Definition coerce_join_keys (detail_grouped summary_renamed : ref) (join_keys : list string)
  : M unit :=
  for_each join_keys (fun key =>
    _ ← coerce_key_to_text detail_grouped key;
    coerce_key_to_text summary_renamed key).

(** The checks that every join key is a column of both tables. *)
Definition check_join_keys (detail summary : DataFrame) (join_keys : list string) : M unit :=
  for_each join_keys (fun key =>
    if negb (has_column detail key) then
      raise ("对账失败: 明细表中找不到关联列 '" +:+ key +:+ "'。现有列: "
             +:+ repr_columns detail)
    else if negb (has_column summary key) then
      raise ("对账失败: 汇总表中找不到关联列 '" +:+ key +:+ "'。现有列: "
             +:+ repr_columns summary)
    else mret tt).

Definition _execute_reconcile (detail_df summary_df : ref) (config : Config) : M ref :=
  let join_keys := py_or (config !! "join_keys") (config !! "detail_key") in
  let left_column := as_name (py_or (config !! "left_column") (config !! "detail_amount")) in
  let right_column := as_name (py_or (config !! "right_column") (config !! "summary_amount")) in
  let diff_only := match config !! "output_mode" with
                   | None => true
                   | Some (PStr m) => bool_decide (m = "diff_only")
                   | Some _ => false
                   end in
  tolerance ← lift (py_float (default (PNum 0%Qc) (config !! "tolerance")));
  match as_name_or_names join_keys, left_column, right_column with
  | [], _, _ => raise "对账核算必须指定关联键 (join_keys 或 detail_key)"
  | _, None, _ => raise "对账核算必须指定明细表金额列 (left_column 或 detail_amount)"
  | _, _, None => raise "对账核算必须指定汇总表金额列 (right_column 或 summary_amount)"
  | join_keys, Some left_column, Some right_column =>
      detail ← df_get detail_df;
      summary ← df_get summary_df;
      _ ← check_join_keys detail summary join_keys;
      if negb (has_column detail left_column) then
        raise ("对账失败: 明细表中找不到金额列 '" +:+ left_column +:+ "'。现有列: "
               +:+ repr_columns detail)
      else if negb (has_column summary right_column) then
        raise ("对账失败: 汇总表中找不到金额列 '" +:+ right_column +:+ "'。现有列: "
               +:+ repr_columns summary)
      else
        (* 1. group the detail and sum *)
        detail_grouped ← df_call (fun d => groupby_sum d join_keys left_column) detail_df;
        detail_grouped ← df_call (fun d => Ok (rename d [(left_column, "明细汇总金额")]))
                                 detail_grouped;
        (* 2. the summary: keys and amount only *)
        let summary_cols := join_keys ++ [right_column] in
        summary_renamed ← df_call (fun d => select d summary_cols) summary_df;
        summary_renamed ← df_copy summary_renamed;
        summary_renamed ← df_call (fun d => Ok (rename d [(right_column, "汇总表金额")]))
                                  summary_renamed;
        (* 3. keys as text *)
        _ ← coerce_join_keys detail_grouped summary_renamed join_keys;
        (* 4. merge *)
        merged ← df_merge detail_grouped summary_renamed join_keys join_keys "outer";
        (* 5. to 7. *)
        compare_amounts merged tolerance diff_only
  end.

(** ** Scripted node and LLM node *)

Definition _execute_code (input_dfs : list ref) (config : Config) : M ref :=
  match as_name (config !! "python_code") with
  | None => raise "代码节点内容为空"
  | Some code => fun s =>
      let '(o, h) := py_exec w code input_dfs (heap s) in
      match o with
      | Ok (Some result) => (Ok result, with_heap s h)
      | Ok None => (Raise "代码节点必须将结果DataFrame赋值给 'result' 变量", with_heap s h)
      | Raise e => (Raise e, with_heap s h)
      end
  end.

(** One chat-completion request.  Every failure of the request comes back
    as text; only the imports are outside the [try]. *)
Definition _simple_ai_call (prompt : string) : M string :=
  _ ← lift (import_httpx w);
  ((fun s =>
    let s' := mkState (heap s) (requests s ++ [prompt]) (uuids s) (written s) in
    match http_post w (length (requests s)) prompt with
    | HttpResponse status text content =>
        if bool_decide (status = 200%Z) then
          match content with
          | Ok result => (Ok result, s')
          | Raise e => (Ok ("调用失败: " +:+ e), s')
          end
        else (Ok ("AI调用失败: HTTP " +:+ pretty status +:+ " - " +:+ str_take 200 text), s')
    | HttpException msg => (Ok ("调用失败: " +:+ msg), s')
    end) : M string).

Definition placeholder (col : string) : string := "{{" +:+ col +:+ "}}".

(** The prompt sent for one row. *)
Definition row_prompt (d : DataFrame) (prompt_template : string) (row : list cell)
  : string :=
  let value (col : string) : string :=
    match index_of col (columns d) with
    | Some i => py_str (row !!! i)
    | None => ""
    end in
  let substituted :=
    foldl (fun p col =>
             if contains (placeholder col) p
             then replace_all (placeholder col) (value col) p
             else p)
          prompt_template (columns d) in
  let has_placeholder :=
    existsb (fun col => contains (placeholder col) prompt_template) (columns d) in
  if has_placeholder then substituted
  else
    let row_data_str :=
      String.concat newline ((fun col => "- " +:+ col +:+ ": " +:+ value col) <$> columns d) in
    prompt_template +:+ newline +:+ newline +:+ "当前数据行:" +:+ newline +:+ row_data_str.

(** The loop over the rows: one request per row, in order; an exception
    of a request becomes the text of that row. *)
Fixpoint ask_rows (d : DataFrame) (prompt_template : string) (rs : list (list cell))
  : M (list cell) :=
  match rs with
  | [] => mret []
  | row :: rs' =>
      ai_resp ← try_except (_simple_ai_call (row_prompt d prompt_template row))
                           (fun e => mret ("Error: " +:+ e));
      results ← ask_rows d prompt_template rs';
      mret (Str ai_resp :: results)
  end.

(** [df.iterrows()]: every row comes as a Series, whose dtype is the
    common dtype of the columns.  When every column is int64 or float64 and
    one is float64, that is float64, and the integers of the row come as
    floats. *)
Definition iterrows (d : DataFrame) (rs : list (list cell)) : list (list cell) :=
  let dtypes := imap (fun j (_ : string) => column_at j (rows d)) (columns d) in
  if forallb (fun xs => int64_column xs || float64_column xs) dtypes
     && negb (forallb int64_column dtypes)
  then (fun r : list cell => widen <$> r) <$> rs
  else rs.

Definition _execute_ai_agent (df : ref) (config : Config) : M ref :=
  let prompt_template := default "" (as_str (config !! "prompt")) in
  let target_column := default "AI_Result" (as_str (config !! "target_column")) in
  if bool_decide (prompt_template = "") then raise "AI节点必须包含Prompt配置"
  else
    d ← df_get df;
    let limit := min (len d) 20 in
    df_head ← df_new (frame_head d limit);
    df_head ← df_copy df_head;
    h ← df_get df_head;
    results ← ask_rows d prompt_template (iterrows d (rows h));
    _ ← setitem df_head target_column results;
    mret df_head.

(** ** The dispatcher *)

Definition unary (op : ref -> Config -> M ref) (config : Config) (input_dfs : list ref)
  : M (option ref) :=
  match input_dfs with
  | [] => mret None
  | df :: _ => r ← op df config; mret (Some r)
  end.

Definition binary (msg : string) (op : ref -> ref -> Config -> M ref)
    (config : Config) (input_dfs : list ref) : M (option ref) :=
  match input_dfs with
  | df1 :: df2 :: _ => r ← op df1 df2 config; mret (Some r)
  | _ => raise msg
  end.

Definition _execute_node_by_type (node_type : option string) (config : Config)
    (input_dfs : list ref) (file_mapping : gmap string string) : M (option ref) :=
  match node_type with
  | None => mret None
  | Some t =>
      if bool_decide (t = "source") then
        r ← _execute_source config file_mapping; mret (Some r)
      else if bool_decide (t = "source_csv") then
        r ← _execute_source_csv config file_mapping; mret (Some r)
      else if bool_decide (t = "transform") then unary _execute_transform config input_dfs
      else if bool_decide (t = "type_convert") then unary _execute_type_convert config input_dfs
      else if bool_decide (t = "fill_na") then unary _execute_fill_na config input_dfs
      else if bool_decide (t = "deduplicate") then unary _execute_deduplicate config input_dfs
      else if bool_decide (t = "text_process") then unary _execute_text_process config input_dfs
      else if bool_decide (t = "date_process") then unary _execute_date_process config input_dfs
      else if bool_decide (t = "group_aggregate") then
        unary _execute_group_aggregate config input_dfs
      else if bool_decide (t = "pivot") then unary _execute_pivot config input_dfs
      else if bool_decide (t = "unpivot") then unary _execute_unpivot config input_dfs
      else if bool_decide (t = "join") then
        binary "合并节点需要至少两个输入" _execute_join config input_dfs
      else if bool_decide (t = "concat") then
        match input_dfs with
        | [] => mret None
        | _ => r ← _execute_concat input_dfs config; mret (Some r)
        end
      else if bool_decide (t = "vlookup") then
        binary "VLOOKUP需要两个输入" _execute_vlookup config input_dfs
      else if bool_decide (t = "diff") then
        binary "对比需要两个输入" _execute_diff config input_dfs
      else if bool_decide (t = "reconcile") then
        binary "对账核算需要两个输入：明细表和汇总表" _execute_reconcile config input_dfs
      else if bool_decide (t = "code") then
        r ← _execute_code input_dfs config; mret (Some r)
      else if bool_decide (t = "ai_agent") then unary _execute_ai_agent config input_dfs
      else if bool_decide (t = "output") || bool_decide (t = "output_csv") then
        mret (head input_dfs)
      else mret None
  end.

(** ** The output sink *)

Definition _save_output (df : ref) (config : Config) (node_type : option string)
  : M string := fun s =>
  let generated := "output_" +:+ uuid4_hex8 w (uuids s) in
  let s := mkState (heap s) (requests s) (S (uuids s)) (written s) in
  match (match config !! "filename" with
         | None => Some generated
         | v => as_str v
         end) with
  | None => (Raise "AttributeError: object has no attribute 'endswith'", s)
  | Some filename =>
      let ext := if bool_decide (node_type = Some "output_csv") then ".csv" else ".xlsx" in
      let filename := if endswith filename ext then filename else filename +:+ ext in
      match write_file w filename (heap s !!! df) with
      | Ok _ =>
          (Ok filename,
           mkState (heap s) (requests s) (uuids s)
                   (written s ++ [(filename, heap s !!! df)]))
      | Raise e => (Raise e, s)
      end
  end.
End Operators.

(** * The runner *)

(** ** Graph documents *)

Record NodeData : Type := mkNodeData {
  type : option string;
  label : option string;
  config : option Config
}.

(** A node is its [id] and either its own [type]/[label]/[config] or, in the
    editor's format, the ones under its [data] key. *)
Record Node : Type := mkNode {
  id : string;
  data : option NodeData;
  own : NodeData
}.

Record Edge : Type := mkEdge {
  source : string;
  target : string
}.

Record Workflow : Type := mkWorkflow {
  nodes : list Node;
  edges : list Edge
}.

(** ** Run reports *)

Record Table : Type := mkTable {
  table_columns : list string;
  table_data : list (list (string * cell));
  total_rows : nat
}.

Inductive NodeResult : Type :=
  | ResultTable (t : Table)
  | ResultError (error : string).

Record Report : Type := mkReport {
  success : bool;
  error : option string;
  output_file : option string;
  preview : option Table;
  logs : list string;
  node_status : gmap string string;
  node_results : gmap string NodeResult
}.

(** ** Topological order *)

Abbreviation Adj := (gmap string (list string)).
Abbreviation InDegree := (gmap string Z).

(** [adj = {node['id']: [] for node in nodes}] and the like. *)
Definition dict_of_nodes {A} (f : Node -> A) (ns : list Node) : gmap string A :=
  foldl (fun m n => <[id n := f n]> m) ∅ ns.

(** One edge of the loop that fills [adj] and [in_degree]. *)
Definition add_edge (g : Adj * InDegree) (edge : Edge) : Adj * InDegree :=
  if bool_decide (is_Some (g.1 !! source edge)) && bool_decide (is_Some (g.2 !! target edge))
  then (<[source edge := g.1 !!! source edge ++ [target edge]]> g.1,
        <[target edge := (g.2 !!! target edge + 1)%Z]> g.2)
  else g.

Definition build_graph (wf : Workflow) : Adj * InDegree :=
  foldl add_edge (dict_of_nodes (fun _ => []) (nodes wf),
                  dict_of_nodes (fun _ => 0%Z) (nodes wf))
        (edges wf).

(** One neighbour of the inner loop of the sort. *)
Definition relax (st : InDegree * list string) (neighbor : string)
  : InDegree * list string :=
  let in_degree := <[neighbor := (st.1 !!! neighbor - 1)%Z]> st.1 in
  if bool_decide (in_degree !!! neighbor = 0%Z)
  then (in_degree, st.2 ++ [neighbor])
  else (in_degree, st.2).

(** The [while queue:] loop, at most [fuel] rounds. *)
Fixpoint kahn (fuel : nat) (adj : Adj) (in_degree : InDegree)
    (queue execution_order : list string) : list string :=
  match fuel, queue with
  | S fuel', node_id :: queue' =>
      let st := foldl relax (in_degree, queue') (adj !!! node_id) in
      kahn fuel' adj st.1 st.2 (execution_order ++ [node_id])
  | _, _ => execution_order
  end.

Definition initial_queue (wf : Workflow) (in_degree : InDegree) : list string :=
  id <$> List.filter (fun n => bool_decide (in_degree !!! id n = 0%Z)) (nodes wf).

(** Every round either empties the queue by one or zeroes the in-degree of
    a node, so twice the number of nodes is fuel enough. *)
Definition execution_order (wf : Workflow) : list string :=
  let g := build_graph wf in
  kahn (2 * length (nodes wf)) g.1 g.2 (initial_queue wf g.2) [].

(** ** The state of a run *)

(** The locals of [execute_workflow] and its [WorkflowContext], next to the
    heap the operators work on. *)
Record Run : Type := mkRun {
  store : State;
  ctx_results : gmap string ref;        (** [context._results] *)
  ctx_logs : list string;               (** [context._logs] *)
  cur_status : gmap string string;      (** [node_status] *)
  cur_results : gmap string NodeResult; (** [node_results] *)
  cur_output_file : option string;      (** [output_file] *)
  final_preview : option Table          (** [final_preview] *)
}.

Definition set_store (s : State) (r : Run) : Run :=
  mkRun s (ctx_results r) (ctx_logs r) (cur_status r) (cur_results r)
        (cur_output_file r) (final_preview r).

(** [context.set_result(node_id, df)] *)
Definition set_result (node_id : string) (df : ref) (r : Run) : Run :=
  mkRun (store r) (<[node_id := df]> (ctx_results r)) (ctx_logs r) (cur_status r)
        (cur_results r) (cur_output_file r) (final_preview r).

(** [node_status[node_id] = st] *)
Definition set_status (node_id st : string) (r : Run) : Run :=
  mkRun (store r) (ctx_results r) (ctx_logs r) (<[node_id := st]> (cur_status r))
        (cur_results r) (cur_output_file r) (final_preview r).

(** [node_results[node_id] = res] *)
Definition set_node_result (node_id : string) (res : NodeResult) (r : Run) : Run :=
  mkRun (store r) (ctx_results r) (ctx_logs r) (cur_status r)
        (<[node_id := res]> (cur_results r)) (cur_output_file r) (final_preview r).

Definition set_output (f : string) (p : Table) (r : Run) : Run :=
  mkRun (store r) (ctx_results r) (ctx_logs r) (cur_status r) (cur_results r)
        (Some f) (Some p).

(** The table shown for a frame: all rows, or the first [n]. *)
Definition table_of (d : DataFrame) (shown : DataFrame) : Table :=
  mkTable (columns d) (to_records shown) (len d).

Section Runner.
Context `{Pandas} (w : World).

(** [context.log(message)]: the entry carries the wall-clock time. *)
Definition log (message : string) (r : Run) : Run :=
  mkRun (store r) (ctx_results r)
        (ctx_logs r ++ ["[" +:+ now w (length (ctx_logs r)) +:+ "] " +:+ message])
        (cur_status r) (cur_results r) (cur_output_file r) (final_preview r).

Definition node_data (node : Node) : NodeData := default (own node) (data node).

(** [node_data.get('label', node_type)] inside an f-string *)
Definition node_label (node : Node) : string :=
  match label (node_data node) with
  | Some l => l
  | None => default "None" (type (node_data node))
  end.

(** The frames of the upstream nodes that have a result, in the order of
    the edges in the document. *)
Definition collect_inputs (es : list Edge) (node_id : string) (r : Run) : list ref :=
  omap (fun edge =>
          if bool_decide (target edge = node_id)
          then ctx_results r !! source edge
          else None) es.

(** The [except Exception as node_error:] branch. *)
Definition node_failed (node_id : string) (node : Node) (e : string) (r : Run) : Run :=
  log ("节点 " +:+ node_label node +:+ " 执行失败: " +:+ e)
      (set_node_result node_id (ResultError e) (set_status node_id "error" r)).

(** One round of the [for node_id in execution_order:] loop.  The second
    component is the exception the round re-raises, if any. *)
Definition execute_node (wf : Workflow) (file_mapping : gmap string string)
    (node_id : string) (node : Node) (r : Run) : Run * option string :=
  let node_type := type (node_data node) in
  let node_config := default ∅ (config (node_data node)) in
  let r := log ("开始执行节点: " +:+ node_label node +:+ " (" +:+ node_id +:+ ")") r in
  let input_dfs := collect_inputs (edges wf) node_id r in
  match _execute_node_by_type w node_type node_config input_dfs file_mapping (store r) with
  | (Raise e, s) => (node_failed node_id node e (set_store s r), Some e)
  | (Ok None, s) => (set_status node_id "success" (set_store s r), None)
  | (Ok (Some result_df), s) =>
      let d := heap s !!! result_df in
      let r := set_result node_id result_df (set_store s r) in
      let r := log ("节点 " +:+ node_label node +:+ " 执行成功，输出 "
                    +:+ pretty (len d) +:+ " 行数据") r in
      let r := set_status node_id "success" r in
      let r := set_node_result node_id (ResultTable (table_of d d)) r in
      if bool_decide (node_type = Some "output") || bool_decide (node_type = Some "output_csv")
      then
        match _save_output w result_df node_config node_type (store r) with
        | (Ok f, s) =>
            (set_output f (table_of d (frame_head d 100)) (set_store s r), None)
        | (Raise e, s) => (node_failed node_id node e (set_store s r), Some e)
        end
      else (r, None)
  end.

Fixpoint run_nodes (wf : Workflow) (file_mapping : gmap string string)
    (node_map : gmap string Node) (order : list string) (r : Run)
  : Run * option string :=
  match order with
  | [] => (r, None)
  | node_id :: order' =>
      match node_map !! node_id with
      | None => run_nodes wf file_mapping node_map order' r
      | Some node =>
          match execute_node wf file_mapping node_id node r with
          | (r', None) => run_nodes wf file_mapping node_map order' r'
          | (r', Some e) => (r', Some e)
          end
      end
  end.

Definition initial_run (wf : Workflow) : Run :=
  mkRun (mkState [] [] 0 []) ∅ [] (dict_of_nodes (fun _ => "pending") (nodes wf)) ∅
        None None.

(** The run up to the point where the report is built. *)
Definition run_workflow (wf : Workflow) (file_mapping : gmap string string)
  : Run * option string :=
  run_nodes wf file_mapping (dict_of_nodes (fun n => n) (nodes wf))
            (execution_order wf) (initial_run wf).

Definition execute_workflow (workflow_config : Workflow)
    (file_mapping : gmap string string) : Report :=
  match run_workflow workflow_config file_mapping with
  | (r, None) =>
      mkReport true None (cur_output_file r) (final_preview r) (ctx_logs r)
               (cur_status r) (cur_results r)
  | (r, Some e) =>
      mkReport false (Some e) None None (ctx_logs r) (cur_status r) (cur_results r)
  end.
End Runner.

(** * A concrete platform

    An instance of the library interface and a world, to run the engine on
    examples.  Text coercion prints integers in decimal and floats as
    Python does; the calls whose result the interface leaves open raise
    here. *)

(** [repr] of a positive float: the shortest decimal that reads back as
    the float, in positional notation when the decimal point is within
    the first 16 digits or among at most three leading zeros, and in
    scientific notation otherwise. *)

(** [m * 10 ^ s] as a number. *)
Definition scale10 (m s : Z) : Qc :=
  Q2Qc (if (0 <=? s)%Z then inject_Z (m * 10 ^ s) else m # Z.to_pos (10 ^ (- s))).

(** The largest [e] with [10 ^ e <= q], for [0 < q], searched upwards from
    [e]. *)
Fixpoint exponent10 (fuel : nat) (q : Qc) (e : Z) : Z :=
  match fuel with
  | O => e
  | S fuel' =>
      if bool_decide (scale10 1 (e + 1) <= q)%Qc then exponent10 fuel' q (e + 1)%Z else e
  end.

(** The integer nearest to [q], ties to the even one. *)
Definition round_half_even (q : Qc) : Z :=
  let n := Qnum q in
  let d := Zpos (Qden q) in
  let f := (n / d)%Z in
  let r := (n mod d)%Z in
  if (2 * r <? d)%Z then f
  else if (d <? 2 * r)%Z then (f + 1)%Z
  else if Z.even f then f else (f + 1)%Z.

(** The digits [m] and the scale [s] of the shortest decimal [m / 10 ^ s]
    with at least [p] digits that reads back as [q]. *)
Fixpoint shortest_digits (fuel : nat) (q : Qc) (e : Z) (p : Z) : Z * Z :=
  let s := (p - 1 - e)%Z in
  let m := round_half_even (q * scale10 1 s)%Qc in
  match fuel with
  | O => (m, s)
  | S fuel' =>
      if bool_decide (nearest64 (scale10 m (- s)) = q) then (m, s)
      else shortest_digits fuel' q e (p + 1)%Z
  end.

Definition zeros (n : Z) : string := String.concat "" (replicate (Z.to_nat n) "0").

Definition positive_repr (q : Qc) : string :=
  let lg := (Z.log2 (Qnum q) - Z.log2 (Zpos (Qden q)))%Z in
  let e := exponent10 8 q ((lg - 1) * 30102 / 100000 - 2) in
  let '(m, s) := shortest_digits 16 q e 1 in
  let ds := pretty m in
  let n := Z.of_nat (String.length ds) in
  let decpt := (n - s)%Z in
  if ((decpt <=? -4) || (16 <? decpt))%Z then
    let x := (decpt - 1)%Z in
    String.substring 0 1 ds
    +:+ (if (1 <? n)%Z then "." +:+ String.substring 1 (String.length ds - 1) ds else "")
    +:+ "e" +:+ (if (x <? 0)%Z then "-" else "+")
    +:+ (if (Z.abs x <? 10)%Z then "0" else "") +:+ pretty (Z.abs x)
  else if (decpt <=? 0)%Z then "0." +:+ zeros (- decpt) +:+ ds
  else if (n <=? decpt)%Z then ds +:+ zeros (decpt - n) +:+ ".0"
  else String.substring 0 (Z.to_nat decpt) ds +:+ "."
       +:+ String.substring (Z.to_nat decpt) (String.length ds - Z.to_nat decpt) ds.

(** [repr(x)] of a float, which is [str(x)]. *)
Definition float_repr (q : Qc) : string :=
  if bool_decide (q = 0%Qc) then "0.0"
  else if bool_decide (q < 0)%Qc then "-" +:+ positive_repr (- q)%Qc
  else positive_repr q.

Definition demo_str (x : cell) : string :=
  match x with
  | NaN => "nan"
  | Int z => pretty z
  | Num q => float_repr q
  | Str s => s
  | Bool b => if b then "True" else "False"
  | Time t => pretty t
  end.

Definition unavailable {A} : outcome A := Raise "unavailable".

(** The sum of floats with a running compensation. *)
Definition kahan_sum (qs : list Qc) : Qc :=
  let step (acc : spec_float * spec_float) (q : Qc) :=
    let y := SFsub 53 1024 (float_of_Qc q) acc.2 in
    let t := SFadd 53 1024 acc.1 y in
    (t, SFsub 53 1024 (SFsub 53 1024 t acc.1) y) in
  default 0%Qc (Qc_of_float (foldl step (S754_zero false, S754_zero false) qs).1).

#[local] Instance demo_pandas : Pandas := {|
  py_str := demo_str;
  float_of_text := fun _ => unavailable;
  pd_query := fun _ _ => unavailable;
  pd_eval := fun _ _ => unavailable;
  pd_sort_values := fun _ _ _ => unavailable;
  pd_to_numeric := fun _ => unavailable;
  astype_Int64 := fun _ => unavailable;
  pd_to_datetime := fun _ => unavailable;
  pd_dropna := fun _ _ => unavailable;
  pd_fillna := fun _ _ _ => unavailable;
  pd_ffill := fun _ _ => unavailable;
  pd_bfill := fun _ _ => unavailable;
  numeric_dtype := fun _ => false;
  series_mean := fun _ => NaN;
  series_median := fun _ => NaN;
  pd_drop_duplicates := fun _ _ _ => unavailable;
  str_strip := fun s => s;
  str_lower := fun s => s;
  str_upper := fun s => s;
  str_replace := fun _ _ _ => unavailable;
  str_extract := fun _ _ => unavailable;
  dt_part := fun _ _ => unavailable;
  dt_shift := fun _ _ => unavailable;
  pd_groupby_agg := fun _ _ _ => unavailable;
  pd_pivot_table := fun _ _ _ _ _ => unavailable;
  pd_melt := fun _ _ _ _ _ => unavailable;
  pd_concat := fun _ _ _ => unavailable;
  float_sum := kahan_sum
|}.

(** An integer cell. *)
Definition int (n : Z) : cell := Int n.

(** A float cell: the float64 nearest to [n / d]. *)
Definition dec (n : Z) (d : positive) : cell := round64 (Q2Qc (n # d)).

(** A world with one stored spreadsheet, a clock that reads [clock k] at
    the k-th log entry, and a chat endpoint that answers every prompt. *)
Definition demo_world (clock : nat -> string) (sheet : DataFrame) : World := {|
  now := clock;
  uuid4_hex8 := fun k => "0000000" +:+ pretty k;
  listdir := ["book.xlsx"];
  read_excel := fun _ _ => Ok sheet;
  read_csv := fun _ _ => Ok sheet;
  write_file := fun _ _ => Ok tt;
  import_httpx := Ok tt;
  http_post := fun k prompt => HttpResponse 200 "" (Ok ("reply " +:+ pretty k));
  py_exec := fun _ _ h => (Raise "code nodes are disabled", h)
|}.

Definition noon (k : nat) : string := "12:00:00".
Definition midnight (k : nat) : string := "00:00:00".

(** Run an operator on frame values: the inputs are placed on a fresh heap
    and the value of the result is read back. *)
Definition empty_state : State := mkState [] [] 0 [].

Definition on_frames (inputs : list DataFrame) (op : list ref -> M ref)
  : outcome DataFrame * State :=
  let s := mkState inputs [] 0 [] in
  match op (seq 0 (length inputs)) s with
  | (Ok r, s') => (Ok (heap s' !!! r), s')
  | (Raise e, s') => (Raise e, s')
  end.

(** A spreadsheet source followed by a transform that only sorts. *)
Definition source_then_sort (source_config : Config) (sort_by : string) : Workflow :=
  mkWorkflow
    [mkNode "source" None (mkNodeData (Some "source") None (Some source_config));
     mkNode "sort" None
            (mkNodeData (Some "transform") None (Some {[ "sort_by" := PStr sort_by ]}))]
    [mkEdge "source" "sort"].

(** ** Example documents and tables *)

Definition demo_sheet : DataFrame :=
  mkDF ["sku"; "qty"] [[Str "b"; int 2]; [Str "a"; int 1]].

Definition book_config : Config := {[ "file_id" := PStr "book" ]}.

Definition source_node : Node :=
  mkNode "source" None (mkNodeData (Some "source") None (Some book_config)).

(** A source feeding a join that has no second input. *)
Definition source_then_join : Workflow :=
  mkWorkflow [source_node; mkNode "join" None (mkNodeData (Some "join") None None)]
             [mkEdge "source" "join"].

(** A source, an edge from a node that is not declared, and two transforms
    on a cycle. *)
Definition ghost_and_cycle : Workflow :=
  mkWorkflow
    [source_node;
     mkNode "b" None (mkNodeData (Some "transform") None None);
     mkNode "c" None (mkNodeData (Some "transform") None None)]
    [mkEdge "ghost" "source"; mkEdge "b" "c"; mkEdge "c" "b"].

(** A node of a type the dispatcher has no branch for. *)
Definition mystery_node : Node :=
  mkNode "x" None (mkNodeData (Some "mystery") None None).

Definition source_then_mystery : Workflow :=
  mkWorkflow [source_node; mystery_node] [mkEdge "source" "x"].

(** A source feeding an output node. *)
Definition source_then_output (output_config : Config) : Workflow :=
  mkWorkflow
    [source_node; mkNode "out" None (mkNodeData (Some "output") None (Some output_config))]
    [mkEdge "source" "out"].

(** A world whose chat endpoint cannot be reached. *)
Definition offline_world : World := {|
  now := noon;
  uuid4_hex8 := fun k => "0000000" +:+ pretty k;
  listdir := ["book.xlsx"];
  read_excel := fun _ _ => Ok demo_sheet;
  read_csv := fun _ _ => Ok demo_sheet;
  write_file := fun _ _ => Ok tt;
  import_httpx := Ok tt;
  http_post := fun _ _ => HttpException "connection refused";
  py_exec := fun _ _ h => (Raise "code nodes are disabled", h)
|}.

(** The tables of the vlookup example of the specification, and a lookup
    table in which a key occurs twice. *)
Definition skus : DataFrame := mkDF ["sku"] [[int 1]; [int 2]; [int 3]].

Definition names : DataFrame :=
  mkDF ["sku"; "name"] [[int 1; Str "x"]; [int 2; Str "y"]].

Definition names_twice : DataFrame :=
  mkDF ["sku"; "name"] [[int 1; Str "x"]; [int 1; Str "y"]].

Definition name_by_sku : Config :=
  {[ "left_key" := PStr "sku"; "right_key" := PStr "sku";
     "columns_to_get" := PList [PStr "name"] ]}.

(** Detail lines, and the summary that agrees with their totals. *)
Definition detail_lines : DataFrame :=
  mkDF ["dept"; "amount"]
       [[Str "a"; int 1]; [Str "b"; int 5]; [Str "a"; int 2]].

Definition summary_lines : DataFrame :=
  mkDF ["dept"; "total"] [[Str "a"; int 3]; [Str "b"; int 5]].

Definition totals_by_dept : Config :=
  {[ "join_keys" := PList [PStr "dept"]; "left_column" := PStr "amount";
     "right_column" := PStr "total" ]}.

(** A ledger kept under integer codes and its totals under the same
    codes as floats; a ledger with the code 1001 once as a number and once
    as text, and its totals. *)
Definition ledger : DataFrame := mkDF ["code"; "amount"] [[int 1001; int 5]].

Definition ledger_totals : DataFrame := mkDF ["code"; "total"] [[dec 1001 1; int 5]].

Definition mixed_ledger : DataFrame :=
  mkDF ["code"; "amount"] [[int 1001; int 5]; [Str "1001"; int 7]].

Definition mixed_totals : DataFrame :=
  mkDF ["code"; "total"] [[int 1001; int 5]; [Str "1001"; int 7]].

Definition totals_by_code : Config :=
  {[ "join_keys" := PList [PStr "code"]; "left_column" := PStr "amount";
     "right_column" := PStr "total" ]}.

(** The tables of the specification's example of reconciling with a
    tolerance. *)
Definition detail_m : DataFrame :=
  mkDF ["m"; "a"] [[Str "A"; int 10]; [Str "A"; int 20]; [Str "B"; int 5]].

Definition summary_m : DataFrame :=
  mkDF ["m"; "s"] [[Str "A"; dec 29995 1000]; [Str "B"; dec 5 1]].

Definition reconcile_m (output_mode : string) : Config :=
  {[ "join_keys" := PList [PStr "m"]; "left_column" := PStr "a";
     "right_column" := PStr "s"; "tolerance" := PNum (Q2Qc (1 # 100));
     "output_mode" := PStr output_mode ]}.

(** * Vocabulary of the statements *)

(** The node types the dispatcher has a branch for. *)
Definition recognized : list string :=
  ["source"; "source_csv"; "transform"; "type_convert"; "fill_na"; "deduplicate";
   "text_process"; "date_process"; "group_aggregate"; "pivot"; "unpivot"; "join";
   "concat"; "vlookup"; "diff"; "reconcile"; "code"; "ai_agent"; "output";
   "output_csv"].

Definition recognized_type (node_type : option string) : bool :=
  match node_type with
  | Some t => bool_decide (t ∈ recognized)
  | None => false
  end.

(** The log line that opens the round of a node. *)
Definition start_message (node_label node_id : string) : string :=
  "开始执行节点: " +:+ node_label +:+ " (" +:+ node_id +:+ ")".

(** A node id is declared when a node of the document carries it; an edge
    counts in the graph when both its ends are declared. *)
Definition declared (ns : list Node) (k : string) : Prop := k ∈ id <$> ns.

#[global] Instance declared_dec ns k : Decision (declared ns k).
Proof. unfold declared. apply _. Defined.

Definition valid_edge (ns : list Node) (e : Edge) : bool :=
  bool_decide (declared ns (source e)) && bool_decide (declared ns (target e)).

(** The targets of the counted edges that leave [u], in document order, and
    the number of counted edges that enter [v]. *)
Definition successors (ns : list Node) (es : list Edge) (u : string) : list string :=
  target <$> List.filter (fun e => valid_edge ns e && bool_decide (source e = u)) es.

Definition in_count (ns : list Node) (es : list Edge) (v : string) : nat :=
  length (List.filter (fun e => valid_edge ns e && bool_decide (target e = v)) es).

(** Occurrences of [v] in a list of node ids. *)
Definition occ (v : string) (l : list string) : nat :=
  length (List.filter (fun x => bool_decide (x = v)) l).

(** The counted edges into [v] whose source is not in [order]. *)
Definition remaining (ns : list Node) (es : list Edge) (order : list string) (v : string)
  : nat :=
  length (List.filter (fun e => valid_edge ns e && bool_decide (target e = v)
                                && negb (bool_decide (source e ∈ order))) es).

(** The nodes whose in-degree is still positive, among [vs]. *)
Definition positive_in (in_degree : InDegree) (vs : list string) : nat :=
  length (List.filter (fun v => bool_decide (0 < in_degree !!! v)%Z) vs).

(** [reach u v]: a non-empty path of counted edges from [u] to [v]. *)
Inductive reach (ns : list Node) (es : list Edge) (u : string) : string -> Prop :=
  | reach_edge e :
      e ∈ es -> valid_edge ns e = true -> source e = u -> reach ns es u (target e)
  | reach_snoc x e :
      reach ns es u x -> e ∈ es -> valid_edge ns e = true -> source e = x ->
      reach ns es u (target e).

(** A node on a cycle, or downstream of one. *)
Definition on_or_after_cycle (ns : list Node) (es : list Edge) (v : string) : Prop :=
  exists u, reach ns es u u /\ (v = u \/ reach ns es u v).

(** The state of the sort between two rounds of its [while] loop. *)
Record sort_invariant (ns : list Node) (es : list Edge)
    (d : InDegree) (q order : list string) : Prop := {
  inv_distinct : NoDup (order ++ q);
  inv_zero : forall x, x ∈ order ++ q -> (d !!! x <= 0)%Z;
  inv_declared : forall x, x ∈ order ++ q -> declared ns x;
  inv_count : forall v, declared ns v -> d !!! v = Z.of_nat (remaining ns es order v);
  inv_acyclic : forall v, on_or_after_cycle ns es v -> v ∉ order ++ q
}.

(** The document without the edges that have an undeclared end. *)
Definition prune (wf : Workflow) : Workflow :=
  mkWorkflow (nodes wf) (List.filter (valid_edge (nodes wf)) (edges wf)).

(** The operators that take two tables and the message each raises when it
    gets fewer; the node types that take one table or a list of tables. *)
Definition two_input_types : list (string * string) :=
  [("join", "合并节点需要至少两个输入");
   ("vlookup", "VLOOKUP需要两个输入");
   ("diff", "对比需要两个输入");
   ("reconcile", "对账核算需要两个输入：明细表和汇总表")].

Definition one_input_types : list string :=
  ["transform"; "type_convert"; "fill_na"; "deduplicate"; "text_process";
   "date_process"; "group_aggregate"; "pivot"; "unpivot"; "ai_agent"; "output";
   "output_csv"].

(** Only declared nodes have a stored result. *)
Definition results_declared (wf : Workflow) (r : Run) : Prop :=
  forall k, is_Some (ctx_results r !! k) -> declared (nodes wf) k.

(** The same world at another time: another clock and another source of
    uuids; the files, the chat endpoint and the code nodes are the same. *)
Definition retime (clock : nat -> string) (uuid : nat -> string) (w : World) : World := {|
  now := clock;
  uuid4_hex8 := uuid;
  listdir := listdir w;
  read_excel := read_excel w;
  read_csv := read_csv w;
  write_file := write_file w;
  import_httpx := import_httpx w;
  http_post := http_post w;
  py_exec := py_exec w
|}.

(** Two log entries with the same message: they differ at most in the
    timestamp between the brackets. *)
Definition same_message (a b : string) : Prop :=
  exists t1 t2 m, a = "[" +:+ t1 +:+ "] " +:+ m /\ b = "[" +:+ t2 +:+ "] " +:+ m.

(** Every output node names its file. *)
Definition filenames_given (wf : Workflow) : Prop :=
  forall n, n ∈ nodes wf ->
    type (node_data n) = Some "output" \/ type (node_data n) = Some "output_csv" ->
    is_Some (default ∅ (config (node_data n)) !! "filename").

(** Two states of a run that differ at most in the timestamps of the log. *)
Record same_run (r r' : Run) : Prop := {
  same_store : store r = store r';
  same_ctx_results : ctx_results r = ctx_results r';
  same_logs : Forall2 same_message (ctx_logs r) (ctx_logs r');
  same_status : cur_status r = cur_status r';
  same_results : cur_results r = cur_results r';
  same_output_file : cur_output_file r = cur_output_file r';
  same_preview : final_preview r = final_preview r'
}.

(** [preserves n m Q]: run from a heap of at least [n] frames, [m] leaves the
    first [n] frame objects as they are, and the value it returns
    satisfies [Q]. *)
Definition preserves {A} (n : nat) (m : M A) (Q : A -> Prop) : Prop :=
  forall s, n <= length (heap s) ->
    n <= length (heap (m s).2) /\
    take n (heap (m s).2) = take n (heap s) /\
    match (m s).1 with Ok a => Q a | Raise _ => True end.

(** The table an operator returns: the value of the frame object it
    returns, in the heap it leaves. *)
Definition value_of (res : outcome ref * State) : outcome DataFrame :=
  match res with
  | (Ok r, s) => Ok (heap s !!! r)
  | (Raise e, _) => Raise e
  end.

(** [holds s r d]: [r] is a frame object of the heap of [s], of value [d]. *)
Definition holds (s : State) (r : ref) (d : DataFrame) : Prop :=
  r < length (heap s) /\ heap s !!! r = d.

(** [yields res v]: the run [res] of an operator raised what [v] raises, or
    returned a frame object whose value is the table of [v]. *)
Definition yields (res : outcome ref * State) (v : outcome DataFrame) : Prop :=
  match v with
  | Ok d => exists r s, res = (Ok r, s) /\ holds s r d
  | Raise e => exists s, res = (Raise e, s)
  end.

(** ** The six steps of [transform], in the words of the specification *)

Section TransformSteps.
Context `{Pandas} (config : Config).

(** (1) filter rows by a predicate expression *)
Definition filter_step (d : DataFrame) : outcome DataFrame :=
  match as_name (config !! "filter_code") with
  | Some filter_expr => pd_query d filter_expr
  | None => Ok d
  end.

(** (2) drop named columns *)
Definition drop_step (d : DataFrame) : outcome DataFrame :=
  let names := as_names (config !! "drop_columns") in
  Ok (if bool_decide (names = []) then d else drop d names).

(** (3) compute [target := formula]; a formula that does not evaluate is
    skipped *)
Definition calc_one (d : DataFrame) (calc : Config) : DataFrame :=
  match as_name (calc !! "target"), as_name (calc !! "formula") with
  | Some target, Some formula =>
      match pd_eval d formula with
      | Ok v => set_column d target v
      | Raise _ => d
      end
  | _, _ => d
  end.

Definition calc_step (d : DataFrame) : outcome DataFrame :=
  Ok (foldl calc_one d (as_dicts (config !! "calculations"))).

(** (4) rename *)
Definition rename_step (d : DataFrame) : outcome DataFrame :=
  Ok (rename d (as_str_dict (config !! "rename_map"))).

(** (5) keep the selected columns that exist, in the order of the config;
    when none exists the table is left as it is *)
Definition surviving (d : DataFrame) : list string :=
  List.filter (has_column d) (as_names (config !! "selected_columns")).

Definition select_step (d : DataFrame) : outcome DataFrame :=
  if bool_decide (surviving d = []) then Ok d else select d (surviving d).

(** (6) sort by [sort_by] when it is a column *)
Definition sort_ascending : bool :=
  match config !! "sort_order" with
  | None => true
  | Some (PStr o) => bool_decide (o = "asc")
  | Some _ => false
  end.

Definition sort_step (d : DataFrame) : outcome DataFrame :=
  match as_name (config !! "sort_by") with
  | Some sort_by =>
      if has_column d sort_by then pd_sort_values d sort_by sort_ascending else Ok d
  | None => Ok d
  end.

(** The first five steps, and all six. *)
Definition steps_before_sort (d : DataFrame) : outcome DataFrame :=
  d ← filter_step d; d ← drop_step d; d ← calc_step d; d ← rename_step d;
  select_step d.

Definition transform_steps (d : DataFrame) : outcome DataFrame :=
  d ← filter_step d; d ← drop_step d; d ← calc_step d; d ← rename_step d;
  d ← select_step d; sort_step d.
End TransformSteps.

(** The log line that closes the round of a node that returned a table. *)
Definition success_message (node_label : string) (d : DataFrame) : string :=
  "节点 " +:+ node_label +:+ " 执行成功，输出 " +:+ pretty (len d) +:+ " 行数据".

(** A cell that holds text. *)
Definition is_text (x : cell) : Prop := exists txt, x = Str txt.

(** The text the LLM node stores for a row, from what the request for the
    row came back with. *)
Definition reply_text (reply : http_reply) : string :=
  match reply with
  | HttpResponse status text content =>
      if bool_decide (status = 200%Z) then
        match content with
        | Ok result => result
        | Raise e => "调用失败: " +:+ e
        end
      else "AI调用失败: HTTP " +:+ pretty status +:+ " - " +:+ str_take 200 text
  | HttpException msg => "调用失败: " +:+ msg
  end.

(** The number of columns labelled [c]. *)
Definition occurrences (c : string) (cols : list string) : nat :=
  length (List.filter (fun c' => bool_decide (c' = c)) cols).

(** ** [vlookup] on table values, in the words of the specification *)

Section VlookupValue.
Context `{Pandas}.

(** The table with the key column coerced to text. *)
Definition coerced (d : DataFrame) (c : string) : DataFrame :=
  set_column d c (astype_str (column d c)).

Definition vlookup_left_key (config : Config) : option string :=
  as_name (py_or (config !! "left_key") (config !! "lookup_key")).

Definition vlookup_right_key (config : Config) : option string :=
  match as_name (py_or (config !! "right_key") (config !! "lookup_key")) with
  | Some k => Some k
  | None => vlookup_left_key config
  end.

(** The columns taken from the lookup table: the valid subset of
    [columns_to_get], or, when that is empty, every lookup column except the
    key and except the columns the main table already has. *)
Definition vlookup_columns (config : Config) (main lookup : DataFrame) (right_key : string)
  : list string :=
  let asked := List.filter (fun c => has_column lookup c && negb (bool_decide (c = right_key)))
                 (as_names (py_or (config !! "columns_to_get") (config !! "return_columns"))) in
  if bool_decide (asked = [])
  then List.filter (fun c => negb (bool_decide (c = right_key)) && negb (has_column main c))
                   (columns lookup)
  else asked.

(** The right key is dropped from the merged table when the keys have
    different names. *)
Definition without_right_key (left_key right_key : string) (merged : DataFrame)
  : DataFrame :=
  if negb (bool_decide (left_key = right_key)) && has_column merged right_key
  then drop merged [right_key]
  else merged.

(** What that does to a row of the merged table. *)
Definition without_right_key_row (left_key right_key : string) (merged : DataFrame)
    (r : list cell) : list cell :=
  if negb (bool_decide (left_key = right_key)) && has_column merged right_key
  then mask_filter ((fun c => negb (bool_decide (c ∈ [right_key]))) <$> columns merged) r
  else r.

Definition vlookup_value (config : Config) (main lookup : DataFrame)
    (left_key right_key : string) : outcome DataFrame :=
  let main := coerced main left_key in
  let lookup := coerced lookup right_key in
  narrowed ← select lookup (right_key :: vlookup_columns config main lookup right_key);
  merged ← merge main narrowed [left_key] [right_key] "left";
  Ok (without_right_key left_key right_key merged).

(** The first row of [rs] with key [k]. *)
Definition first_match (idx : list nat) (k : list cell) (rs : list (list cell))
  : option (list cell) :=
  head (rows_with_key idx k rs).
End VlookupValue.

(** ** [reconcile] on table values, in the words of the specification *)

Section ReconcileValue.
Context `{Pandas}.

(** The table with each of the key columns coerced to text. *)
Definition text_keys (keys : list string) (d : DataFrame) : DataFrame :=
  foldl coerced d keys.

(** A cell that arithmetic accepts. *)
Definition numeric (x : cell) : bool :=
  match x with Str _ | Time _ => false | _ => true end.

(** The number in an amount cell; a missing amount counts as 0. *)
Definition amount (x : cell) : Qc := default 0%Qc (as_number x).

(** A key group of the outer merge: the key, the detail total and the
    summary amount, the last two null when the key is missing on that
    side. *)
Definition group : Type := list cell * cell * cell.

Definition group_of (n : nat) (p : pairing) : group :=
  match p with
  | (Some l, Some r) => (take n l, l !!! n, r !!! n)
  | (Some l, None) => (take n l, l !!! n, NaN)
  | (None, Some r) => (take n r, NaN, r !!! n)
  | (None, None) => ([], NaN, NaN)
  end.

(** What a pairing of an outer merge is: a row of each side with the same
    key, or a row of one side whose key no row of the other side has. *)
Definition outer_pairing (lidx ridx : list nat) (ls rs : list (list cell)) (p : pairing)
  : Prop :=
  match p with
  | (Some l, Some r) => l ∈ ls /\ r ∈ rs /\ row_key lidx l = row_key ridx r
  | (Some l, None) => l ∈ ls /\ forall r, r ∈ rs -> row_key ridx r <> row_key lidx l
  | (None, Some r) => r ∈ rs /\ forall l, l ∈ ls -> row_key lidx l <> row_key ridx r
  | (None, None) => False
  end.

(** The amounts of one side are integers, and a group has none on that
    side: the merged table holds that side's amounts as float64. *)
Definition detail_widened (n : nat) (detail_rows : list (list cell)) (ps : list pairing)
  : bool :=
  existsb (fun p : pairing => bool_decide (p.1 = None)) ps
  && int64_column (column_at n detail_rows).

Definition summary_widened (n : nat) (summary_rows : list (list cell)) (ps : list pairing)
  : bool :=
  existsb (fun p : pairing => bool_decide (p.2 = None)) ps
  && int64_column (column_at n summary_rows).

Definition widen_group (wa wb : bool) (g : group) : group :=
  (g.1.1, if wa then widen g.1.2 else g.1.2, if wb then widen g.2 else g.2).

(** The key groups of the outer merge of the two sides, in the order of
    the merged table. *)
Definition merged_groups (n : nat) (detail_rows summary_rows : list (list cell))
  : list group :=
  let ps := outer_pairs (seq 0 n) (seq 0 n) detail_rows summary_rows in
  widen_group (detail_widened n detail_rows ps) (summary_widened n summary_rows ps)
    <$> (group_of n <$> ps).

(** Missing amounts are filled with 0: the float 0.0 in a column of
    floats, the integer 0 otherwise. *)
Definition filled (zero x : cell) : cell := if isna x then zero else x.

Definition fill_group (gs : list group) (g : group) : group :=
  (g.1.1, filled (zero_of ((fun g : group => g.1.2) <$> gs)) g.1.2,
          filled (zero_of ((fun g : group => g.2) <$> gs)) g.2).

(** difference = detail total - summary total, on the filled amounts: the
    difference of two integers is exact, any other is the float64
    difference. *)
Definition difference (g : group) : cell :=
  match as_int g.1.2, as_int g.2 with
  | Some a, Some b => Int (a - b)
  | _, _ =>
      match as_number g.1.2, as_number g.2 with
      | Some a, Some b => float_sub a b
      | _, _ => NaN
      end
  end.

(** |x| of a difference *)
Definition magnitude (x : cell) : cell :=
  match x with
  | Int z => Int (Z.abs z)
  | Num q => Num (Qcabs q)
  | _ => NaN
  end.

(** The verdict is "match" exactly when |difference| <= tolerance. *)
Definition matches (tolerance : Qc) (g : group) : bool :=
  match as_number (difference g) with
  | Some q => bool_decide (Qcabs q <= tolerance)%Qc
  | None => false
  end.

(** A mismatch that [diff_only] keeps: |difference| > tolerance. *)
Definition exceeds (tolerance : Qc) (g : group) : bool :=
  match as_number (difference g) with
  | Some q => bool_decide (tolerance < Qcabs q)%Qc
  | None => false
  end.

Definition reconcile_row (tolerance : Qc) (g : group) : list cell :=
  g.1.1 ++ [g.1.2; g.2; difference g;
            Str (if matches tolerance g then "✅ 一致" else "❌ 不一致")].

(** In [diff_only] mode only the mismatches are kept. *)
Definition reported (tolerance : Qc) (diff_only : bool) (gs : list group) : list group :=
  if diff_only then List.filter (exceeds tolerance) gs else gs.

(** The rows of the result, from the key groups of the merge. *)
Definition reconcile_rows (tolerance : Qc) (diff_only : bool) (gs : list group)
  : list (list cell) :=
  reconcile_row tolerance <$> reported tolerance diff_only (fill_group gs <$> gs).

(** Two rows of [n] key cells and an amount with the same key and the same
    amount, as numbers. *)
Definition same_total (n : nat) (l r : list cell) : Prop :=
  take n l = take n r /\ is_Some (as_number (l !!! n))
  /\ as_number (l !!! n) = as_number (r !!! n).

Definition reconcile_columns (keys : list string) : list string :=
  keys ++ ["明细汇总金额"; "汇总表金额"; "差额"; "核算结果"].

(** The names the operator gives to its own columns. *)
Definition reserved : list string :=
  ["明细汇总金额"; "汇总表金额"; "差额"; "差额绝对值"; "核算结果"].

(** The configuration of [reconcile], as the operator reads it. *)
Definition reconcile_keys (config : Config) : list string :=
  as_name_or_names (py_or (config !! "join_keys") (config !! "detail_key")).

Definition reconcile_left (config : Config) : option string :=
  as_name (py_or (config !! "left_column") (config !! "detail_amount")).

Definition reconcile_right (config : Config) : option string :=
  as_name (py_or (config !! "right_column") (config !! "summary_amount")).

Definition reconcile_tolerance (config : Config) : outcome Qc :=
  py_float (default (PNum 0%Qc) (config !! "tolerance")).

Definition reconcile_diff_only (config : Config) : bool :=
  match config !! "output_mode" with
  | None => true
  | Some (PStr m) => bool_decide (m = "diff_only")
  | Some _ => false
  end.

(** The grouped detail and the summary as they enter the merge. *)
Definition detail_side (keys : list string) (left_column : string) (grouped : DataFrame)
  : DataFrame :=
  text_keys keys (rename grouped [(left_column, "明细汇总金额")]).

Definition summary_side (keys : list string) (right_column : string) (picked : DataFrame)
  : DataFrame :=
  text_keys keys (rename picked [(right_column, "汇总表金额")]).
(** A table of key groups: the key cells and then the cells [tl] gives. *)
Definition keyed_table (keys suffix : list string) (tl : group -> list cell)
    (gs : list group) : DataFrame :=
  mkDF (keys ++ suffix) ((fun g => g.1.1 ++ tl g) <$> gs).

Definition key_width (n : nat) (gs : list group) : Prop :=
  Forall (fun g => length g.1.1 = n) gs.

Definition numeric_group (g : group) : Prop :=
  numeric g.1.2 = true /\ numeric g.2 = true.

(** Rows of [n] key cells and then an amount. *)
Definition amount_rows (n : nat) (rs : list (list cell)) : Prop :=
  Forall (fun r => length r = S n /\ numeric (r !!! n) = true) rs.
End ReconcileValue.

(** ** Vocabulary of the further properties *)

(** Every counted edge into a scheduled node leaves a node scheduled
    before it. *)
Definition upstream_first (ns : list Node) (es : list Edge) (order : list string) : Prop :=
  forall pre x post e,
    order = pre ++ x :: post ->
    e ∈ es -> valid_edge ns e = true -> target e = x ->
    source e ∈ pre.

(** Every declared node at in-degree zero has been queued or scheduled. *)
Definition zero_queued (ns : list Node) (d : InDegree) (q order : list string) : Prop :=
  forall v, declared ns v -> d !!! v = 0%Z -> v ∈ order ++ q.

(** The status and the result of node [k] as long as no node has failed:
    'pending' without a result, or 'success' with a table or without a
    result. *)
Definition node_not_failed (status : gmap string string) (results : gmap string NodeResult)
    (k : string) : Prop :=
  (status !! k = Some "pending" /\ results !! k = None) \/
  (status !! k = Some "success" /\
   (results !! k = None \/ exists t, results !! k = Some (ResultTable t))).

(** A run in which no node has failed. *)
Definition running (wf : Workflow) (r : Run) : Prop :=
  (forall k, is_Some (cur_status r !! k) <-> declared (nodes wf) k) /\
  (forall k, declared (nodes wf) k -> node_not_failed (cur_status r) (cur_results r) k) /\
  (forall k, is_Some (cur_results r !! k) -> declared (nodes wf) k).

(** A run that stopped at node [k] with the exception [e]. *)
Definition failed_at (wf : Workflow) (k e : string) (r : Run) : Prop :=
  declared (nodes wf) k /\
  cur_status r !! k = Some "error" /\ cur_results r !! k = Some (ResultError e) /\
  (forall k', is_Some (cur_status r !! k') <-> declared (nodes wf) k') /\
  (forall k', declared (nodes wf) k' -> k' <> k ->
     node_not_failed (cur_status r) (cur_results r) k') /\
  (forall k', is_Some (cur_results r !! k') -> declared (nodes wf) k').

(** The preview is the first 100 records of the table recorded for an
    output node that is not among [todo]. *)
Definition preview_of_output (wf : Workflow) (todo : list string) (r : Run) : Prop :=
  match final_preview r with
  | None => cur_output_file r = None
  | Some p =>
      is_Some (cur_output_file r) /\
      exists k node t,
        (k ∉ todo) /\
        dict_of_nodes (fun n => n) (nodes wf) !! k = Some node /\
        (type (default (own node) (data node)) = Some "output" \/
         type (default (own node) (data node)) = Some "output_csv") /\
        cur_results r !! k = Some (ResultTable t) /\
        length (table_data t) = total_rows t /\
        table_columns p = table_columns t /\
        total_rows p = total_rows t /\
        table_data p = take 100 (table_data t)
  end.

(** The context holds a frame for exactly the nodes with a recorded
    result. *)
Definition results_in_step (r : Run) : Prop :=
  forall k, ctx_results r !! k = None <-> cur_results r !! k = None.

(** The extension an output node of the given type writes. *)
Definition output_extension (node_type : option string) : string :=
  if bool_decide (node_type = Some "output_csv") then ".csv" else ".xlsx".

(** The node types whose operator builds its result in a frame object of
    its own. *)
Definition copying_types : list string :=
  ["source"; "source_csv"; "transform"; "type_convert"; "fill_na"; "deduplicate";
   "text_process"; "date_process"; "unpivot"; "join"; "concat"; "vlookup"; "diff";
   "reconcile"; "ai_agent"].

(** The column a conversion names, as [type_convert] reads it: the text
    at [column], under [col and dtype]. *)
Definition named_column (conv : pyval) : outcome (option string) :=
  col ← py_get conv "column";
  dtype ← py_get conv "dtype";
  if truthy col && truthy dtype then
    match col with
    | PStr c => Ok (Some c)
    | PList _ | PDict _ => Raise ("unhashable type: '" +:+ type_name col +:+ "'")
    | _ => Ok None
    end
  else Ok None.

(** The columns a [type_convert] node names, or the exception of the first
    conversion it cannot read. *)
Definition converted_columns (config : Config) : outcome (list string) :=
  convs ← py_iter (default (PList []) (config !! "conversions"));
  names ← mapM named_column convs;
  Ok (omap (fun c : option string => c) names).

(** A conversion of the expected shape: a dictionary whose [column] is not
    a list or a dictionary. *)
Definition conversion_shaped (conv : pyval) : Prop :=
  exists d, conv = PDict d /\
    match (list_to_map d : gmap string pyval) !! "column" with
    | Some (PList _) | Some (PDict _) => False
    | _ => True
    end.

(** Every row has one cell per column. *)
Definition rectangular (d : DataFrame) : Prop :=
  Forall (fun r : list cell => length r = length (columns d)) (rows d).

(** The text operations of [text_process] that work cell by cell. *)
Definition text_operation `{Pandas} (operation : string) : option (string -> string) :=
  if bool_decide (operation = "trim") then Some str_strip
  else if bool_decide (operation = "lower") then Some str_lower
  else if bool_decide (operation = "upper") then Some str_upper
  else None.

(** The message of a join whose key column [col] is not in the table [d]
    on the given side. *)
Definition join_key_missing (side col : string) (d : DataFrame) : string :=
  "Join失败: " +:+ side +:+ "中找不到关联列 '" +:+ col +:+ "'。现有列: "
  +:+ repr_columns d.

(** The columns [fill_na] works on: the configured ones, or all of them. *)
Definition fill_targets (config : Config) (d : DataFrame) : list string :=
  if bool_decide (as_names (config !! "columns") = []) then columns d
  else as_names (config !! "columns").

(** [a] is the last aggregation of the list that names the column. *)
Definition last_aggregation (aggs : list Config) (col : string) (a : Config) : Prop :=
  exists pre post,
    aggs = pre ++ a :: post /\
    as_name (a !! "column") = Some col /\
    Forall (fun b : Config => as_name (b !! "column") <> Some col) post.

(** [agg.get('func', 'sum')] and [agg.get('alias', f'{col}_{func}')] *)
Definition aggregation_func (a : Config) : string :=
  default "sum" (as_str (a !! "func")).

Definition aggregation_alias (col : string) (a : Config) : string :=
  default (col +:+ "_" +:+ aggregation_func a) (as_str (a !! "alias")).

(** The messages of a reconcile whose column [col] is not in the table
    [d]. *)
Definition reconcile_column_missing (table kind col : string) (d : DataFrame) : string :=
  "对账失败: " +:+ table +:+ "中找不到" +:+ kind +:+ " '" +:+ col +:+ "'。现有列: "
  +:+ repr_columns d.

(** * Properties *)

Section Dispatcher.
Context `{Pandas} (w : World).

Lemma unrecognized_returns_none node_type config input_dfs file_mapping s :
  recognized_type node_type = false ->
  _execute_node_by_type w node_type config input_dfs file_mapping s = (Ok None, s).
Proof.
  destruct node_type as [t|]; [|done].
  unfold recognized_type, recognized. intros Hn.
  apply bool_decide_eq_false in Hn. rewrite !not_elem_of_cons in Hn.
  destruct_and!. unfold _execute_node_by_type.
  by rewrite !bool_decide_eq_false_2 by done.
Qed.

(** The dispatcher at a known node type: the comparisons are computed. *)
Ltac dispatch :=
  unfold _execute_node_by_type;
  repeat match goal with
         | |- context [bool_decide (?a = ?b)] =>
             let v := eval vm_compute in (bool_decide (a = b)) in
             change (bool_decide (a = b)) with v
         end;
  cbn [orb andb].

Lemma two_inputs_needed t msg config input_dfs file_mapping s :
  (t, msg) ∈ two_input_types -> length input_dfs < 2 ->
  _execute_node_by_type w (Some t) config input_dfs file_mapping s = (Raise msg, s).
Proof.
  intros Ht Hlen. unfold two_input_types in Ht.
  assert (Hshort : input_dfs = [] \/ exists df, input_dfs = [df]).
  { destruct input_dfs as [|df [|df' l]]; [by left|right; by eexists|cbn in Hlen; lia]. }
  repeat (apply elem_of_cons in Ht as [[= -> ->]|Ht]);
    [..|apply elem_of_nil in Ht; destruct Ht];
    dispatch; by destruct Hshort as [->|[df ->]].
Qed.

Lemma one_input_missing t config file_mapping s :
  t ∈ "concat" :: one_input_types ->
  _execute_node_by_type w (Some t) config [] file_mapping s = (Ok None, s).
Proof.
  intros Ht. unfold one_input_types in Ht.
  repeat (apply elem_of_cons in Ht as [->|Ht]); [..|apply elem_of_nil in Ht; destruct Ht];
    by dispatch.
Qed.

Lemma surplus_inputs_ignored t config df extra file_mapping s :
  t ∈ one_input_types ->
  _execute_node_by_type w (Some t) config (df :: extra) file_mapping s
  = _execute_node_by_type w (Some t) config [df] file_mapping s.
Proof.
  intros Ht. unfold one_input_types in Ht.
  repeat (apply elem_of_cons in Ht as [->|Ht]); [..|apply elem_of_nil in Ht; destruct Ht];
    dispatch; cbv beta iota delta [unary binary]; reflexivity.
Qed.

Lemma surplus_inputs_ignored_2 t msg config df1 df2 extra file_mapping s :
  (t, msg) ∈ two_input_types ->
  _execute_node_by_type w (Some t) config (df1 :: df2 :: extra) file_mapping s
  = _execute_node_by_type w (Some t) config [df1; df2] file_mapping s.
Proof.
  intros Ht. unfold two_input_types in Ht.
  repeat (apply elem_of_cons in Ht as [[= -> ->]|Ht]);
    [..|apply elem_of_nil in Ht; destruct Ht];
    dispatch; cbv beta iota delta [unary binary]; reflexivity.
Qed.
End Dispatcher.

Section UnknownType.
Context `{Pandas} (w : World).

(** C10.  A node whose type the dispatcher has no branch for: the
    dispatcher returns no table whatever the inputs, the round of the node
    sets its status to 'success', adds nothing to [node_results] or to the
    stored results, raises nothing, and the loop goes on with the next
    node. *)
Theorem unrecognized_type_is_success
    (wf : Workflow) (file_mapping : gmap string string)
    (node_map : gmap string Node) (node_id : string) (node : Node)
    (rest : list string) (r : Run) :
  recognized_type (type (node_data node)) = false ->
  node_map !! node_id = Some node ->
  let r' := set_status node_id "success"
              (log w (start_message (node_label node) node_id) r) in
  (forall config input_dfs s,
      _execute_node_by_type w (type (node_data node)) config input_dfs file_mapping s
      = (Ok None, s)) /\
  execute_node w wf file_mapping node_id node r = (r', None) /\
  cur_status r' !! node_id = Some "success" /\
  cur_results r' = cur_results r /\
  ctx_results r' = ctx_results r /\
  run_nodes w wf file_mapping node_map (node_id :: rest) r
  = run_nodes w wf file_mapping node_map rest r'.
Proof.
  intros Hty Hnode r'.
  assert (Hexec : execute_node w wf file_mapping node_id node r = (r', None)).
  { unfold execute_node. rewrite unrecognized_returns_none by done.
    subst r'. unfold start_message. by destruct r. }
  split; [intros; by apply unrecognized_returns_none|].
  split; [done|].
  split; [subst r'; cbn; apply lookup_insert_eq|].
  split; [done|]. split; [done|].
  cbn [run_nodes]. by rewrite Hnode, Hexec.
Qed.
End UnknownType.

(** ** The graph built from a document *)

Section Graph.
Implicit Types (wf : Workflow) (ns : list Node) (es : list Edge).

Lemma dict_of_nodes_snoc {A} (f : Node -> A) ns n :
  dict_of_nodes f (ns ++ [n]) = <[id n := f n]> (dict_of_nodes f ns).
Proof. unfold dict_of_nodes. by rewrite foldl_snoc. Qed.

Lemma dict_of_nodes_Some {A} (f : Node -> A) ns k x :
  dict_of_nodes f ns !! k = Some x -> exists n, n ∈ ns /\ id n = k /\ x = f n.
Proof.
  induction ns as [|n ns IH] using rev_ind; [done|].
  rewrite dict_of_nodes_snoc. destruct (decide (id n = k)) as [<-|Hne].
  - rewrite lookup_insert_eq. intros [= <-]. exists n. set_solver.
  - rewrite lookup_insert_ne by done. intros (n' & ? & ? & ?)%IH.
    exists n'. set_solver.
Qed.

Lemma dict_of_nodes_is_Some {A} (f : Node -> A) ns k :
  is_Some (dict_of_nodes f ns !! k) <-> declared ns k.
Proof.
  unfold declared. induction ns as [|n ns IH] using rev_ind.
  - cbn. rewrite elem_of_nil. split; [by intros [? ?]|done].
  - rewrite dict_of_nodes_snoc, fmap_app, elem_of_app. cbn.
    rewrite list_elem_of_singleton. destruct (decide (id n = k)) as [<-|Hne].
    + rewrite lookup_insert_eq. split; [by right|by eexists].
    + rewrite lookup_insert_ne by done. rewrite IH. naive_solver.
Qed.

Lemma dict_of_nodes_const {A} (c : A) ns k :
  dict_of_nodes (fun _ => c) ns !! k
  = if bool_decide (declared ns k) then Some c else None.
Proof.
  case_bool_decide as Hd.
  - apply (dict_of_nodes_is_Some (fun _ => c)) in Hd as [x Hx].
    rewrite Hx. by apply dict_of_nodes_Some in Hx as (? & ? & ? & ->).
  - destruct (dict_of_nodes _ ns !! k) eqn:Hx; [|done].
    exfalso. apply Hd. apply (dict_of_nodes_is_Some (fun _ => c)). by eexists.
Qed.

Lemma dict_of_nodes_NoDup {A} (f : Node -> A) ns n :
  NoDup (id <$> ns) -> n ∈ ns -> dict_of_nodes f ns !! id n = Some (f n).
Proof.
  induction ns as [|n' ns IH] using rev_ind; [by intros _ ?%elem_of_nil|].
  rewrite fmap_app, dict_of_nodes_snoc. cbn.
  intros [Hnd [Hnotin _]]%NoDup_app [Hin| ->%list_elem_of_singleton]%elem_of_app.
  - rewrite lookup_insert_ne; [by apply IH|].
    intros Heq. apply (Hnotin (id n)); [|rewrite Heq; set_solver].
    apply list_elem_of_fmap. by exists n.
  - by rewrite lookup_insert_eq.
Qed.

Lemma successors_snoc ns es e u :
  successors ns (es ++ [e]) u
  = successors ns es u
    ++ (if valid_edge ns e && bool_decide (source e = u) then [target e] else []).
Proof.
  unfold successors. rewrite List.filter_app, fmap_app. cbn.
  by destruct (valid_edge ns e && bool_decide (source e = u)).
Qed.

Lemma in_count_snoc ns es e v :
  in_count ns (es ++ [e]) v
  = in_count ns es v
    + (if valid_edge ns e && bool_decide (target e = v) then 1 else 0).
Proof.
  unfold in_count. rewrite List.filter_app, length_app. cbn.
  by destruct (valid_edge ns e && bool_decide (target e = v)).
Qed.

Lemma build_graph_aux ns es :
  let g := foldl add_edge (dict_of_nodes (fun _ => []) ns,
                           dict_of_nodes (fun _ => 0%Z) ns) es in
  (forall u, g.1 !! u = if bool_decide (declared ns u)
                        then Some (successors ns es u) else None) /\
  (forall v, g.2 !! v = if bool_decide (declared ns v)
                        then Some (Z.of_nat (in_count ns es v)) else None).
Proof.
  induction es as [|e es IH] using rev_ind.
  - cbn. split; intros k; apply dict_of_nodes_const.
  - rewrite foldl_snoc. cbn zeta in *. destruct IH as [IHa IHd].
    set (g := foldl add_edge _ es) in *.
    unfold add_edge.
    assert (Hv : bool_decide (is_Some (g.1 !! source e))
                 && bool_decide (is_Some (g.2 !! target e)) = valid_edge ns e).
    { unfold valid_edge. rewrite IHa, IHd.
      do 2 case_bool_decide; cbn; repeat case_bool_decide; try done;
        exfalso; naive_solver. }
    rewrite Hv. destruct (valid_edge ns e) eqn:Hvalid; cbn [andb].
    + unfold valid_edge in Hvalid.
      apply andb_true_iff in Hvalid as [Hs%bool_decide_eq_true Ht%bool_decide_eq_true].
      assert (Hve : valid_edge ns e = true).
      { unfold valid_edge. by rewrite !bool_decide_eq_true_2. }
      split; intros k; cbn [fst snd].
      * rewrite successors_snoc, Hve. cbn [andb].
        destruct (decide (source e = k)) as [<-|Hne].
        -- rewrite lookup_insert_eq, !bool_decide_eq_true_2 by done.
           erewrite lookup_total_correct; [done|].
           by rewrite IHa, bool_decide_eq_true_2.
        -- rewrite lookup_insert_ne, IHa by done.
           rewrite (bool_decide_eq_false_2 (source e = k)) by done.
           by rewrite app_nil_r.
      * rewrite in_count_snoc, Hve. cbn [andb].
        destruct (decide (target e = k)) as [<-|Hne].
        -- rewrite lookup_insert_eq, !bool_decide_eq_true_2 by done.
           erewrite lookup_total_correct; [|by rewrite IHd, bool_decide_eq_true_2].
           f_equal. lia.
        -- rewrite lookup_insert_ne, IHd by done.
           rewrite (bool_decide_eq_false_2 (target e = k)) by done.
           by rewrite Nat.add_0_r.
    + split; intros k; [rewrite IHa, successors_snoc|rewrite IHd, in_count_snoc];
        rewrite Hvalid; cbn [andb]; by rewrite ?app_nil_r, ?Nat.add_0_r.
Qed.

Lemma successors_declared ns es u v :
  v ∈ successors ns es u -> declared ns u /\ declared ns v.
Proof.
  unfold successors. intros (e & -> & He)%list_elem_of_fmap.
  apply list_elem_of_In, filter_In in He as [_ He].
  apply andb_true_iff in He as [Hv Hs%bool_decide_eq_true]. subst u.
  unfold valid_edge in Hv.
  by apply andb_true_iff in Hv as [?%bool_decide_eq_true ?%bool_decide_eq_true].
Qed.

Lemma successors_undeclared ns es u :
  ~ declared ns u -> successors ns es u = [].
Proof.
  intros Hd. destruct (successors ns es u) as [|v l] eqn:Hs; [done|].
  exfalso. apply Hd. apply (successors_declared ns es u v). rewrite Hs. set_solver.
Qed.

Lemma in_count_undeclared ns es v :
  ~ declared ns v -> in_count ns es v = 0.
Proof.
  intros Hd. unfold in_count. induction es as [|e es IH]; [done|]. cbn.
  destruct (valid_edge ns e) eqn:Hv; [|done]. cbn.
  case_bool_decide as Hs; [|done]. subst v.
  exfalso. apply Hd. unfold valid_edge in Hv.
  by apply andb_true_iff in Hv as [_ ?%bool_decide_eq_true].
Qed.

Lemma build_graph_adj wf u :
  (build_graph wf).1 !!! u = successors (nodes wf) (edges wf) u.
Proof.
  unfold build_graph. destruct (build_graph_aux (nodes wf) (edges wf)) as [Ha _].
  cbn zeta in Ha. rewrite lookup_total_alt, Ha.
  case_bool_decide as Hd; [done|]. cbn. by rewrite successors_undeclared.
Qed.

Lemma build_graph_in_degree wf v :
  declared (nodes wf) v ->
  (build_graph wf).2 !!! v = Z.of_nat (in_count (nodes wf) (edges wf) v).
Proof.
  intros Hv. unfold build_graph.
  destruct (build_graph_aux (nodes wf) (edges wf)) as [_ Hd].
  cbn zeta in Hd. by rewrite lookup_total_alt, Hd, bool_decide_eq_true_2.
Qed.

End Graph.

(** ** The topological sort *)

Section Relax.
Implicit Types (d : InDegree) (q l : list string).

Lemma relax_in_degree d q nb v :
  (relax (d, q) nb).1 !!! v
  = if bool_decide (v = nb) then (d !!! v - 1)%Z else d !!! v.
Proof.
  unfold relax. cbn [fst snd].
  assert (Hl : (<[nb := (d !!! nb - 1)%Z]> d : InDegree) !!! v
               = if bool_decide (v = nb) then (d !!! v - 1)%Z else d !!! v).
  { case_bool_decide as Hv.
    - subst v. by rewrite lookup_total_insert_eq.
    - by rewrite lookup_total_insert_ne. }
  match goal with |- context [if ?b then (_, _) else _] => destruct b end; exact Hl.
Qed.

Lemma relax_queue d q nb :
  (relax (d, q) nb).2 = if bool_decide (d !!! nb = 1%Z) then q ++ [nb] else q.
Proof.
  unfold relax. cbn [fst snd]. rewrite lookup_total_insert_eq.
  repeat case_bool_decide; try done; lia.
Qed.

Lemma occ_cons v x l :
  occ v (x :: l) = (if bool_decide (x = v) then 1 else 0) + occ v l.
Proof. unfold occ. cbn. by case_bool_decide. Qed.

Lemma foldl_relax_in_degree l d q v :
  (foldl relax (d, q) l).1 !!! v = (d !!! v - Z.of_nat (occ v l))%Z.
Proof.
  revert d q. induction l as [|nb l IH]; intros d q.
  - cbn. lia.
  - cbn [foldl]. destruct (relax (d, q) nb) as [d1 q1] eqn:Hr.
    rewrite IH, occ_cons.
    pose proof (relax_in_degree d q nb v) as Hd. rewrite Hr in Hd. cbn in Hd.
    rewrite Hd. repeat case_bool_decide; subst; try done; lia.
Qed.

(** What the inner loop appends had in-degree at least one and at most its
    number of occurrences among the neighbours. *)
Lemma foldl_relax_queue l d q x :
  x ∈ (foldl relax (d, q) l).2 ->
  x ∈ q \/ (x ∈ l /\ (1 <= d !!! x <= Z.of_nat (occ x l))%Z).
Proof.
  revert d q. induction l as [|nb l IH]; intros d q; [by left|].
  cbn [foldl]. destruct (relax (d, q) nb) as [d1 q1] eqn:Hr.
  pose proof (relax_queue d q nb) as Hq. rewrite Hr in Hq. cbn in Hq.
  pose proof (relax_in_degree d q nb x) as Hd. rewrite Hr in Hd. cbn in Hd.
  intros [Hx|[Hx Hb]]%IH; rewrite occ_cons.
  - subst q1. case_bool_decide as H1; [|by left].
    apply elem_of_app in Hx as [Hx|Hx%list_elem_of_singleton]; [by left|].
    subst x. right. split; [set_solver|]. rewrite bool_decide_eq_true_2 by done. lia.
  - right. split; [set_solver|]. rewrite Hd in Hb.
    repeat case_bool_decide; subst; try done; lia.
Qed.

Lemma foldl_relax_queue_prefix l d q :
  exists pushed, (foldl relax (d, q) l).2 = q ++ pushed.
Proof.
  revert d q. induction l as [|nb l IH]; intros d q.
  - exists []. cbn. by rewrite app_nil_r.
  - cbn [foldl]. destruct (relax (d, q) nb) as [d1 q1] eqn:Hr.
    pose proof (relax_queue d q nb) as Hq. rewrite Hr in Hq. cbn in Hq.
    destruct (IH d1 q1) as [p Hp]. rewrite Hp, Hq.
    case_bool_decide; [exists (nb :: p); by rewrite <- app_assoc|by exists p].
Qed.

(** The inner loop keeps the visited and queued nodes distinct and at
    in-degree zero or less. *)
Lemma foldl_relax_distinct pre l d q :
  NoDup (pre ++ q) ->
  (forall x, x ∈ pre ++ q -> (d !!! x <= 0)%Z) ->
  let st := foldl relax (d, q) l in
  NoDup (pre ++ st.2) /\ (forall x, x ∈ pre ++ st.2 -> (st.1 !!! x <= 0)%Z).
Proof.
  revert d q. induction l as [|nb l IH]; intros d q Hnd Hle; [done|].
  cbn [foldl]. destruct (relax (d, q) nb) as [d1 q1] eqn:Hr.
  pose proof (relax_queue d q nb) as Hq. rewrite Hr in Hq. cbn in Hq.
  assert (Hd : forall x, d1 !!! x
               = if bool_decide (x = nb) then (d !!! x - 1)%Z else d !!! x).
  { intros x. pose proof (relax_in_degree d q nb x) as Hd. by rewrite Hr in Hd. }
  apply IH.
  - subst q1. case_bool_decide as H1; [|done].
    rewrite app_assoc. apply NoDup_app. split; [done|]. split; [|apply NoDup_singleton].
    intros x Hx ->%list_elem_of_singleton. apply Hle in Hx. lia.
  - intros x Hx. rewrite Hd. subst q1.
    case_bool_decide as H1; case_bool_decide as H2; subst; try lia.
    + apply Hle. rewrite app_assoc in Hx.
      apply elem_of_app in Hx as [Hx|Hx%list_elem_of_singleton]; done.
    + specialize (Hle _ Hx). lia.
    + by apply Hle.
Qed.
End Relax.

Section Sort.
Context (ns : list Node) (es : list Edge).
Implicit Types (d : InDegree) (q order : list string).

Lemma occ_successors u v :
  occ v (successors ns es u)
  = length (List.filter (fun e => valid_edge ns e && bool_decide (target e = v)
                                  && bool_decide (source e = u)) es).
Proof.
  unfold occ, successors. induction es as [|e es' IH]; [done|]. cbn.
  destruct (valid_edge ns e); cbn; [|done].
  repeat (case_bool_decide; cbn); subst; try done; try (by f_equal).
Qed.

Lemma remaining_snoc order u v :
  u ∉ order ->
  remaining ns es order v = remaining ns es (order ++ [u]) v + occ v (successors ns es u).
Proof.
  intros Hu. rewrite occ_successors. unfold remaining.
  induction es as [|e es' IH]; [done|]. cbn.
  destruct (valid_edge ns e); cbn; [|done].
  destruct (bool_decide (target e = v)); cbn; [|done].
  destruct (decide (source e = u)) as [->|Hne].
  - rewrite (bool_decide_eq_false_2 (u ∈ order)) by done.
    rewrite (bool_decide_eq_true_2 (u ∈ order ++ [u])) by set_solver.
    rewrite (bool_decide_eq_true_2 (u = u)) by done. cbn. lia.
  - rewrite (bool_decide_eq_false_2 (source e = u)) by done.
    destruct (decide (source e ∈ order)) as [Hin|Hnin].
    + rewrite !bool_decide_eq_true_2 by set_solver. done.
    + rewrite !bool_decide_eq_false_2 by set_solver. cbn. lia.
Qed.

(** An edge from outside [order] keeps the count above the edges that
    come from [u]. *)
Lemma remaining_above e order u v :
  e ∈ es -> valid_edge ns e = true -> target e = v ->
  source e ∉ order -> source e <> u -> u ∉ order ->
  occ v (successors ns es u) < remaining ns es order v.
Proof.
  intros He Hv Ht Hs Hne Hu.
  rewrite (remaining_snoc order u v Hu).
  assert (0 < remaining ns es (order ++ [u]) v); [|lia].
  unfold remaining. apply list_elem_of_In in He.
  induction es as [|e' es' IH]; [done|]. destruct He as [->|He].
  - cbn. rewrite Hv, bool_decide_eq_true_2, bool_decide_eq_false_2 by set_solver.
    cbn. lia.
  - cbn. destruct (_ && _ && _); cbn; [lia|by apply IH].
Qed.

Lemma sort_invariant_round (adj : Adj) d u q order :
  (forall x, adj !!! x = successors ns es x) ->
  sort_invariant ns es d (u :: q) order ->
  let st := foldl relax (d, q) (adj !!! u) in
  sort_invariant ns es st.1 st.2 (order ++ [u]).
Proof.
  intros Hadj [Hnd Hz Hdecl Hcnt Hcyc] st.
  assert (Hu : u ∉ order).
  { apply NoDup_app in Hnd as (_ & Hnd & _). intros Hin. apply (Hnd u Hin). set_solver. }
  assert (Hnd' : NoDup ((order ++ [u]) ++ q)) by by rewrite <- app_assoc.
  destruct (foldl_relax_distinct (order ++ [u]) (adj !!! u) d q) as [H1 H2];
    [done| |].
  { intros x Hx. apply Hz. by rewrite <- app_assoc in Hx. }
  assert (Hpushed : forall x, x ∈ st.2 -> x ∈ q \/
            (x ∈ successors ns es u /\ (1 <= d !!! x <= Z.of_nat (occ x (successors ns es u)))%Z)).
  { intros x Hx. apply foldl_relax_queue in Hx. by rewrite Hadj in Hx. }
  split; [done|done| | |].
  - intros x [Hx|Hx]%elem_of_app.
    + apply Hdecl. set_solver.
    + apply Hpushed in Hx as [Hx|[Hx _]]; [apply Hdecl; set_solver|].
      by apply successors_declared in Hx as [_ ?].
  - intros v Hv. subst st. rewrite foldl_relax_in_degree, Hadj, (Hcnt v Hv).
    rewrite (remaining_snoc order u v Hu). lia.
  - intros v Hv [Hin|Hin]%elem_of_app.
    + apply (Hcyc v Hv). set_solver.
    + apply Hpushed in Hin as [Hin|[Hin Hb]]; [apply (Hcyc v Hv); set_solver|].
      assert (Hdv : declared ns v) by by apply successors_declared in Hin as [_ ?].
      rewrite (Hcnt v Hdv) in Hb.
      destruct Hv as (c & Hcc & Hv).
      assert (exists e, e ∈ es /\ valid_edge ns e = true /\ target e = v
                        /\ on_or_after_cycle ns es (source e)) as (e & He & Hve & Hte & Hse).
      { assert (Hr : reach ns es c v) by (destruct Hv as [->|?]; done).
        inversion Hr as [e He Hve Hs Ht|x e Hx He Hve Hs Ht]; subst.
        - exists e. repeat split; try done. exists (source e). by split; [|left].
        - exists e. repeat split; try done. exists c. by split; [|right]. }
      apply Hcyc in Hse.
      assert (Hlt : occ v (successors ns es u) < remaining ns es order v).
      { apply (remaining_above e); try done; set_solver. }
      lia.
Qed.

Lemma kahn_invariant fuel (adj : Adj) d q order :
  (forall x, adj !!! x = successors ns es x) ->
  sort_invariant ns es d q order ->
  let res := kahn fuel adj d q order in
  NoDup res /\ (forall x, x ∈ res -> declared ns x) /\
  (forall v, on_or_after_cycle ns es v -> v ∉ res).
Proof.
  intros Hadj. revert d q order.
  assert (Hstop : forall d q order, sort_invariant ns es d q order ->
            NoDup order /\ (forall x, x ∈ order -> declared ns x) /\
            (forall v, on_or_after_cycle ns es v -> v ∉ order)).
  { intros d q order [Hnd _ Hdecl _ Hcyc]. split; [by apply NoDup_app in Hnd as [? _]|].
    split; [intros x Hx; apply Hdecl; set_solver|].
    intros v Hv Hin. apply (Hcyc v Hv). set_solver. }
  induction fuel as [|fuel IH]; intros d q order Hinv; [by eapply Hstop|].
  destruct q as [|u q]; [by eapply Hstop|].
  cbn [kahn]. apply IH. by apply sort_invariant_round.
Qed.

Lemma remaining_nil v : remaining ns es [] v = in_count ns es v.
Proof.
  unfold remaining, in_count. f_equal. apply filter_ext. intros e.
  rewrite (bool_decide_eq_false_2 (source e ∈ [])) by set_solver.
  by rewrite andb_true_r.
Qed.

Lemma in_count_pos e v :
  e ∈ es -> valid_edge ns e = true -> target e = v -> 0 < in_count ns es v.
Proof.
  intros He Hv Ht. unfold in_count. apply list_elem_of_In in He.
  induction es as [|e' es' IH]; [done|]. destruct He as [->|He].
  - cbn. rewrite Hv, bool_decide_eq_true_2 by done. cbn. lia.
  - cbn. destruct (_ && _); cbn; [lia|by apply IH].
Qed.
End Sort.

Section ExecutionOrder.
Implicit Types (wf : Workflow).

Lemma filter_sublist {A} (p : A -> bool) (l : list A) :
  List.filter p l `sublist_of` l.
Proof. induction l as [|x l IH]; [done|]. cbn. destruct (p x); by constructor. Qed.

Lemma initial_invariant wf :
  NoDup (id <$> nodes wf) ->
  sort_invariant (nodes wf) (edges wf) (build_graph wf).2
                 (initial_queue wf (build_graph wf).2) [].
Proof.
  intros Hnd.
  assert (Hq : forall x, x ∈ initial_queue wf (build_graph wf).2 ->
             declared (nodes wf) x /\ (build_graph wf).2 !!! x = 0%Z).
  { intros x (n & -> & Hn)%list_elem_of_fmap.
    apply list_elem_of_In, filter_In in Hn as [Hn H0%bool_decide_eq_true].
    split; [|done]. apply list_elem_of_fmap. exists n. by rewrite list_elem_of_In. }
  split; cbn [app].
  - unfold initial_queue. eapply (sublist_NoDup _ (id <$> nodes wf)); [exact Hnd|].
    apply fmap_sublist, filter_sublist.
  - intros x [_ Hx]%Hq. lia.
  - by intros x [? _]%Hq.
  - intros v Hv. by rewrite build_graph_in_degree, remaining_nil.
  - intros v (c & Hcc & Hv) [Hd H0]%Hq.
    assert (Hr : reach (nodes wf) (edges wf) c v) by (destruct Hv as [->|?]; done).
    rewrite build_graph_in_degree in H0 by done.
    assert (0 < in_count (nodes wf) (edges wf) v); [|lia].
    inversion Hr; subst; by eapply in_count_pos.
Qed.

Lemma execution_order_spec wf :
  NoDup (id <$> nodes wf) ->
  NoDup (execution_order wf) /\
  (forall x, x ∈ execution_order wf -> declared (nodes wf) x) /\
  (forall v, on_or_after_cycle (nodes wf) (edges wf) v -> v ∉ execution_order wf).
Proof.
  intros Hnd. unfold execution_order. cbn zeta.
  apply kahn_invariant; [apply build_graph_adj|by apply initial_invariant].
Qed.

(** *** The [while] loop ends within the fuel *)

Lemma positive_in_le (d d1 : InDegree) vs :
  (forall v, (d1 !!! v <= d !!! v)%Z) ->
  positive_in d1 vs <= positive_in d vs.
Proof.
  intros Hle. unfold positive_in. induction vs as [|v vs IH]; [done|].
  cbn [List.filter]. specialize (Hle v). repeat case_bool_decide; cbn [length]; lia.
Qed.

Lemma positive_in_lt (d d1 : InDegree) vs nb :
  (forall v, (d1 !!! v <= d !!! v)%Z) ->
  nb ∈ vs -> (0 < d !!! nb)%Z -> (d1 !!! nb <= 0)%Z ->
  positive_in d1 vs + 1 <= positive_in d vs.
Proof.
  intros Hle Hin Hpos Hzero. unfold positive_in.
  induction vs as [|v vs IH]; [by apply elem_of_nil in Hin|].
  cbn [List.filter]. apply elem_of_cons in Hin as [<-|Hin].
  - rewrite (bool_decide_eq_true_2 (0 < d !!! nb)%Z) by done.
    rewrite (bool_decide_eq_false_2 (0 < d1 !!! nb)%Z) by lia.
    pose proof (positive_in_le d d1 vs Hle) as Hl. unfold positive_in in Hl.
    cbn [length]. lia.
  - specialize (IH Hin). specialize (Hle v).
    repeat case_bool_decide; cbn [length]; lia.
Qed.

Lemma foldl_relax_measure vs l (d : InDegree) q :
  (forall x, x ∈ l -> x ∈ vs) ->
  let st := foldl relax (d, q) l in
  length st.2 + positive_in st.1 vs <= length q + positive_in d vs.
Proof.
  revert d q. induction l as [|nb l IH]; intros d q Hl; [done|].
  cbn [foldl]. destruct (relax (d, q) nb) as [d1 q1] eqn:Hr.
  pose proof (relax_queue d q nb) as Hq. rewrite Hr in Hq. cbn in Hq.
  assert (Hd : forall x, d1 !!! x
               = if bool_decide (x = nb) then (d !!! x - 1)%Z else d !!! x).
  { intros x. pose proof (relax_in_degree d q nb x) as Hd. by rewrite Hr in Hd. }
  assert (Hle : forall v, (d1 !!! v <= d !!! v)%Z).
  { intros v. rewrite Hd. destruct (bool_decide (v = nb)); lia. }
  etrans; [apply IH; set_solver|]. subst q1. case_bool_decide as H1.
  - rewrite length_app. cbn.
    pose proof (positive_in_lt d d1 vs nb Hle) as Hlt.
    assert (positive_in d1 vs + 1 <= positive_in d vs); [|lia].
    apply Hlt; [set_solver|lia|]. rewrite Hd, bool_decide_eq_true_2 by done. lia.
  - pose proof (positive_in_le d d1 vs Hle). lia.
Qed.

Lemma kahn_fuel vs (adj : Adj) fuel extra (d : InDegree) q order :
  (forall u x, x ∈ adj !!! u -> x ∈ vs) ->
  length q + positive_in d vs <= fuel ->
  kahn (fuel + extra) adj d q order = kahn fuel adj d q order.
Proof.
  intros Hadj. revert d q order.
  induction fuel as [|fuel IH]; intros d q order Hm.
  - destruct q; [|cbn in Hm; lia]. by destruct extra.
  - destruct q as [|u q]; [done|]. cbn [kahn Nat.add]. apply IH.
    pose proof (foldl_relax_measure vs (adj !!! u) d q (Hadj u)) as Hle.
    cbn zeta in Hle. cbn in Hm. lia.
Qed.

(** More fuel does not change the order: the loop has ended. *)
Lemma execution_order_fuel wf extra :
  let g := build_graph wf in
  kahn (2 * length (nodes wf) + extra) g.1 g.2 (initial_queue wf g.2) []
  = execution_order wf.
Proof.
  cbn zeta. unfold execution_order. cbn zeta.
  apply (kahn_fuel (id <$> nodes wf)).
  - intros u x. rewrite build_graph_adj. by intros [_ ?]%successors_declared.
  - assert (length (initial_queue wf (build_graph wf).2) <= length (nodes wf)).
    { unfold initial_queue. rewrite length_fmap.
      apply sublist_length, filter_sublist. }
    assert (positive_in (build_graph wf).2 (id <$> nodes wf) <= length (nodes wf)).
    { unfold positive_in. etrans; [apply sublist_length, filter_sublist|].
      by rewrite length_fmap. }
    lia.
Qed.
End ExecutionOrder.

(** ** The loop over the execution order *)

Section RunnerFacts.
Context `{Pandas} (w : World) (wf : Workflow) (file_mapping : gmap string string).
Implicit Types (r : Run) (node : Node) (node_map : gmap string Node).

Lemma collect_inputs_log es node_id message r :
  collect_inputs es node_id (log w message r) = collect_inputs es node_id r.
Proof. done. Qed.

(** The round of a node touches no other node's status or result. *)
Lemma execute_node_other node_id node r k :
  k <> node_id ->
  let r' := (execute_node w wf file_mapping node_id node r).1 in
  cur_status r' !! k = cur_status r !! k /\ cur_results r' !! k = cur_results r !! k.
Proof.
  intros Hk. unfold execute_node.
  destruct (_execute_node_by_type _ _ _ _ _ _) as [[[result_df|]|e] s]; cbn.
  - destruct (_ || _); cbn.
    + destruct (_save_output _ _ _ _ _) as [[f|e] s']; cbn;
        by rewrite !lookup_insert_ne.
    + by rewrite !lookup_insert_ne.
  - by rewrite lookup_insert_ne.
  - by rewrite !lookup_insert_ne.
Qed.

Lemma execute_node_ok node_id node r r' :
  execute_node w wf file_mapping node_id node r = (r', None) ->
  cur_status r' !! node_id = Some "success".
Proof.
  unfold execute_node.
  destruct (_execute_node_by_type _ _ _ _ _ _) as [[[result_df|]|e] s]; cbn.
  - destruct (_ || _); cbn.
    + destruct (_save_output _ _ _ _ _) as [[f|e] s']; intros [= <-]; cbn.
      by rewrite lookup_insert_eq.
    + intros [= <-]. cbn. by rewrite lookup_insert_eq.
  - intros [= <-]. cbn. by rewrite lookup_insert_eq.
  - done.
Qed.

Lemma execute_node_error node_id node r r' e :
  execute_node w wf file_mapping node_id node r = (r', Some e) ->
  cur_status r' !! node_id = Some "error" /\
  cur_results r' !! node_id = Some (ResultError e).
Proof.
  unfold execute_node.
  destruct (_execute_node_by_type _ _ _ _ _ _) as [[[result_df|]|e'] s]; cbn.
  - destruct (_ || _); cbn; [|done].
    destruct (_save_output _ _ _ _ _) as [[f|e'] s']; intros [= <- <-]; cbn.
    by rewrite !lookup_insert_eq.
  - done.
  - intros [= <- <-]. cbn. by rewrite !lookup_insert_eq.
Qed.

(** When the operator raises, the round ends in the [except] branch. *)
Lemma execute_node_raise node_id node r e s :
  _execute_node_by_type w (type (node_data node)) (default ∅ (config (node_data node)))
    (collect_inputs (edges wf) node_id r) file_mapping (store r) = (Raise e, s) ->
  execute_node w wf file_mapping node_id node r
  = (node_failed w node_id node e
       (set_store s (log w (start_message (node_label node) node_id) r)), Some e).
Proof.
  intros Hr. unfold execute_node. cbn zeta.
  match goal with
  | |- context [_execute_node_by_type ?a ?b ?c ?d ?e ?f] =>
      change (_execute_node_by_type a b c d e f)
        with (_execute_node_by_type w (type (node_data node))
                (default ∅ (config (node_data node)))
                (collect_inputs (edges wf) node_id r) file_mapping (store r))
  end.
  by rewrite Hr.
Qed.

Lemma run_nodes_app node_map l1 l2 r :
  run_nodes w wf file_mapping node_map (l1 ++ l2) r
  = match run_nodes w wf file_mapping node_map l1 r with
    | (r1, None) => run_nodes w wf file_mapping node_map l2 r1
    | (r1, Some e) => (r1, Some e)
    end.
Proof.
  revert r. induction l1 as [|n l1 IH]; intros r; [done|]. cbn.
  destruct (node_map !! n) as [node|]; [|done].
  by destruct (execute_node _ _ _ _ _ _) as [r1 [e|]].
Qed.

(** Nodes outside the part of the order that ran keep status and result. *)
Lemma run_nodes_other node_map order r k :
  k ∉ order ->
  let r' := (run_nodes w wf file_mapping node_map order r).1 in
  cur_status r' !! k = cur_status r !! k /\ cur_results r' !! k = cur_results r !! k.
Proof.
  revert r. induction order as [|n order IH]; intros r Hk; [done|]. cbn.
  apply not_elem_of_cons in Hk as [Hne Hk].
  destruct (node_map !! n) as [node|]; [|by apply IH].
  pose proof (execute_node_other n node r k Hne) as [Hs Hr]. cbn zeta in *.
  destruct (execute_node _ _ _ _ _ _) as [r1 [e|]]; cbn in *; [done|].
  destruct (IH r1 Hk) as [Hs' Hr']. cbn zeta in *. by rewrite Hs', Hr'.
Qed.

(** Every node of a part of the order that ran through is 'success'. *)
Lemma run_nodes_success node_map order r r' k :
  run_nodes w wf file_mapping node_map order r = (r', None) ->
  k ∈ order -> is_Some (node_map !! k) ->
  cur_status r' !! k = Some "success".
Proof.
  revert r. induction order as [|n order IH]; intros r Hrun Hk Hnode;
    [by apply elem_of_nil in Hk|].
  cbn in Hrun. destruct (decide (k ∈ order)) as [Hin|Hnin].
  - destruct (node_map !! n) as [node|]; [|by eapply IH].
    destruct (execute_node _ _ _ _ _ _) as [r1 [e|]]; [done|]. by eapply IH.
  - apply elem_of_cons in Hk as [->|?]; [|done].
    destruct Hnode as [node Hnode]. rewrite Hnode in Hrun.
    destruct (execute_node _ _ _ _ _ _) as [r1 [e|]] eqn:Hex; [done|].
    pose proof (run_nodes_other node_map order r1 n Hnin) as [Hs _].
    cbn zeta in Hs. rewrite Hrun in Hs. cbn in Hs. rewrite Hs.
    by eapply execute_node_ok.
Qed.
End RunnerFacts.

Section FailFast.
Context `{Pandas} (w : World).

(** C1.  When the operator of a node raises, the run stops there: the
    report has success=false and carries the message; the node is 'error'
    with the message in [node_results]; every node that had not run keeps
    'pending' and has no result; every node that had completed is
    'success' and its entry in [node_results] is the one recorded when it
    completed.  [execute_workflow] returns the report as a value. *)
Theorem fail_fast (wf : Workflow) (file_mapping : gmap string string)
    (done rest : list string) (node_id : string) (node : Node)
    (r1 : Run) (e : string) (s : State) :
  let node_map := dict_of_nodes (fun n => n) (nodes wf) in
  NoDup (id <$> nodes wf) ->
  execution_order wf = done ++ node_id :: rest ->
  run_nodes w wf file_mapping node_map done (initial_run wf) = (r1, None) ->
  node_map !! node_id = Some node ->
  _execute_node_by_type w (type (node_data node)) (default ∅ (config (node_data node)))
    (collect_inputs (edges wf) node_id r1) file_mapping (store r1) = (Raise e, s) ->
  let report := execute_workflow w wf file_mapping in
  success report = false /\ error report = Some e /\
  node_status report !! node_id = Some "error" /\
  node_results report !! node_id = Some (ResultError e) /\
  (forall n, n ∈ nodes wf -> id n ∉ done -> id n <> node_id ->
     node_status report !! id n = Some "pending" /\
     node_results report !! id n = None) /\
  (forall k, k ∈ done ->
     node_status report !! k = Some "success" /\
     node_results report !! k = cur_results r1 !! k) /\
  (forall d1 k d2 rk,
     done = d1 ++ k :: d2 ->
     run_nodes w wf file_mapping node_map (d1 ++ [k]) (initial_run wf) = (rk, None) ->
     node_results report !! k = cur_results rk !! k).
Proof.
  intros node_map Hnd Horder Hdone Hnode Hraise report.
  destruct (execution_order_spec wf Hnd) as (Hnd_order & Hdecl & _).
  rewrite Horder in Hnd_order, Hdecl.
  assert (Hrun : run_workflow w wf file_mapping
            = (node_failed w node_id node e
                 (set_store s (log w (start_message (node_label node) node_id) r1)),
               Some e)).
  { unfold run_workflow. fold node_map. rewrite Horder, run_nodes_app, Hdone.
    cbn [run_nodes]. rewrite Hnode. by rewrite (execute_node_raise w wf _ _ _ _ e s). }
  assert (Hfresh : node_id ∉ done).
  { apply NoDup_app in Hnd_order as (_ & Hd & _). intros Hin.
    apply (Hd _ Hin). set_solver. }
  subst report. unfold execute_workflow. rewrite Hrun. cbn.
  split; [done|]. split; [done|].
  split; [by rewrite lookup_insert_eq|]. split; [by rewrite lookup_insert_eq|].
  split; [|split].
  - intros n Hn Hnotin Hne. rewrite !lookup_insert_ne by done.
    pose proof (run_nodes_other w wf file_mapping node_map done (initial_run wf)
                  (id n) Hnotin) as [Hs Hr].
    cbn zeta in Hs, Hr. rewrite Hdone in Hs, Hr. cbn [fst] in Hs, Hr.
    rewrite Hs, Hr. cbn. split; [|done].
    rewrite dict_of_nodes_const, bool_decide_eq_true_2; [done|].
    apply list_elem_of_fmap. by exists n.
  - intros k Hk.
    assert (k <> node_id) by (by intros ->).
    rewrite !lookup_insert_ne by done. split; [|done].
    eapply run_nodes_success; [exact Hdone|done|].
    apply dict_of_nodes_is_Some, Hdecl. set_solver.
  - intros d1 k d2 rk -> Hrk.
    assert (k <> node_id) by (intros ->; apply Hfresh; set_solver).
    rewrite lookup_insert_ne by done.
    replace (d1 ++ k :: d2) with ((d1 ++ [k]) ++ d2) in Hdone, Hnd_order
      by by rewrite <- app_assoc.
    rewrite run_nodes_app, Hrk in Hdone.
    assert (Hk : k ∉ d2).
    { apply NoDup_app in Hnd_order as (Hnd1 & _).
      apply NoDup_app in Hnd1 as (_ & Hd & _). intros Hin.
      apply (Hd k); set_solver. }
    pose proof (run_nodes_other w wf file_mapping node_map d2 rk k Hk) as [_ Hr].
    cbn zeta in Hr. by rewrite Hdone in Hr.
Qed.
End FailFast.

(** ** Edges with an undeclared end *)

Section Prune.
Context `{Pandas} (w : World) (wf : Workflow) (file_mapping : gmap string string).

Lemma filter_filter_and {A} (p q : A -> bool) (l : list A) :
  List.filter q (List.filter p l) = List.filter (fun x => p x && q x) l.
Proof.
  induction l as [|x l IH]; [done|]. cbn.
  destruct (p x); cbn; [|done]. destruct (q x); by rewrite IH.
Qed.

Lemma successors_prune u :
  successors (nodes wf) (edges (prune wf)) u = successors (nodes wf) (edges wf) u.
Proof.
  unfold successors, prune. cbn. rewrite filter_filter_and. f_equal.
  apply filter_ext. intros e. by destruct (valid_edge _ e).
Qed.

Lemma in_count_prune v :
  in_count (nodes wf) (edges (prune wf)) v = in_count (nodes wf) (edges wf) v.
Proof.
  unfold in_count, prune. cbn. rewrite filter_filter_and. f_equal.
  apply filter_ext. intros e. by destruct (valid_edge _ e).
Qed.

Lemma build_graph_prune : build_graph (prune wf) = build_graph wf.
Proof.
  unfold build_graph.
  destruct (build_graph_aux (nodes wf) (edges wf)) as [Ha Hd].
  destruct (build_graph_aux (nodes (prune wf)) (edges (prune wf))) as [Ha' Hd'].
  cbn zeta in *. apply injective_projections; apply map_eq; intros k.
  - by rewrite Ha, Ha', successors_prune.
  - by rewrite Hd, Hd', in_count_prune.
Qed.

Lemma execution_order_prune : execution_order (prune wf) = execution_order wf.
Proof. unfold execution_order. by rewrite build_graph_prune. Qed.

Lemma collect_inputs_prune node_id r :
  results_declared wf r -> declared (nodes wf) node_id ->
  collect_inputs (edges (prune wf)) node_id r = collect_inputs (edges wf) node_id r.
Proof.
  intros Hr Hn. unfold collect_inputs, prune. cbn.
  induction (edges wf) as [|e es IH]; [done|]. cbn.
  destruct (valid_edge (nodes wf) e) eqn:Hv; cbn; [by rewrite IH|].
  rewrite IH. case_bool_decide as Ht; [|done].
  destruct (ctx_results r !! source e) eqn:Hs; [|done].
  exfalso. unfold valid_edge in Hv. apply andb_false_iff in Hv as [Hv|Hv];
    apply bool_decide_eq_false in Hv; apply Hv; [|by rewrite Ht].
  apply Hr. by eexists.
Qed.

Lemma execute_node_prune node_id node r :
  results_declared wf r -> declared (nodes wf) node_id ->
  execute_node w (prune wf) file_mapping node_id node r
  = execute_node w wf file_mapping node_id node r.
Proof.
  intros Hr Hn. unfold execute_node. cbn zeta.
  by rewrite !collect_inputs_log, collect_inputs_prune.
Qed.

Lemma execute_node_results_declared node_id node r :
  results_declared wf r -> declared (nodes wf) node_id ->
  results_declared wf (execute_node w wf file_mapping node_id node r).1.
Proof.
  intros Hr Hn k. unfold execute_node.
  destruct (_execute_node_by_type _ _ _ _ _ _) as [[[result_df|]|e] s]; cbn.
  - assert (is_Some (<[node_id := result_df]> (ctx_results r) !! k) ->
            declared (nodes wf) k) as Hins.
    { destruct (decide (node_id = k)) as [<-|Hne]; [done|].
      rewrite lookup_insert_ne by done. apply Hr. }
    destruct (_ || _); cbn; [|done].
    by destruct (_save_output _ _ _ _ _) as [[f|e] s'].
  - apply Hr.
  - apply Hr.
Qed.

Lemma run_nodes_prune order r :
  results_declared wf r ->
  run_nodes w (prune wf) file_mapping (dict_of_nodes (fun n => n) (nodes wf)) order r
  = run_nodes w wf file_mapping (dict_of_nodes (fun n => n) (nodes wf)) order r.
Proof.
  revert r. induction order as [|n order IH]; intros r Hr; [done|]. cbn.
  destruct (dict_of_nodes _ _ !! n) as [node|] eqn:Hnode; [|by apply IH].
  assert (Hn : declared (nodes wf) n).
  { apply (dict_of_nodes_is_Some (fun n => n)). by eexists. }
  rewrite execute_node_prune by done.
  pose proof (execute_node_results_declared n node r Hr Hn) as Hr'.
  destruct (execute_node _ _ _ _ _ _) as [r1 [e|]]; [done|]. by apply IH.
Qed.

Lemma execute_workflow_prune :
  execute_workflow w (prune wf) file_mapping = execute_workflow w wf file_mapping.
Proof.
  unfold execute_workflow, run_workflow.
  rewrite execution_order_prune.
  change (nodes (prune wf)) with (nodes wf).
  change (initial_run (prune wf)) with (initial_run wf).
  rewrite run_nodes_prune; [done|].
  intros k [x Hx]. cbn in Hx. by rewrite lookup_empty in Hx.
Qed.
End Prune.

Section GraphShape.
Context `{Pandas} (w : World).

Lemma reach_declared ns es u v : reach ns es u v -> declared ns v.
Proof.
  intros Hr. destruct Hr as [e _ Hv _|x e _ _ Hv _];
    unfold valid_edge in Hv;
    by apply andb_true_iff in Hv as [_ ?%bool_decide_eq_true].
Qed.

Lemma unscheduled_stays_pending wf file_mapping v :
  declared (nodes wf) v -> v ∉ execution_order wf ->
  let report := execute_workflow w wf file_mapping in
  node_status report !! v = Some "pending" /\ node_results report !! v = None.
Proof.
  intros Hd Hv.
  pose proof (run_nodes_other w wf file_mapping (dict_of_nodes (fun n => n) (nodes wf))
                (execution_order wf) (initial_run wf) v Hv) as [Hs Hr].
  cbn zeta in *. unfold execute_workflow, run_workflow.
  destruct (run_nodes _ _ _ _ _ _) as [r [e|]]; cbn in *;
    by rewrite Hs, Hr, dict_of_nodes_const, bool_decide_eq_true_2.
Qed.

(** C2, as the engine has it.  There is no validation pass before the
    nodes run.  (1) An edge with an undeclared end is ignored: the report
    is the one of the document without such edges.  (2) With unique node
    ids, a node on a cycle or downstream of one is never scheduled: it
    stays 'pending' without a result, whatever the run reports.  (3) Arity
    is checked by the two-input operators alone, when they are dispatched:
    with fewer than two available input tables they raise a fixed message
    that names no node; a one-input operator without input returns no
    table; inputs beyond the arity are ignored. *)
Theorem graph_defects_are_not_validated
    (wf : Workflow) (file_mapping : gmap string string) :
  execute_workflow w (prune wf) file_mapping = execute_workflow w wf file_mapping /\
  (NoDup (id <$> nodes wf) ->
   forall v, on_or_after_cycle (nodes wf) (edges wf) v ->
     (v ∉ execution_order wf) /\
     node_status (execute_workflow w wf file_mapping) !! v = Some "pending" /\
     node_results (execute_workflow w wf file_mapping) !! v = None) /\
  (forall t msg config input_dfs s,
     (t, msg) ∈ two_input_types -> length input_dfs < 2 ->
     _execute_node_by_type w (Some t) config input_dfs file_mapping s = (Raise msg, s)) /\
  (forall t config s,
     t ∈ "concat" :: one_input_types ->
     _execute_node_by_type w (Some t) config [] file_mapping s = (Ok None, s)) /\
  (forall t config df extra s,
     t ∈ one_input_types ->
     _execute_node_by_type w (Some t) config (df :: extra) file_mapping s
     = _execute_node_by_type w (Some t) config [df] file_mapping s) /\
  (forall t msg config df1 df2 extra s,
     (t, msg) ∈ two_input_types ->
     _execute_node_by_type w (Some t) config (df1 :: df2 :: extra) file_mapping s
     = _execute_node_by_type w (Some t) config [df1; df2] file_mapping s).
Proof.
  split; [apply execute_workflow_prune|].
  split.
  { intros Hnd v Hv.
    destruct (execution_order_spec wf Hnd) as (_ & _ & Hcyc).
    split; [by apply Hcyc|].
    apply unscheduled_stays_pending; [|by apply Hcyc].
    destruct Hv as (c & Hc & [->|Hv]); by eapply reach_declared. }
  split; [intros; by apply two_inputs_needed|].
  split; [intros; by apply one_input_missing|].
  split; [intros; by apply surplus_inputs_ignored|].
  intros; by eapply surplus_inputs_ignored_2.
Qed.
End GraphShape.

(** ** Two runs of one document *)

Section Determinism.
Context `{Pandas} (w : World) (clock uuid : nat -> string).
Context (wf : Workflow) (file_mapping : gmap string string).

Lemma dispatch_retime node_type config input_dfs s :
  _execute_node_by_type (retime clock uuid w) node_type config input_dfs file_mapping s
  = _execute_node_by_type w node_type config input_dfs file_mapping s.
Proof. reflexivity. Qed.

Lemma save_output_retime df config node_type s :
  is_Some (config !! "filename") ->
  _save_output (retime clock uuid w) df config node_type s
  = _save_output w df config node_type s.
Proof. intros [v Hv]. unfold _save_output. by rewrite Hv. Qed.

Lemma same_run_log r r' message :
  same_run r r' -> same_run (log w message r) (log (retime clock uuid w) message r').
Proof.
  intros []. split; cbn; try done.
  apply Forall2_app; [done|]. constructor; [|done].
  by eexists _, _, _.
Qed.

Lemma execute_node_retime node_id node r r' :
  node ∈ nodes wf -> filenames_given wf -> same_run r r' ->
  let o := execute_node w wf file_mapping node_id node r in
  let o' := execute_node (retime clock uuid w) wf file_mapping node_id node r' in
  same_run o.1 o'.1 /\ o.2 = o'.2.
Proof.
  intros Hnode Hfiles Hsame. unfold execute_node. cbn zeta.
  rewrite dispatch_retime.
  pose proof (same_run_log r r' (start_message (node_label node) node_id) Hsame) as Hlog.
  unfold start_message in Hlog.
  set (r0 := log w _ r) in *. set (r0' := log (retime clock uuid w) _ r') in *.
  assert (Hin : collect_inputs (edges wf) node_id r0'
                = collect_inputs (edges wf) node_id r0).
  { unfold collect_inputs. by rewrite (same_ctx_results _ _ Hlog). }
  rewrite Hin, <- (same_store _ _ Hlog).
  destruct (_execute_node_by_type _ _ _ _ _ _) as [[[result_df|]|e] s].
  - set (m := "节点 " +:+ _ +:+ " 执行成功，输出 " +:+ _ +:+ " 行数据").
    assert (Hset : same_run (set_result node_id result_df (set_store s r0))
                            (set_result node_id result_df (set_store s r0'))).
    { destruct Hlog. split; cbn; try done. by f_equal. }
    pose proof (same_run_log _ _ m Hset) as Hm.
    set (r2 := log w m _) in *. set (r2' := log (retime clock uuid w) m _) in *.
    assert (Hdone : same_run
              (set_node_result node_id (ResultTable (table_of (heap s !!! result_df)
                                                              (heap s !!! result_df)))
                 (set_status node_id "success" r2))
              (set_node_result node_id (ResultTable (table_of (heap s !!! result_df)
                                                              (heap s !!! result_df)))
                 (set_status node_id "success" r2'))).
    { destruct Hm. split; cbn; try done; by f_equal. }
    destruct (_ || _) eqn:Hout; [|done].
    rewrite save_output_retime; last first.
    { apply Hfiles; [done|]. apply orb_true_iff in Hout.
      destruct Hout as [?%bool_decide_eq_true|?%bool_decide_eq_true]; [by left|by right]. }
    cbn [store set_node_result set_status].
    replace (store r2') with (store r2) by by destruct Hm.
    destruct (_save_output _ _ _ _ _) as [[f|e] s'].
    + split; [|done]. destruct Hdone. by split.
    + split; [|done]. cbn [fst]. unfold node_failed.
      apply same_run_log. destruct Hdone. split; cbn in *; try done; by f_equal.
  - split; [|done]. destruct Hlog. split; cbn; try done; by f_equal.
  - split; [|done]. cbn [fst]. unfold node_failed. apply same_run_log.
    destruct Hlog. split; cbn; try done; by f_equal.
Qed.

Lemma run_nodes_retime order r r' :
  filenames_given wf -> same_run r r' ->
  let node_map := dict_of_nodes (fun n => n) (nodes wf) in
  let o := run_nodes w wf file_mapping node_map order r in
  let o' := run_nodes (retime clock uuid w) wf file_mapping node_map order r' in
  same_run o.1 o'.1 /\ o.2 = o'.2.
Proof.
  intros Hfiles. revert r r'. induction order as [|n order IH]; intros r r' Hsame;
    [done|].
  cbn. destruct (dict_of_nodes _ _ !! n) as [node|] eqn:Hnode; [|by apply IH].
  assert (Hin : node ∈ nodes wf).
  { by apply dict_of_nodes_Some in Hnode as (n' & ? & ? & ->). }
  pose proof (execute_node_retime n node r r' Hin Hfiles Hsame) as [Hs Ho].
  cbn zeta in Hs, Ho.
  destruct (execute_node w _ _ _ _ _) as [r1 o1].
  destruct (execute_node (retime _ _ _) _ _ _ _ _) as [r1' o1'].
  cbn in Hs, Ho. subst o1'. destruct o1 as [e|]; [done|]. by apply IH.
Qed.

(** C7, as the engine has it.  Run the same document twice on the same
    stored files, with the same replies of the chat endpoint and of the
    code nodes, and let every output node name its file: whatever the
    clock and the uuid source of the second run, the two reports agree on
    success, error, node_status, node_results, preview and output
    filename, and their logs agree entry by entry up to the timestamp. *)
Theorem rerun_agrees_up_to_timestamps :
  filenames_given wf ->
  let report := execute_workflow w wf file_mapping in
  let report' := execute_workflow (retime clock uuid w) wf file_mapping in
  success report = success report' /\
  error report = error report' /\
  node_status report = node_status report' /\
  node_results report = node_results report' /\
  preview report = preview report' /\
  output_file report = output_file report' /\
  Forall2 same_message (logs report) (logs report').
Proof.
  intros Hfiles.
  assert (Hinit : same_run (initial_run wf) (initial_run wf)) by (by split).
  pose proof (run_nodes_retime (execution_order wf) _ _ Hfiles Hinit) as [Hs Ho].
  cbn zeta in *. unfold execute_workflow, run_workflow.
  destruct (run_nodes w _ _ _ _ _) as [r o].
  destruct (run_nodes (retime _ _ _) _ _ _ _ _) as [r' o'].
  cbn in Hs, Ho. subst o'. destruct Hs. by destruct o.
Qed.
End Determinism.

(** ** Frame rules of the heap monad *)

Section FrameRules.
Context {A B : Type} (n : nat).
Implicit Types (Q : A -> Prop).

Lemma preserves_ret (a : A) Q : Q a -> preserves n (mret a) Q.
Proof. intros HQ s Hs. by cbn. Qed.

Lemma preserves_raise msg Q : preserves n (raise msg : M A) Q.
Proof. intros s Hs. by cbn. Qed.

Lemma preserves_lift (o : outcome A) Q :
  (forall a, o = Ok a -> Q a) -> preserves n (lift o) Q.
Proof. intros HQ s Hs. cbn. destruct o; auto. Qed.

Lemma preserves_bind (m : M A) (f : A -> M B) (Q : B -> Prop) :
  preserves n m (fun a => preserves n (f a) Q) -> preserves n (m ≫= f) Q.
Proof.
  intros Hm s Hs. destruct (Hm s Hs) as (Hlen & Htake & Hres).
  unfold mbind, M_bind. destruct (m s) as [[a|e] s']; cbn in *; [|done].
  destruct (Hres s' Hlen) as (Hlen' & Htake' & Hres').
  split; [done|]. split; [|done]. by rewrite Htake'.
Qed.

Lemma preserves_conseq (m : M A) (P Q : A -> Prop) :
  preserves n m P -> (forall a, P a -> Q a) -> preserves n m Q.
Proof.
  intros Hm HPQ s Hs. destruct (Hm s Hs) as (Hlen & Htake & Hres).
  split; [done|]. split; [done|]. destruct ((m s).1); auto.
Qed.

Lemma preserves_try (m : M A) (h : string -> M A) Q :
  preserves n m Q -> (forall e, preserves n (h e) Q) ->
  preserves n (try_except m h) Q.
Proof.
  intros Hm Hh s Hs. destruct (Hm s Hs) as (Hlen & Htake & Hres).
  unfold try_except. destruct (m s) as [[a|e] s']; cbn in *; [done|].
  destruct (Hh e s' Hlen) as (Hlen' & Htake' & Hres').
  split; [done|]. split; [|done]. by rewrite Htake'.
Qed.
End FrameRules.

Section FramePrimitives.
Context (n : nat).

Lemma preserves_for_each {A} (l : list A) (body : A -> M unit) (Q : unit -> Prop) :
  (forall x, preserves n (body x) (fun _ => True)) -> Q tt ->
  preserves n (for_each l body) Q.
Proof.
  intros Hbody HQ. induction l as [|x l IH]; [by apply preserves_ret|].
  cbn. apply preserves_bind. eapply preserves_conseq; [apply Hbody|]. by intros.
Qed.

Lemma preserves_new d (Q : ref -> Prop) :
  (forall r, n <= r -> Q r) -> preserves n (df_new d) Q.
Proof.
  intros HQ s Hs. cbn. rewrite length_app. split; [lia|].
  split; [by rewrite take_app_le|]. by apply HQ.
Qed.

Lemma preserves_get r (Q : DataFrame -> Prop) :
  (forall d, Q d) -> preserves n (df_get r) Q.
Proof. intros HQ s Hs. by cbn. Qed.

(** A write is safe on a frame that is not among the first [n]. *)
Lemma preserves_put r d (Q : unit -> Prop) :
  n <= r -> Q tt -> preserves n (df_put r d) Q.
Proof.
  intros Hr HQ s Hs. cbn. rewrite length_insert. split; [done|].
  split; [by rewrite take_insert_ge|done].
Qed.

Lemma preserves_copy r (Q : ref -> Prop) :
  (forall r', n <= r' -> Q r') -> preserves n (df_copy r) Q.
Proof. intros HQ. apply preserves_bind, preserves_get. intros d. by apply preserves_new. Qed.

Lemma preserves_setitem r c vals (Q : unit -> Prop) :
  n <= r -> Q tt -> preserves n (setitem r c vals) Q.
Proof. intros Hr HQ. apply preserves_bind, preserves_get. intros d. by apply preserves_put. Qed.

Lemma preserves_call f r (Q : ref -> Prop) :
  (forall r', n <= r' -> Q r') -> preserves n (df_call f r) Q.
Proof.
  intros HQ. apply preserves_bind, preserves_get. intros d.
  apply preserves_bind, preserves_lift. intros d' _. by apply preserves_new.
Qed.

Lemma preserves_series_call f r c (Q : list cell -> Prop) :
  (forall v, Q v) -> preserves n (series_call f r c) Q.
Proof.
  intros HQ. apply preserves_bind, preserves_get. intros d.
  apply preserves_lift. auto.
Qed.
End FramePrimitives.

(** ** No operator writes to a frame it was given *)

Lemma coerce_key_to_text_preserves `{Pandas} n df c (Q : unit -> Prop) :
  n <= df -> Q tt -> preserves n (coerce_key_to_text df c) Q.
Proof.
  intros Hdf HQ. unfold coerce_key_to_text.
  apply preserves_bind, preserves_get. intros d. by apply preserves_setitem.
Qed.

Ltac frame_step :=
  cbn beta;
  lazymatch goal with
  | |- preserves _ (mret _) _ => apply preserves_ret
  | |- preserves _ (raise _) _ => apply preserves_raise
  | |- preserves _ (_ ≫= _) _ => apply preserves_bind
  | |- preserves _ (df_copy _) _ => apply preserves_copy; intros ? ?
  | |- preserves _ (df_new _) _ => apply preserves_new; intros ? ?
  | |- preserves _ (df_get _) _ => apply preserves_get; intros ?
  | |- preserves _ (df_call _ _) _ => apply preserves_call; intros ? ?
  | |- preserves _ (series_call _ _ _) _ => apply preserves_series_call; intros ?
  | |- preserves _ (setitem _ _ _) _ => apply preserves_setitem; [assumption|]
  | |- preserves _ (coerce_key_to_text _ _) _ =>
      apply coerce_key_to_text_preserves; [assumption|]
  | |- preserves _ (df_put _ _) _ => apply preserves_put; [assumption|]
  | |- preserves _ (lift _) _ => apply preserves_lift; intros ? _
  | |- preserves _ (try_except _ _) _ => apply preserves_try; [|intros ?]
  | |- preserves _ (for_each _ _) _ => apply preserves_for_each; [intros ?|]
  | |- preserves _ (match ?x with _ => _ end) _ => destruct x
  | |- preserves _ (if ?b then _ else _) _ => destruct b
  | |- True => exact I
  end.

Ltac frame := cbv zeta; repeat frame_step.

Section OperatorsPreserve.
Context `{Pandas} (w : World) (n : nat).

Lemma source_preserves config file_mapping :
  preserves n (_execute_source w config file_mapping) (fun _ => True).
Proof. unfold _execute_source. frame. Qed.

Lemma source_csv_preserves config file_mapping :
  preserves n (_execute_source_csv w config file_mapping) (fun _ => True).
Proof. unfold _execute_source_csv. frame. Qed.

Lemma transform_preserves df config :
  preserves n (_execute_transform df config) (fun _ => True).
Proof. unfold _execute_transform. frame. Qed.

Lemma type_convert_preserves df config :
  preserves n (_execute_type_convert df config) (fun _ => True).
Proof. unfold _execute_type_convert, attempt. frame. Qed.

Lemma fill_na_preserves df config :
  preserves n (_execute_fill_na df config) (fun _ => True).
Proof. unfold _execute_fill_na, update_columns, getitem. frame. Qed.

Lemma deduplicate_preserves df config :
  preserves n (_execute_deduplicate df config) (fun _ => True).
Proof. unfold _execute_deduplicate. frame. Qed.

Lemma text_process_preserves df config :
  preserves n (_execute_text_process df config) (fun _ => True).
Proof. unfold _execute_text_process. frame. Qed.

Lemma date_process_preserves df config :
  preserves n (_execute_date_process df config) (fun _ => True).
Proof. unfold _execute_date_process. frame. Qed.

Lemma group_aggregate_preserves df config :
  preserves n (_execute_group_aggregate df config) (fun _ => True).
Proof. unfold _execute_group_aggregate. frame. Qed.

Lemma pivot_preserves df config :
  preserves n (_execute_pivot df config) (fun _ => True).
Proof. unfold _execute_pivot. frame. Qed.

Lemma unpivot_preserves df config :
  preserves n (_execute_unpivot df config) (fun _ => True).
Proof. unfold _execute_unpivot. frame. Qed.

Lemma drop_right_keys_preserves keys result (Q : ref -> Prop) :
  (forall r, Q r) -> preserves n (drop_right_keys keys result) Q.
Proof.
  intros HQ. revert result. induction keys as [|[l r] keys IH]; intros result.
  - by apply preserves_ret.
  - cbn. unfold drop_right_key. frame; apply IH.
Qed.

Lemma join_preserves df1 df2 config :
  preserves n (_execute_join df1 df2 config) (fun _ => True).
Proof.
  unfold _execute_join, coerce_keys, df_merge. frame;
    by apply drop_right_keys_preserves.
Qed.

Lemma mapM_get_preserves dfs (Q : list DataFrame -> Prop) :
  (forall ds, Q ds) -> preserves n (mapM df_get dfs) Q.
Proof.
  intros HQ. revert Q HQ. induction dfs as [|df dfs IH]; intros Q HQ.
  - by apply preserves_ret.
  - cbn. frame. apply IH. intros ds. by apply preserves_ret.
Qed.

Lemma concat_preserves dfs config :
  preserves n (_execute_concat dfs config) (fun _ => True).
Proof. unfold _execute_concat. frame. apply mapM_get_preserves. intros ds. frame. Qed.

Lemma vlookup_preserves main_df lookup_df config :
  preserves n (_execute_vlookup main_df lookup_df config) (fun _ => True).
Proof.
  unfold _execute_vlookup, df_merge, drop_right_key. frame.
Qed.

Lemma diff_preserves df1 df2 config :
  preserves n (_execute_diff df1 df2 config) (fun _ => True).
Proof. unfold _execute_diff. frame; apply concat_preserves. Qed.

Lemma reconcile_preserves detail_df summary_df config :
  preserves n (_execute_reconcile detail_df summary_df config) (fun _ => True).
Proof.
  unfold _execute_reconcile, check_join_keys, coerce_join_keys, compare_amounts,
    df_merge, getitem.
  frame.
Qed.

Lemma simple_ai_call_preserves prompt (Q : string -> Prop) :
  (forall a, Q a) -> preserves n (_simple_ai_call w prompt) Q.
Proof.
  intros HQ s Hs. unfold _simple_ai_call, mbind, M_bind, lift.
  destruct (import_httpx w); cbn; [|done].
  destruct (http_post w _ _) as [status text [result|]|msg];
    try destruct (bool_decide _); cbn; auto.
Qed.

Lemma ask_rows_preserves d prompt_template rs (Q : list cell -> Prop) :
  (forall v, Q v) -> preserves n (ask_rows w d prompt_template rs) Q.
Proof.
  intros HQ. revert Q HQ. induction rs as [|row rs IH]; intros Q HQ.
  - by apply preserves_ret.
  - assert (Hrest : forall a : string,
              preserves n (results ← ask_rows w d prompt_template rs;
                           mret (Str a :: results)) Q).
    { intros a. apply preserves_bind, IH. intros v. by apply preserves_ret. }
    cbn. apply preserves_bind, preserves_try.
    + by apply simple_ai_call_preserves.
    + intros e. by apply preserves_ret.
Qed.

Lemma ai_agent_preserves df config :
  preserves n (_execute_ai_agent w df config) (fun _ => True).
Proof.
  unfold _execute_ai_agent. frame. apply ask_rows_preserves. intros v. frame.
Qed.
End OperatorsPreserve.

Section InputsUnchanged.
Context `{Pandas} (w : World).

Lemma returned_preserves n (m : M ref) :
  preserves n m (fun _ => True) ->
  preserves n (r ← m; mret (Some r)) (fun _ => True).
Proof.
  intros Hm. apply preserves_bind. eapply preserves_conseq; [exact Hm|].
  intros r _. by apply preserves_ret.
Qed.

Lemma unary_preserves n op config input_dfs :
  (forall df, preserves n (op df config) (fun _ => True)) ->
  preserves n (unary op config input_dfs) (fun _ => True).
Proof.
  intros Hop. destruct input_dfs as [|df rest]; [by apply preserves_ret|].
  by apply returned_preserves.
Qed.

Lemma binary_preserves n msg op config input_dfs :
  (forall df1 df2, preserves n (op df1 df2 config) (fun _ => True)) ->
  preserves n (binary msg op config input_dfs) (fun _ => True).
Proof.
  intros Hop. destruct input_dfs as [|df1 [|df2 rest]]; try apply preserves_raise.
  by apply returned_preserves.
Qed.

Lemma dispatcher_preserves n node_type config input_dfs file_mapping :
  node_type <> Some "code" ->
  preserves n (_execute_node_by_type w node_type config input_dfs file_mapping)
            (fun _ => True).
Proof.
  intros Hcode. destruct node_type as [t|]; [|by apply preserves_ret].
  assert (t <> "code") by congruence.
  unfold _execute_node_by_type.
  repeat (case_bool_decide;
          [first [ done
                 | apply returned_preserves;
                   first [apply source_preserves | apply source_csv_preserves]
                 | apply unary_preserves; intros df;
                   first [ apply transform_preserves | apply type_convert_preserves
                         | apply fill_na_preserves | apply deduplicate_preserves
                         | apply text_process_preserves | apply date_process_preserves
                         | apply group_aggregate_preserves | apply pivot_preserves
                         | apply unpivot_preserves | apply ai_agent_preserves ]
                 | apply binary_preserves; intros df1 df2;
                   first [ apply join_preserves | apply vlookup_preserves
                         | apply diff_preserves | apply reconcile_preserves ]
                 | destruct input_dfs;
                   [by apply preserves_ret|apply returned_preserves, concat_preserves] ]
          |]).
  destruct (_ || _); by apply preserves_ret.
Qed.

Lemma preserves_prefix {A} (m : M A) (Q : A -> Prop) s :
  preserves (length (heap s)) m Q -> heap s `prefix_of` heap (m s).2.
Proof.
  intros Hm. destruct (Hm s (le_n _)) as (Hlen & Htake & _).
  rewrite firstn_all in Htake. rewrite <- Htake. apply prefix_take.
Qed.

Lemma save_output_heap df config node_type s :
  heap (_save_output w df config node_type s).2 = heap s.
Proof.
  unfold _save_output. cbn zeta.
  destruct (config !! "filename") as [v|]; [destruct (as_str (Some v))|];
    cbn; try done; by destruct (write_file w _ _).
Qed.

Lemma execute_node_prefix wf file_mapping node_id node r :
  type (node_data node) <> Some "code" ->
  heap (store r) `prefix_of` heap (store (execute_node w wf file_mapping node_id node r).1).
Proof.
  intros Hcode. unfold execute_node. cbn zeta.
  match goal with
  | |- context [_execute_node_by_type ?a ?b ?c ?d ?e ?f] =>
      pose proof (preserves_prefix (_execute_node_by_type a b c d e) (fun _ => True) f
                    (dispatcher_preserves _ b c d e Hcode)) as Hp;
      destruct (_execute_node_by_type a b c d e f) as [[[result_df|]|e'] s]
  end; cbn in *; try done.
  destruct (_ || _); cbn; [|done].
  match goal with
  | |- context [_save_output ?a ?b ?c ?d ?e] =>
      pose proof (save_output_heap b c d e) as Hs;
      destruct (_save_output a b c d e) as [[f|e'] s']
  end; cbn in *; by rewrite Hs.
Qed.

Lemma run_nodes_prefix wf file_mapping node_map order r :
  (forall k node, node_map !! k = Some node -> type (node_data node) <> Some "code") ->
  heap (store r)
    `prefix_of` heap (store (run_nodes w wf file_mapping node_map order r).1).
Proof.
  intros Hcode. revert r. induction order as [|k order IH]; intros r; [done|].
  cbn. destruct (node_map !! k) as [node|] eqn:Hnode; [|apply IH].
  pose proof (execute_node_prefix wf file_mapping k node r (Hcode _ _ Hnode)) as Hp.
  destruct (execute_node _ _ _ _ _ _) as [r1 [e|]]; cbn in *; [done|].
  etrans; [exact Hp|apply IH].
Qed.

(** C9.  An operator other than the code node never writes to a frame
    object that existed when it was called: after the dispatcher has run
    it, the heap is the heap of before, followed by the frames the
    operator created.  Hence a round of the runner, and any number of
    rounds without a code node, leave the value of every stored result as
    it was. *)
Theorem operators_leave_inputs_unchanged
    (wf : Workflow) (file_mapping : gmap string string) :
  (forall node_type config input_dfs s,
     node_type <> Some "code" ->
     heap s `prefix_of`
       heap (_execute_node_by_type w node_type config input_dfs file_mapping s).2) /\
  (forall node_id node r,
     type (node_data node) <> Some "code" ->
     forall k df d,
       ctx_results r !! k = Some df -> heap (store r) !! df = Some d ->
       heap (store (execute_node w wf file_mapping node_id node r).1) !! df = Some d) /\
  (forall order r,
     (forall n, n ∈ nodes wf -> type (node_data n) <> Some "code") ->
     forall k df d,
       ctx_results r !! k = Some df -> heap (store r) !! df = Some d ->
       heap (store (run_nodes w wf file_mapping (dict_of_nodes (fun n => n) (nodes wf))
                              order r).1) !! df = Some d).
Proof.
  split; [|split].
  - intros node_type config input_dfs s Hcode.
    eapply preserves_prefix. by apply dispatcher_preserves.
  - intros node_id node r Hcode k df d _ Hd.
    by eapply prefix_lookup_Some, execute_node_prefix.
  - intros order r Hcode k df d _ Hd.
    eapply prefix_lookup_Some; [exact Hd|]. apply run_nodes_prefix.
    intros k' node (n & Hn & _ & ->)%dict_of_nodes_Some. by apply Hcode.
Qed.
End InputsUnchanged.

(** ** What an operator returns *)

Section Yields.
Implicit Types (s : State) (r : ref) (d : DataFrame).

Lemma holds_new s d : holds (with_heap s (heap s ++ [d])) (length (heap s)) d.
Proof.
  split; cbn.
  - rewrite length_app. cbn. lia.
  - rewrite lookup_total_app_r by done. by rewrite Nat.sub_diag.
Qed.

Lemma holds_put s r d d' :
  holds s r d -> holds (with_heap s (<[r := d']> (heap s))) r d'.
Proof.
  intros [Hr _]. split; cbn.
  - by rewrite length_insert.
  - by rewrite list_lookup_total_insert_eq.
Qed.

Lemma yields_value res v : yields res v -> value_of res = v.
Proof.
  destruct v as [d|e]; cbn.
  - by intros (r & s & -> & _ & <-).
  - by intros (s & ->).
Qed.

Lemma yields_ret s r d : holds s r d -> yields ((mret r : M ref) s) (Ok d).
Proof. intros Hd. by exists r, s. Qed.

Lemma yields_call f s r d : holds s r d -> yields (df_call f r s) (f d).
Proof.
  intros [Hr Hd]. unfold df_call, mbind, M_bind, df_get, lift. rewrite Hd.
  destruct (f d) as [d'|e]; cbn; [|by eexists].
  eexists _, _. split; [done|]. apply holds_new.
Qed.

Lemma yields_bind (m : M ref) (k : ref -> M ref) s v (g : DataFrame -> outcome DataFrame) :
  yields (m s) v ->
  (forall r' s' d', holds s' r' d' -> yields (k r' s') (g d')) ->
  yields ((m ≫= k) s) (v ≫= g).
Proof.
  intros Hm Hk. unfold mbind at 1. unfold M_bind. destruct v as [d|e]; cbn in *.
  - destruct Hm as (r & s' & -> & Hd). by apply Hk.
  - destruct Hm as (s' & ->). by eexists.
Qed.

Lemma setitem_holds s r d c vals :
  holds s r d ->
  exists s', setitem r c vals s = (Ok tt, s') /\ holds s' r (set_column d c vals).
Proof.
  intros Hd. unfold setitem, mbind, M_bind, df_get, df_put.
  eexists. split; [done|]. destruct Hd as [Hr <-]. by apply (holds_put s r (heap s !!! r)).
Qed.
End Yields.

(** ** [transform] *)

Section TransformFacts.
Context `{Pandas}.
Implicit Types (s : State) (r df : ref) (d : DataFrame) (config : Config).

Lemma keep_columns_ext (p q : string -> bool) d :
  (forall c, c ∈ columns d -> p c = q c) -> keep_columns p d = keep_columns q d.
Proof.
  intros Hpq. unfold keep_columns.
  assert (Hmask : p <$> columns d = q <$> columns d).
  { apply list_fmap_ext. intros i c Hc. apply Hpq. by eapply list_elem_of_lookup_2. }
  by rewrite Hmask.
Qed.

(** Names that are not columns make no difference to [drop]. *)
Lemma drop_existing d names :
  drop d (List.filter (has_column d) names) = drop d names.
Proof.
  unfold drop. apply keep_columns_ext. intros c Hc. f_equal.
  apply bool_decide_ext. rewrite !list_elem_of_In, filter_In, <- !list_elem_of_In.
  unfold has_column. rewrite bool_decide_eq_true. naive_solver.
Qed.

Lemma rename_nil d : rename d [] = d.
Proof.
  unfold rename. cbn. destruct d as [cols rs]. cbn. f_equal.
  induction cols as [|c cols IH]; [done|]. cbn. by rewrite lookup_empty, IH.
Qed.

Lemma copy_bind {B} r (k : ref -> M B) s :
  (df_copy r ≫= k) s = k (length (heap s)) (with_heap s (heap s ++ [heap s !!! r])).
Proof. reflexivity. Qed.

Lemma bind_ok {A B} (m : M A) (k : A -> M B) s a s' :
  m s = (Ok a, s') -> (m ≫= k) s = k a s'.
Proof. intros Hm. unfold mbind, M_bind. by rewrite Hm. Qed.

Lemma get_bind {B} r (k : DataFrame -> M B) s :
  (df_get r ≫= k) s = k (heap s !!! r) s.
Proof. reflexivity. Qed.

(** The loop over the calculations writes the columns of [calc_step] into
    the frame, in place, and never raises. *)
Lemma calc_loop_holds df (calcs : list Config) s d :
  holds s df d ->
  exists s',
    for_each calcs (fun calc =>
      match as_name (calc !! "target"), as_name (calc !! "formula") with
      | Some target, Some formula =>
          try_except
            (d ← df_get df; v ← lift (pd_eval d formula); setitem df target v)
            (fun _ => mret tt)
      | _, _ => mret tt
      end) s = (Ok tt, s')
    /\ holds s' df (foldl calc_one d calcs).
Proof.
  revert s d. induction calcs as [|calc calcs IH]; intros s d Hd; [by exists s|].
  cbn [for_each foldl]. unfold calc_one at 2.
  destruct (as_name (calc !! "target")) as [target|];
    [destruct (as_name (calc !! "formula")) as [formula|]|].
  - unfold mbind at 1. unfold M_bind, try_except. rewrite get_bind.
    destruct Hd as [Hr Hd]. rewrite Hd.
    unfold mbind at 1. unfold M_bind, lift.
    destruct (pd_eval d formula) as [v|e].
    + destruct (setitem_holds s df d target v (conj Hr Hd)) as (s' & -> & Hd').
      by apply IH.
    + by apply IH.
  - by apply IH.
  - by apply IH.
Qed.

(** The operator computes the six steps, in their order. *)
Lemma transform_yields df config s :
  yields (_execute_transform df config s) (transform_steps config (heap s !!! df)).
Proof.
  unfold _execute_transform, transform_steps. cbv zeta. rewrite copy_bind.
  pose proof (holds_new s (heap s !!! df)) as H1.
  generalize dependent (with_heap s (heap s ++ [heap s !!! df])).
  generalize (length (heap s)). generalize (heap s !!! df). clear s df.
  intros d1 r1 s1 H1.
  (* filter *)
  apply yields_bind.
  { unfold filter_step. destruct (as_name (config !! "filter_code")) as [e|];
      [by apply (yields_call (fun d => pd_query d e))|by apply yields_ret]. }
  clear. intros r2 s2 d2 H2.
  (* drop *)
  apply yields_bind.
  { unfold drop_step. cbv zeta. case_bool_decide; [by apply yields_ret|].
    rewrite <- drop_existing.
    by apply (yields_call (fun d => Ok (drop d (List.filter (has_column d) _)))). }
  clear. intros r3 s3 d3 H3.
  (* calculations *)
  destruct (calc_loop_holds r3 (as_dicts (config !! "calculations")) s3 d3 H3)
    as (s4 & Hloop & H4).
  rewrite (bind_ok _ _ _ _ _ Hloop). unfold calc_step. cbn [mbind outcome_bind].
  clear Hloop H3.
  (* rename *)
  apply yields_bind.
  { unfold rename_step. case_bool_decide as Hmap.
    - rewrite Hmap, rename_nil. by apply yields_ret.
    - by apply (yields_call (fun d => Ok (rename d _))). }
  clear. intros r5 s5 d5 H5.
  (* select *)
  apply yields_bind.
  { unfold select_step, surviving. case_bool_decide as Hsel.
    - rewrite Hsel. cbn. by apply yields_ret.
    - rewrite get_bind. destruct H5 as [Hr Hd]. rewrite Hd.
      case_bool_decide; [by apply yields_ret|].
      by apply (yields_call (fun d => select d _)). }
  clear. intros r6 s6 d6 H6.
  (* sort *)
  rewrite get_bind. unfold sort_step, sort_ascending.
  destruct H6 as [Hr Hd]. rewrite Hd.
  destruct (as_name (config !! "sort_by")) as [sort_by|]; [|by apply yields_ret].
  destruct (has_column d6 sort_by); [|by apply yields_ret].
  by apply (yields_call (fun d => pd_sort_values d sort_by _)).
Qed.
End TransformFacts.

(** ** Columns by label *)

Section Select.
Implicit Types (d : DataFrame) (c : string) (cols cs : list string).

Lemma index_of_app_r c (pre cols : list string) :
  c ∉ pre -> index_of c (pre ++ cols) = (fun i => length pre + i) <$> index_of c cols.
Proof.
  intros Hc. induction pre as [|k pre IH]; cbn.
  - by destruct (index_of c cols).
  - apply not_elem_of_cons in Hc as [Hk Hc].
    rewrite bool_decide_eq_false_2 by done. rewrite IH by done.
    by destruct (index_of c cols).
Qed.

Lemma index_of_is_Some c cols : c ∈ cols -> is_Some (index_of c cols).
Proof.
  induction cols as [|c' cols IH]; [by intros ?%elem_of_nil|].
  intros Hc. cbn. case_bool_decide as Heq; [done|].
  apply elem_of_cons in Hc as [->|Hc]; [done|].
  destruct (IH Hc) as [i ->]. by eexists.
Qed.

Lemma index_of_None c cols : c ∉ cols -> index_of c cols = None.
Proof.
  induction cols as [|c' cols IH]; [done|]. intros [Hne Hc]%not_elem_of_cons. cbn.
  rewrite bool_decide_eq_false_2 by done. by rewrite IH.
Qed.

Lemma indices_from_first k c cols i :
  index_of c cols = Some i -> exists rest, indices_from k c cols = (k + i) :: rest.
Proof.
  revert k i. induction cols as [|c' cols IH]; intros k i; [done|]. cbn.
  case_bool_decide as Heq.
  - intros [= <-]. rewrite Nat.add_0_r. by eexists.
  - destruct (index_of c cols) as [j|]; [|done]. intros [= <-].
    destruct (IH (S k) j eq_refl) as [rest ->]. exists rest. f_equal. lia.
Qed.

Lemma indices_from_length k c cols :
  length (indices_from k c cols) = occurrences c cols.
Proof.
  revert k. unfold occurrences. induction cols as [|c' cols IH]; intros k; [done|].
  cbn. case_bool_decide; cbn; by rewrite IH.
Qed.

Lemma indices_from_absent k c cols : c ∉ cols -> indices_from k c cols = [].
Proof.
  revert k. induction cols as [|c' cols IH]; intros k Hc; [done|].
  apply not_elem_of_cons in Hc as [Hne Hc]. cbn.
  rewrite bool_decide_eq_false_2 by done. by apply IH.
Qed.

Lemma indices_from_unique k c cols i :
  NoDup cols -> index_of c cols = Some i -> indices_from k c cols = [k + i].
Proof.
  intros Hnd. revert k i.
  induction Hnd as [|c' cols Hc' Hnd IH]; intros k i; [done|]. cbn.
  case_bool_decide as Heq.
  - subst c'. intros [= <-]. rewrite indices_from_absent by done. by rewrite Nat.add_0_r.
  - destruct (index_of c cols) as [j|] eqn:Hj; [|done]. intros [= <-].
    rewrite (IH (S k) j eq_refl). f_equal. lia.
Qed.

(** With unique labels a label names one column. *)
Lemma indices_of_unique c cols i :
  NoDup cols -> index_of c cols = Some i -> indices_of c cols = [i].
Proof. intros Hnd Hi. unfold indices_of. by rewrite (indices_from_unique 0 c cols i). Qed.

Lemma occurrences_pos c cols : c ∈ cols -> 0 < occurrences c cols.
Proof.
  unfold occurrences. induction cols as [|c' cols IH]; [by intros ?%elem_of_nil|].
  intros Hc. cbn. case_bool_decide as Heq; cbn; [lia|].
  apply elem_of_cons in Hc as [->|Hc]; [done|]. by apply IH.
Qed.

Lemma occurrences_unique c cols : NoDup cols -> c ∈ cols -> occurrences c cols = 1.
Proof.
  intros Hnd Hc. destruct (index_of_is_Some c cols Hc) as [i Hi].
  rewrite <- (indices_from_length 0). fold (indices_of c cols).
  by rewrite (indices_of_unique c cols i).
Qed.

Lemma picked_of_Some cols c :
  c ∈ cols ->
  exists i rest,
    index_of c cols = Some i /\
    picked_of cols c = Some ((c, i) :: ((fun j => (c, j)) <$> rest)) /\
    S (length rest) = occurrences c cols.
Proof.
  intros Hc. destruct (index_of_is_Some c cols Hc) as [i Hi].
  destruct (indices_from_first 0 c cols i Hi) as [rest Hrest].
  exists i, rest. split; [done|]. unfold picked_of, indices_of.
  pose proof (indices_from_length 0 c cols) as Hlen. rewrite Hrest in Hlen |- *.
  by split.
Qed.

Lemma select_picked d cs picked :
  mapM (picked_of (columns d)) cs = Some picked ->
  select d cs
  = Ok (mkDF (fst <$> concat picked)
             ((fun r : list cell => (fun p : string * nat => r !!! p.2) <$> concat picked)
                <$> rows d)).
Proof. intros Hp. unfold select. by rewrite Hp. Qed.

Lemma mapM_picked cols cs :
  Forall (fun c => c ∈ cols) cs ->
  exists picked,
    mapM (picked_of cols) cs = Some picked /\
    fst <$> concat picked = (c ← cs; replicate (occurrences c cols) c) /\
    (forall c i, index_of c cols = Some i -> c ∈ cs ->
       exists j, index_of c (fst <$> concat picked) = Some j /\
                 concat picked !! j = Some (c, i)).
Proof.
  induction 1 as [|c cs Hc _ (picked & Hp & Hcols & Hfirst)].
  { exists []. split; [done|]. split; [done|]. by intros ? ? ? ?%elem_of_nil. }
  destruct (picked_of_Some cols c Hc) as (i & rest & Hi & Hpc & Hlen).
  exists (((c, i) :: ((fun j => (c, j)) <$> rest)) :: picked).
  split; [cbn; by rewrite Hpc, Hp|]. split.
  - cbn [concat]. rewrite fmap_app, Hcols. cbn [mbind list_bind]. f_equal.
    rewrite <- Hlen. cbn. f_equal. rewrite <- list_fmap_compose.
    clear. induction rest as [|j rest IH]; [done|]. cbn. by rewrite IH.
  - intros c' i' Hi' Hin. cbn [concat]. destruct (decide (c' = c)) as [->|Hne].
    + exists 0. cbn. rewrite bool_decide_eq_true_2 by done. split; [done|]. congruence.
    + apply elem_of_cons in Hin as [?|Hin]; [done|].
      destruct (Hfirst c' i' Hi' Hin) as (j & Hj & Hjp).
      set (block := (c, i) :: ((fun j => (c, j)) <$> rest)).
      exists (length block + j). rewrite fmap_app, index_of_app_r.
      * rewrite Hj. rewrite length_fmap. split; [done|].
        by rewrite lookup_app_r, Nat.add_comm, Nat.add_sub by lia.
      * unfold block. cbn. rewrite <- list_fmap_compose.
        intros [?|Hin']%elem_of_cons; [done|].
        apply list_elem_of_fmap in Hin' as (? & ? & _). done.
Qed.

(** [df[cs]] succeeds when every label is a column.  Its columns are the
    labels of [cs] in their order, each as many times as the table has
    it, the rows are as many as before, and a column is found under its
    label as before. *)
Lemma select_existing d cs :
  Forall (fun c => c ∈ columns d) cs ->
  exists d',
    select d cs = Ok d' /\
    columns d' = (c ← cs; replicate (occurrences c (columns d)) c) /\
    length (rows d') = length (rows d) /\
    (forall c, c ∈ cs -> column d' c = column d c).
Proof.
  intros Hcs. destruct (mapM_picked (columns d) cs Hcs) as (picked & Hp & Hcols & Hfirst).
  eexists. split; [by apply select_picked|]. cbn [columns rows].
  split; [done|]. split; [by rewrite length_fmap|].
  intros c Hc. rewrite Forall_forall in Hcs.
  destruct (index_of_is_Some c (columns d) (Hcs c Hc)) as [i Hi].
  destruct (Hfirst c i Hi Hc) as (j & Hj & Hjp).
  unfold column. cbn [columns rows]. rewrite Hj, Hi. rewrite <- list_fmap_compose.
  apply list_fmap_ext. intros _ r _. cbn.
  apply list_lookup_total_correct. by rewrite list_lookup_fmap, Hjp.
Qed.

Lemma select_columns_unique d cs d' :
  NoDup (columns d) -> select d cs = Ok d' -> columns d' = cs.
Proof.
  intros Hnd Hsel.
  assert (Hcs : Forall (fun c => c ∈ columns d) cs).
  { apply Forall_forall. intros c Hc. unfold select in Hsel.
    destruct (mapM (picked_of (columns d)) cs) as [picked|] eqn:Hp; [|done].
    apply mapM_Some_1 in Hp.
    destruct (proj1 (list_elem_of_lookup _ _) Hc) as [k Hk].
    destruct (Forall2_lookup_l _ _ _ _ _ Hp Hk) as (blk & _ & Hblk).
    destruct (decide (c ∈ columns d)) as [|Hno]; [done|].
    unfold picked_of, indices_of in Hblk. by rewrite indices_from_absent in Hblk. }
  destruct (select_existing d cs Hcs) as (d0 & Hsel0 & Hcols & _).
  rewrite Hsel in Hsel0. injection Hsel0 as <-. rewrite Hcols.
  assert (Hone : Forall (fun c => occurrences c (columns d) = 1) cs).
  { eapply Forall_impl; [exact Hcs|]. intros c Hc. by apply occurrences_unique. }
  clear -Hone. induction Hone as [|c cs Hc _ IH]; [done|]. cbn. rewrite Hc. cbn.
  f_equal. exact IH.
Qed.

(** With unique labels, [df[cs]] takes the first column of every label. *)
Lemma select_unique d cs idx :
  NoDup (columns d) ->
  mapM (M:=option) (fun c => index_of c (columns d)) cs = Some idx ->
  select d cs = Ok (mkDF cs ((fun r : list cell => (fun i => r !!! i) <$> idx) <$> rows d)).
Proof.
  intros Hnd Hidx.
  assert (Hp : mapM (picked_of (columns d)) cs = Some ((fun ci => [ci]) <$> zip cs idx)).
  { apply mapM_Some_2. apply mapM_Some_1 in Hidx.
    induction Hidx as [|c i cs idx Hi _ IH]; [by constructor|].
    cbn. constructor; [|exact IH].
    unfold picked_of. by rewrite (indices_of_unique c _ i Hnd Hi). }
  rewrite (select_picked d cs _ Hp).
  assert (Hlen : length cs = length idx) by (by apply length_mapM in Hidx).
  assert (Hcat : concat ((fun ci : string * nat => [ci]) <$> zip cs idx) = zip cs idx).
  { generalize (zip cs idx). intros l. induction l as [|x l IH]; [done|]. cbn. by rewrite IH. }
  rewrite Hcat. f_equal. f_equal.
  - by rewrite fst_zip by lia.
  - apply list_fmap_ext. intros _ r _.
    rewrite <- (snd_zip cs idx) at 2 by lia. by rewrite <- list_fmap_compose.
Qed.
End Select.

Section TransformClaims.
Context `{Pandas}.
Implicit Types (d : DataFrame) (config : Config).

Lemma surviving_are_columns config d :
  Forall (fun c => c ∈ columns d) (surviving config d).
Proof.
  apply Forall_forall. intros c Hc. unfold surviving in Hc.
  apply list_elem_of_In, filter_In in Hc as [_ Hc]. by apply bool_decide_eq_true in Hc.
Qed.

Lemma mask_filter_labels (p : string -> bool) (cols : list string) :
  mask_filter (p <$> cols) cols = List.filter p cols.
Proof. induction cols as [|c cols IH]; [done|]. cbn. destruct (p c); by rewrite IH. Qed.

(** A kept column is found under its label as before. *)
Lemma keep_columns_column (p : string -> bool) d c :
  p c = true -> column (keep_columns p d) c = column d c.
Proof.
  intros Hp. unfold column, keep_columns. cbn [columns rows].
  destruct d as [cols rs]. cbn [columns rows].
  assert (Hpos : match index_of c cols with
                 | Some i =>
                     exists j, index_of c (mask_filter (p <$> cols) cols) = Some j /\
                               forall r : list cell, mask_filter (p <$> cols) r !!! j = r !!! i
                 | None => index_of c (mask_filter (p <$> cols) cols) = None
                 end).
  { induction cols as [|c' cols IH]; [done|]. cbn. case_bool_decide as Heq.
    - subst c'. rewrite Hp. exists 0. cbn. rewrite bool_decide_eq_true_2 by done.
      split; [done|]. by intros [|x r].
    - destruct (index_of c cols) as [i|].
      + destruct IH as (j & Hj & Hr). cbn. destruct (p c').
        * exists (S j). cbn. rewrite bool_decide_eq_false_2 by done. rewrite Hj.
          split; [done|]. intros [|x r]; [done|]. cbn. apply Hr.
        * exists j. split; [done|]. intros [|x r]; cbn; [|apply Hr].
          specialize (Hr []). by destruct (p <$> cols).
      + cbn. destruct (p c'); [|done]. cbn. rewrite bool_decide_eq_false_2 by done.
        by rewrite IH. }
  destruct (index_of c cols) as [i|].
  - destruct Hpos as (j & -> & Hr). rewrite <- list_fmap_compose.
    apply list_fmap_ext. intros _ r _. cbn. apply Hr.
  - by rewrite Hpos.
Qed.

(** [drop] removes the columns it names and no other, and leaves the rows
    and the cells of the columns it keeps. *)
Lemma drop_spec d names :
  columns (drop d names)
  = List.filter (fun c => negb (bool_decide (c ∈ names))) (columns d) /\
  len (drop d names) = len d /\
  (forall c, c ∉ names -> column (drop d names) c = column d c).
Proof.
  split; [apply mask_filter_labels|]. split.
  - unfold len, drop, keep_columns. cbn. by rewrite length_fmap.
  - intros c Hc. apply keep_columns_column. by rewrite bool_decide_eq_false_2.
Qed.

Lemma filter_all (cols : list string) :
  List.filter (fun c => negb (bool_decide (c ∈ @nil string))) cols = cols.
Proof.
  induction cols as [|c cols IH]; [done|]. cbn.
  rewrite bool_decide_eq_false_2 by apply not_elem_of_nil. cbn. by rewrite IH.
Qed.

(** C5.  [transform] applies its six steps in the order filter, drop
    columns, calculations, rename, select columns, sort: the table it
    returns is the table the six steps give, and it raises what they
    raise.  The drop step removes every column [drop_columns] names and
    nothing else, whether or not the names are columns.  A calculation
    whose formula evaluates writes its target column; one whose formula
    does not evaluate leaves the table as it is, and the calculations
    never raise.  The rename step relabels the columns and keeps the
    rows.  The names of [selected_columns] that are not columns are
    dropped; the others, in the order of the config, are what the select
    step keeps: each with every column that carries it, so exactly the
    surviving names when the labels of the table are unique, with the rows
    and the cells of before.  When no selected name is a column the table
    keeps all its columns. *)
Theorem transform_applies_six_steps_in_order (df : ref) config (s : State) :
  value_of (_execute_transform df config s) = transform_steps config (heap s !!! df) /\
  (forall d,
     drop_step config d
     = Ok (if bool_decide (as_names (config !! "drop_columns") = []) then d
           else drop d (List.filter (has_column d) (as_names (config !! "drop_columns"))))) /\
  (forall d,
     exists d',
       drop_step config d = Ok d' /\
       columns d'
       = List.filter (fun c => negb (bool_decide (c ∈ as_names (config !! "drop_columns"))))
                     (columns d) /\
       len d' = len d /\
       (forall c, c ∉ as_names (config !! "drop_columns") -> column d' c = column d c)) /\
  (forall d calc target formula v,
     as_name (calc !! "target") = Some target ->
     as_name (calc !! "formula") = Some formula ->
     pd_eval d formula = Ok v ->
     calc_one d calc = set_column d target v) /\
  (forall d calc target formula e,
     as_name (calc !! "target") = Some target ->
     as_name (calc !! "formula") = Some formula ->
     pd_eval d formula = Raise e ->
     calc_one d calc = d) /\
  (forall d, is_ok (calc_step config d) = true) /\
  (forall d,
     exists d',
       rename_step config d = Ok d' /\
       rows d' = rows d /\
       columns d'
       = (fun c => default c ((list_to_map (as_str_dict (config !! "rename_map"))
                                : gmap string string) !! c)) <$> columns d) /\
  (forall d,
     surviving config d
     = List.filter (fun c => bool_decide (c ∈ columns d))
                   (as_names (config !! "selected_columns"))) /\
  (forall d,
     surviving config d <> [] ->
     exists d', select_step config d = Ok d' /\
                columns d'
                = (c ← surviving config d; replicate (occurrences c (columns d)) c) /\
                (NoDup (columns d) -> columns d' = surviving config d) /\
                length (rows d') = length (rows d) /\
                (forall c, c ∈ surviving config d -> column d' c = column d c)) /\
  (forall d, surviving config d = [] -> select_step config d = Ok d).
Proof.
  split; [apply yields_value, transform_yields|].
  split; [intros d; unfold drop_step; cbv zeta; by rewrite drop_existing|].
  split.
  { intros d. unfold drop_step. cbv zeta. eexists. split; [reflexivity|].
    case_bool_decide as Hnames.
    - rewrite Hnames, filter_all. done.
    - apply drop_spec. }
  split; [intros d calc target formula v Ht Hf Hv; unfold calc_one;
          by rewrite Ht, Hf, Hv|].
  split; [intros d calc target formula e Ht Hf He; unfold calc_one;
          by rewrite Ht, Hf, He|].
  split; [done|].
  split; [intros d; by eexists|].
  split; [done|]. split.
  - intros d Hs. unfold select_step. rewrite bool_decide_eq_false_2 by done.
    destruct (select_existing d _ (surviving_are_columns config d))
      as (d' & Hsel & Hcols & Hlen & Hcol).
    exists d'. split; [done|]. split; [done|]. split; [|done].
    intros Hnd. by apply (select_columns_unique d _ d' Hnd).
  - intros d Hs. unfold select_step. by rewrite bool_decide_eq_true_2.
Qed.

(** When [sort_by] is not a column of the table that reaches the sort
    step, the sort is skipped: the operator returns that table and raises
    nothing. *)
Lemma sort_skipped_when_column_missing (df : ref) config (s : State) t sort_by :
  as_name (config !! "sort_by") = Some sort_by ->
  steps_before_sort config (heap s !!! df) = Ok t ->
  has_column t sort_by = false ->
  value_of (_execute_transform df config s) = Ok t.
Proof.
  intros Hby Hpre Hcol.
  rewrite (yields_value _ _ (transform_yields df config s)).
  unfold transform_steps. unfold steps_before_sort in Hpre.
  destruct (filter_step config (heap s !!! df)) as [d1|]; [|done]. cbn in *.
  destruct (select_step config _) as [d2|]; [|done]. cbn. injection Hpre as ->.
  unfold sort_step. by rewrite Hby, Hcol.
Qed.

Lemma sort_only_steps t sort_by :
  sort_by <> "" -> has_column t sort_by = false ->
  transform_steps {[ "sort_by" := PStr sort_by ]} t = Ok t.
Proof.
  intros Hne Hcol.
  unfold transform_steps, filter_step, drop_step, calc_step, rename_step, select_step,
    surviving, sort_step.
  rewrite !lookup_singleton.
  repeat (case_decide; [try discriminate|try congruence]).
  cbn -[rename has_column]. rewrite rename_nil. cbn -[has_column].
  by rewrite bool_decide_eq_false_2, Hcol.
Qed.
End TransformClaims.

(** ** A sort on a missing column, in a run *)

Section MissingSortColumn.
Context `{Pandas} (w : World).

(** The round of a node that is no output node and whose operator
    returned a table. *)
Lemma execute_node_returned wf file_mapping node_id node r df s :
  _execute_node_by_type w (type (node_data node)) (default ∅ (config (node_data node)))
    (collect_inputs (edges wf) node_id r) file_mapping (store r) = (Ok (Some df), s) ->
  type (node_data node) <> Some "output" ->
  type (node_data node) <> Some "output_csv" ->
  execute_node w wf file_mapping node_id node r
  = (set_node_result node_id (ResultTable (table_of (heap s !!! df) (heap s !!! df)))
       (set_status node_id "success"
          (log w (success_message (node_label node) (heap s !!! df))
             (set_result node_id df
                (set_store s (log w (start_message (node_label node) node_id) r))))),
     None).
Proof.
  intros Hd Ho Hc. unfold execute_node. cbn zeta.
  match goal with
  | |- context [_execute_node_by_type ?a ?b ?c ?d ?e ?f] =>
      change (_execute_node_by_type a b c d e f)
        with (_execute_node_by_type w (type (node_data node))
                (default ∅ (config (node_data node)))
                (collect_inputs (edges wf) node_id r) file_mapping (store r))
  end.
  rewrite Hd. by rewrite !bool_decide_eq_false_2 by done.
Qed.

Lemma source_returns config input_dfs file_mapping s f t :
  find_upload w config file_mapping = Ok f ->
  read_excel w f config = Ok t ->
  _execute_node_by_type w (Some "source") config input_dfs file_mapping s
  = (Ok (Some (length (heap s))), with_heap s (heap s ++ [t])).
Proof.
  intros Hf Hr. unfold _execute_node_by_type. rewrite bool_decide_eq_true_2 by done.
  unfold _execute_source, mbind, M_bind, lift. by rewrite Hf, Hr.
Qed.

Lemma transform_returns config df file_mapping s t :
  transform_steps config (heap s !!! df) = Ok t ->
  exists r s',
    _execute_node_by_type w (Some "transform") config [df] file_mapping s
    = (Ok (Some r), s') /\ heap s' !!! r = t.
Proof.
  intros Ht. pose proof (transform_yields df config s) as Hy. rewrite Ht in Hy.
  destruct Hy as (r & s' & Hrun & _ & Hval). exists r, s'. split; [|done].
  unfold _execute_node_by_type.
  rewrite (bool_decide_eq_false_2 ("transform" = "source")) by done.
  rewrite (bool_decide_eq_false_2 ("transform" = "source_csv")) by done.
  rewrite bool_decide_eq_true_2 by done.
  unfold unary, mbind, M_bind. by rewrite Hrun.
Qed.

(** C6, as the engine has it.  A [sort_by] that is not a column of the
    table reaching the sort step is skipped without an error: the operator
    returns that table.  In the run source -> transform(sort_by), when the
    source table has no such column, the report has success=true, both
    nodes are 'success', and the result of the transform node is the
    source table, unsorted. *)
Theorem missing_sort_column_is_skipped
    (file_mapping : gmap string string) (source_config : Config)
    (sort_by f : string) (t : DataFrame) :
  sort_by <> "" ->
  find_upload w source_config file_mapping = Ok f ->
  read_excel w f source_config = Ok t ->
  has_column t sort_by = false ->
  let report := execute_workflow w (source_then_sort source_config sort_by) file_mapping in
  success report = true /\ error report = None /\
  node_status report !! "source" = Some "success" /\
  node_status report !! "sort" = Some "success" /\
  node_results report !! "sort" = Some (ResultTable (table_of t t)) /\
  (forall df config s t' c,
     as_name (config !! "sort_by") = Some c ->
     steps_before_sort config (heap s !!! df) = Ok t' ->
     has_column t' c = false ->
     value_of (_execute_transform df config s) = Ok t').
Proof.
  intros Hne Hfind Hread Hcol report.
  set (wf := source_then_sort source_config sort_by) in *.
  set (n1 := mkNode "source" None (mkNodeData (Some "source") None (Some source_config))).
  set (n2 := mkNode "sort" None
               (mkNodeData (Some "transform") None (Some {[ "sort_by" := PStr sort_by ]}))).
  assert (Horder : execution_order wf = ["source"; "sort"]) by (by vm_compute).
  assert (Hn1 : dict_of_nodes (fun n => n) (nodes wf) !! "source" = Some n1)
    by (by vm_compute).
  assert (Hn2 : dict_of_nodes (fun n => n) (nodes wf) !! "sort" = Some n2)
    by (by vm_compute).
  (* the source node *)
  assert (Hsrc : exists r1,
             execute_node w wf file_mapping "source" n1 (initial_run wf) = (r1, None) /\
             heap (store r1) = [t] /\ ctx_results r1 = {[ "source" := 0 ]} /\
             cur_status r1 !! "source" = Some "success").
  { eexists. split; [|split; [|split]].
    - apply execute_node_returned; [|done|done].
      by apply (source_returns source_config _ file_mapping _ f t).
    - done.
    - cbn. by rewrite insert_empty.
    - cbn. by rewrite lookup_insert_eq. }
  destruct Hsrc as (r1 & Hrun1 & Hheap1 & Hctx1 & Hst1).
  (* the transform node *)
  assert (Hin : collect_inputs (edges wf) "sort" r1 = [0]).
  { unfold collect_inputs. cbn. rewrite Hctx1. by rewrite lookup_singleton_eq. }
  destruct (transform_returns {[ "sort_by" := PStr sort_by ]} 0 file_mapping (store r1) t)
    as (r & s' & Hdisp & Hval).
  { rewrite Hheap1. cbn. by apply sort_only_steps. }
  assert (Hrun2 : exists r2,
             execute_node w wf file_mapping "sort" n2 r1 = (r2, None) /\
             cur_status r2 !! "source" = Some "success" /\
             cur_status r2 !! "sort" = Some "success" /\
             cur_results r2 !! "sort" = Some (ResultTable (table_of t t))).
  { eexists. split; [|split; [|split]].
    - apply execute_node_returned; [|done|done]. rewrite Hin. exact Hdisp.
    - cbn. by rewrite lookup_insert_ne.
    - cbn. by rewrite lookup_insert_eq.
    - cbn. by rewrite lookup_insert_eq, Hval. }
  destruct Hrun2 as (r2 & Hrun2 & Hs1 & Hs2 & Hres).
  subst report. unfold execute_workflow, run_workflow. rewrite Horder.
  cbn [run_nodes]. rewrite Hn1, Hrun1, Hn2, Hrun2.
  repeat (split; [done|]).
  intros df config s t' c. apply sort_skipped_when_column_missing.
Qed.
End MissingSortColumn.

(** ** The LLM node *)

Section LlmRows.
Context `{Pandas} (w : World).
Implicit Types (s : State) (d : DataFrame) (config : Config).

(** A call whose imports succeed sends the prompt and returns the text of
    what came back. *)
Lemma simple_ai_call_sent prompt s u :
  import_httpx w = Ok u ->
  _simple_ai_call w prompt s
  = (Ok (reply_text (http_post w (length (requests s)) prompt)),
     mkState (heap s) (requests s ++ [prompt]) (uuids s) (written s)).
Proof.
  intros Hi. unfold _simple_ai_call, mbind, M_bind, lift, reply_text. rewrite Hi.
  destruct (http_post w _ _) as [status text [result|e]|msg];
    try destruct (bool_decide _); done.
Qed.

Lemma simple_ai_call_not_sent prompt s e :
  import_httpx w = Raise e -> _simple_ai_call w prompt s = (Raise e, s).
Proof. intros Hi. unfold _simple_ai_call, mbind, M_bind, lift. by rewrite Hi. Qed.

(** The loop over the rows: one cell of text per row, never an exception;
    one request per row, in row order, and the cell of the row is the text
    of what its request came back with, unless the HTTP client cannot be
    imported, and then every cell is "Error: " and the message. *)
Lemma ask_rows_spec d prompt_template rs s :
  exists replies s',
    ask_rows w d prompt_template rs s = (Ok replies, s') /\
    length replies = length rs /\
    heap s' = heap s /\
    Forall is_text replies /\
    (forall u, import_httpx w = Ok u ->
       requests s' = requests s ++ (row_prompt d prompt_template <$> rs) /\
       replies
       = imap (fun j row =>
                 Str (reply_text (http_post w (length (requests s) + j)
                                            (row_prompt d prompt_template row)))) rs) /\
    (forall e, import_httpx w = Raise e ->
       requests s' = requests s /\
       replies = replicate (length rs) (Str ("Error: " +:+ e))).
Proof.
  revert s. induction rs as [|row rs IH]; intros s.
  - exists [], s. cbn. rewrite app_nil_r. by repeat split.
  - cbn [ask_rows].
    destruct (import_httpx w) as [u|e] eqn:Hi.
    + pose proof (simple_ai_call_sent (row_prompt d prompt_template row) s u Hi) as Hcall.
      set (txt := reply_text _) in Hcall.
      assert (Htry : try_except (_simple_ai_call w (row_prompt d prompt_template row))
                       (fun e => mret ("Error: " +:+ e)) s
                     = (Ok txt, mkState (heap s)
                                  (requests s ++ [row_prompt d prompt_template row])
                                  (uuids s) (written s))).
      { unfold try_except. by rewrite Hcall. }
      destruct (IH (mkState (heap s) (requests s ++ [row_prompt d prompt_template row])
                            (uuids s) (written s)))
        as (replies & s' & Hrun & Hlen & Hheap & Htext & Hok & _).
      exists (Str txt :: replies), s'.
      rewrite (bind_ok _ _ _ _ _ Htry), (bind_ok _ _ _ _ _ Hrun). cbn.
      split; [done|]. split; [by rewrite Hlen|]. split; [done|].
      split; [constructor; [by eexists|done]|]. split; [|done].
      intros u' _. destruct (Hok u eq_refl) as [Hreq Hrep]. split.
      * rewrite Hreq. cbn. by rewrite <- app_assoc.
      * subst txt. rewrite Nat.add_0_r. f_equal. rewrite Hrep. cbn [requests].
        apply imap_ext. intros j r _. cbn. rewrite length_app. cbn.
        do 3 f_equal. lia.
    + assert (Htry : try_except (_simple_ai_call w (row_prompt d prompt_template row))
                       (fun e => mret ("Error: " +:+ e)) s
                     = (Ok ("Error: " +:+ e), s)).
      { unfold try_except. by rewrite (simple_ai_call_not_sent _ s e Hi). }
      destruct (IH s) as (replies & s' & Hrun & Hlen & Hheap & Htext & _ & Hraise).
      exists (Str ("Error: " +:+ e) :: replies), s'.
      rewrite (bind_ok _ _ _ _ _ Htry), (bind_ok _ _ _ _ _ Hrun). cbn.
      split; [done|]. split; [by rewrite Hlen|]. split; [done|].
      split; [constructor; [by eexists|done]|]. split; [done|].
      intros e' [= <-]. destruct (Hraise e eq_refl) as [Hreq Hrep].
      split; [done|]. by rewrite Hrep at 1.
Qed.

Lemma new_bind {B} d (k : ref -> M B) s :
  (df_new d ≫= k) s = k (length (heap s)) (with_heap s (heap s ++ [d])).
Proof. reflexivity. Qed.

Lemma set_column_len d c vals : len (set_column d c vals) = len d.
Proof.
  unfold set_column, len. destruct (index_of c (columns d)); cbn; by rewrite length_imap.
Qed.

Lemma iterrows_length d rs : length (iterrows d rs) = length rs.
Proof. unfold iterrows. cbv zeta. destruct (_ && _); [by rewrite length_fmap|done]. Qed.

(** C8, as the engine has it.  With a non-empty prompt the operator never
    raises.  It works on the first min(len, 20) rows: the bound 20 is fixed
    and [row_limit] in the config is not read.  The result is that head of
    the table with the target column set to one text per row.  One request
    is sent per row, in row order, with the prompt of the row, and the cell
    of the row holds the text of what that request came back with: the
    reply of a response with status 200; "调用失败: " and the message
    when the request raised, or when the reply could not be read out of a
    response with status 200; "AI调用失败: HTTP ", the status and the
    first 200 characters of the body for any other status.  Only an
    exception that escapes the call (the imports) is stored as "Error: "
    and the message. *)
Theorem llm_rows_are_capped_at_twenty (df : ref) config s :
  let d := heap s !!! df in
  let prompt := default "" (as_str (config !! "prompt")) in
  let target := default "AI_Result" (as_str (config !! "target_column")) in
  let asked := iterrows d (take 20 (rows d)) in
  prompt <> "" ->
  (exists r s' replies,
     _execute_ai_agent w df config s = (Ok r, s') /\
     heap s' !!! r = set_column (frame_head d (min (len d) 20)) target replies /\
     len (heap s' !!! r) = min (len d) 20 /\
     length replies = min (len d) 20 /\
     Forall is_text replies /\
     (forall u, import_httpx w = Ok u ->
        requests s' = requests s ++ (row_prompt d prompt <$> asked) /\
        replies
        = imap (fun j row =>
                  Str (reply_text (http_post w (length (requests s) + j)
                                             (row_prompt d prompt row)))) asked) /\
     (forall e, import_httpx w = Raise e ->
        requests s' = requests s /\
        replies = replicate (min (len d) 20) (Str ("Error: " +:+ e)))) /\
  (forall v, _execute_ai_agent w df (<["row_limit" := v]> config) s
             = _execute_ai_agent w df config s) /\
  (forall text result, reply_text (HttpResponse 200 text (Ok result)) = result) /\
  (forall text e, reply_text (HttpResponse 200 text (Raise e)) = "调用失败: " +:+ e) /\
  (forall status text content,
     status <> 200%Z ->
     reply_text (HttpResponse status text content)
     = "AI调用失败: HTTP " +:+ pretty status +:+ " - " +:+ str_take 200 text) /\
  (forall msg, reply_text (HttpException msg) = "调用失败: " +:+ msg) /\
  (forall p s0 u,
     import_httpx w = Ok u ->
     (_simple_ai_call w p s0).1 = Ok (reply_text (http_post w (length (requests s0)) p))) /\
  (forall p s0 e s1,
     _simple_ai_call w p s0 = (Raise e, s1) ->
     try_except (_simple_ai_call w p) (fun e => mret ("Error: " +:+ e)) s0
     = (Ok ("Error: " +:+ e), s1)).
Proof.
  intros d prompt target asked Hprompt.
  split; [|split; [|split; [|split; [|split; [|split; [|split]]]]]].
  - unfold _execute_ai_agent. cbv zeta. fold prompt target.
    rewrite bool_decide_eq_false_2 by done.
    rewrite get_bind. fold d. rewrite new_bind, copy_bind.
    set (hd := frame_head d (min (len d) 20)).
    set (s1 := with_heap s (heap s ++ [hd])).
    assert (H1 : holds s1 (length (heap s)) hd) by apply holds_new.
    destruct H1 as [_ H1]. rewrite H1.
    set (s2 := with_heap s1 (heap s1 ++ [hd])).
    assert (H2 : holds s2 (length (heap s1)) hd) by apply holds_new.
    rewrite get_bind. destruct H2 as [Hr2 H2]. rewrite H2.
    assert (Htake : rows hd = take 20 (rows d)).
    { subst hd. unfold frame_head, len. cbn.
      destruct (decide (length (rows d) <= 20)).
      - rewrite Nat.min_l by done. by rewrite !take_ge by lia.
      - by rewrite Nat.min_r by lia. }
    rewrite Htake. fold asked.
    destruct (ask_rows_spec d prompt asked s2)
      as (replies & s3 & Hrun & Hlen & Hheap & Htext & Hok & Hraise).
    rewrite (bind_ok _ _ _ _ _ Hrun).
    assert (H3 : holds s3 (length (heap s1)) hd).
    { split; by rewrite Hheap. }
    destruct (setitem_holds s3 (length (heap s1)) hd target replies H3)
      as (s4 & Hset & [_ H4]).
    rewrite (bind_ok _ _ _ _ _ Hset).
    assert (Hreq4 : requests s4 = requests s3).
    { change (requests s3) with (requests (setitem (length (heap s1)) target replies s3).2).
      by rewrite Hset. }
    assert (Hrows : length asked = min (len d) 20).
    { subst asked. rewrite iterrows_length, length_take. unfold len. lia. }
    exists (length (heap s1)), s4, replies.
    split; [done|]. split; [done|]. rewrite H4, set_column_len.
    split; [subst hd; unfold frame_head, len; cbn; rewrite length_take; lia|].
    split; [by rewrite Hlen|]. split; [done|]. split.
    + intros u Hu. destruct (Hok u Hu) as [Hreq Hrep]. by rewrite Hreq4.
    + intros e He. destruct (Hraise e He) as [Hreq Hrep].
      by rewrite Hreq4, Hreq, Hrep, Hrows.
  - intros v. unfold _execute_ai_agent. by rewrite !lookup_insert_ne by done.
  - done.
  - done.
  - intros status text content Hs. unfold reply_text. by rewrite bool_decide_eq_false_2.
  - done.
  - intros p s0 u Hi. by rewrite (simple_ai_call_sent p s0 u Hi).
  - intros p s0 e s1 Hcall. unfold try_except. by rewrite Hcall.
Qed.
End LlmRows.

(** ** More on frame objects *)

Section HoldsMore.
Context `{Pandas}.
Implicit Types (s : State) (r : ref) (d : DataFrame).

Lemma holds_new_old s r d d' :
  holds s r d -> holds (with_heap s (heap s ++ [d'])) r d.
Proof.
  intros [Hr Hd]. split; cbn.
  - rewrite length_app. lia.
  - by rewrite lookup_total_app_l.
Qed.

Lemma holds_put_other s r r' d d' :
  holds s r d -> r <> r' -> holds (with_heap s (<[r' := d']> (heap s))) r d.
Proof.
  intros [Hr Hd] Hne. split; cbn.
  - by rewrite length_insert.
  - by rewrite list_lookup_total_insert_ne.
Qed.

Lemma copy_holds s r :
  exists s',
    df_copy r s = (Ok (length (heap s)), s') /\
    holds s' (length (heap s)) (heap s !!! r) /\
    (forall r' d', holds s r' d' -> holds s' r' d' /\ r' <> length (heap s)).
Proof.
  eexists. split; [reflexivity|]. split; [apply holds_new|].
  intros r' d' Hd. split; [by apply holds_new_old|]. destruct Hd. lia.
Qed.

Lemma coerce_holds s r d c :
  holds s r d ->
  exists s',
    coerce_key_to_text r c s = (Ok tt, s') /\
    holds s' r (coerced d c) /\
    (forall r' d', holds s r' d' -> r' <> r -> holds s' r' d').
Proof.
  intros [Hr Hd]. unfold coerce_key_to_text. rewrite get_bind, Hd.
  destruct (setitem_holds s r d c (astype_str (column d c)) (conj Hr Hd)) as (s' & Hs & Hd').
  exists s'. split; [done|]. split; [done|].
  intros r' d' Hd'' Hne.
  assert (s' = with_heap s (<[r := set_column d c (astype_str (column d c))]> (heap s))) as ->.
  { unfold setitem in Hs. rewrite get_bind, Hd in Hs. by injection Hs. }
  by apply holds_put_other.
Qed.

Lemma call_holds f s r d d' :
  holds s r d -> f d = Ok d' ->
  exists s',
    df_call f r s = (Ok (length (heap s)), s') /\
    holds s' (length (heap s)) d' /\
    (forall r' d'', holds s r' d'' -> holds s' r' d'').
Proof.
  intros [Hr Hd] Hf. unfold df_call. rewrite get_bind, Hd.
  unfold mbind at 1. unfold M_bind, lift. rewrite Hf.
  eexists. split; [reflexivity|]. split; [apply holds_new|].
  intros r' d'' Hd''. by apply holds_new_old.
Qed.

Lemma merge_holds s r1 r2 d1 d2 left_on right_on how d' :
  holds s r1 d1 -> holds s r2 d2 -> merge d1 d2 left_on right_on how = Ok d' ->
  exists s',
    df_merge r1 r2 left_on right_on how s = (Ok (length (heap s)), s') /\
    holds s' (length (heap s)) d'.
Proof.
  intros [_ H1] [_ H2] Hm. unfold df_merge. rewrite get_bind, H1, get_bind, H2.
  unfold mbind at 1. unfold M_bind, lift. rewrite Hm.
  eexists. split; [reflexivity|apply holds_new].
Qed.
End HoldsMore.

(** ** The left join of [vlookup] *)

Section LeftJoin.
Implicit Types (l r k : list cell) (ls rs : list (list cell)) (lidx ridx : list nat).

Lemma left_pairs_cons lidx ridx l ls rs :
  left_pairs lidx ridx (l :: ls) rs =
  match rows_with_key ridx (row_key lidx l) rs with
  | [] => [(Some l, None)]
  | ms => (fun r => (Some l, Some r)) <$> ms
  end ++ left_pairs lidx ridx ls rs.
Proof. reflexivity. Qed.

(** Every left row gives at least one row. *)
Lemma left_pairs_length lidx ridx ls rs :
  length ls <= length (left_pairs lidx ridx ls rs).
Proof.
  induction ls as [|l ls IH]; [cbn; lia|].
  rewrite left_pairs_cons, length_app.
  destruct (rows_with_key ridx (row_key lidx l) rs); cbn; lia.
Qed.

Lemma rows_with_key_unique ridx k rs :
  NoDup (row_key ridx <$> rs) -> length (rows_with_key ridx k rs) <= 1.
Proof.
  unfold rows_with_key. induction rs as [|r rs IH]; [cbn; lia|].
  rewrite fmap_cons. intros [Hr Hrs]%NoDup_cons. cbn [List.filter].
  case_bool_decide as Hk; [|by apply IH].
  assert (List.filter (fun r' => bool_decide (row_key ridx r' = k)) rs = []) as ->; [|cbn; lia].
  destruct (List.filter _ rs) as [|r' rest] eqn:Hf; [done|].
  assert (Hin : In r' (List.filter (fun r' => bool_decide (row_key ridx r' = k)) rs))
    by (rewrite Hf; by left).
  apply filter_In in Hin as [Hin Hr']. apply bool_decide_eq_true in Hr'.
  destruct Hr. rewrite Hk, <- Hr'. apply list_elem_of_fmap. exists r'.
  split; [done|]. by apply list_elem_of_In.
Qed.

(** When the right keys are pairwise distinct, every left row gives exactly
    one row, with its first match if it has one. *)
Lemma left_pairs_unique lidx ridx ls rs :
  NoDup (row_key ridx <$> rs) ->
  left_pairs lidx ridx ls rs =
  (fun l => (Some l, first_match ridx (row_key lidx l) rs)) <$> ls.
Proof.
  intros Hrs. induction ls as [|l ls IH]; [done|].
  rewrite left_pairs_cons, IH, fmap_cons. unfold first_match.
  pose proof (rows_with_key_unique ridx (row_key lidx l) rs Hrs) as Hlen.
  destruct (rows_with_key ridx (row_key lidx l) rs) as [|r [|r' rest]]; cbn in *; [done|done|lia].
Qed.
End LeftJoin.

Section VlookupFacts.
Context `{Pandas}.
Implicit Types (d main lookup : DataFrame) (config : Config).

Lemma has_column_index d c :
  has_column d c = true -> exists i, index_of c (columns d) = Some i.
Proof. intros Hc%bool_decide_eq_true. by apply index_of_is_Some. Qed.

Lemma coerced_columns d c : has_column d c = true -> columns (coerced d c) = columns d.
Proof.
  intros [i Hi]%has_column_index. unfold coerced, set_column. by rewrite Hi.
Qed.

Lemma coerced_length d c : length (rows (coerced d c)) = length (rows d).
Proof.
  unfold coerced, set_column. destruct (index_of c (columns d)); cbn; by rewrite length_imap.
Qed.

Lemma vlookup_columns_exist config main lookup right_key :
  Forall (fun c => c ∈ columns lookup) (vlookup_columns config main lookup right_key).
Proof.
  apply Forall_forall. intros c Hc. unfold vlookup_columns in Hc.
  case_bool_decide; apply list_elem_of_In, filter_In in Hc as [Hc Hp].
  - by apply list_elem_of_In.
  - apply andb_true_iff in Hp as [Hp _]. by apply bool_decide_eq_true in Hp.
Qed.

(** The narrowed lookup table has the key in its first column. *)
Lemma select_with_key d key cs :
  key ∈ columns d ->
  Forall (fun c => c ∈ columns d) cs ->
  exists d',
    select d (key :: cs) = Ok d' /\
    columns d' = (c ← key :: cs; replicate (occurrences c (columns d)) c) /\
    index_of key (columns d') = Some 0 /\
    column d' key = column d key /\
    length (rows d') = length (rows d).
Proof.
  intros Hkey Hcs.
  destruct (select_existing d (key :: cs)) as (d' & Hsel & Hcols & Hlen & Hcol);
    [by constructor|].
  exists d'. split; [done|]. split; [done|]. split; [|split; [apply Hcol; by left|done]].
  rewrite Hcols. cbn [mbind list_bind fmap list_fmap concat].
  pose proof (occurrences_pos key (columns d) Hkey) as Hpos.
  destruct (occurrences key (columns d)); [lia|]. cbn. by rewrite bool_decide_eq_true_2.
Qed.

Lemma merge_left main narrowed left_key right_key i j :
  index_of left_key (columns main) = Some i ->
  index_of right_key (columns narrowed) = Some j ->
  merge main narrowed [left_key] [right_key] "left" =
  Ok (mkDF (merge_columns main narrowed [left_key] [right_key])
           (merge_row main narrowed [left_key] [right_key]
                      (left_pairs [i] [j] (rows main) (rows narrowed))
              <$> left_pairs [i] [j] (rows main) (rows narrowed))).
Proof.
  intros Hi Hj. unfold merge, positions. cbn. rewrite Hi, Hj. reflexivity.
Qed.

(** Dropping a column acts on every row, and keeps the rows. *)
Lemma without_right_key_rows left_key right_key merged :
  rows (without_right_key left_key right_key merged)
  = without_right_key_row left_key right_key merged <$> rows merged.
Proof.
  unfold without_right_key, without_right_key_row.
  destruct (negb (bool_decide (left_key = right_key)) && has_column merged right_key).
  - reflexivity.
  - by rewrite list_fmap_id.
Qed.

Lemma widen_where_none flags (r : list cell) :
  Forall (fun b => b = false) flags -> widen_where flags r = r.
Proof.
  intros Hf. revert r. induction Hf as [|b flags -> _ IH]; intros [|x r]; try done.
  cbn. by rewrite IH.
Qed.

(** No column of the left table is widened when every pairing has a left
    row. *)
Lemma left_widened_none main left_on right_on (ps : list pairing) :
  Forall (fun p => is_Some p.1) ps ->
  Forall (fun b => b = false) (left_widened main left_on right_on ps).
Proof.
  intros Hps. unfold left_widened.
  assert (existsb (fun p : pairing => bool_decide (p.1 = None)) ps = false) as ->.
  { induction Hps as [|p ps [l Hl] _ IH]; [done|]. cbn. rewrite IH.
    by rewrite bool_decide_eq_false_2 by (by rewrite Hl). }
  apply Forall_forall. intros b Hb.
  apply list_elem_of_lookup in Hb as [k Hk]. rewrite list_lookup_imap in Hk.
  destruct (columns main !! k); [|done]. cbn in Hk. by injection Hk as <-.
Qed.

Lemma left_pairs_left lidx ridx (ls rs : list (list cell)) :
  Forall (fun p : pairing => is_Some p.1) (left_pairs lidx ridx ls rs).
Proof.
  induction ls as [|l ls IH]; [constructor|].
  rewrite left_pairs_cons. apply Forall_app. split; [|done].
  destruct (rows_with_key ridx (row_key lidx l) rs) as [|m ms]; [by constructor|].
  apply Forall_fmap, Forall_forall. intros ? _. by eexists.
Qed.
End VlookupFacts.

Section VlookupClaim.
Context `{Pandas}.
Implicit Types (d main lookup : DataFrame) (config : Config) (s : State).

(** The operator computes [vlookup_value] of its two inputs. *)
Lemma vlookup_runs main_df lookup_df config s main lookup left_key right_key
    narrowed merged :
  holds s main_df main -> holds s lookup_df lookup ->
  vlookup_left_key config = Some left_key ->
  vlookup_right_key config = Some right_key ->
  has_column main left_key = true ->
  has_column lookup right_key = true ->
  select (coerced lookup right_key)
         (right_key :: vlookup_columns config (coerced main left_key)
                         (coerced lookup right_key) right_key) = Ok narrowed ->
  merge (coerced main left_key) narrowed [left_key] [right_key] "left" = Ok merged ->
  exists r s',
    _execute_vlookup main_df lookup_df config s = (Ok r, s') /\
    holds s' r (without_right_key left_key right_key merged).
Proof.
  intros Hm Hl Hlk Hrk Hml Hll Hsel Hmerge.
  unfold vlookup_right_key in Hrk. unfold vlookup_left_key in Hlk, Hrk.
  unfold _execute_vlookup. cbv zeta. rewrite Hlk. rewrite Hlk in Hrk. rewrite Hrk.
  destruct (copy_holds s main_df) as (s1 & E1 & Hm1 & K1).
  erewrite bind_ok; [|exact E1].
  destruct (K1 _ _ Hl) as [Hl1 _].
  destruct (copy_holds s1 lookup_df) as (s2 & E2 & Hl2 & K2).
  erewrite bind_ok; [|exact E2].
  destruct (K2 _ _ Hm1) as [Hm2 Hne].
  rewrite (proj2 Hm), (proj2 Hl1) in *.
  rewrite get_bind, (proj2 Hm2), get_bind, (proj2 Hl2), Hml, Hll. cbn [negb].
  destruct (coerce_holds s2 _ main left_key Hm2) as (s3 & E3 & Hm3 & K3).
  erewrite bind_ok; [|exact E3].
  assert (Hl3 := K3 _ _ Hl2 (not_eq_sym Hne)).
  destruct (coerce_holds s3 _ lookup right_key Hl3) as (s4 & E4 & Hl4 & K4).
  erewrite bind_ok; [|exact E4].
  assert (Hm4 := K4 _ _ Hm3 Hne).
  rewrite get_bind, (proj2 Hm4), get_bind, (proj2 Hl4).
  destruct (call_holds
              (fun d => select d (right_key :: vlookup_columns config (coerced main left_key)
                                                 (coerced lookup right_key) right_key))
              s4 _ _ narrowed Hl4 Hsel) as (s5 & E5 & Hn5 & K5).
  erewrite bind_ok; [|exact E5].
  destruct (merge_holds s5 _ _ _ _ [left_key] [right_key] "left" merged (K5 _ _ Hm4) Hn5 Hmerge)
    as (s6 & E6 & Hr6).
  erewrite bind_ok; [|exact E6].
  unfold drop_right_key, without_right_key. rewrite get_bind, (proj2 Hr6).
  destruct (negb (bool_decide (left_key = right_key)) && has_column merged right_key).
  - destruct (call_holds (fun d => Ok (drop d [right_key])) s6 _ merged _ Hr6 eq_refl)
      as (s7 & E7 & Hr7 & _).
    by eexists _, _.
  - by eexists _, _.
Qed.

(** C4, as the engine has it.  [vlookup] is a left join of the main table
    with the selected columns of the lookup table, on the keys coerced to
    text: every main row, in the order of the main table, gives one output
    row per lookup row with the same text key, in the order of the lookup
    table, with the looked-up cells of that row (as floats when they are
    the integers of a column that has a null in another row), or, when no
    lookup row has its key, one output row whose looked-up cells are
    null.  The cells of the main row are those of the main table with the
    key as text.  The output has at least as many rows as the main table;
    it has exactly as many, one per main row, when the text keys of the
    lookup table are pairwise distinct. *)
Theorem vlookup_is_a_left_join
    (main_df lookup_df : ref) config s (main0 lookup0 : DataFrame) left_key right_key :
  let main := coerced main0 left_key in
  let lookup := coerced lookup0 right_key in
  let looked := vlookup_columns config main lookup right_key in
  holds s main_df main0 -> holds s lookup_df lookup0 ->
  vlookup_left_key config = Some left_key ->
  vlookup_right_key config = Some right_key ->
  has_column main0 left_key = true ->
  has_column lookup0 right_key = true ->
  exists r s' narrowed i,
    _execute_vlookup main_df lookup_df config s = (Ok r, s') /\
    vlookup_value config main0 lookup0 left_key right_key = Ok (heap s' !!! r) /\
    select lookup (right_key :: looked) = Ok narrowed /\
    columns narrowed
    = (c ← right_key :: looked; replicate (occurrences c (columns lookup0)) c) /\
    (NoDup (columns lookup0) -> columns narrowed = right_key :: looked) /\
    column narrowed right_key = column lookup right_key /\
    index_of right_key (columns narrowed) = Some 0 /\
    index_of left_key (columns main0) = Some i /\
    let ps := left_pairs [i] [0] (rows main) (rows narrowed) in
    let merged := mkDF (merge_columns main narrowed [left_key] [right_key])
                       (merge_row main narrowed [left_key] [right_key] ps <$> ps) in
    heap s' !!! r = without_right_key left_key right_key merged /\
    rows (heap s' !!! r)
    = (fun p => without_right_key_row left_key right_key merged
                  (merge_row main narrowed [left_key] [right_key] ps p)) <$> ps /\
    (forall l, merge_row main narrowed [left_key] [right_key] ps (Some l, None)
               = l ++ replicate (length (right_kept narrowed [left_key] [right_key])) NaN) /\
    (forall l m, merge_row main narrowed [left_key] [right_key] ps (Some l, Some m)
                 = l ++ widen_where (right_widened narrowed [left_key] [right_key] ps)
                          (mask_filter (right_mask narrowed [left_key] [right_key]) m)) /\
    len main0 <= len (heap s' !!! r) /\
    (NoDup (column lookup right_key) ->
     ps = (fun l => (Some l, first_match [0] (row_key [i] l) (rows narrowed))) <$> rows main /\
     len (heap s' !!! r) = len main0).
Proof.
  intros main lookup looked Hm Hl Hlk Hrk Hml Hll.
  destruct (has_column_index _ _ Hml) as [i Hi].
  assert (Hi' : index_of left_key (columns main) = Some i)
    by (unfold main; by rewrite coerced_columns).
  assert (Hcols : columns lookup = columns lookup0)
    by (unfold lookup; by rewrite coerced_columns).
  assert (Hkey : right_key ∈ columns lookup)
    by (rewrite Hcols; by apply bool_decide_eq_true in Hll).
  destruct (select_with_key lookup right_key looked Hkey (vlookup_columns_exist _ _ _ _))
    as (narrowed & Hsel & Hncols & H0 & Hncol & Hnlen).
  rewrite Hcols in Hncols.
  pose proof (merge_left main narrowed left_key right_key i 0 Hi' H0) as Hmerge.
  set (ps := left_pairs [i] [0] (rows main) (rows narrowed)) in *.
  set (merged := mkDF _ _) in Hmerge.
  destruct (vlookup_runs main_df lookup_df config s main0 lookup0 left_key right_key
              narrowed merged Hm Hl Hlk Hrk Hml Hll Hsel Hmerge) as (r & s' & Hrun & _ & Hr).
  assert (Hrows : rows (heap s' !!! r)
                  = (fun p => without_right_key_row left_key right_key merged
                                (merge_row main narrowed [left_key] [right_key] ps p)) <$> ps).
  { rewrite Hr, without_right_key_rows. unfold merged at 2. cbn [rows].
    by rewrite <- list_fmap_compose. }
  pose proof (left_widened_none main [left_key] [right_key] ps
                (left_pairs_left _ _ _ _)) as Hnone.
  exists r, s', narrowed, i.
  split; [exact Hrun|]. split.
  { unfold vlookup_value. fold main lookup looked. rewrite Hsel. cbn. rewrite Hmerge. cbn.
    by rewrite Hr. }
  split; [exact Hsel|]. split; [exact Hncols|]. split.
  { intros Hnd. apply (select_columns_unique lookup _ narrowed); [by rewrite Hcols|done]. }
  split; [exact Hncol|]. split; [exact H0|]. split; [exact Hi|]. cbv zeta.
  split; [exact Hr|]. split; [exact Hrows|].
  split; [intros l; unfold merge_row; cbv zeta; by rewrite widen_where_none|].
  split; [intros l m; unfold merge_row; cbv zeta; by rewrite widen_where_none|].
  split.
  { unfold len. rewrite Hrows, length_fmap.
    etrans; [|apply left_pairs_length]. unfold main. by rewrite coerced_length. }
  intros Hkeys.
  assert (Hnodup : NoDup (row_key [0] <$> rows narrowed)).
  { rewrite <- Hncol in Hkeys. unfold column in Hkeys. rewrite H0 in Hkeys.
    replace (row_key [0] <$> rows narrowed)
      with ((fun x => [x]) <$> ((fun r : list cell => r !!! 0) <$> rows narrowed))
      by (rewrite <- list_fmap_compose; by apply list_fmap_ext).
    apply NoDup_fmap_2; [|done]. by intros x y [= ->]. }
  pose proof (left_pairs_unique [i] [0] (rows main) _ Hnodup) as Hps. fold ps in Hps.
  split; [exact Hps|].
  unfold len. rewrite Hrows, length_fmap, Hps, length_fmap. unfold main.
  by rewrite coerced_length.
Qed.
End VlookupClaim.

(** ** Tables of key groups *)

Section ListFacts.
Context {A B C : Type}.

Lemma mapM_outcome (f : C -> outcome B) (h : A -> C) (g : A -> B) (l : list A) :
  Forall (fun x => f (h x) = Ok (g x)) l -> mapM f (h <$> l) = Ok (g <$> l).
Proof.
  induction 1 as [|x l Hx _ IH]; [done|]. cbn. rewrite Hx. cbn. rewrite IH. done.
Qed.

Lemma mapM_outcome_id (f : A -> outcome B) (g : A -> B) (l : list A) :
  Forall (fun x => f x = Ok (g x)) l -> mapM f l = Ok (g <$> l).
Proof.
  induction 1 as [|x l Hx _ IH]; [done|]. cbn. rewrite Hx. cbn. rewrite IH. done.
Qed.

Lemma imap_lookup_fmap (h : B -> A -> C) (v : A -> B) `{Inhabited B} (l : list A) :
  imap (fun j x => h ((v <$> l) !!! j) x) l = (fun x => h (v x) x) <$> l.
Proof.
  apply list_eq. intros i. rewrite list_lookup_imap, list_lookup_fmap.
  destruct (l !! i) as [x|] eqn:Hx; [|done]. cbn. do 2 f_equal.
  apply list_lookup_total_correct. by rewrite list_lookup_fmap, Hx.
Qed.

Lemma mask_filter_fmap (p : A -> bool) (f : A -> B) (l : list A) :
  mask_filter (p <$> l) (f <$> l) = f <$> List.filter p l.
Proof.
  induction l as [|x l IH]; [done|]. cbn. destruct (p x); cbn; by rewrite IH.
Qed.

Lemma mask_filter_app_false (p : A -> bool) (ks : list A) (k : list B) m t :
  Forall (fun x => p x = false) ks -> length k = length ks ->
  mask_filter ((p <$> ks) ++ m) (k ++ t) = mask_filter m t.
Proof.
  intros Hp. revert k. induction Hp as [|x ks Hx _ IH]; intros [|y k] Hlen; try done.
  cbn. rewrite Hx. apply IH. by injection Hlen.
Qed.

Lemma mask_filter_app (p : A -> bool) (ks : list A) (k : list B) m t :
  Forall (fun x => p x = true) ks -> length k = length ks ->
  mask_filter ((p <$> ks) ++ m) (k ++ t) = k ++ mask_filter m t.
Proof.
  intros Hp. revert k. induction Hp as [|x ks Hx _ IH]; intros [|y k] Hlen; try done.
  cbn. rewrite Hx. f_equal. apply IH. by injection Hlen.
Qed.
End ListFacts.

Section KeyedTables.
Implicit Types (keys suffix : list string) (tl : group -> list cell) (gs : list group).

Lemma index_of_suffix c keys suffix :
  c ∉ keys ->
  index_of c (keys ++ suffix) = (fun i => length keys + i) <$> index_of c suffix.
Proof.
  intros Hc. induction keys as [|k keys IH]; cbn.
  - by destruct (index_of c suffix).
  - apply not_elem_of_cons in Hc as [Hk Hc].
    rewrite bool_decide_eq_false_2 by done. rewrite IH by done.
    by destruct (index_of c suffix).
Qed.

Lemma index_of_elem c (cols : list string) i : index_of c cols = Some i -> c ∈ cols.
Proof.
  revert i. induction cols as [|c' cols IH]; intros i; cbn; [done|].
  case_bool_decide as Hc; [subst; intros _; by left|].
  destruct (index_of c cols); [|done]. intros _. right. by eapply IH.
Qed.

Lemma has_column_keyed keys suffix tl gs c i :
  index_of c suffix = Some i -> has_column (keyed_table keys suffix tl gs) c = true.
Proof.
  intros Hi%index_of_elem. apply bool_decide_eq_true. cbn. set_solver.
Qed.

Lemma column_keyed keys suffix tl gs c i :
  c ∉ keys -> index_of c suffix = Some i -> key_width (length keys) gs ->
  column (keyed_table keys suffix tl gs) c = (fun g => tl g !!! i) <$> gs.
Proof.
  intros Hc Hi Hw. unfold column, keyed_table. cbn. rewrite index_of_suffix, Hi by done.
  cbn. rewrite <- list_fmap_compose. apply Forall_fmap_ext_1.
  eapply Forall_impl; [exact Hw|]. intros g Hg. cbn in Hg |- *.
  rewrite lookup_total_app_r by lia. f_equal. lia.
Qed.

Lemma set_column_keyed keys suffix tl gs c i (v : group -> cell) :
  c ∉ keys -> index_of c suffix = Some i -> key_width (length keys) gs ->
  set_column (keyed_table keys suffix tl gs) c (v <$> gs)
  = keyed_table keys suffix (fun g => <[i := v g]> (tl g)) gs.
Proof.
  intros Hc Hi Hw. unfold set_column, keyed_table. cbn. rewrite index_of_suffix, Hi by done.
  cbn. f_equal. rewrite imap_fmap.
  etrans; [exact (imap_lookup_fmap (fun x g => <[length keys + i := x]> (g.1.1 ++ tl g)) v gs)|].
  apply Forall_fmap_ext_1. eapply Forall_impl; [exact Hw|]. intros g Hg. cbn in Hg |- *.
  rewrite insert_app_r_alt by lia. do 2 f_equal. lia.
Qed.

Lemma set_column_keyed_new keys suffix tl gs c (v : group -> cell) :
  c ∉ keys -> index_of c suffix = None ->
  set_column (keyed_table keys suffix tl gs) c (v <$> gs)
  = keyed_table keys (suffix ++ [c]) (fun g => tl g ++ [v g]) gs.
Proof.
  intros Hc Hi. unfold set_column, keyed_table. cbn. rewrite index_of_suffix, Hi by done.
  cbn. rewrite <- app_assoc. f_equal. rewrite imap_fmap.
  etrans; [exact (imap_lookup_fmap (fun x g => (g.1.1 ++ tl g) ++ [x]) v gs)|].
  apply list_fmap_ext. intros _ g _. by rewrite <- app_assoc.
Qed.

Lemma drop_keyed keys suffix tl gs cs :
  Forall (fun k => k ∉ cs) keys -> key_width (length keys) gs ->
  let mask := (fun c => negb (bool_decide (c ∈ cs))) <$> suffix in
  drop (keyed_table keys suffix tl gs) cs
  = keyed_table keys (mask_filter mask suffix) (fun g => mask_filter mask (tl g)) gs.
Proof.
  intros Hk Hw mask. unfold drop, keep_columns, keyed_table. cbn [columns rows].
  assert (Hp : Forall (fun k => negb (bool_decide (k ∈ cs)) = true) keys).
  { eapply Forall_impl; [exact Hk|]. intros k Hkc. cbn. by rewrite bool_decide_eq_false_2. }
  rewrite fmap_app. fold mask. f_equal.
  - by apply mask_filter_app.
  - rewrite <- list_fmap_compose. apply Forall_fmap_ext_1.
    eapply Forall_impl; [exact Hw|]. intros g Hg. cbn in Hg |- *. by apply mask_filter_app.
Qed.
End KeyedTables.

Section Stepping.
Context `{Pandas}.
Implicit Types (s : State) (m : ref) (keys suffix : list string) (gs : list group).

Lemma getitem_keyed s m keys suffix tl gs c i :
  holds s m (keyed_table keys suffix tl gs) ->
  c ∉ keys -> index_of c suffix = Some i -> key_width (length keys) gs ->
  getitem m c s = (Ok ((fun g => tl g !!! i) <$> gs), s).
Proof.
  intros [Hm Hd] Hc Hi Hw.
  unfold getitem. rewrite get_bind, Hd, (has_column_keyed _ _ _ _ _ _ Hi).
  by rewrite (column_keyed _ _ _ _ _ _ Hc Hi Hw).
Qed.

Lemma yields_getitem s m keys suffix tl gs c i (k : list cell -> M ref) out :
  holds s m (keyed_table keys suffix tl gs) ->
  c ∉ keys -> index_of c suffix = Some i -> key_width (length keys) gs ->
  yields (k ((fun g => tl g !!! i) <$> gs) s) out ->
  yields ((getitem m c ≫= k) s) out.
Proof.
  intros Hm Hc Hi Hw Hk. by rewrite (bind_ok _ _ _ _ _ (getitem_keyed _ _ _ _ _ _ _ _ Hm Hc Hi Hw)).
Qed.

Lemma yields_setitem s m keys suffix tl gs c i vals (v : group -> cell) tl'
    (k : unit -> M ref) out :
  holds s m (keyed_table keys suffix tl gs) ->
  c ∉ keys -> index_of c suffix = Some i -> key_width (length keys) gs ->
  vals = v <$> gs -> (forall g, <[i := v g]> (tl g) = tl' g) ->
  (forall s', holds s' m (keyed_table keys suffix tl' gs) -> yields (k tt s') out) ->
  yields ((setitem m c vals ≫= k) s) out.
Proof.
  intros Hm Hc Hi Hw -> Htl Hk.
  destruct (setitem_holds s m _ c (v <$> gs) Hm) as (s' & Hset & Hm').
  rewrite (bind_ok _ _ _ _ _ Hset). apply Hk.
  rewrite (set_column_keyed _ _ _ _ _ _ _ Hc Hi Hw) in Hm'.
  replace (keyed_table keys suffix tl' gs)
    with (keyed_table keys suffix (fun g => <[i := v g]> (tl g)) gs); [done|].
  unfold keyed_table. f_equal. apply list_fmap_ext. intros _ g _. by rewrite Htl.
Qed.

Lemma yields_setitem_new s m keys suffix tl gs c vals (v : group -> cell) tl'
    (k : unit -> M ref) out :
  holds s m (keyed_table keys suffix tl gs) ->
  c ∉ keys -> index_of c suffix = None ->
  vals = v <$> gs -> (forall g, tl g ++ [v g] = tl' g) ->
  (forall s', holds s' m (keyed_table keys (suffix ++ [c]) tl' gs) -> yields (k tt s') out) ->
  yields ((setitem m c vals ≫= k) s) out.
Proof.
  intros Hm Hc Hi -> Htl Hk.
  destruct (setitem_holds s m _ c (v <$> gs) Hm) as (s' & Hset & Hm').
  rewrite (bind_ok _ _ _ _ _ Hset). apply Hk.
  rewrite (set_column_keyed_new _ _ _ _ _ _ Hc Hi) in Hm'.
  replace (keyed_table keys (suffix ++ [c]) tl' gs)
    with (keyed_table keys (suffix ++ [c]) (fun g => tl g ++ [v g]) gs); [done|].
  unfold keyed_table. f_equal. apply list_fmap_ext. intros _ g _. by rewrite Htl.
Qed.

Lemma yields_lift {A} (x : outcome A) a (k : A -> M ref) s out :
  x = Ok a -> yields (k a s) out -> yields ((lift x ≫= k) s) out.
Proof. by intros ->. Qed.
End Stepping.

Section Amounts.
Implicit Types (g : group) (gs : list group) (tolerance : Qc) (x y : cell).

Lemma as_int_number x z : as_int x = Some z -> as_number x = Some (Qc_of_Z z).
Proof. destruct x as [| | | |[]|]; intros [= <-]; done. Qed.

Lemma numeric_to_number x : numeric x = true -> to_number x = Ok (as_number x).
Proof. by destruct x. Qed.

Lemma cell_sub_difference k x y :
  numeric x = true -> numeric y = true -> cell_sub x y = Ok (difference (k, x, y)).
Proof.
  intros Hx Hy. unfold cell_sub, difference. cbn.
  destruct (as_int x), (as_int y); try done;
    rewrite (numeric_to_number x Hx), (numeric_to_number y Hy); cbn;
    by destruct (as_number x), (as_number y).
Qed.

Lemma float_sub_cases a b : (exists q, float_sub a b = Num q) \/ float_sub a b = NaN.
Proof.
  unfold float_sub, cell_of_float. destruct (Qc_of_float _); [left; by eexists|by right].
Qed.

Lemma difference_cases g :
  (exists z, difference g = Int z) \/ (exists q, difference g = Num q) \/ difference g = NaN.
Proof.
  unfold difference. destruct (as_int g.1.2), (as_int g.2); try (left; by eexists);
    (destruct (as_number g.1.2), (as_number g.2);
     [right; apply float_sub_cases|by right; right..]).
Qed.

Lemma cell_abs_difference g : cell_abs (difference g) = Ok (magnitude (difference g)).
Proof. by destruct (difference_cases g) as [[z ->]|[[q ->]| ->]]. Qed.

Lemma Qc_of_Z_abs (z : Z) : Qc_of_Z (Z.abs z) = Qcabs (Qc_of_Z z).
Proof.
  apply Qc_is_canon.
  change (Qred (inject_Z (Z.abs z)) == Qabs (Qred (inject_Z z)))%Q.
  by rewrite !Qred_correct.
Qed.

Lemma as_number_magnitude x :
  match x with Int _ | Num _ | NaN => True | _ => False end ->
  as_number (magnitude x) = Qcabs <$> as_number x.
Proof. destruct x; try done. intros _. cbn. by rewrite Qc_of_Z_abs. Qed.

Lemma difference_magnitude g :
  as_number (magnitude (difference g)) = Qcabs <$> as_number (difference g).
Proof.
  apply as_number_magnitude. by destruct (difference_cases g) as [[z ->]|[[q ->]| ->]].
Qed.

Lemma verdict_magnitude tolerance g :
  cell_le tolerance (magnitude (difference g)) = matches tolerance g.
Proof.
  unfold cell_le, matches. rewrite difference_magnitude.
  by destruct (as_number (difference g)).
Qed.

Lemma exceeds_magnitude tolerance g :
  cell_gt tolerance (magnitude (difference g)) = exceeds tolerance g.
Proof.
  unfold cell_gt, exceeds. rewrite difference_magnitude.
  by destruct (as_number (difference g)).
Qed.

(** A mismatch that [diff_only] keeps has the verdict "mismatch", and a
    group whose difference is a number is kept exactly when it has. *)
Lemma exceeds_matches tolerance g :
  (exceeds tolerance g = true -> matches tolerance g = false) /\
  (forall q, as_number (difference g) = Some q ->
     (matches tolerance g = true <-> (Qcabs q <= tolerance)%Qc) /\
     exceeds tolerance g = negb (matches tolerance g)).
Proof.
  unfold exceeds, matches. destruct (as_number (difference g)) as [q|]; [|done]. split.
  - intros Hlt%bool_decide_eq_true. apply bool_decide_eq_false. by apply Qclt_not_le.
  - intros ? [= <-]. split; [apply bool_decide_eq_true|].
    do 2 case_bool_decide; try done; exfalso.
    + by eapply Qclt_not_le.
    + by apply Qcnot_le_lt in H0.
Qed.

Lemma series_sub_groups (F : group -> group) gs :
  Forall (fun g => numeric_group (F g)) gs ->
  series_sub ((fun g => (F g).1.2) <$> gs) ((fun g => (F g).2) <$> gs)
  = Ok ((fun g => difference (F g)) <$> gs).
Proof.
  intros Hn. unfold series_sub. rewrite zip_with_fmap_l, zip_with_fmap_r, zip_with_diag.
  apply mapM_outcome. eapply Forall_impl; [exact Hn|]. intros g [Ha Hb]. cbn.
  destruct (F g) as [[k a] b]. by apply cell_sub_difference.
Qed.

Lemma series_abs_groups (F : group -> group) gs :
  series_abs ((fun g => difference (F g)) <$> gs)
  = Ok ((fun g => magnitude (difference (F g))) <$> gs).
Proof.
  apply mapM_outcome. apply Forall_forall. intros g _. apply cell_abs_difference.
Qed.

Lemma verdict_groups tolerance (F : group -> group) gs :
  verdict tolerance <$> ((fun g => magnitude (difference (F g))) <$> gs)
  = (fun g => Str (if matches tolerance (F g) then "✅ 一致" else "❌ 不一致")) <$> gs.
Proof.
  rewrite <- list_fmap_compose. apply list_fmap_ext. intros _ g _. cbn.
  unfold verdict. rewrite verdict_magnitude. by destruct (matches _ _).
Qed.

Lemma mismatch_groups tolerance (F : group -> group) gs :
  cell_gt tolerance <$> ((fun g => magnitude (difference (F g))) <$> gs)
  = (fun g => exceeds tolerance (F g)) <$> gs.
Proof.
  rewrite <- list_fmap_compose. apply list_fmap_ext. intros _ g _. cbn.
  apply exceeds_magnitude.
Qed.

Lemma reserved_not_key c (keys : list string) :
  c ∈ reserved -> Forall (fun k => k ∉ reserved) keys -> c ∉ keys.
Proof. intros Hc Hk Hin. rewrite Forall_forall in Hk. by apply (Hk c). Qed.

Lemma key_width_filter n (p : group -> bool) gs :
  key_width n gs -> key_width n (List.filter p gs).
Proof.
  unfold key_width. rewrite !Forall_forall. intros Hw g Hg.
  apply list_elem_of_In, filter_In in Hg as [Hg _]. by apply Hw, list_elem_of_In.
Qed.

Lemma filter_fmap_list {A B} (p : B -> bool) (f : A -> B) (l : list A) :
  List.filter p (f <$> l) = f <$> List.filter (fun a => p (f a)) l.
Proof.
  induction l as [|a l IH]; [done|]. cbn. destruct (p (f a)); cbn; by rewrite IH.
Qed.

Lemma numeric_filled zero x :
  numeric zero = true -> numeric x = true -> numeric (filled zero x) = true.
Proof. intros Hz Hx. unfold filled. by destruct (isna x). Qed.

Lemma numeric_zero_of xs : numeric (zero_of xs) = true.
Proof. unfold zero_of. by destruct (float64_column xs). Qed.

Lemma fill_group_numeric gs g : numeric_group g -> numeric_group (fill_group gs g).
Proof.
  intros [Ha Hb]. split; cbn; by apply numeric_filled; [apply numeric_zero_of|].
Qed.
End Amounts.

Section CompareAmounts.
Context `{Pandas}.

(** Steps 5 to 7 on a merged table of key groups. *)
Lemma compare_amounts_yields s m keys gs tolerance diff_only :
  Forall (fun k => k ∉ reserved) keys ->
  key_width (length keys) gs ->
  Forall numeric_group gs ->
  holds s m (keyed_table keys ["明细汇总金额"; "汇总表金额"] (fun g => [g.1.2; g.2]) gs) ->
  yields (compare_amounts m tolerance diff_only s)
         (Ok (mkDF (reconcile_columns keys) (reconcile_rows tolerance diff_only gs))).
Proof.
  intros Hk Hw Hn Hm.
  assert (HA : "明细汇总金额" ∉ keys) by (apply reserved_not_key; [set_solver|done]).
  assert (HB : "汇总表金额" ∉ keys) by (apply reserved_not_key; [set_solver|done]).
  assert (HD : "差额" ∉ keys) by (apply reserved_not_key; [set_solver|done]).
  assert (HX : "差额绝对值" ∉ keys) by (apply reserved_not_key; [set_solver|done]).
  assert (HV : "核算结果" ∉ keys) by (apply reserved_not_key; [set_solver|done]).
  set (F := fill_group gs).
  assert (HnF : Forall (fun g => numeric_group (F g)) gs).
  { eapply Forall_impl; [exact Hn|]. intros g. apply fill_group_numeric. }
  unfold compare_amounts.
  eapply (yields_getitem _ _ _ _ _ _ _ 0); [exact Hm|done|by vm_compute|done|].
  eapply (yields_setitem _ _ _ _ _ _ _ 0 _ (fun g => (F g).1.2)
            (fun g => [(F g).1.2; g.2]));
    [exact Hm|done|by vm_compute|done|unfold fillna; by rewrite <- list_fmap_compose|done|].
  clear s Hm. intros s Hm.
  eapply (yields_getitem _ _ _ _ _ _ _ 1); [exact Hm|done|by vm_compute|done|].
  eapply (yields_setitem _ _ _ _ _ _ _ 1 _ (fun g => (F g).2)
            (fun g => [(F g).1.2; (F g).2]));
    [exact Hm|done|by vm_compute|done|unfold fillna; by rewrite <- list_fmap_compose|done|].
  clear s Hm. intros s Hm.
  eapply (yields_getitem _ _ _ _ _ _ _ 0); [exact Hm|done|by vm_compute|done|].
  eapply (yields_getitem _ _ _ _ _ _ _ 1); [exact Hm|done|by vm_compute|done|].
  eapply yields_lift; [exact (series_sub_groups F gs HnF)|].
  eapply (yields_setitem_new _ _ _ _ _ _ _ _ (fun g => difference (F g))
            (fun g => [(F g).1.2; (F g).2; difference (F g)]));
    [exact Hm|done|by vm_compute|done|done|].
  clear s Hm. intros s Hm.
  eapply (yields_getitem _ _ _ _ _ _ _ 2); [exact Hm|done|by vm_compute|done|].
  eapply yields_lift; [exact (series_abs_groups F gs)|].
  eapply (yields_setitem_new _ _ _ _ _ _ _ _ (fun g => magnitude (difference (F g)))
            (fun g => [(F g).1.2; (F g).2; difference (F g);
                       magnitude (difference (F g))]));
    [exact Hm|done|by vm_compute|done|done|].
  clear s Hm. intros s Hm.
  eapply (yields_getitem _ _ _ _ _ _ _ 3); [exact Hm|done|by vm_compute|done|].
  eapply (yields_setitem_new _ _ _ _ _ _ _ _
            (fun g => Str (if matches tolerance (F g) then "✅ 一致" else "❌ 不一致"))
            (fun g => [(F g).1.2; (F g).2; difference (F g);
                       magnitude (difference (F g));
                       Str (if matches tolerance (F g) then "✅ 一致" else "❌ 不一致")]));
    [exact Hm|done|by vm_compute|exact (verdict_groups tolerance F gs)|done|].
  clear s Hm. intros s Hm.
  set (tl5 := fun g : group => [(F g).1.2; (F g).2; difference (F g);
                                magnitude (difference (F g));
                                Str (if matches tolerance (F g) then "✅ 一致" else "❌ 不一致")]) in *.
  set (suffix5 := (((["明细汇总金额"; "汇总表金额"] ++ ["差额"]) ++ ["差额绝对值"]) ++ ["核算结果"])) in *.
  set (kept := if diff_only then List.filter (fun g => exceeds tolerance (F g)) gs else gs).
  match goal with
  | |- yields ((?choice ≫= _) s) _ =>
      assert (exists r s', choice s = (Ok r, s') /\
                holds s' r (keyed_table keys suffix5 tl5 kept))
        as (r & s' & Hres & Hr)
  end.
  { unfold kept. destruct diff_only.
    - erewrite bind_ok; [|by apply (getitem_keyed _ _ _ _ _ _ _ 3 Hm HX)].
      rewrite get_bind, (proj2 Hm), new_bind.
      set (kept' := mkDF _ _).
      destruct (copy_holds (with_heap s (heap s ++ [kept'])) (length (heap s)))
        as (s' & E & Hc & _).
      rewrite (proj2 (holds_new s kept')) in Hc.
      eexists _, _. split; [exact E|].
      replace (keyed_table keys suffix5 tl5 _) with kept'; [exact Hc|].
      unfold kept', keyed_table. cbn [columns rows]. f_equal.
      etrans; [|apply mask_filter_fmap]. f_equal. apply mismatch_groups.
    - destruct (copy_holds s m) as (s' & E & Hc & _). rewrite (proj2 Hm) in Hc.
      by eexists _, _. }
  rewrite (bind_ok _ _ _ _ _ Hres).
  assert (Hw' : key_width (length keys) kept).
  { unfold kept. destruct diff_only; [by apply key_width_filter|done]. }
  match goal with
  | |- yields (df_call ?f r s') _ =>
      assert (f (keyed_table keys suffix5 tl5 kept)
              = Ok (mkDF (reconcile_columns keys) (reconcile_rows tolerance diff_only gs)))
        as <-; [|exact (yields_call f s' r _ Hr)]
  end.
  rewrite (has_column_keyed _ _ _ _ _ 3) by (by vm_compute).
  rewrite drop_keyed
    by (try done; apply Forall_forall; by intros k Hin ->%list_elem_of_singleton).
  unfold keyed_table, reconcile_columns, reconcile_rows, reported. f_equal. f_equal.
  fold F. unfold kept. destruct diff_only.
  - rewrite filter_fmap_list, <- list_fmap_compose. by apply list_fmap_ext.
  - rewrite <- list_fmap_compose. by apply list_fmap_ext.
Qed.
End CompareAmounts.

(** ** The two sides of the merge of [reconcile] *)

Section Sides.
Context `{Pandas}.
Implicit Types (d : DataFrame) (keys : list string) (r : list cell).

Lemma sum_cells_numeric float (xs : list cell) :
  Forall (fun x => numeric x = true) xs ->
  exists c, sum_cells float xs = Ok c /\ numeric c = true.
Proof.
  intros Hxs. unfold sum_cells. cbv zeta.
  set (values := List.filter (fun x => negb (isna x)) xs).
  assert (Htexts : match mapM (M:=option)
                           (fun x => match x with Str s => Some s | _ => None end) values with
                   | Some (s :: texts) => False
                   | _ => True
                   end).
  { destruct (mapM _ values) as [[|s texts]|] eqn:Hm; try done.
    apply mapM_Some_1 in Hm. destruct values as [|x values'] eqn:Hv; [inversion Hm|].
    apply Forall2_cons_1 in Hm as [Hx _].
    assert (Hin : x ∈ xs).
    { assert (Hin : In x values) by (rewrite Hv; by left).
      apply filter_In in Hin as [Hin _]. by apply list_elem_of_In. }
    rewrite Forall_forall in Hxs. specialize (Hxs x Hin). by destruct x. }
  destruct (mapM _ values) as [[|s texts]|]; try done;
    rewrite (mapM_outcome_id to_number as_number xs)
      by (eapply Forall_impl; [exact Hxs|]; by intros x ?%numeric_to_number);
    cbn; (destruct (mapM _ _); [destruct float|]); by eexists.
Qed.

Lemma sorted_keys_elem (k : list cell) ks : k ∈ sorted_keys ks -> k ∈ ks.
Proof.
  unfold sorted_keys. rewrite elem_of_remove_dups. by rewrite merge_sort_Permutation.
Qed.

Lemma index_of_prefix c keys suffix :
  c ∈ keys -> exists i, index_of c (keys ++ suffix) = Some i /\ i < length keys.
Proof.
  induction keys as [|k keys IH]; [by intros ?%elem_of_nil|].
  intros Hc. cbn. case_bool_decide as Hk; [exists 0; split; [done|lia]|].
  apply elem_of_cons in Hc as [->|Hc]; [done|].
  destruct (IH Hc) as (i & -> & Hi). exists (S i). split; [done|lia].
Qed.

Lemma positions_keys (pre keys suffix : list string) :
  NoDup (pre ++ keys) ->
  mapM (M:=option) (fun c => index_of c (pre ++ keys ++ suffix)) keys
  = Some (seq (length pre) (length keys)).
Proof.
  revert pre. induction keys as [|k keys IH]; intros pre Hnd; [done|].
  cbn [mapM length seq].
  assert (Hk : k ∉ pre).
  { apply NoDup_app in Hnd as (_ & Hd & _). intros Hin. apply (Hd k Hin). by left. }
  rewrite (index_of_suffix k pre) by done. cbn [index_of app].
  rewrite bool_decide_eq_true_2 by done. cbn.
  replace (pre ++ k :: keys ++ suffix) with ((pre ++ [k]) ++ keys ++ suffix)
    by (by rewrite <- app_assoc).
  rewrite IH by (by rewrite <- app_assoc). rewrite length_app. cbn.
  by rewrite Nat.add_0_r, Nat.add_1_r.
Qed.

Lemma positions_of_keys d keys c :
  columns d = keys ++ [c] -> NoDup keys -> positions d keys = Ok (seq 0 (length keys)).
Proof.
  intros Hd Hnd. unfold positions. rewrite Hd.
  pose proof (positions_keys [] keys [c] Hnd) as Hidx. cbn [app length] in Hidx.
  by rewrite Hidx.
Qed.

Lemma take_seq r n : n <= length r -> (fun i => r !!! i) <$> seq 0 n = take n r.
Proof.
  intros Hn. apply list_eq. intros i. rewrite list_lookup_fmap.
  destruct (decide (i < n)) as [Hi|Hi].
  - rewrite lookup_seq_lt by done. rewrite lookup_take_lt by done. cbn.
    symmetry. apply list_lookup_lookup_total_lt. lia.
  - rewrite lookup_seq_ge by lia. rewrite lookup_take_ge by lia. done.
Qed.

Lemma split_last r n : length r = S n -> r = take n r ++ [r !!! n].
Proof.
  intros Hr. rewrite <- (take_drop n r) at 1. f_equal.
  apply list_eq. intros [|i].
  - rewrite lookup_drop, Nat.add_0_r. cbn. apply list_lookup_lookup_total_lt. lia.
  - rewrite lookup_drop. cbn. apply lookup_ge_None_2. lia.
Qed.

(** The grouped detail has the keys and then the total. *)
Lemma groupby_sum_shape d keys left_column :
  Forall (fun k => k ∈ columns d) keys -> left_column ∈ columns d ->
  Forall (fun x => numeric x = true) (column d left_column) ->
  exists grouped,
    groupby_sum d keys left_column = Ok grouped /\
    columns grouped = keys ++ [left_column] /\
    amount_rows (length keys) (rows grouped).
Proof.
  intros Hkeys Hleft Hnum. unfold groupby_sum, positions.
  assert (Hidx : is_Some (mapM (M:=option) (fun c => index_of c (columns d)) keys)).
  { apply mapM_is_Some. eapply Forall_impl; [exact Hkeys|].
    intros c Hc. by apply index_of_is_Some. }
  destruct Hidx as [kidx Hkidx]. rewrite Hkidx.
  pose proof (length_mapM _ _ _ Hkidx) as Hlen.
  destruct (index_of_is_Some _ _ Hleft) as [cidx Hcidx]. rewrite Hcidx. cbn.
  unfold column in Hnum. rewrite Hcidx in Hnum.
  set (kept := List.filter _ (rows d)).
  set (float := float64_column _).
  set (cells := fun k : list cell =>
         (fun r : list cell => r !!! cidx)
           <$> List.filter (fun r => bool_decide (group_key kidx (rows d) r = k)) kept).
  assert (Hcells : forall k, Forall (fun x => numeric x = true) (cells k)).
  { intros k. apply Forall_fmap, Forall_forall. intros r Hr. unfold kept in Hr.
    apply list_elem_of_In, filter_In in Hr as [Hr _]. apply filter_In in Hr as [Hr _].
    rewrite Forall_fmap, Forall_forall in Hnum. by apply Hnum, list_elem_of_In. }
  set (total := fun k : list cell =>
         match sum_cells float (cells k) with
         | Ok c => c
         | Raise _ => NaN
         end).
  rewrite (mapM_outcome_id _ (fun k => k ++ [total k])).
  - eexists. split; [reflexivity|]. split; [done|]. cbn.
    apply Forall_fmap, Forall_forall. intros k Hk%sorted_keys_elem.
    apply list_elem_of_fmap in Hk as (r & -> & _). cbn. unfold group_key.
    rewrite length_app, length_fmap. cbn. split; [lia|].
    rewrite lookup_total_app_r by (rewrite length_fmap; lia).
    rewrite length_fmap. replace (length keys - length kidx) with 0 by lia. cbn.
    unfold total. set (k := (fun i => group_label _ _) <$> kidx).
    by destruct (sum_cells_numeric float (cells k) (Hcells k)) as (c & -> & Hc).
  - apply Forall_forall. intros k _. unfold total. fold (cells k).
    by destruct (sum_cells_numeric float (cells k) (Hcells k)) as (c & -> & _).
Qed.

(** The picked summary has the keys and then the amount. *)
Lemma select_shape d keys right_column :
  NoDup (columns d) ->
  Forall (fun k => k ∈ columns d) keys -> right_column ∈ columns d ->
  Forall (fun x => numeric x = true) (column d right_column) ->
  exists picked,
    select d (keys ++ [right_column]) = Ok picked /\
    columns picked = keys ++ [right_column] /\
    amount_rows (length keys) (rows picked).
Proof.
  intros Hcols Hkeys Hright Hnum.
  assert (Hidx : is_Some (mapM (M:=option) (fun c => index_of c (columns d))
                                (keys ++ [right_column]))).
  { apply mapM_is_Some, Forall_app. split.
    - eapply Forall_impl; [exact Hkeys|]. intros c Hc. by apply index_of_is_Some.
    - apply Forall_singleton. by apply index_of_is_Some. }
  destruct Hidx as [idx Hidx]. rewrite (select_unique d _ idx Hcols Hidx).
  eexists. split; [reflexivity|]. split; [done|]. cbn.
  apply mapM_Some, Forall2_app_inv_l in Hidx as (i1 & i2 & H1 & H2 & ->).
  apply Forall2_length in H1.
  pose proof (Forall2_length _ _ _ H2) as Hl2.
  destruct i2 as [|j [|? ?]]; try discriminate Hl2.
  apply Forall2_cons_1 in H2 as [Hj _].
  unfold column in Hnum. rewrite Hj in Hnum.
  rewrite Forall_fmap in Hnum. apply Forall_fmap.
  eapply Forall_impl; [exact Hnum|]. intros r Hr. cbn in Hr |- *.
  rewrite length_fmap, length_app. cbn. split; [lia|].
  rewrite fmap_app, lookup_total_app_r by (rewrite length_fmap; lia).
  rewrite length_fmap. by replace (length keys - length i1) with 0 by lia.
Qed.

Lemma rename_last d keys c c' :
  columns d = keys ++ [c] -> c ∉ keys ->
  columns (rename d [(c, c')]) = keys ++ [c'] /\ rows (rename d [(c, c')]) = rows d.
Proof.
  intros Hd Hc. split; [|done]. unfold rename. cbn. rewrite Hd, fmap_app. f_equal.
  - rewrite <- (list_fmap_id keys) at 2. apply list_fmap_ext. intros _ k Hk%list_elem_of_lookup_2.
    rewrite lookup_insert_ne by (by intros ->). by rewrite lookup_empty.
  - cbn. by rewrite lookup_insert_eq.
Qed.

Lemma coerced_shape d keys c key :
  columns d = keys ++ [c] -> key ∈ keys -> amount_rows (length keys) (rows d) ->
  columns (coerced d key) = keys ++ [c] /\ amount_rows (length keys) (rows (coerced d key)).
Proof.
  intros Hd Hkey Hrows. unfold coerced, set_column. rewrite Hd.
  destruct (index_of_prefix key keys [c] Hkey) as (i & -> & Hi). cbn. split; [done|].
  apply Forall_lookup. intros j r' Hr'. rewrite list_lookup_imap in Hr'.
  destruct (rows d !! j) as [r|] eqn:Hr; [|done]. injection Hr' as <-.
  unfold amount_rows in Hrows. rewrite Forall_lookup in Hrows.
  destruct (Hrows j r Hr) as [Hlen Hn].
  rewrite length_insert. split; [done|].
  by rewrite list_lookup_total_insert_ne by lia.
Qed.

Lemma text_keys_shape d keys c keys' :
  columns d = keys ++ [c] -> keys' ⊆ keys -> amount_rows (length keys) (rows d) ->
  columns (text_keys keys' d) = keys ++ [c] /\
  amount_rows (length keys) (rows (text_keys keys' d)).
Proof.
  revert d. induction keys' as [|k keys' IH]; intros d Hd Hsub Hrows; [done|].
  cbn. destruct (coerced_shape d keys c k Hd) as [Hd' Hrows']; [set_solver|done|].
  apply IH; [done|set_solver|done].
Qed.
End Sides.

Section OuterMerge.
Implicit Types (keys : list string) (ls rs : list (list cell)) (lidx ridx : list nat).

Lemma coalesced_same keys : coalesced keys keys = keys.
Proof.
  unfold coalesced. induction keys as [|k keys IH]; [done|].
  cbn. rewrite bool_decide_eq_true_2 by done. cbn. by f_equal.
Qed.

Lemma rows_with_key_elem idx k rs r : r ∈ rows_with_key idx k rs -> r ∈ rs.
Proof.
  unfold rows_with_key. intros Hr%list_elem_of_In. apply filter_In in Hr as [Hr _].
  by apply list_elem_of_In.
Qed.

(** Every row of an outer merge comes from a left row, a right row or a
    pair of them. *)
Lemma outer_pairs_Forall (P : pairing -> Prop) lidx ridx ls rs :
  (forall l, l ∈ ls -> P (Some l, None)) ->
  (forall r, r ∈ rs -> P (None, Some r)) ->
  (forall l r, l ∈ ls -> r ∈ rs -> P (Some l, Some r)) ->
  Forall P (outer_pairs lidx ridx ls rs).
Proof.
  intros Hl Hr Hlr. unfold outer_pairs. apply Forall_bind, Forall_forall. intros k _. cbn.
  unfold outer_block.
  pose proof (rows_with_key_elem lidx k ls) as Hls.
  pose proof (rows_with_key_elem ridx k rs) as Hrs.
  destruct (rows_with_key lidx k ls) as [|l ls'], (rows_with_key ridx k rs) as [|r rs'].
  - done.
  - apply Forall_fmap, Forall_forall. intros r' Hr'. by apply Hr, Hrs.
  - apply Forall_fmap, Forall_forall. intros l' Hl'. by apply Hl, Hls.
  - apply Forall_bind, Forall_forall. intros l' Hl'. unfold compose.
    apply Forall_fmap, Forall_forall. intros r' Hr'. apply Hlr; [by apply Hls|by apply Hrs].
Qed.

Lemma widen_where_app flags1 flags2 (r1 r2 : list cell) :
  length flags1 = length r1 ->
  widen_where (flags1 ++ flags2) (r1 ++ r2) = widen_where flags1 r1 ++ widen_where flags2 r2.
Proof.
  revert r1. induction flags1 as [|b flags1 IH]; intros [|x r1] Hlen; try done.
  cbn. f_equal. apply IH. by injection Hlen.
Qed.

Lemma imap_all_false {A} (f : nat -> A -> bool) (l : list A) :
  (forall j x, l !! j = Some x -> f j x = false) -> imap f l = replicate (length l) false.
Proof.
  revert f. induction l as [|x l IH]; intros f Hf; [done|]. cbn.
  rewrite (Hf 0 x eq_refl). f_equal. apply IH. intros j y Hy. by apply (Hf (S j)).
Qed.

(** The outer merge of the two sides is a table of key groups. *)
Lemma merge_outer (G S : DataFrame) keys a b :
  columns G = keys ++ [a] -> columns S = keys ++ [b] ->
  NoDup keys -> a ∉ keys -> b ∉ keys -> a <> b ->
  amount_rows (length keys) (rows G) -> amount_rows (length keys) (rows S) ->
  merge G S keys keys "outer"
  = Ok (keyed_table keys [a; b] (fun g => [g.1.2; g.2])
          (merged_groups (length keys) (rows G) (rows S))).
Proof.
  intros HG HS Hnd Ha Hb Hab HrG HrS. unfold merge, merged_groups.
  rewrite (positions_of_keys G keys a HG Hnd), (positions_of_keys S keys b HS Hnd). cbn.
  rewrite bool_decide_eq_true_2 by done. cbn [negb].
  change (merge_pairs ?a ?b ?c ?d "outer") with (Ok (outer_pairs a b c d)). cbn [mbind outcome_bind].
  set (n := length keys).
  set (ps := outer_pairs (seq 0 n) (seq 0 n) (rows G) (rows S)).
  set (wa := detail_widened n (rows G) ps).
  set (wb := summary_widened n (rows S) ps).
  set (p := fun c : string => negb (bool_decide (c ∈ keys))).
  assert (Hp : Forall (fun c => p c = false) keys).
  { apply Forall_forall. intros c Hc. unfold p. by rewrite bool_decide_eq_true_2. }
  assert (Hmask : right_mask S keys keys = (p <$> keys) ++ [true]).
  { unfold right_mask. rewrite coalesced_same, HS, fmap_app. cbn.
    by rewrite bool_decide_eq_false_2. }
  assert (Hkept : right_kept S keys keys = [b]).
  { unfold right_kept. rewrite Hmask, HS. by rewrite mask_filter_app_false. }
  assert (Hlast : forall r : list cell, length r = (n + 1)%nat ->
            mask_filter (right_mask S keys keys) r = [r !!! n]).
  { intros r Hr. rewrite Hmask. rewrite (split_last r n) at 1 by lia.
    rewrite mask_filter_app_false; [done|done|]. rewrite length_take. unfold n in *. lia. }
  assert (Hlw : left_widened G keys keys ps = replicate n false ++ [wa]).
  { unfold left_widened. rewrite HG, imap_app. f_equal.
    - apply imap_all_false. intros j c Hc%list_elem_of_lookup_2.
      rewrite coalesced_same, (bool_decide_eq_true_2 (c ∈ keys)) by done. cbn.
      by rewrite andb_false_r.
    - cbn. rewrite coalesced_same, (bool_decide_eq_false_2 (a ∈ keys)) by done.
      rewrite Nat.add_0_r, andb_true_r. reflexivity. }
  assert (Hrw : right_widened S keys keys ps = [wb]).
  { unfold right_widened. rewrite Hmask, HS, imap_app.
    rewrite mask_filter_app_false by (try done; by rewrite length_imap).
    cbn. by rewrite Nat.add_0_r. }
  assert (Hleft : forall l : list cell, length l = Datatypes.S n ->
            widen_where (left_widened G keys keys ps) l
            = take n l ++ [if wa then widen (l !!! n) else l !!! n]).
  { intros l Hl. rewrite Hlw. rewrite (split_last l n) at 1 by done.
    rewrite widen_where_app by (rewrite length_replicate, length_take; lia).
    rewrite widen_where_none by (by apply Forall_replicate). done. }
  assert (Hright : forall r : list cell, length r = Datatypes.S n ->
            widen_where (right_widened S keys keys ps) (mask_filter (right_mask S keys keys) r)
            = [if wb then widen (r !!! n) else r !!! n]).
  { intros r Hr. rewrite Hrw, Hlast by lia. done. }
  unfold keyed_table. f_equal. f_equal.
  - unfold merge_columns, overlaps. rewrite Hkept, HG, fmap_app, <- app_assoc. cbn.
    f_equal.
    + rewrite <- (list_fmap_id keys) at 2. apply list_fmap_ext.
      intros _ c Hc%list_elem_of_lookup_2.
      rewrite (bool_decide_eq_false_2 (c ∈ [b]));
        [by rewrite andb_false_r|intros ->%list_elem_of_singleton; done].
    + rewrite (bool_decide_eq_false_2 (a ∈ [b]))
        by (by intros ->%list_elem_of_singleton).
      rewrite andb_false_r.
      rewrite (bool_decide_eq_false_2 (b ∈ keys ++ [a])); [done|].
      intros [?|Hx%list_elem_of_singleton]%elem_of_app; [done|by subst].
  - rewrite <- !list_fmap_compose. apply Forall_fmap_ext_1.
    unfold amount_rows in HrG, HrS. rewrite Forall_forall in HrG, HrS.
    apply outer_pairs_Forall.
    + intros l [Hl _]%HrG. unfold merge_row. cbn. rewrite Hkept, Hleft by done. cbn.
      rewrite <- app_assoc. cbn. by destruct wb.
    + intros r [Hr _]%HrS. unfold merge_row. cbn. rewrite Hright by done.
      unfold left_part_of_right. rewrite coalesced_same, HG, HS, fmap_app. cbn.
      rewrite (bool_decide_eq_false_2 (a ∈ keys)) by done. rewrite <- app_assoc. cbn.
      replace (if wa then NaN else NaN) with NaN by (by destruct wa).
      f_equal. unfold n. rewrite <- take_seq by (unfold n in *; lia).
      pose proof (mapM_Some_1 _ _ _ (positions_keys [] keys [b] Hnd)) as Hidx.
      cbn [app length] in Hidx.
      apply list_eq. intros j. rewrite !list_lookup_fmap.
      destruct (keys !! j) as [c|] eqn:Hc.
      * destruct (Forall2_lookup_l _ _ _ _ _ Hidx Hc) as (i & -> & Hi). cbn.
        rewrite Hi. by rewrite bool_decide_eq_true_2 by (by eapply list_elem_of_lookup_2).
      * apply lookup_ge_None_1 in Hc. by rewrite lookup_seq_ge.
    + intros l r [Hl _]%HrG [Hr _]%HrS. unfold merge_row. cbn.
      rewrite Hleft, Hright by done. by rewrite <- app_assoc.
Qed.
End OuterMerge.

Section Identity.
Implicit Types (G S P : list (list cell)) (g : group) (ps : list pairing).

Lemma filter_Permutation_list {A} (p : A -> bool) (l1 l2 : list A) :
  l1 ≡ₚ l2 -> List.filter p l1 ≡ₚ List.filter p l2.
Proof.
  induction 1 as [|x l1 l2 _ IH|x y l|l1 l2 l3 _ IH1 _ IH2]; cbn.
  - done.
  - destruct (p x); [by constructor|done].
  - destruct (p x), (p y); try done. apply perm_swap.
  - by etrans.
Qed.

Lemma Forall2_filter {A B} (R : A -> B -> Prop) (p : A -> bool) (q : B -> bool) l1 l2 :
  (forall a b, R a b -> p a = q b) ->
  Forall2 R l1 l2 -> Forall2 R (List.filter p l1) (List.filter q l2).
Proof.
  intros Hpq. induction 1 as [|a b l1 l2 Hab _ IH]; [constructor|]. cbn.
  rewrite <- (Hpq a b Hab). destruct (p a); [by constructor|done].
Qed.

(** Every pairing of an outer merge is a pair of rows with one key, or a
    row whose key the other side does not have. *)
Lemma outer_pairs_sound lidx ridx (ls rs : list (list cell)) :
  Forall (outer_pairing lidx ridx ls rs) (outer_pairs lidx ridx ls rs).
Proof.
  unfold outer_pairs. apply Forall_bind, Forall_forall. intros k _. cbn.
  unfold outer_block.
  assert (Hl : forall l, l ∈ rows_with_key lidx k ls -> l ∈ ls /\ row_key lidx l = k).
  { intros l Hl%list_elem_of_In. apply filter_In in Hl as [Hl Hk].
    split; [by apply list_elem_of_In|by apply bool_decide_eq_true in Hk]. }
  assert (Hr : forall r, r ∈ rows_with_key ridx k rs -> r ∈ rs /\ row_key ridx r = k).
  { intros r Hr%list_elem_of_In. apply filter_In in Hr as [Hr Hk].
    split; [by apply list_elem_of_In|by apply bool_decide_eq_true in Hk]. }
  assert (Hnl : rows_with_key lidx k ls = [] -> forall l, l ∈ ls -> row_key lidx l <> k).
  { intros Hnil l Hin Hk.
    assert (Hx : In l (rows_with_key lidx k ls)).
    { apply filter_In. split; [by apply list_elem_of_In|by apply bool_decide_eq_true]. }
    by rewrite Hnil in Hx. }
  assert (Hnr : rows_with_key ridx k rs = [] -> forall r, r ∈ rs -> row_key ridx r <> k).
  { intros Hnil r Hin Hk.
    assert (Hx : In r (rows_with_key ridx k rs)).
    { apply filter_In. split; [by apply list_elem_of_In|by apply bool_decide_eq_true]. }
    by rewrite Hnil in Hx. }
  destruct (rows_with_key lidx k ls) as [|l ls'] eqn:El,
           (rows_with_key ridx k rs) as [|r rs'] eqn:Er.
  - done.
  - apply Forall_fmap, Forall_forall. intros r' [Hin Hk]%Hr. cbn. split; [done|].
    intros l' Hl'. rewrite Hk. by apply Hnl.
  - apply Forall_fmap, Forall_forall. intros l' [Hin Hk]%Hl. cbn. split; [done|].
    intros r' Hr'. rewrite Hk. by apply Hnr.
  - apply Forall_bind, Forall_forall. intros l' [Hin Hk]%Hl. unfold compose.
    apply Forall_fmap, Forall_forall. intros r' [Hin' Hk']%Hr. cbn.
    split; [done|]. split; [done|]. by rewrite Hk, Hk'.
Qed.

Lemma outer_block_left lidx ridx (ls rs : list (list cell)) l :
  l ∈ ls ->
  exists p, p ∈ outer_block lidx ridx ls rs (row_key lidx l) /\ p.1 = Some l.
Proof.
  intros Hl. unfold outer_block.
  assert (Hin : l ∈ rows_with_key lidx (row_key lidx l) ls).
  { apply list_elem_of_In, filter_In. split; [by apply list_elem_of_In|].
    by apply bool_decide_eq_true. }
  destruct (rows_with_key lidx (row_key lidx l) ls) as [|l0 ls'];
    [by apply elem_of_nil in Hin|].
  destruct (rows_with_key ridx (row_key lidx l) rs) as [|r rs'].
  - exists (Some l, None). split; [|done]. apply list_elem_of_fmap. by exists l.
  - exists (Some l, Some r). split; [|done].
    apply list_elem_of_bind. exists l. split; [|done].
    apply list_elem_of_fmap. exists r. split; [done|by left].
Qed.

Lemma outer_block_right lidx ridx (ls rs : list (list cell)) r :
  r ∈ rs ->
  exists p, p ∈ outer_block lidx ridx ls rs (row_key ridx r) /\ p.2 = Some r.
Proof.
  intros Hr. unfold outer_block.
  assert (Hin : r ∈ rows_with_key ridx (row_key ridx r) rs).
  { apply list_elem_of_In, filter_In. split; [by apply list_elem_of_In|].
    by apply bool_decide_eq_true. }
  destruct (rows_with_key ridx (row_key ridx r) rs) as [|r0 rs'];
    [by apply elem_of_nil in Hin|].
  destruct (rows_with_key lidx (row_key ridx r) ls) as [|l ls'].
  - exists (None, Some r). split; [|done]. apply list_elem_of_fmap. by exists r.
  - exists (Some l, Some r). split; [|done].
    apply list_elem_of_bind. exists l. split; [|by left].
    apply list_elem_of_fmap. by exists r.
Qed.

Lemma sorted_keys_complete (k : list cell) ks : k ∈ ks -> k ∈ sorted_keys ks.
Proof.
  unfold sorted_keys. rewrite elem_of_remove_dups. by rewrite merge_sort_Permutation.
Qed.

(** Every row of either side is in a pairing of the outer merge. *)
Lemma outer_pairs_complete lidx ridx (ls rs : list (list cell)) :
  (forall l, l ∈ ls -> exists p, p ∈ outer_pairs lidx ridx ls rs /\ p.1 = Some l) /\
  (forall r, r ∈ rs -> exists p, p ∈ outer_pairs lidx ridx ls rs /\ p.2 = Some r).
Proof.
  split.
  - intros l Hl. destruct (outer_block_left lidx ridx ls rs l Hl) as (p & Hp & Hpl).
    exists p. split; [|done]. unfold outer_pairs. apply list_elem_of_bind.
    exists (row_key lidx l). split; [done|]. apply sorted_keys_complete.
    apply elem_of_app. left. apply list_elem_of_fmap. by exists l.
  - intros r Hr. destruct (outer_block_right lidx ridx ls rs r Hr) as (p & Hp & Hpr).
    exists p. split; [|done]. unfold outer_pairs. apply list_elem_of_bind.
    exists (row_key ridx r). split; [done|]. apply sorted_keys_complete.
    apply elem_of_app. right. apply list_elem_of_fmap. by exists r.
Qed.

Lemma float_sub_diag (q : Qc) : finite64 q = true -> float_sub q q = Num 0%Qc.
Proof.
  unfold finite64, float_sub. destruct (float_of_Qc q) as [[]|[]| |s m e]; try done.
  intros _. unfold SFsub. by rewrite Z.sub_diag.
Qed.

Lemma Qc_of_Z_inj (a b : Z) : Qc_of_Z a = Qc_of_Z b -> a = b.
Proof.
  intros Hab. apply (f_equal this) in Hab.
  change (Qred (inject_Z a) = Qred (inject_Z b)) in Hab.
  assert (Heq : (inject_Z a == inject_Z b)%Q).
  { rewrite <- (Qred_correct (inject_Z a)), <- (Qred_correct (inject_Z b)). by rewrite Hab. }
  unfold Qeq in Heq. cbn in Heq. lia.
Qed.

Lemma same_amount_difference (k : list cell) (a b : cell) q :
  as_number a = Some q -> as_number b = Some q -> finite64 q = true ->
  as_number (difference (k, a, b)) = Some 0%Qc.
Proof.
  intros Ha Hb Hq. unfold difference. cbn.
  destruct (as_int a) as [za|] eqn:Hza, (as_int b) as [zb|] eqn:Hzb;
    rewrite ?Ha, ?Hb, ?float_sub_diag by done; try done.
  apply as_int_number in Hza, Hzb. rewrite Ha in Hza. rewrite Hb in Hzb.
  assert (za = zb) as -> by (apply Qc_of_Z_inj; congruence).
  by rewrite Z.sub_diag.
Qed.

Lemma exceeds_same tolerance (k : list cell) (a b : cell) q :
  (0 <= tolerance)%Qc ->
  as_number a = Some q -> as_number b = Some q -> finite64 q = true ->
  exceeds tolerance (k, a, b) = false.
Proof.
  intros Htol Ha Hb Hq. unfold exceeds.
  rewrite (same_amount_difference k a b q Ha Hb Hq).
  apply bool_decide_eq_false. by apply Qcle_not_lt.
Qed.

Lemma filled_number zero (x : cell) q : as_number x = Some q -> filled zero x = x.
Proof. by destruct x. Qed.

(** When the summary rows are the grouped detail rows, in any order and
    with the amounts equal as numbers, and the keys of the grouped detail
    are pairwise distinct, every pairing of the merge has a row of each
    side, with equal amounts. *)
Lemma identity_pairs n G S P :
  NoDup (row_key (seq 0 n) <$> G) -> P ≡ₚ S ->
  Forall2 (fun l r => row_key (seq 0 n) l = row_key (seq 0 n) r /\
                      is_Some (as_number (l !!! n)) /\
                      as_number (l !!! n) = as_number (r !!! n)) G P ->
  Forall (fun p : pairing =>
            exists l r, p = (Some l, Some r) /\ l ∈ G /\
                        is_Some (as_number (l !!! n)) /\
                        as_number (l !!! n) = as_number (r !!! n))
         (outer_pairs (seq 0 n) (seq 0 n) G S).
Proof.
  intros Hnd Hperm Hsame. unfold outer_pairs.
  apply Forall_bind, Forall_forall. intros k _. unfold compose, outer_block.
  pose proof (rows_with_key_unique (seq 0 n) k G Hnd) as Hlen.
  pose proof (filter_Permutation_list
                (fun r => bool_decide (row_key (seq 0 n) r = k)) P S Hperm) as Hk.
  assert (Hf : Forall2 (fun l r => row_key (seq 0 n) l = row_key (seq 0 n) r /\
                                   is_Some (as_number (l !!! n)) /\
                                   as_number (l !!! n) = as_number (r !!! n))
                       (rows_with_key (seq 0 n) k G) (rows_with_key (seq 0 n) k P)).
  { apply Forall2_filter; [|exact Hsame]. intros l r [Heq _]. by rewrite Heq. }
  pose proof (rows_with_key_elem (seq 0 n) k G) as HinG.
  fold (rows_with_key (seq 0 n) k S) in Hk. fold (rows_with_key (seq 0 n) k P) in Hk.
  destruct (rows_with_key (seq 0 n) k G) as [|l [|l' ls]]; cbn in Hlen; [| |lia].
  - apply Forall2_nil_inv_l in Hf. rewrite Hf in Hk.
    apply Permutation_nil in Hk. by rewrite Hk.
  - apply Forall2_cons_inv_l in Hf as (r & rest & (_ & Hsome & Heq) & Hrest & Hf).
    apply Forall2_nil_inv_l in Hrest as ->. rewrite Hf in Hk.
    apply Permutation_length_1_inv in Hk. rewrite Hk. cbn.
    apply Forall_singleton. exists l, r. split; [done|]. split; [apply HinG; by left|done].
Qed.

Lemma no_side_missing ps :
  Forall (fun p : pairing => exists l r, p = (Some l, Some r)) ps ->
  existsb (fun p : pairing => bool_decide (p.1 = None)) ps = false /\
  existsb (fun p : pairing => bool_decide (p.2 = None)) ps = false.
Proof.
  induction 1 as [|p ps (l & r & ->) _ [IH1 IH2]]; [done|]. cbn. by rewrite IH1, IH2.
Qed.

(** Then the [diff_only] result has no rows. *)
Lemma identity_rows n G S P tolerance :
  NoDup (row_key (seq 0 n) <$> G) -> P ≡ₚ S ->
  Forall2 (fun l r => row_key (seq 0 n) l = row_key (seq 0 n) r /\
                      is_Some (as_number (l !!! n)) /\
                      as_number (l !!! n) = as_number (r !!! n)) G P ->
  Forall (fun l => finite64 (amount (l !!! n)) = true) G ->
  (0 <= tolerance)%Qc ->
  reconcile_rows tolerance true (merged_groups n G S) = [].
Proof.
  intros Hnd Hperm Hsame Hfin Htol.
  pose proof (identity_pairs n G S P Hnd Hperm Hsame) as Hps.
  unfold merged_groups. cbv zeta.
  set (ps := outer_pairs (seq 0 n) (seq 0 n) G S) in *.
  destruct (no_side_missing ps) as [H1 H2].
  { eapply Forall_impl; [exact Hps|]. intros p (l & r & -> & _). by eexists _, _. }
  unfold detail_widened, summary_widened. rewrite H1, H2. cbn [andb].
  set (gs := widen_group false false <$> (group_of n <$> ps)).
  unfold reconcile_rows, reported.
  assert (Hall : Forall (fun g => exceeds tolerance g = false) (fill_group gs <$> gs)).
  { apply Forall_fmap. unfold gs. apply Forall_fmap, Forall_fmap.
    eapply Forall_impl; [exact Hps|].
    intros p (l & r & -> & Hl & [q Hq] & Heq). cbn.
    rewrite Hq in Heq. symmetry in Heq. unfold fill_group. cbn.
    rewrite (filled_number _ _ q Hq), (filled_number _ _ q Heq).
    apply (exceeds_same tolerance _ _ _ q); try done.
    rewrite Forall_forall in Hfin. specialize (Hfin l Hl). unfold amount in Hfin.
    by rewrite Hq in Hfin. }
  induction Hall as [|g gs' Hg _ IH]; [done|]. cbn. by rewrite Hg.
Qed.
End Identity.

Section ReconcileRuns.
Context `{Pandas}.
Implicit Types (s : State) (keys : list string).

Lemma check_join_keys_ok detail summary keys s :
  Forall (fun k => k ∈ columns detail /\ k ∈ columns summary) keys ->
  check_join_keys detail summary keys s = (Ok tt, s).
Proof.
  induction 1 as [|k keys [Hd Hs] _ IH]; [done|].
  unfold check_join_keys, has_column. cbn [for_each].
  rewrite !bool_decide_eq_true_2 by done. exact IH.
Qed.

Lemma coerce_join_keys_holds keys s g sm G S :
  g <> sm -> holds s g G -> holds s sm S ->
  exists s',
    coerce_join_keys g sm keys s = (Ok tt, s') /\
    holds s' g (text_keys keys G) /\ holds s' sm (text_keys keys S).
Proof.
  intros Hne. revert s G S. induction keys as [|k keys IH]; intros s G S Hg Hs.
  - by exists s.
  - destruct (coerce_holds s g G k Hg) as (s1 & E1 & Hg1 & K1).
    destruct (coerce_holds s1 sm S k (K1 _ _ Hs (not_eq_sym Hne))) as (s2 & E2 & Hs2 & K2).
    destruct (IH s2 _ _ (K2 _ _ Hg1 Hne) Hs2) as (s' & E & Hg' & Hs').
    exists s'. split; [|done]. unfold coerce_join_keys. cbn [for_each].
    erewrite bind_ok; [exact E|]. erewrite bind_ok; [exact E2|exact E1].
Qed.

Lemma numeric_widen (x : cell) : numeric x = true -> numeric (widen x) = true.
Proof.
  destruct x; try done. intros _. unfold widen, round64, cell_of_float.
  by destruct (Qc_of_float _).
Qed.

Lemma Forall2_strengthen {A B} (R R' : A -> B -> Prop) (P : A -> Prop) (Q : B -> Prop) l1 l2 :
  (forall a b, R a b -> P a -> Q b -> R' a b) ->
  Forall2 R l1 l2 -> Forall P l1 -> Forall Q l2 -> Forall2 R' l1 l2.
Proof.
  intros HR. induction 1 as [|a b l1 l2 Hab _ IH]; [constructor|].
  intros [Ha Hl1]%Forall_cons [Hb Hl2]%Forall_cons. constructor; [by apply HR|by apply IH].
Qed.

End ReconcileRuns.

(** * Further properties of the engine *)

(** ** The schedule *)

Section Schedule.
Context (ns : list Node) (es : list Edge).
Implicit Types (d : InDegree) (q order : list string).

Lemma remaining_zero order v e :
  remaining ns es order v = 0 ->
  e ∈ es -> valid_edge ns e = true -> target e = v -> source e ∈ order.
Proof.
  unfold remaining. intros H0 He Hv Ht.
  destruct (decide (source e ∈ order)) as [|Hs]; [done|].
  assert (Hin : In e (List.filter
                        (fun e => valid_edge ns e && bool_decide (target e = v)
                                  && negb (bool_decide (source e ∈ order))) es)).
  { apply filter_In. split; [by apply list_elem_of_In|].
    by rewrite Hv, bool_decide_eq_true_2, bool_decide_eq_false_2. }
  destruct (List.filter _ es); [done|discriminate].
Qed.

Lemma remaining_pos order v :
  0 < remaining ns es order v ->
  exists e, e ∈ es /\ valid_edge ns e = true /\ target e = v /\ source e ∉ order.
Proof.
  unfold remaining. intros Hpos.
  destruct (List.filter _ es) as [|e l] eqn:Hf; [cbn in Hpos; lia|].
  assert (Hin : In e (List.filter
                        (fun e => valid_edge ns e && bool_decide (target e = v)
                                  && negb (bool_decide (source e ∈ order))) es))
    by (rewrite Hf; by left).
  apply filter_In in Hin as [Hin Hp].
  apply andb_true_iff in Hp as [Hp Hs]. apply andb_true_iff in Hp as [Hv Ht].
  exists e. split; [by apply list_elem_of_In|]. split; [done|].
  split; [by apply bool_decide_eq_true in Ht|].
  apply negb_true_iff in Hs. by apply bool_decide_eq_false in Hs.
Qed.

Lemma upstream_first_snoc d u q order :
  sort_invariant ns es d (u :: q) order ->
  upstream_first ns es order -> upstream_first ns es (order ++ [u]).
Proof.
  intros [Hnd Hz Hdecl Hcnt _] Hup pre x post e Hsplit He Hv Ht.
  destruct post as [|p post _] using rev_ind.
  - apply app_inj_tail in Hsplit as [-> ->].
    subst x. apply (remaining_zero pre (target e) e); try done.
    assert (Hu : target e ∈ pre ++ target e :: q) by set_solver.
    pose proof (Hz _ Hu) as Hle. rewrite (Hcnt _ (Hdecl _ Hu)) in Hle. lia.
  - rewrite app_comm_cons, app_assoc in Hsplit.
    apply app_inj_tail in Hsplit as [Horder _].
    by apply (Hup pre x post e).
Qed.

Lemma kahn_upstream_first fuel (adj : Adj) d q order :
  (forall x, adj !!! x = successors ns es x) ->
  sort_invariant ns es d q order ->
  upstream_first ns es order ->
  upstream_first ns es (kahn fuel adj d q order).
Proof.
  intros Hadj. revert d q order.
  induction fuel as [|fuel IH]; intros d q order Hinv Hup; [done|].
  destruct q as [|u q]; [done|]. cbn [kahn].
  apply IH; [by apply sort_invariant_round|by eapply upstream_first_snoc].
Qed.

(** The inner loop queues a node whose in-degree it brings to zero. *)
Lemma foldl_relax_pushes l d q x :
  (1 <= d !!! x)%Z -> d !!! x = Z.of_nat (occ x l) ->
  x ∈ (foldl relax (d, q) l).2.
Proof.
  revert d q. induction l as [|nb l IH]; intros d q H1 Hocc; [cbn in Hocc; lia|].
  cbn [foldl]. destruct (relax (d, q) nb) as [d1 q1] eqn:Hr.
  pose proof (relax_queue d q nb) as Hq. rewrite Hr in Hq. cbn in Hq.
  pose proof (relax_in_degree d q nb x) as Hd. rewrite Hr in Hd. cbn in Hd.
  rewrite occ_cons in Hocc.
  destruct (decide (x = nb)) as [->|Hne].
  - rewrite bool_decide_eq_true_2 in Hd, Hocc by done.
    destruct (decide (d !!! nb = 1%Z)) as [Hone|Hmore].
    + destruct (foldl_relax_queue_prefix l d1 q1) as [pushed ->].
      subst q1. rewrite bool_decide_eq_true_2 by done. set_solver.
    + apply IH; lia.
  - rewrite bool_decide_eq_false_2 in Hd by done.
    rewrite bool_decide_eq_false_2 in Hocc by (by intros ->).
    apply IH; lia.
Qed.

Lemma zero_queued_round (adj : Adj) d u q order :
  (forall x, adj !!! x = successors ns es x) ->
  sort_invariant ns es d (u :: q) order ->
  zero_queued ns d (u :: q) order ->
  let st := foldl relax (d, q) (adj !!! u) in
  zero_queued ns st.1 st.2 (order ++ [u]).
Proof.
  intros Hadj [Hnd Hz Hdecl Hcnt _] Hzq st v Hv H0.
  subst st. rewrite foldl_relax_in_degree in H0.
  destruct (foldl_relax_queue_prefix (adj !!! u) d q) as [pushed Hpushed].
  destruct (decide (occ v (adj !!! u) = 0)) as [Hocc|Hocc].
  - rewrite Hocc in H0. assert (Hd : d !!! v = 0%Z) by lia.
    specialize (Hzq v Hv Hd). rewrite Hpushed. set_solver.
  - apply elem_of_app. right. apply foldl_relax_pushes; lia.
Qed.

(** When the loop has ended, a declared node that was not scheduled has a
    counted edge from a node that was not scheduled. *)
Lemma kahn_unscheduled vs fuel (adj : Adj) d q order v :
  (forall x, adj !!! x = successors ns es x) ->
  (forall u x, x ∈ adj !!! u -> x ∈ vs) ->
  length q + positive_in d vs <= fuel ->
  sort_invariant ns es d q order ->
  zero_queued ns d q order ->
  declared ns v -> v ∉ kahn fuel adj d q order ->
  exists e, e ∈ es /\ valid_edge ns e = true /\ target e = v /\
            source e ∉ kahn fuel adj d q order.
Proof.
  intros Hadj Hvs. revert d q order.
  assert (Hstop : forall d order, sort_invariant ns es d [] order ->
            zero_queued ns d [] order -> declared ns v -> v ∉ order ->
            exists e, e ∈ es /\ valid_edge ns e = true /\ target e = v /\ source e ∉ order).
  { intros d order [_ _ _ Hcnt _] Hzq Hv Hnot. apply remaining_pos.
    destruct (decide (d !!! v = 0%Z)) as [H0|H0].
    - specialize (Hzq v Hv H0). rewrite app_nil_r in Hzq. done.
    - rewrite (Hcnt v Hv) in H0. lia. }
  induction fuel as [|fuel IH]; intros d q order Hm Hinv Hzq Hv Hnot.
  - destruct q; [|cbn in Hm; lia]. by eapply Hstop.
  - destruct q as [|u q]; [by eapply Hstop|]. cbn [kahn] in *.
    apply IH; try done.
    + pose proof (foldl_relax_measure vs (adj !!! u) d q (Hvs u)) as Hle.
      cbn zeta in Hle. cbn in Hm. lia.
    + by apply sort_invariant_round.
    + by apply zero_queued_round.
Qed.
End Schedule.

Section Cycles.
Context (ns : list Node) (es : list Edge).

Lemma reach_cons e u v :
  e ∈ es -> valid_edge ns e = true -> source e = u ->
  reach ns es (target e) v -> reach ns es u v.
Proof.
  intros He Hv Hs Hr.
  induction Hr as [e' He' Hv' Hs'|x e' Hx IH He' Hv' Hs'].
  - apply (reach_snoc ns es u (target e) e'); [by apply (reach_edge ns es u e)|done..].
  - by apply (reach_snoc ns es u x e').
Qed.

Lemma valid_edge_declared e :
  valid_edge ns e = true -> declared ns (source e) /\ declared ns (target e).
Proof.
  unfold valid_edge. intros [Hs Ht]%andb_true_iff.
  split; by eapply bool_decide_eq_true.
Qed.

(** Walking the edges backwards inside a set of declared nodes that is
    closed under one predecessor ends on a node seen before: a cycle. *)
Lemma chase (U : string -> Prop) v n :
  (forall y, U y -> declared ns y) ->
  (forall y, U y -> exists e, e ∈ es /\ valid_edge ns e = true /\ target e = y /\ U (source e)) ->
  forall x vis,
    NoDup (x :: vis) ->
    (forall y, y ∈ x :: vis -> U y) ->
    (forall y, y ∈ vis -> reach ns es x y) ->
    (forall y, y ∈ x :: vis -> y = v \/ reach ns es y v) ->
    length ns < length (x :: vis) + n ->
    on_or_after_cycle ns es v.
Proof.
  intros Hdecl Hpred. induction n as [|n IH]; intros x vis Hnd HU Hreach Hv Hlen.
  - assert (Hsub : x :: vis ⊆+ id <$> ns).
    { apply NoDup_submseteq; [done|]. intros y Hy. by apply Hdecl, HU. }
    apply submseteq_length in Hsub. rewrite length_fmap in Hsub. lia.
  - destruct (Hpred x) as (e & He & Hve & Ht & Hs); [apply HU; by left|].
    set (y := source e) in *.
    assert (Hyx : reach ns es y x) by (rewrite <- Ht; by eapply reach_edge).
    assert (Hyvis : forall z, z ∈ vis -> reach ns es y z).
    { intros z Hz. apply (reach_cons e); try done. rewrite Ht. by apply Hreach. }
    assert (Hyv : y = v \/ reach ns es y v).
    { right. destruct (Hv x) as [->|Hxv]; [by left|done|].
      apply (reach_cons e); try done. by rewrite Ht. }
    destruct (decide (y ∈ x :: vis)) as [Hin|Hnew].
    + exists y. split; [|destruct Hyv as [<-|?]; [by left|by right]].
      apply elem_of_cons in Hin as [Hin|Hin]; [by rewrite <- Hin in Hyx|by apply Hyvis].
    + apply (IH y (x :: vis)).
      * by apply NoDup_cons.
      * intros z [->|Hz]%elem_of_cons; [done|by apply HU].
      * intros z [->|Hz]%elem_of_cons; [done|by apply Hyvis].
      * intros z [->|Hz]%elem_of_cons; [done|by apply Hv].
      * cbn in *. lia.
Qed.
End Cycles.

Section ScheduleClaims.
Implicit Types (wf : Workflow).

Lemma initial_zero_queued wf :
  zero_queued (nodes wf) (build_graph wf).2 (initial_queue wf (build_graph wf).2) [].
Proof.
  intros v (n & -> & Hn)%list_elem_of_fmap H0. cbn [app].
  apply list_elem_of_fmap. exists n. split; [done|].
  apply list_elem_of_In, filter_In. split; [by apply list_elem_of_In|].
  by apply bool_decide_eq_true.
Qed.

(** The nodes run in an order that respects the edges: when a node is
    scheduled, the source of every counted edge into it has been scheduled
    before it. *)
Theorem execution_order_respects_edges wf :
  NoDup (id <$> nodes wf) ->
  upstream_first (nodes wf) (edges wf) (execution_order wf).
Proof.
  intros Hnd. unfold execution_order. cbn zeta. apply kahn_upstream_first.
  - apply build_graph_adj.
  - by apply initial_invariant.
  - intros pre x post e Hsplit. by destruct pre.
Qed.

(** With unique node ids the schedule leaves out exactly the nodes on a
    cycle or downstream of one; a document without a cycle has all its
    nodes scheduled, each once. *)
Theorem unscheduled_iff_on_or_after_cycle wf :
  NoDup (id <$> nodes wf) ->
  (forall v, declared (nodes wf) v ->
     v ∉ execution_order wf <-> on_or_after_cycle (nodes wf) (edges wf) v) /\
  ((forall u, ~ reach (nodes wf) (edges wf) u u) ->
   execution_order wf ≡ₚ id <$> nodes wf).
Proof.
  intros Hnd.
  destruct (execution_order_spec wf Hnd) as (Hnodup & Hdecl & Hcyc).
  assert (Hmissing : forall v, declared (nodes wf) v -> v ∉ execution_order wf ->
            on_or_after_cycle (nodes wf) (edges wf) v).
  { intros v Hv Hnot.
    apply (chase (nodes wf) (edges wf)
             (fun y => declared (nodes wf) y /\ y ∉ execution_order wf)
             v (length (nodes wf)) ltac:(by intros y [? _])) with (x := v) (vis := []).
    - intros y [Hy Hnoty].
      destruct (kahn_unscheduled (nodes wf) (edges wf) (id <$> nodes wf)
                  (2 * length (nodes wf)) (build_graph wf).1 (build_graph wf).2
                  (initial_queue wf (build_graph wf).2) [] y)
        as (e & He & Hve & Ht & Hs); try done.
      + apply build_graph_adj.
      + intros u x. rewrite build_graph_adj. by intros [_ ?]%successors_declared.
      + assert (length (initial_queue wf (build_graph wf).2) <= length (nodes wf)).
        { unfold initial_queue. rewrite length_fmap.
          apply sublist_length, filter_sublist. }
        assert (positive_in (build_graph wf).2 (id <$> nodes wf) <= length (nodes wf)).
        { unfold positive_in. etrans; [apply sublist_length, filter_sublist|].
          by rewrite length_fmap. }
        lia.
      + by apply initial_invariant.
      + apply initial_zero_queued.
      + exists e. split; [done|]. split; [done|]. split; [done|].
        split; [by apply valid_edge_declared in Hve as [? _]|done].
    - apply NoDup_singleton.
    - by intros y ->%list_elem_of_singleton.
    - by intros y Hy%elem_of_nil.
    - intros y ->%list_elem_of_singleton. by left.
    - cbn. lia. }
  split.
  - intros v Hv. split; [by apply Hmissing|by apply Hcyc].
  - intros Hacyclic. apply NoDup_Permutation; [done|done|].
    intros v. split; [apply Hdecl|]. intros Hv.
    destruct (decide (v ∈ execution_order wf)) as [|Hnot]; [done|].
    destruct (Hmissing v Hv Hnot) as (u & Hu & _). by destruct (Hacyclic u).
Qed.
End ScheduleClaims.

(** ** The report *)

Section ReportFacts.
Context `{Pandas} (w : World) (wf : Workflow) (file_mapping : gmap string string).

(** What a round does to the status and the result of its node. *)
Lemma execute_node_at node_id node r :
  let res := execute_node w wf file_mapping node_id node r in
  (res.2 = None /\ cur_status res.1 !! node_id = Some "success" /\
   (cur_results res.1 !! node_id = cur_results r !! node_id \/
    exists t, cur_results res.1 !! node_id = Some (ResultTable t))) \/
  (exists e, res.2 = Some e /\ cur_status res.1 !! node_id = Some "error" /\
             cur_results res.1 !! node_id = Some (ResultError e)).
Proof.
  cbn zeta. unfold execute_node.
  destruct (_execute_node_by_type _ _ _ _ _ _) as [[[result_df|]|e] s]; cbn.
  - destruct (_ || _); cbn.
    + destruct (_save_output _ _ _ _ _) as [[f|e] s']; cbn.
      * left. rewrite !lookup_insert_eq. split; [done|]. split; [done|]. right. by eexists.
      * right. exists e. by rewrite !lookup_insert_eq.
    + left. rewrite !lookup_insert_eq. split; [done|]. split; [done|]. right. by eexists.
  - left. rewrite lookup_insert_eq. split; [done|]. split; [done|]. by left.
  - right. exists e. by rewrite !lookup_insert_eq.
Qed.

Lemma running_round node_id node r :
  declared (nodes wf) node_id -> running wf r ->
  match execute_node w wf file_mapping node_id node r with
  | (r', None) => running wf r'
  | (r', Some e) => failed_at wf node_id e r'
  end.
Proof.
  intros Hid (Hdom & Hnodes & Hres).
  pose proof (execute_node_at node_id node r) as Hat.
  pose proof (fun k Hk => execute_node_other w wf file_mapping node_id node r k Hk) as Hother.
  destruct (execute_node w wf file_mapping node_id node r) as [r' o].
  cbn in Hat, Hother.
  assert (Hdom' : forall k, is_Some (cur_status r' !! k) <-> declared (nodes wf) k).
  { intros k. destruct (decide (k = node_id)) as [->|Hk].
    - split; [done|]. intros _.
      destruct Hat as [(_ & -> & _)|(e & _ & -> & _)]; by eexists.
    - destruct (Hother k Hk) as [-> _]. apply Hdom. }
  assert (Hres' : forall k, is_Some (cur_results r' !! k) -> declared (nodes wf) k).
  { intros k. destruct (decide (k = node_id)) as [->|Hk]; [done|].
    destruct (Hother k Hk) as [_ ->]. apply Hres. }
  assert (Hkeep : forall k, declared (nodes wf) k -> k <> node_id ->
            node_not_failed (cur_status r') (cur_results r') k).
  { intros k Hd Hk. unfold node_not_failed.
    destruct (Hother k Hk) as [-> ->]. by apply Hnodes. }
  destruct Hat as [(-> & Hst & Hrs)|(e & -> & Hst & Hrs)].
  - split; [done|]. split; [|done]. intros k Hd.
    destruct (decide (k = node_id)) as [->|Hk]; [|by apply Hkeep].
    right. split; [done|]. destruct Hrs as [Hrs|Hrs]; [|by right].
    rewrite Hrs. destruct (Hnodes node_id Hid) as [[_ ->]|[_ Hold]]; [by left|done].
  - done.
Qed.

Lemma running_run (node_map : gmap string Node) order r :
  (forall k node, node_map !! k = Some node -> declared (nodes wf) k) ->
  running wf r ->
  match run_nodes w wf file_mapping node_map order r with
  | (r', None) => running wf r'
  | (r', Some e) => exists k, failed_at wf k e r'
  end.
Proof.
  intros Hmap. revert r. induction order as [|k order IH]; intros r Hr; [done|].
  cbn [run_nodes]. destruct (node_map !! k) as [node|] eqn:Hnode; [|by apply IH].
  pose proof (running_round k node r (Hmap _ _ Hnode) Hr) as Hround.
  destruct (execute_node w wf file_mapping k node r) as [r' [e|]].
  - by exists k.
  - by apply IH.
Qed.

Lemma initial_running : running wf (initial_run wf).
Proof.
  split; [|split].
  - intros k. cbn. rewrite dict_of_nodes_const. case_bool_decide; [done|].
    split; [by intros [? ?]|done].
  - intros k Hk. left. cbn. rewrite dict_of_nodes_const, bool_decide_eq_true_2 by done.
    by rewrite lookup_empty.
  - intros k. cbn. rewrite lookup_empty. by intros [? ?].
Qed.

(** The report of any run is consistent.  success is true exactly when
    the report has no error.  The nodes with a status are the declared
    nodes, and a status is 'pending', 'success' or 'error'.  A 'pending'
    node has no entry in [node_results]; an entry with a table belongs to
    a 'success' node; an entry with an error belongs to an 'error' node
    and carries the error of the report.  A successful run has no 'error'
    node and a failed run has exactly one. *)
Theorem report_is_consistent :
  let report := execute_workflow w wf file_mapping in
  (success report = true <-> error report = None) /\
  (forall k, is_Some (node_status report !! k) <-> declared (nodes wf) k) /\
  (forall k st, node_status report !! k = Some st ->
     st = "pending" \/ st = "success" \/ st = "error") /\
  (forall k, node_status report !! k = Some "pending" -> node_results report !! k = None) /\
  (forall k t, node_results report !! k = Some (ResultTable t) ->
     node_status report !! k = Some "success") /\
  (forall k e, node_results report !! k = Some (ResultError e) ->
     node_status report !! k = Some "error" /\ error report = Some e) /\
  (success report = true -> forall k, node_status report !! k <> Some "error") /\
  (success report = false ->
     exists k e, error report = Some e /\
       node_results report !! k = Some (ResultError e) /\
       forall k', node_status report !! k' = Some "error" <-> k' = k).
Proof.
  cbn zeta. unfold execute_workflow, run_workflow.
  pose proof (running_run (dict_of_nodes (fun n => n) (nodes wf)) (execution_order wf)
                (initial_run wf)) as Hrun.
  destruct (run_nodes _ _ _ _ _ _) as [r [e|]]; cbn [success error node_status node_results].
  - destruct Hrun as (k & Hk & Hst & Hrs & Hdom & Hothers & Hres).
    { intros k' node Hn. apply (dict_of_nodes_is_Some (fun n => n)). by eexists. }
    { apply initial_running. }
    assert (Hcase : forall k', cur_status r !! k' = None \/ k' = k \/
              (k' <> k /\ node_not_failed (cur_status r) (cur_results r) k')).
    { intros k'. destruct (decide (k' = k)) as [->|Hne]; [by right; left|].
      destruct (cur_status r !! k') as [st|] eqn:Hst'; [|by left].
      right. right. split; [done|]. apply Hothers; [|done]. apply Hdom. by eexists. }
    assert (Hnone : forall k', cur_status r !! k' = None -> cur_results r !! k' = None).
    { intros k' Hn. destruct (cur_results r !! k') as [res|] eqn:Hr'; [|done].
      assert (is_Some (cur_status r !! k')) as [? Hs]
        by (apply Hdom, Hres; by eexists).
      by rewrite Hn in Hs. }
    split; [done|]. split; [done|]. split; [|split; [|split; [|split; [|split]]]].
    + intros k' st Hst'. destruct (Hcase k') as [Hn|[->|[_ [[Hp _]|[Hs _]]]]].
      * by rewrite Hn in Hst'.
      * rewrite Hst in Hst'. injection Hst' as <-. by right; right.
      * rewrite Hp in Hst'. injection Hst' as <-. by left.
      * rewrite Hs in Hst'. injection Hst' as <-. by right; left.
    + intros k' Hp. destruct (Hcase k') as [Hn|[->|[_ [[_ Hr]|[Hs _]]]]]; try done.
      * by rewrite Hn in Hp.
      * by rewrite Hst in Hp.
      * by rewrite Hs in Hp.
    + intros k' t Ht. destruct (Hcase k') as [Hn|[->|[_ [[_ Hr]|[Hs _]]]]]; try done.
      * by rewrite (Hnone _ Hn) in Ht.
      * by rewrite Hrs in Ht.
      * by rewrite Hr in Ht.
    + intros k' e' He'. destruct (Hcase k') as [Hn|[->|[_ [[_ Hr]|[_ [Hr|[t Hr]]]]]]].
      * by rewrite (Hnone _ Hn) in He'.
      * rewrite Hrs in He'. by injection He' as <-.
      * by rewrite Hr in He'.
      * by rewrite Hr in He'.
      * by rewrite Hr in He'.
    + done.
    + intros _. exists k, e. split; [done|]. split; [done|]. intros k'.
      split; [|by intros ->].
      intros He'. destruct (Hcase k') as [Hn|[->|[_ [[Hp _]|[Hs _]]]]]; try done.
      * by rewrite Hn in He'.
      * by rewrite Hp in He'.
      * by rewrite Hs in He'.
  - destruct Hrun as (Hdom & Hnodes & Hres).
    { intros k' node Hn. apply (dict_of_nodes_is_Some (fun n => n)). by eexists. }
    { apply initial_running. }
    assert (Hcase : forall k', cur_status r !! k' = None \/
              node_not_failed (cur_status r) (cur_results r) k').
    { intros k'. destruct (cur_status r !! k') as [st|] eqn:Hst'; [|by left].
      right. apply Hnodes, Hdom. by eexists. }
    assert (Hnone : forall k', cur_status r !! k' = None -> cur_results r !! k' = None).
    { intros k' Hn. destruct (cur_results r !! k') as [res|] eqn:Hr'; [|done].
      assert (is_Some (cur_status r !! k')) as [? Hs]
        by (apply Hdom, Hres; by eexists).
      by rewrite Hn in Hs. }
    split; [done|]. split; [done|]. split; [|split; [|split; [|split; [|split]]]].
    + intros k' st Hst'. destruct (Hcase k') as [Hn|[[Hp _]|[Hs _]]].
      * by rewrite Hn in Hst'.
      * rewrite Hp in Hst'. injection Hst' as <-. by left.
      * rewrite Hs in Hst'. injection Hst' as <-. by right; left.
    + intros k' Hp. destruct (Hcase k') as [Hn|[[_ Hr]|[Hs _]]]; try done.
      * by rewrite Hn in Hp.
      * by rewrite Hs in Hp.
    + intros k' t Ht. destruct (Hcase k') as [Hn|[[_ Hr]|[Hs _]]]; try done.
      * by rewrite (Hnone _ Hn) in Ht.
      * by rewrite Hr in Ht.
    + intros k' e' He'. destruct (Hcase k') as [Hn|[[_ Hr]|[_ [Hr|[t Hr]]]]].
      * by rewrite (Hnone _ Hn) in He'.
      * by rewrite Hr in He'.
      * by rewrite Hr in He'.
      * by rewrite Hr in He'.
    + intros _ k' He'. destruct (Hcase k') as [Hn|[[Hp _]|[Hs _]]].
      * by rewrite Hn in He'.
      * by rewrite Hp in He'.
      * by rewrite Hs in He'.
    + done.
Qed.

(** A round leaves the preview and the output file as they are, or it is
    the round of an output node and sets both. *)
Lemma execute_node_preview node_id node r :
  let res := execute_node w wf file_mapping node_id node r in
  (final_preview res.1 = final_preview r /\ cur_output_file res.1 = cur_output_file r) \/
  (exists f d,
     (type (node_data node) = Some "output" \/ type (node_data node) = Some "output_csv") /\
     cur_output_file res.1 = Some f /\
     final_preview res.1 = Some (table_of d (frame_head d 100)) /\
     cur_results res.1 !! node_id = Some (ResultTable (table_of d d))).
Proof.
  cbn zeta. unfold execute_node.
  destruct (_execute_node_by_type _ _ _ _ _ _) as [[[result_df|]|e] s]; cbn;
    [|by left..].
  destruct (bool_decide (type (node_data node) = Some "output")) eqn:H1;
    [|destruct (bool_decide (type (node_data node) = Some "output_csv")) eqn:H2];
    cbn; [| |by left].
  - destruct (_save_output _ _ _ _ _) as [[f|e] s']; cbn; [|by left].
    right. eexists _, _. split; [left; by apply bool_decide_eq_true in H1|].
    split; [done|]. split; [done|]. by rewrite lookup_insert_eq.
  - destruct (_save_output _ _ _ _ _) as [[f|e] s']; cbn; [|by left].
    right. eexists _, _. split; [right; by apply bool_decide_eq_true in H2|].
    split; [done|]. split; [done|]. by rewrite lookup_insert_eq.
Qed.

Lemma to_records_head d n : to_records (frame_head d n) = take n (to_records d).
Proof. unfold to_records, frame_head. cbn. by rewrite fmap_take. Qed.

Lemma preview_round node_id node todo r :
  dict_of_nodes (fun n => n) (nodes wf) !! node_id = Some node ->
  node_id ∉ todo ->
  preview_of_output wf (node_id :: todo) r ->
  preview_of_output wf todo (execute_node w wf file_mapping node_id node r).1.
Proof.
  intros Hnode Hfresh Hinv.
  pose proof (execute_node_preview node_id node r) as Hp.
  pose proof (fun k Hk => execute_node_other w wf file_mapping node_id node r k Hk) as Hother.
  destruct (execute_node w wf file_mapping node_id node r) as [r' o].
  cbn in Hp, Hother |- *. unfold preview_of_output in *.
  destruct Hp as [[-> Hf]|(f & d & Hty & Hf & -> & Hres)].
  - destruct (final_preview r) as [p|]; [|congruence].
    destruct Hinv as (Hfile & k & n & t & Hk & Hn & Hty & Hres & Hrest).
    split; [by rewrite Hf|]. exists k, n, t.
    apply not_elem_of_cons in Hk as [Hne Hk].
    destruct (Hother k Hne) as [_ ->]. done.
  - split; [rewrite Hf; by eexists|]. exists node_id, node, (table_of d d).
    split; [done|]. split; [done|]. split; [done|]. split; [done|].
    split; [cbn; unfold to_records, len; by rewrite length_fmap|].
    split; [done|]. split; [done|]. exact (to_records_head d 100).
Qed.

Lemma preview_run order r :
  NoDup order ->
  preview_of_output wf order r ->
  preview_of_output wf []
    (run_nodes w wf file_mapping (dict_of_nodes (fun n => n) (nodes wf)) order r).1.
Proof.
  revert r. induction order as [|k order IH]; intros r Hnd Hinv; [done|].
  apply NoDup_cons in Hnd as [Hk Hnd]. cbn [run_nodes].
  destruct (dict_of_nodes (fun n => n) (nodes wf) !! k) as [node|] eqn:Hnode.
  - pose proof (preview_round k node order r Hnode Hk Hinv) as Hround.
    destruct (execute_node w wf file_mapping k node r) as [r' [e|]]; cbn in *.
    + unfold preview_of_output in *. destruct (final_preview r') as [p|]; [|done].
      destruct Hround as (Hfile & k' & n & t & _ & Hrest). split; [done|].
      exists k', n, t. split; [apply not_elem_of_nil|done].
    + by apply IH.
  - apply IH; [done|]. unfold preview_of_output in *.
    destruct (final_preview r) as [p|]; [|done].
    destruct Hinv as (Hfile & k' & n & t & Hk' & Hrest). split; [done|].
    exists k', n, t. split; [|done]. by apply not_elem_of_cons in Hk' as [_ ?].
Qed.

(** With unique node ids: a report has a preview exactly when it names an
    output file, and only a successful one has.  The preview is the table
    recorded in [node_results] for an output node, with the same columns
    and the same total_rows, cut to its first 100 records. *)
Theorem preview_is_the_head_of_an_output :
  NoDup (id <$> nodes wf) ->
  let report := execute_workflow w wf file_mapping in
  (is_Some (preview report) <-> is_Some (output_file report)) /\
  (forall p, preview report = Some p ->
     success report = true /\
     length (table_data p) = min 100 (total_rows p) /\
     exists k node t,
       node ∈ nodes wf /\ id node = k /\
       (type (node_data node) = Some "output" \/ type (node_data node) = Some "output_csv") /\
       node_results report !! k = Some (ResultTable t) /\
       table_columns p = table_columns t /\
       total_rows p = total_rows t /\
       table_data p = take 100 (table_data t)).
Proof.
  intros Hnd. cbn zeta. unfold execute_workflow, run_workflow.
  destruct (execution_order_spec wf Hnd) as (Hord & _ & _).
  pose proof (preview_run (execution_order wf) (initial_run wf) Hord) as Hrun.
  pose proof (running_run (dict_of_nodes (fun n => n) (nodes wf)) (execution_order wf)
                (initial_run wf)) as Hcons.
  destruct (run_nodes _ _ _ _ _ _) as [r [e|]]; cbn in *.
  - split; [|done]. split; by intros [? ?].
  - unfold preview_of_output in Hrun.
    destruct Hcons as (_ & Hnodes & Hres).
    { intros k' node Hn. apply (dict_of_nodes_is_Some (fun n => n)). by eexists. }
    { apply initial_running. }
    destruct (final_preview r) as [p|] eqn:Hp.
    + destruct Hrun as (Hfile & k & node & t & _ & Hnode & Hty & Hrs & Hlen & Hc & Ht & Hd);
        [done|].
      split; [done|]. intros p' [= <-]. split; [done|].
      apply dict_of_nodes_Some in Hnode as (n & Hn & Hid & ->).
      split; [by rewrite Hd, length_take, Hlen, Ht|].
      exists k, n, t. done.
    + rewrite Hrun by done. split; [|done]. split; by intros [? ?].
Qed.
End ReportFacts.

(** ** A node starts when its inputs are ready *)

Section Ready.
Context `{Pandas} (w : World) (wf : Workflow) (file_mapping : gmap string string).

Lemma results_in_step_round node_id node r r' :
  results_in_step r ->
  execute_node w wf file_mapping node_id node r = (r', None) ->
  results_in_step r'.
Proof.
  intros Hinv. unfold execute_node.
  destruct (_execute_node_by_type _ _ _ _ _ _) as [[[result_df|]|e] s]; cbn.
  - assert (Hset : forall k (t : Table),
              <[node_id := result_df]> (ctx_results r) !! k = None <->
              <[node_id := ResultTable t]> (cur_results r) !! k = None).
    { intros k t. destruct (decide (k = node_id)) as [->|Hne].
      - by rewrite !lookup_insert_eq.
      - rewrite !lookup_insert_ne by done. apply Hinv. }
    destruct (_ || _); cbn.
    + destruct (_save_output _ _ _ _ _) as [[f|e] s']; intros [= <-]; cbn.
      intros k. apply Hset.
    + intros [= <-]. intros k. apply Hset.
  - intros [= <-]. exact Hinv.
  - done.
Qed.

Lemma results_in_step_run (node_map : gmap string Node) order r r' :
  results_in_step r ->
  run_nodes w wf file_mapping node_map order r = (r', None) ->
  results_in_step r'.
Proof.
  revert r. induction order as [|k order IH]; intros r Hinv; cbn.
  - by intros [= <-].
  - destruct (node_map !! k) as [node|]; [|by apply IH].
    destruct (execute_node _ _ _ _ _ _) as [r1 [e|]] eqn:Hround; [done|].
    apply IH. by eapply results_in_step_round.
Qed.

(** With unique node ids, when the runner reaches a node, every declared
    node with an edge into it has run and has the status 'success'; the
    context holds a frame for it unless its operator returned none.  So
    the inputs of the node are the results of all its upstream nodes that
    returned one, in the order of the edges. *)
Theorem upstream_nodes_have_succeeded pre x post r :
  NoDup (id <$> nodes wf) ->
  execution_order wf = pre ++ x :: post ->
  run_nodes w wf file_mapping (dict_of_nodes (fun n => n) (nodes wf)) pre
            (initial_run wf) = (r, None) ->
  (forall e, e ∈ edges wf -> target e = x -> declared (nodes wf) (source e) ->
     source e ∈ pre /\
     cur_status r !! source e = Some "success" /\
     (ctx_results r !! source e = None <-> cur_results r !! source e = None)) /\
  collect_inputs (edges wf) x r
  = omap (fun e => ctx_results r !! source e)
         (List.filter (fun e => bool_decide (target e = x)) (edges wf)).
Proof.
  intros Hnd Horder Hrun. split.
  - intros e He Ht Hs.
    assert (Hup : upstream_first (nodes wf) (edges wf) (execution_order wf)).
    { unfold execution_order. cbn zeta. apply kahn_upstream_first.
      - apply build_graph_adj.
      - by apply initial_invariant.
      - intros pre' x' post' e' Hsplit. by destruct pre'. }
    assert (Hx : declared (nodes wf) x).
    { destruct (execution_order_spec wf Hnd) as (_ & Hdecl & _). apply Hdecl.
      rewrite Horder. apply elem_of_app. right. by left. }
    assert (Hin : source e ∈ pre).
    { apply (Hup pre x post e Horder He); [|done].
      unfold valid_edge. rewrite Ht.
      by rewrite !bool_decide_eq_true_2. }
    split; [done|]. split.
    + eapply run_nodes_success; [exact Hrun|done|].
      by apply (dict_of_nodes_is_Some (fun n => n)).
    + apply (results_in_step_run _ pre (initial_run wf) r) in Hrun; [apply Hrun|].
      intros k. cbn. by rewrite !lookup_empty.
  - unfold collect_inputs. induction (edges wf) as [|e es IH]; [done|].
    cbn. case_bool_decide; cbn; rewrite IH; done.
Qed.
End Ready.

(** ** The log of a failed run *)

Section FailureLog.
Context `{Pandas} (w : World) (wf : Workflow) (file_mapping : gmap string string).

Lemma run_nodes_failed (node_map : gmap string Node) order r r' e :
  run_nodes w wf file_mapping node_map order r = (r', Some e) ->
  exists k node r0,
    k ∈ order /\ node_map !! k = Some node /\
    execute_node w wf file_mapping k node r0 = (r', Some e).
Proof.
  revert r. induction order as [|k order IH]; intros r; [done|]. cbn.
  destruct (node_map !! k) as [node|] eqn:Hnode.
  - destruct (execute_node _ _ _ _ _ _) as [r1 [e1|]] eqn:Hround.
    + intros [= <- <-]. exists k, node, r. split; [by left|done].
    + intros (k' & node' & r0 & ? & ? & ?)%IH. exists k', node', r0.
      split; [by right|done].
  - intros (k' & node' & r0 & ? & ? & ?)%IH. exists k', node', r0.
    split; [by right|done].
Qed.

Lemma execute_node_failure_line node_id node r r' e :
  execute_node w wf file_mapping node_id node r = (r', Some e) ->
  exists earlier time,
    ctx_logs r' = earlier ++ ["[" +:+ time +:+ "] 节点 "
                              +:+ node_label node +:+ " 执行失败: " +:+ e].
Proof.
  unfold execute_node.
  destruct (_execute_node_by_type _ _ _ _ _ _) as [[[result_df|]|e'] s]; cbn.
  - destruct (_ || _); cbn; [|done].
    destruct (_save_output _ _ _ _ _) as [[f|e'] s']; intros [= <- <-]; cbn.
    by eexists _, _.
  - done.
  - intros [= <- <-]. cbn. by eexists _, _.
Qed.

(** The last entry of the log of a failed run is the failure of the node
    that stopped it: a declared node, marked 'error', with its label and
    the error of the report; nothing is logged after it. *)
Theorem failed_run_logs_the_failure_last :
  let report := execute_workflow w wf file_mapping in
  success report = false ->
  exists node e earlier time,
    node ∈ nodes wf /\
    error report = Some e /\
    node_status report !! id node = Some "error" /\
    logs report = earlier ++ ["[" +:+ time +:+ "] 节点 "
                              +:+ node_label node +:+ " 执行失败: " +:+ e].
Proof.
  intros report. unfold report, execute_workflow, run_workflow.
  destruct (run_nodes _ _ _ _ _ _) as [r [e|]] eqn:Hrun; [|done]. cbn. intros _.
  apply run_nodes_failed in Hrun as (k & node & r0 & _ & Hnode & Hround).
  apply dict_of_nodes_Some in Hnode as (n & Hn & <- & ->).
  destruct (execute_node_failure_line _ _ _ _ _ Hround) as (earlier & time & Hlog).
  destruct (execute_node_error w wf file_mapping _ _ _ _ _ Hround) as [Hstatus _].
  by exists n, e, earlier, time.
Qed.
End FailureLog.

(** ** File names of the output sink *)

Section Strings.
Implicit Types s t u : string.

Lemma append_cons a s t : String a s +:+ t = String a (s +:+ t).
Proof. reflexivity. Qed.

Lemma append_nil_r s : s +:+ "" = s.
Proof. induction s as [|a s IH]; [done|]. by rewrite append_cons, IH. Qed.

Lemma append_assoc s t u : (s +:+ t) +:+ u = s +:+ (t +:+ u).
Proof. induction s as [|a s IH]; [done|]. by rewrite !append_cons, IH. Qed.

Lemma rev_app_append s t : String.rev_app s t = String.rev s +:+ t.
Proof.
  unfold String.rev. revert t. induction s as [|a s IH]; intros t; [done|].
  cbn. rewrite (IH (String a "")), IH, append_assoc. done.
Qed.

Lemma rev_cons a s : String.rev (String a s) = String.rev s +:+ String a "".
Proof. unfold String.rev at 1. cbn. apply rev_app_append. Qed.

Lemma rev_append s t : String.rev (s +:+ t) = String.rev t +:+ String.rev s.
Proof.
  induction s as [|a s IH].
  - by rewrite append_nil_r.
  - by rewrite append_cons, !rev_cons, IH, append_assoc.
Qed.

Lemma rev_involutive s : String.rev (String.rev s) = s.
Proof.
  induction s as [|a s IH]; [done|]. by rewrite rev_cons, rev_append, IH.
Qed.

Lemma prefix_append s t : String.prefix s (s +:+ t) = true.
Proof.
  induction s as [|a s IH]; [by destruct t|].
  rewrite append_cons. cbn. by destruct (Ascii.ascii_dec a a).
Qed.

Lemma prefix_inv s t : String.prefix s t = true -> exists u, t = s +:+ u.
Proof.
  revert t. induction s as [|a s IH]; intros t Hp; [by exists t|].
  destruct t as [|b t]; [done|]. cbn in Hp.
  destruct (Ascii.ascii_dec a b) as [->|]; [|done].
  destruct (IH t Hp) as [u ->]. by exists u.
Qed.

(** [s.endswith(suffix)] holds exactly of the strings that are some text
    followed by [suffix]. *)
Lemma endswith_spec s suffix :
  endswith s suffix = true <-> exists p, s = p +:+ suffix.
Proof.
  unfold endswith. split.
  - intros [u Hu]%prefix_inv. exists (String.rev u).
    by rewrite <- (rev_involutive s), Hu, rev_append, rev_involutive.
  - intros [p ->]. rewrite rev_append. apply prefix_append.
Qed.
End Strings.

Section OutputNames.
Context `{Pandas} (w : World).

(** The sink writes one file under a name that ends with the extension
    of the node type: the configured name as it is when it already ends
    with the extension, and with the extension appended otherwise; without
    a configured name, [output_] and eight hex digits of a fresh UUID.  The
    name is not suffixed twice: saving under the returned name gives that
    name again.  The file holds the frame as it is at that moment, and one
    UUID is drawn whether or not the name is configured. *)
Theorem saved_file_name_ends_with_the_extension
    df config node_type s f s' :
  _save_output w df config node_type s = (Ok f, s') ->
  let ext := output_extension node_type in
  (exists stem, f = stem +:+ ext) /\
  (forall name,
     config !! "filename" = Some (PStr name) \/
     config !! "filename" = None /\ name = "output_" +:+ uuid4_hex8 w (uuids s) ->
     ((exists stem, name = stem +:+ ext) -> f = name) /\
     ((forall stem, name <> stem +:+ ext) -> f = name +:+ ext)) /\
  (forall s1, exists s1',
     _save_output w df (<["filename" := PStr f]> config) node_type s1
     = (match write_file w f (heap s1 !!! df) with
        | Ok _ => Ok f | Raise e => Raise e end, s1')) /\
  written s' = written s ++ [(f, heap s !!! df)] /\
  heap s' = heap s /\ requests s' = requests s /\ uuids s' = S (uuids s).
Proof.
  intros Hrun ext. unfold _save_output in Hrun. cbn zeta in Hrun.
  fold (output_extension node_type) in Hrun. fold ext in Hrun.
  destruct (match config !! "filename" with None => _ | _ => _ end)
    as [filename|] eqn:Hname; [|done].
  cbn [heap written requests uuids] in Hrun.
  set (g := if endswith filename ext then filename else filename +:+ ext) in Hrun.
  assert (Hg : endswith g ext = true).
  { unfold g. destruct (endswith filename ext) eqn:He; [done|].
    apply endswith_spec. by exists filename. }
  destruct (write_file w g _) as [[]|e]; [|done].
  injection Hrun as <- <-. cbn [heap written requests uuids].
  split; [by apply endswith_spec|].
  split; [|split]; [| |done].
  - intros name Hcfg.
    assert (filename = name) as ->.
    { destruct Hcfg as [Hcfg|[Hcfg ->]]; rewrite Hcfg in Hname;
        cbn in Hname; congruence. }
    unfold g. split.
    + intros Hs%endswith_spec. by rewrite Hs.
    + intros Hno. destruct (endswith name ext) eqn:He; [|done].
      apply endswith_spec in He as [stem ->]. by destruct (Hno stem).
  - intros s1. unfold _save_output. cbn zeta.
    fold (output_extension node_type). fold ext.
    rewrite lookup_insert_eq. cbn [as_str]. rewrite Hg.
    cbn [heap written requests uuids].
    destruct (write_file w g _) as [[]|e]; eauto.
Qed.
End OutputNames.

(** ** The file a source node reads *)

Lemma find_first {A} (p : A -> bool) (l : list A) :
  match List.find p l with
  | Some x => exists before after,
      l = before ++ x :: after /\ p x = true /\ Forall (fun y => p y = false) before
  | None => Forall (fun y => p y = false) l
  end.
Proof.
  induction l as [|a l IH]; cbn; [done|].
  destruct (p a) eqn:Ha.
  - by exists [], l.
  - destruct (List.find p l) as [x|].
    + destruct IH as (before & after & -> & Hx & Hb).
      exists (a :: before), after. by repeat constructor.
    + by constructor.
Qed.

Section Sources.
Context `{Pandas} (w : World).

(** A source node reads the first stored file, in the order of the
    directory listing, whose name starts with the mapped file id (the id
    itself when the mapping has no entry for it): a new frame with what
    the reader returns, or the reader's exception.  When no name starts
    with it, the node raises; the message carries the id of the config,
    not the mapped one. *)
Theorem source_reads_the_first_match config file_mapping file_id s :
  as_str (config !! "file_id") = Some file_id ->
  let mapped_id := default file_id (file_mapping !! file_id) in
  let started f := exists rest, f = mapped_id +:+ rest in
  let loaded (read : outcome DataFrame) :=
    match read with
    | Ok d => (Ok (length (heap s)), with_heap s (heap s ++ [d]))
    | Raise e => (Raise e, s)
    end in
  (exists before f after,
     listdir w = before ++ f :: after /\ started f /\
     Forall (fun g => ~ started g) before /\
     _execute_source w config file_mapping s = loaded (read_excel w f config) /\
     _execute_source_csv w config file_mapping s = loaded (read_csv w f config)) \/
  (Forall (fun g => ~ started g) (listdir w) /\
   _execute_source w config file_mapping s = (Raise ("找不到文件: " +:+ file_id), s) /\
   _execute_source_csv w config file_mapping s
   = (Raise ("找不到文件: " +:+ file_id), s)).
Proof.
  intros Hid mapped_id started loaded.
  assert (Hstarted : forall g, String.prefix mapped_id g = false -> ~ started g).
  { intros g Hg [rest ->]. by rewrite prefix_append in Hg. }
  unfold _execute_source, _execute_source_csv, find_upload. rewrite Hid.
  fold mapped_id. unfold mbind, M_bind, lift.
  pose proof (find_first (String.prefix mapped_id) (listdir w)) as Hfind.
  destruct (List.find _ _) as [f|]; cbn.
  - destruct Hfind as (before & after & Hl & Hf & Hb). left.
    exists before, f, after. split; [done|]. split; [by apply prefix_inv|].
    split; [by eapply Forall_impl|].
    split; [by destruct (read_excel w f config)|by destruct (read_csv w f config)].
  - right. split; [by eapply Forall_impl|done].
Qed.
End Sources.

(** ** Which operators return a frame object of their own *)

Ltac fresh_frame := cbv zeta; repeat first [frame_step | assumption].

Section FreshResults.
Context `{Pandas} (w : World) (n : nat).

Lemma drop_right_keys_new keys result :
  n <= result -> preserves n (drop_right_keys keys result) (fun r => n <= r).
Proof.
  revert result. induction keys as [|[l r] keys IH]; intros result Hr.
  - by apply preserves_ret.
  - cbn. unfold drop_right_key. fresh_frame; by apply IH.
Qed.

Lemma concat_new dfs config :
  preserves n (_execute_concat dfs config) (fun r => n <= r).
Proof.
  unfold _execute_concat. fresh_frame. apply mapM_get_preserves. intros ds.
  fresh_frame.
Qed.

Lemma source_new config file_mapping :
  preserves n (_execute_source w config file_mapping) (fun r => n <= r).
Proof. unfold _execute_source. fresh_frame. Qed.

Lemma source_csv_new config file_mapping :
  preserves n (_execute_source_csv w config file_mapping) (fun r => n <= r).
Proof. unfold _execute_source_csv. fresh_frame. Qed.

Lemma transform_new df config :
  preserves n (_execute_transform df config) (fun r => n <= r).
Proof. unfold _execute_transform. fresh_frame. Qed.

Lemma type_convert_new df config :
  preserves n (_execute_type_convert df config) (fun r => n <= r).
Proof. unfold _execute_type_convert, attempt. fresh_frame. Qed.

Lemma fill_na_new df config :
  preserves n (_execute_fill_na df config) (fun r => n <= r).
Proof. unfold _execute_fill_na, update_columns, getitem. fresh_frame. Qed.

Lemma deduplicate_new df config :
  preserves n (_execute_deduplicate df config) (fun r => n <= r).
Proof. unfold _execute_deduplicate. fresh_frame. Qed.

Lemma text_process_new df config :
  preserves n (_execute_text_process df config) (fun r => n <= r).
Proof. unfold _execute_text_process. fresh_frame. Qed.

Lemma date_process_new df config :
  preserves n (_execute_date_process df config) (fun r => n <= r).
Proof. unfold _execute_date_process. fresh_frame. Qed.

Lemma unpivot_new df config :
  preserves n (_execute_unpivot df config) (fun r => n <= r).
Proof. unfold _execute_unpivot. fresh_frame. Qed.

Lemma join_new df1 df2 config :
  preserves n (_execute_join df1 df2 config) (fun r => n <= r).
Proof.
  unfold _execute_join, coerce_keys, df_merge. fresh_frame;
    by apply drop_right_keys_new.
Qed.

Lemma vlookup_new main_df lookup_df config :
  preserves n (_execute_vlookup main_df lookup_df config) (fun r => n <= r).
Proof. unfold _execute_vlookup, df_merge, drop_right_key. fresh_frame. Qed.

Lemma diff_new df1 df2 config :
  preserves n (_execute_diff df1 df2 config) (fun r => n <= r).
Proof. unfold _execute_diff. fresh_frame; apply concat_new. Qed.

Lemma reconcile_new detail_df summary_df config :
  preserves n (_execute_reconcile detail_df summary_df config) (fun r => n <= r).
Proof.
  unfold _execute_reconcile, check_join_keys, coerce_join_keys, compare_amounts,
    df_merge, getitem.
  fresh_frame.
Qed.

Lemma ai_agent_new df config :
  preserves n (_execute_ai_agent w df config) (fun r => n <= r).
Proof.
  unfold _execute_ai_agent. fresh_frame. apply ask_rows_preserves. intros v.
  fresh_frame.
Qed.

Lemma returned_new (m : M ref) :
  preserves n m (fun r => n <= r) ->
  preserves n (r ← m; mret (Some r)) (fun o => forall r, o = Some r -> n <= r).
Proof.
  intros Hm. apply preserves_bind. eapply preserves_conseq; [exact Hm|].
  intros r Hr. apply preserves_ret. by intros ? [= <-].
Qed.

Lemma unary_new op config input_dfs :
  (forall df, preserves n (op df config) (fun r => n <= r)) ->
  preserves n (unary op config input_dfs) (fun o => forall r, o = Some r -> n <= r).
Proof.
  intros Hop. destruct input_dfs as [|df rest]; [by apply preserves_ret|].
  by apply returned_new.
Qed.

Lemma binary_new msg op config input_dfs :
  (forall df1 df2, preserves n (op df1 df2 config) (fun r => n <= r)) ->
  preserves n (binary msg op config input_dfs)
            (fun o => forall r, o = Some r -> n <= r).
Proof.
  intros Hop. destruct input_dfs as [|df1 [|df2 rest]]; try apply preserves_raise.
  by apply returned_new.
Qed.

Lemma copying_new t config input_dfs file_mapping :
  t ∈ copying_types ->
  preserves n (_execute_node_by_type w (Some t) config input_dfs file_mapping)
            (fun o => forall r, o = Some r -> n <= r).
Proof.
  intros Ht. unfold _execute_node_by_type.
  repeat (case_bool_decide;
          [first [ apply returned_new;
                   first [apply source_new | apply source_csv_new]
                 | apply unary_new; intros df;
                   first [ apply transform_new | apply type_convert_new
                         | apply fill_na_new | apply deduplicate_new
                         | apply text_process_new | apply date_process_new
                         | apply unpivot_new | apply ai_agent_new ]
                 | apply binary_new; intros df1 df2;
                   first [ apply join_new | apply vlookup_new
                         | apply diff_new | apply reconcile_new ]
                 | destruct input_dfs;
                   [by apply preserves_ret|apply returned_new, concat_new]
                 | exfalso; subst t; revert Ht; apply (bool_decide_unpack _);
                   vm_compute; exact I ]
          |]).
  by apply preserves_ret.
Qed.
End FreshResults.

Section NewFrames.
Context `{Pandas} (w : World).

(** Every operator of [copying_types] returns a frame object that did not
    exist when it was called, so its result is never one of its inputs nor
    the stored result of another node.  The other operators can return
    their input itself: the output nodes always do, [group_aggregate] does
    without a [group_by], and [pivot] does unless [index], [columns] and
    [values] are all configured. *)
Theorem results_are_new_frame_objects config input_dfs file_mapping s :
  (forall t r s',
     t ∈ copying_types ->
     _execute_node_by_type w (Some t) config input_dfs file_mapping s
     = (Ok (Some r), s') ->
     length (heap s) <= r /\ (forall df, df < length (heap s) -> r <> df)) /\
  (forall t df rest,
     input_dfs = df :: rest ->
     t = "output" \/ t = "output_csv" \/
     t = "group_aggregate" /\ as_name_or_names (config !! "group_by") = [] \/
     t = "pivot" /\ (as_name_or_names (config !! "index") = [] \/
                     as_name (config !! "columns") = None \/
                     as_name (config !! "values") = None) ->
     _execute_node_by_type w (Some t) config input_dfs file_mapping s
     = (Ok (Some df), s)).
Proof.
  split.
  - intros t r s' Ht Hrun.
    destruct (copying_new w (length (heap s)) t config input_dfs file_mapping Ht s
                (le_n _)) as (_ & _ & Hr).
    rewrite Hrun in Hr. cbn in Hr. specialize (Hr r eq_refl). split; [done|].
    intros df Hdf. lia.
  - intros t df rest -> Ht.
    destruct Ht as [->|[->|[[-> Hg]|[-> Hp]]]]; try reflexivity.
    + cbn. unfold _execute_group_aggregate. by rewrite Hg.
    + cbn. unfold _execute_pivot.
      destruct (as_name (config !! "columns")) as [c|]; [|done].
      destruct (as_name (config !! "values")) as [v|]; [|done].
      destruct Hp as [->|[?|?]]; done.
Qed.
End NewFrames.

(** ** The shape of a table under the cleaning operators *)

Section Columns.
Implicit Types (d : DataFrame) (c : string).

Lemma index_of_lookup c (cols : list string) i :
  index_of c cols = Some i -> cols !! i = Some c.
Proof.
  revert i. induction cols as [|c' cols IH]; intros i; [done|].
  cbn. case_bool_decide as Heq; [by intros [= <-]; subst|].
  destruct (index_of c cols) as [j|]; [|done]. intros [= <-]. by apply IH.
Qed.

Lemma set_column_columns d c vals :
  has_column d c = true -> columns (set_column d c vals) = columns d.
Proof.
  intros Hc%bool_decide_eq_true. unfold set_column.
  by destruct (index_of_is_Some c (columns d) Hc) as [i ->].
Qed.

(** Writing a column that exists leaves the other columns as they are. *)
Lemma set_column_other d c c' vals :
  has_column d c = true -> c <> c' ->
  column (set_column d c vals) c' = column d c'.
Proof.
  intros Hc%bool_decide_eq_true Hne. unfold set_column, column.
  destruct (index_of_is_Some c (columns d) Hc) as [i Hi]. rewrite Hi. cbn.
  destruct (index_of c' (columns d)) as [j|] eqn:Hj; [|done].
  assert (i <> j) as Hij.
  { intros ->. apply index_of_lookup in Hi, Hj. congruence. }
  rewrite fmap_imap. etrans; [|apply imap_const].
  apply imap_ext. intros k r _. cbn. by rewrite list_lookup_total_insert_ne.
Qed.
End Columns.

Section Shapes.
Context `{Pandas}.

Lemma setitem_last s h d c vals :
  setitem (length h) c vals (with_heap s (h ++ [d]))
  = (Ok tt, with_heap s (h ++ [set_column d c vals])).
Proof.
  unfold setitem, mbind, M_bind, df_get, df_put, with_heap. cbn.
  rewrite lookup_total_app_r, Nat.sub_diag by done. cbn.
  by rewrite insert_app_r_alt, Nat.sub_diag by done.
Qed.

Lemma series_call_last f s h d c :
  series_call f (length h) c (with_heap s (h ++ [d]))
  = (f (column d c), with_heap s (h ++ [d])).
Proof.
  unfold series_call, mbind, M_bind, df_get, lift. cbn.
  by rewrite lookup_total_app_r, Nat.sub_diag by done.
Qed.

Lemma get_last s h d :
  df_get (length h) (with_heap s (h ++ [d])) = (Ok d, with_heap s (h ++ [d])).
Proof.
  unfold df_get. cbn. by rewrite lookup_total_app_r, Nat.sub_diag by done.
Qed.

(** A conversion under [try: ... except: pass] that computes a column and
    assigns it: the column is written, or nothing happens. *)
Lemma attempt_assign f s h d c :
  exists d',
    attempt (v ← series_call f (length h) c; setitem (length h) c v)
            (with_heap s (h ++ [d]))
    = (Ok tt, with_heap s (h ++ [d'])) /\
    (d' = d \/ exists v, d' = set_column d c v).
Proof.
  unfold attempt, try_except, mbind, M_bind. rewrite series_call_last.
  destruct (f (column d c)) as [v|e]; cbn.
  - rewrite setitem_last. eauto.
  - eauto.
Qed.

Lemma lift_ok_bind {A B} (a : A) (k : A -> M B) s : (lift (Ok a) ≫= k) s = k a s.
Proof. reflexivity. Qed.

(** The test of a conversion on a table is the test on its values, and
    then on the columns of the table. *)
Lemma conversion_column_named d conv col dtype :
  py_get conv "column" = Ok col -> py_get conv "dtype" = Ok dtype ->
  conversion_column d col dtype
  = match named_column conv with
    | Ok (Some c) => Ok (if has_column d c then Some c else None)
    | Ok None => Ok None
    | Raise e => Raise e
    end.
Proof.
  intros Hcol Hdtype. unfold named_column, conversion_column. rewrite Hcol, Hdtype. cbn.
  destruct (truthy col && truthy dtype); [|done]. by destruct col.
Qed.

(** One round of the loop: it raises what reading the conversion raises,
    and otherwise writes the named column or does nothing. *)
Lemma conversion_step s h d0 conv (body : pyval -> M unit) :
  body = (fun conv : pyval =>
    col ← lift (py_get conv "column");
    dtype ← lift (py_get conv "dtype");
    d ← df_get (length h);
    target ← lift (conversion_column d col dtype);
    match target with
    | Some col =>
        let dtype := as_str (Some dtype) in
        attempt
          (if bool_decide (dtype = Some "int") then
             v ← series_call (fun s => pd_to_numeric s ≫= astype_Int64) (length h) col;
             setitem (length h) col v
           else if bool_decide (dtype = Some "float") then
             v ← series_call pd_to_numeric (length h) col; setitem (length h) col v
           else if bool_decide (dtype = Some "str") then
             v ← series_call (fun s => Ok (astype_str s)) (length h) col;
             setitem (length h) col v
           else if bool_decide (dtype = Some "datetime") then
             v ← series_call pd_to_datetime (length h) col; setitem (length h) col v
           else if bool_decide (dtype = Some "bool") then
             v ← series_call (fun s => Ok ((fun x => Bool (py_bool x)) <$> s)) (length h) col;
             setitem (length h) col v
           else mret tt)
    | None => mret tt
    end) ->
  match named_column conv with
  | Raise e => body conv (with_heap s (h ++ [d0])) = (Raise e, with_heap s (h ++ [d0]))
  | Ok None => body conv (with_heap s (h ++ [d0])) = (Ok tt, with_heap s (h ++ [d0]))
  | Ok (Some c) =>
      exists d1,
        body conv (with_heap s (h ++ [d0])) = (Ok tt, with_heap s (h ++ [d1])) /\
        (d1 = d0 \/ exists v, has_column d0 c = true /\ d1 = set_column d0 c v)
  end.
Proof.
  intros ->.
  destruct (py_get conv "column") as [col|e] eqn:Hcol.
  2:{ unfold named_column. rewrite Hcol. reflexivity. }
  destruct (py_get conv "dtype") as [dtype|e] eqn:Hdtype.
  2:{ unfold named_column. rewrite Hcol, Hdtype. reflexivity. }
  pose proof (conversion_column_named d0 conv col dtype Hcol Hdtype) as Hcc.
  rewrite !lift_ok_bind, get_bind. cbn [heap with_heap].
  rewrite lookup_total_app_r, Nat.sub_diag by done. cbn [lookup_total list_lookup_total].
  rewrite Hcc.
  destruct (named_column conv) as [[c|]|e]; [|reflexivity..].
  rewrite lift_ok_bind.
  destruct (has_column d0 c) eqn:Hc; [|exists d0; split; [reflexivity|by left]].
  cbv zeta.
  repeat (case_bool_decide;
          [match goal with
           | |- context [series_call ?f] =>
               destruct (attempt_assign f s h d0 c) as (d1 & Hrun & Hd1);
               exists d1; split; [exact Hrun|];
               destruct Hd1 as [->|[v ->]]; [by left|right; by exists v]
           end|]).
  exists d0. split; [reflexivity|by left].
Qed.

Lemma mapM_cons_outcome {A B} (f : A -> outcome B) x l :
  mapM f (x :: l) = y ← f x; k ← mapM f l; Ok (y :: k).
Proof. reflexivity. Qed.

(** [type_convert] raises only on a configuration it cannot read: when
    [conversions] cannot be iterated, when a conversion is not a
    dictionary, and when a conversion with a dtype names its column by a
    list or a dictionary; the exception is that of the first such
    conversion.  Otherwise it never raises, whatever the conversions do:
    it returns one new frame and changes nothing else.  The result has
    the columns and the number of rows of the input, and every column no
    conversion names is as in the input; when no conversion names a column
    of the table, the result is an equal copy.  Without [conversions], and
    with a list of dictionaries that name their column by text, the
    configuration can be read. *)
Theorem type_convert_keeps_the_shape df config s :
  let d := heap s !!! df in
  match converted_columns config with
  | Ok names =>
      exists d',
        _execute_type_convert df config s
        = (Ok (length (heap s)), with_heap s (heap s ++ [d'])) /\
        columns d' = columns d /\
        len d' = len d /\
        (forall c, c ∉ names -> column d' c = column d c) /\
        ((forall c, c ∈ names -> c ∉ columns d) -> d' = d)
  | Raise e =>
      exists d',
        _execute_type_convert df config s = (Raise e, with_heap s (heap s ++ [d'])) /\
        columns d' = columns d /\ len d' = len d
  end /\
  (config !! "conversions" = None -> converted_columns config = Ok []) /\
  (forall convs,
     config !! "conversions" = Some (PList convs) ->
     Forall conversion_shaped convs ->
     is_ok (converted_columns config) = true) /\
  (forall convs pre conv post,
     config !! "conversions" = Some (PList convs) ->
     convs = pre ++ conv :: post ->
     Forall conversion_shaped pre ->
     (forall fields, conv <> PDict fields) ->
     converted_columns config
     = Raise ("'" +:+ type_name conv +:+ "' object has no attribute 'get'")).
Proof.
  intros d.
  assert (Hshaped : forall conv, conversion_shaped conv -> is_ok (named_column conv) = true).
  { intros conv (fields & -> & Hcol). unfold named_column. cbn.
    destruct (list_to_map fields !! "column") as [[]|]; cbn in *;
      repeat (match goal with |- context [if ?b then _ else _] => destruct b end); done. }
  split; [|split; [|split]].
  - unfold _execute_type_convert, converted_columns.
    rewrite copy_bind. fold d.
    destruct (py_iter (default (PList []) (config !! "conversions"))) as [convs|e];
      [|exists d; by repeat split].
    cbn [mbind outcome_bind]. rewrite lift_ok_bind.
    set (h := heap s).
    match goal with |- context [for_each _ ?b] => set (body := b) end.
    assert (Hloop : forall d0,
              match mapM named_column convs with
              | Ok names =>
                  exists d',
                    for_each convs body (with_heap s (h ++ [d0]))
                    = (Ok tt, with_heap s (h ++ [d'])) /\
                    columns d' = columns d0 /\ len d' = len d0 /\
                    (forall c, c ∉ omap (M:=list) (fun c : option string => c) names ->
                               column d' c = column d0 c) /\
                    ((forall c, c ∈ omap (M:=list) (fun c : option string => c) names ->
                                c ∉ columns d0) -> d' = d0)
              | Raise e =>
                  exists d',
                    for_each convs body (with_heap s (h ++ [d0]))
                    = (Raise e, with_heap s (h ++ [d'])) /\
                    columns d' = columns d0 /\ len d' = len d0
              end).
    { induction convs as [|conv convs IH]; intros d0; [by exists d0|].
      rewrite mapM_cons_outcome. cbn [for_each].
      pose proof (conversion_step s h d0 conv body eq_refl) as Hstep.
      destruct (named_column conv) as [[c|]|e]; cbn [mbind outcome_bind].
      - destruct Hstep as (d1 & Hrun & Hd1). rewrite (bind_ok _ _ _ _ _ Hrun).
        specialize (IH d1).
        assert (Hcols : columns d1 = columns d0 /\ len d1 = len d0).
        { destruct Hd1 as [->|(v & Hc & ->)]; [done|].
          by rewrite set_column_columns, set_column_len. }
        destruct Hcols as [Hc1 Hl1].
        destruct (mapM named_column convs) as [names|e]; cbn [mbind outcome_bind].
        + destruct IH as (d' & Hrest & Hc & Hl & Ho & He). exists d'.
          split; [exact Hrest|]. split; [congruence|]. split; [congruence|].
          cbn [omap list_omap]. split.
          * intros c' Hc'. rewrite Ho by (intros ?; apply Hc'; by right).
            destruct Hd1 as [->|(v & Hcol & ->)]; [done|].
            apply set_column_other; [done|]. intros ->. apply Hc'. by left.
          * intros Hno. destruct Hd1 as [->|(v & Hcol & ->)].
            -- apply He. intros c' ?. apply Hno. by right.
            -- exfalso. apply (Hno c); [by left|]. by apply bool_decide_eq_true in Hcol.
        + destruct IH as (d' & Hrest & Hc & Hl). exists d'.
          split; [exact Hrest|]. split; congruence.
      - rewrite (bind_ok _ _ _ _ _ Hstep). specialize (IH d0).
        destruct (mapM named_column convs) as [names|e]; cbn [mbind outcome_bind]; exact IH.
      - exists d0. split; [|done]. unfold mbind, M_bind. by rewrite Hstep. }
    specialize (Hloop d).
    destruct (mapM named_column convs) as [names|e]; cbn [mbind outcome_bind].
    + destruct Hloop as (d' & Hrun & ?). exists d'. split; [|done].
      by rewrite (bind_ok _ _ _ _ _ Hrun).
    + destruct Hloop as (d' & Hrun & ?). exists d'. split; [|done].
      unfold mbind, M_bind. by rewrite Hrun.
  - intros Hnone. unfold converted_columns. by rewrite Hnone.
  - intros convs Hconvs Hall. unfold converted_columns. rewrite Hconvs.
    change (default (PList []) (Some (PList convs))) with (PList convs).
    cbn [py_iter mbind outcome_bind].
    assert (Hok : is_ok (mapM named_column convs) = true).
    { clear Hconvs. induction Hall as [|conv convs Hconv _ IH]; [done|].
      rewrite mapM_cons_outcome. apply Hshaped in Hconv.
      destruct (named_column conv); [|discriminate Hconv]. cbn [mbind outcome_bind].
      destruct (mapM named_column convs); [reflexivity|discriminate IH]. }
    destruct (mapM named_column convs); [reflexivity|discriminate Hok].
  - intros convs pre conv post Hconvs -> Hpre Hconv.
    unfold converted_columns. rewrite Hconvs.
    change (default (PList []) (Some (PList (pre ++ conv :: post))))
      with (PList (pre ++ conv :: post)).
    cbn [py_iter mbind outcome_bind].
    assert (Hraise : mapM named_column (pre ++ conv :: post)
                     = Raise ("'" +:+ type_name conv +:+ "' object has no attribute 'get'")).
    { clear Hconvs. induction Hpre as [|c0 pre Hc0 _ IH]; cbn [app]; rewrite mapM_cons_outcome.
      - unfold named_column. destruct conv; try done. by destruct (Hconv d0).
      - apply Hshaped in Hc0. destruct (named_column c0); [|discriminate Hc0].
        cbn [mbind outcome_bind]. by rewrite IH. }
    by rewrite Hraise.
Qed.
End Shapes.

Lemma set_column_same d c vals :
  rectangular d -> has_column d c = true -> length vals = len d ->
  column (set_column d c vals) c = vals.
Proof.
  intros Hrect Hc%bool_decide_eq_true Hlen. unfold set_column, column.
  destruct (index_of_is_Some c (columns d) Hc) as [i Hi]. rewrite Hi. cbn. rewrite Hi.
  pose proof (lookup_lt_Some _ _ _ (index_of_lookup _ _ _ Hi)) as Hlt.
  rewrite fmap_imap. apply list_eq. intros j. rewrite list_lookup_imap.
  destruct (rows d !! j) as [r|] eqn:Hr; cbn.
  - rewrite list_lookup_total_insert_eq.
    + symmetry. apply list_lookup_lookup_total_lt. rewrite Hlen.
      by apply lookup_lt_Some in Hr.
    + rewrite (proj1 (Forall_lookup _ _) Hrect j r Hr). done.
  - symmetry. apply lookup_ge_None. rewrite Hlen. by apply lookup_ge_None in Hr.
Qed.

Section TextProcess.
Context `{Pandas}.

(** [text_process] without a column, with a column the table does not
    have, or with an operation it does not know, returns an equal copy and
    raises nothing.  With [trim], [lower] or [upper] on a column of the
    table it never raises either: the result has the same columns and
    rows, the other columns are untouched, and every cell of the column,
    a null or a number included, is replaced by the processed text of
    [str(cell)]. *)
Theorem text_process_rewrites_one_column df config s :
  let d := heap s !!! df in
  let copy_of d' := (Ok (length (heap s)), with_heap s (heap s ++ [d'])) in
  (forall col,
     as_name (config !! "column") = None \/
     as_name (config !! "column") = Some col /\ col ∉ columns d \/
     (forall operation, as_str (config !! "operation") = Some operation ->
        operation ∉ ["trim"; "lower"; "upper"; "replace"; "extract"]) ->
     _execute_text_process df config s = copy_of d) /\
  (forall col operation f,
     as_name (config !! "column") = Some col -> col ∈ columns d ->
     as_str (config !! "operation") = Some operation ->
     text_operation operation = Some f ->
     exists d',
       _execute_text_process df config s = copy_of d' /\
       columns d' = columns d /\ len d' = len d /\
       (forall c, c <> col -> column d' c = column d c) /\
       (rectangular d ->
        column d' col = (fun x => Str (f (py_str x))) <$> column d col)).
Proof.
  intros d copy_of. unfold _execute_text_process.
  rewrite copy_bind, get_bind. cbn [heap with_heap].
  rewrite lookup_total_app_r, Nat.sub_diag by done.
  cbn [lookup_total list_lookup_total]. fold d. split.
  - intros col Hskip.
    destruct (as_name (config !! "column")) as [col'|] eqn:Hcol; [|done].
    destruct (has_column d col') eqn:Hhas; cbn [negb]; [|done].
    apply bool_decide_eq_true in Hhas.
    destruct Hskip as [?|[[[= ->] ?]|Hop]]; [done..|].
    destruct (as_str (config !! "operation")) as [operation|].
    + specialize (Hop operation eq_refl).
      repeat (let Heq := fresh in
              case_bool_decide as Heq;
              [exfalso; apply Hop; injection Heq as ->;
               apply (bool_decide_unpack _); vm_compute; exact I|]).
      done.
    + repeat (case_bool_decide; [done|]). done.
  - intros col operation f -> Hcol Hop Hf.
    apply (bool_decide_eq_true_2 _) in Hcol. fold (has_column d col) in Hcol.
    rewrite Hcol, Hop. cbn [negb].
    set (h := heap s).
    assert (Hset : forall g : string -> string,
              exists d',
                (_ ← setitem (length h) col ((fun s => Str (g s)) <$> (py_str <$> column d col));
                 mret (length h)) (with_heap s (h ++ [d]))
                = copy_of d' /\
                columns d' = columns d /\ len d' = len d /\
                (forall c, c <> col -> column d' c = column d c) /\
                (rectangular d ->
                 column d' col = (fun x => Str (g (py_str x))) <$> column d col)).
    { intros g. eexists. split.
      - rewrite (bind_ok _ _ _ _ _ (setitem_last s h d col _)). reflexivity.
      - split; [by apply set_column_columns|]. split; [apply set_column_len|].
        split.
        + intros c Hc. apply set_column_other; [done|congruence].
        + intros Hrect. rewrite set_column_same; [|done..|].
          * by rewrite <- list_fmap_compose.
          * rewrite !length_fmap. unfold column, len.
            apply bool_decide_eq_true in Hcol.
            destruct (index_of_is_Some col (columns d) Hcol) as [i ->].
            by rewrite length_fmap. }
    unfold text_operation in Hf.
    repeat (let Heq := fresh in
            case_bool_decide as Heq;
            [injection Hf as <-; subst operation;
             repeat (case_bool_decide; [|congruence]); apply Hset|]).
    done.
Qed.
End TextProcess.

(** ** The key checks of the join *)

Section JoinKeys.
Context `{Pandas}.

Lemma coerce_keys_ok side r keys s d :
  holds s r d -> Forall (fun c => c ∈ columns d) keys ->
  exists s' d',
    coerce_keys side r keys s = (Ok tt, s') /\
    holds s' r d' /\ columns d' = columns d /\
    (forall r' d'', holds s r' d'' -> r' <> r -> holds s' r' d'').
Proof.
  unfold coerce_keys. revert s d.
  induction keys as [|c keys IH]; intros s d Hd Hkeys; [by exists s, d|].
  apply Forall_cons in Hkeys as [Hc Hkeys]. cbn [for_each].
  destruct (coerce_holds s r d c Hd) as (s1 & Hrun & Hd1 & Hothers).
  assert (Hcols : columns (coerced d c) = columns d).
  { apply set_column_columns. by apply bool_decide_eq_true. }
  destruct (IH s1 (coerced d c) Hd1) as (s' & d' & Hrest & Hd' & Hc' & Ho');
    [by rewrite Hcols|].
  exists s', d'. split.
  - unfold mbind at 1. unfold M_bind. rewrite get_bind.
    destruct Hd as [_ ->]. unfold has_column. rewrite bool_decide_eq_true_2 by done.
    cbn [negb]. rewrite Hrun. exact Hrest.
  - split; [done|]. split; [congruence|]. intros r' d'' ? ?. apply Ho'; [|done].
    by apply Hothers.
Qed.

Lemma for_each_app {A} (l1 l2 : list A) (body : A -> M unit) s :
  for_each (l1 ++ l2) body s
  = match for_each l1 body s with
    | (Ok _, s') => for_each l2 body s'
    | (Raise e, s') => (Raise e, s')
    end.
Proof.
  revert s. induction l1 as [|x l1 IH]; intros s; [done|].
  cbn [app for_each]. unfold mbind, M_bind.
  destruct (body x s) as [[[]|e] s']; [apply IH|done].
Qed.

Lemma coerce_keys_missing side r pre col post s d :
  holds s r d -> Forall (fun c => c ∈ columns d) pre -> col ∉ columns d ->
  exists s',
    coerce_keys side r (pre ++ col :: post) s = (Raise (join_key_missing side col d), s').
Proof.
  intros Hd Hpre Hcol.
  destruct (coerce_keys_ok side r pre s d Hd Hpre) as (s1 & d1 & Hrun & [_ Hd1] & Hc & _).
  exists s1. unfold coerce_keys in *. rewrite for_each_app, Hrun.
  cbn [for_each]. unfold mbind at 1. unfold M_bind.
  rewrite get_bind, Hd1. unfold has_column.
  rewrite bool_decide_eq_false_2 by (by rewrite Hc). cbn.
  unfold join_key_missing, repr_columns. by rewrite Hc.
Qed.

(** A join without keys on either side raises before it touches anything.
    With keys, the key columns are checked in order, the left table
    first: the first key that is not a column of its table is reported
    with the side and that table's columns. *)
Theorem join_reports_the_first_missing_key df1 df2 config s :
  df2 < length (heap s) ->
  let left_on := as_name_or_names (py_or (config !! "left_on") (config !! "on")) in
  let right_on := as_name_or_names (py_or (config !! "right_on") (config !! "on")) in
  let d1 := heap s !!! df1 in
  let d2 := heap s !!! df2 in
  (left_on = [] \/ right_on = [] ->
   _execute_join df1 df2 config s
   = (Raise "Join节点必须指定关联键 (left_on/right_on 或 on)", s)) /\
  (forall pre col post,
     right_on <> [] -> left_on = pre ++ col :: post ->
     Forall (fun c => c ∈ columns d1) pre -> col ∉ columns d1 ->
     exists s', _execute_join df1 df2 config s
                = (Raise (join_key_missing "左表" col d1), s')) /\
  (forall pre col post,
     left_on <> [] -> Forall (fun c => c ∈ columns d1) left_on ->
     right_on = pre ++ col :: post ->
     Forall (fun c => c ∈ columns d2) pre -> col ∉ columns d2 ->
     exists s', _execute_join df1 df2 config s
                = (Raise (join_key_missing "右表" col d2), s')).
Proof.
  intros Hdf2 left_on right_on d1 d2. unfold _execute_join. cbn zeta.
  fold left_on right_on.
  set (s1 := with_heap s (heap s ++ [d1])).
  set (s2 := with_heap s1 (heap s1 ++ [d2])).
  assert (H1 : holds s2 (length (heap s)) d1).
  { apply holds_new_old, holds_new. }
  assert (H2 : holds s2 (length (heap s1)) d2) by apply holds_new.
  assert (Hcopies : forall (k : ref -> ref -> M ref),
            (r1 ← df_copy df1; r2 ← df_copy df2; k r1 r2) s
            = k (length (heap s)) (length (heap s1)) s2).
  { intros k. rewrite copy_bind. fold d1 s1. rewrite copy_bind.
    assert (heap s1 !!! df2 = d2) as ->; [|done].
    unfold s1. cbn. by rewrite lookup_total_app_l. }
  split; [|split].
  - intros [->| ->]; [done|]. by rewrite andb_false_r.
  - intros pre col post Hr Hl Hpre Hcol.
    rewrite !bool_decide_eq_false_2 by (done || by rewrite Hl; destruct pre).
    cbn [negb andb]. rewrite Hcopies.
    destruct (coerce_keys_missing "左表" _ pre col post s2 d1 H1 Hpre Hcol)
      as (s' & Hrun).
    exists s'. unfold mbind, M_bind. rewrite Hl. by rewrite Hrun.
  - intros pre col post Hl Hleft Hr Hpre Hcol.
    rewrite !bool_decide_eq_false_2 by (done || by rewrite Hr; destruct pre).
    cbn [negb andb]. rewrite Hcopies.
    destruct (coerce_keys_ok "左表" _ left_on s2 d1 H1 Hleft)
      as (s3 & d1' & Hrun1 & _ & _ & Hothers).
    assert (H2' : holds s3 (length (heap s1)) d2).
    { apply (Hothers _ _ H2). unfold s1. cbn. rewrite length_app. cbn. lia. }
    destruct (coerce_keys_missing "右表" _ pre col post s3 d2 H2' Hpre Hcol)
      as (s' & Hrun).
    exists s'. unfold mbind, M_bind. rewrite Hrun1, Hr. by rewrite Hrun.
Qed.
End JoinKeys.

(** ** Filling nulls with a statistic *)

Section FillNa.
Context `{Pandas}.

Lemma getitem_last s h d c :
  getitem (length h) c (with_heap s (h ++ [d]))
  = (if has_column d c then Ok (column d c) else Raise "KeyError",
     with_heap s (h ++ [d])).
Proof.
  unfold getitem. rewrite get_bind. cbn [heap with_heap].
  rewrite lookup_total_app_r, Nat.sub_diag by done. cbn [lookup_total list_lookup_total].
  by destruct (has_column d c).
Qed.

Lemma bind_raise {A B} (m : M A) (k : A -> M B) s e s' :
  m s = (Raise e, s') -> (m ≫= k) s = (Raise e, s').
Proof. intros Hm. unfold mbind, M_bind. by rewrite Hm. Qed.

Section Loop.
Variable stat : list cell -> cell.
Variables (s : State) (h : list DataFrame).

#[local] Abbreviation body :=
  (fun col : string =>
     v ← getitem (length h) col;
     if numeric_dtype v then setitem (length h) col (fillna (stat v) v) else mret tt).

Lemma fill_loop_ok cols d :
  Forall (fun c => c ∈ columns d) cols ->
  exists d',
    for_each cols body (with_heap s (h ++ [d])) = (Ok tt, with_heap s (h ++ [d'])) /\
    columns d' = columns d /\ len d' = len d /\
    (forall c, c ∉ cols -> column d' c = column d c).
Proof.
  revert d. induction cols as [|col cols IH]; intros d Hcols; [by exists d|].
  apply Forall_cons in Hcols as [Hcol Hcols].
  assert (Hhas : has_column d col = true) by by apply bool_decide_eq_true.
  assert (Hstep : exists d1,
            body col (with_heap s (h ++ [d])) = (Ok tt, with_heap s (h ++ [d1])) /\
            (d1 = d \/ exists v, d1 = set_column d col v)).
  { unfold mbind at 1. unfold M_bind. rewrite getitem_last, Hhas.
    destruct (numeric_dtype (column d col)).
    - rewrite setitem_last. eexists. split; [reflexivity|]. right. by eexists.
    - exists d. split; [reflexivity|by left]. }
  destruct Hstep as (d1 & Hrun & Hd1).
  assert (Hshape : columns d1 = columns d /\ len d1 = len d /\
                   forall c, c <> col -> column d1 c = column d c).
  { destruct Hd1 as [->|[v ->]]; [done|].
    split; [by apply set_column_columns|]. split; [apply set_column_len|].
    intros c Hc. apply set_column_other; [done|congruence]. }
  destruct Hshape as (Hc1 & Hl1 & Ho1).
  destruct (IH d1) as (d' & Hrest & Hc & Hl & Ho); [by rewrite Hc1|].
  exists d'. cbn [for_each]. rewrite (bind_ok _ _ _ _ _ Hrun). split; [exact Hrest|].
  split; [congruence|]. split; [congruence|].
  intros c [Hne Hc']%not_elem_of_cons. rewrite Ho by done. by apply Ho1.
Qed.

Lemma fill_loop_missing pre col post d :
  Forall (fun c => c ∈ columns d) pre -> col ∉ columns d ->
  exists d',
    for_each (pre ++ col :: post) body (with_heap s (h ++ [d]))
    = (Raise "KeyError", with_heap s (h ++ [d'])).
Proof.
  intros Hpre Hcol. destruct (fill_loop_ok pre d Hpre) as (d' & Hrun & Hc & _).
  exists d'. rewrite for_each_app, Hrun. cbn [for_each].
  unfold mbind, M_bind. rewrite getitem_last.
  unfold has_column. by rewrite bool_decide_eq_false_2 by (by rewrite Hc).
Qed.
End Loop.

(** [fill_na] with the strategy [mean] or [median] reads every target
    column: it raises [KeyError] at the first one the table does not
    have, where the other cleaning operators skip a missing column.  When
    the table has them all, it never raises and gives one new frame with
    the columns and the number of rows of the input, in which the columns
    outside the targets are untouched. *)
Theorem fill_na_statistic_reads_every_target df config s :
  let d := heap s !!! df in
  let targets := fill_targets config d in
  config !! "strategy" = Some (PStr "mean") \/
  config !! "strategy" = Some (PStr "median") ->
  (Forall (fun c => c ∈ columns d) targets ->
   exists d',
     _execute_fill_na df config s
     = (Ok (length (heap s)), with_heap s (heap s ++ [d'])) /\
     columns d' = columns d /\ len d' = len d /\
     (forall c, c ∉ targets -> column d' c = column d c)) /\
  (forall pre col post,
     targets = pre ++ col :: post ->
     Forall (fun c => c ∈ columns d) pre -> col ∉ columns d ->
     exists s', _execute_fill_na df config s = (Raise "KeyError", s')).
Proof.
  intros d targets Hstrategy. unfold _execute_fill_na. cbn zeta.
  rewrite copy_bind, get_bind. cbn [heap with_heap].
  rewrite lookup_total_app_r, Nat.sub_diag by done.
  cbn [lookup_total list_lookup_total]. fold d. fold (fill_targets config d).
  fold targets. set (h := heap s).
  destruct Hstrategy as [-> | ->]; cbn [as_str];
    repeat (case_bool_decide; [discriminate|]);
    (case_bool_decide; [|done]).
  - split.
    + intros Hall. destruct (fill_loop_ok series_mean s h targets d Hall)
        as (d' & Hrun & Hshape).
      exists d'. split; [|done]. by rewrite (bind_ok _ _ _ _ _ Hrun).
    + intros pre col post -> Hpre Hcol.
      destruct (fill_loop_missing series_mean s h pre col post d Hpre Hcol)
        as (d' & Hrun).
      eexists. by rewrite (bind_raise _ _ _ _ _ Hrun).
  - split.
    + intros Hall. destruct (fill_loop_ok series_median s h targets d Hall)
        as (d' & Hrun & Hshape).
      exists d'. split; [|done]. by rewrite (bind_ok _ _ _ _ _ Hrun).
    + intros pre col post -> Hpre Hcol.
      destruct (fill_loop_missing series_median s h pre col post d Hpre Hcol)
        as (d' & Hrun).
      eexists. by rewrite (bind_raise _ _ _ _ _ Hrun).
Qed.
End FillNa.

(** ** One aggregation per column *)

Section Dicts.
Implicit Types (d : list (string * string)) (k v : string).

Lemma dict_set_keys k v d :
  (dict_set k v d).*1 = if bool_decide (k ∈ d.*1) then d.*1 else d.*1 ++ [k].
Proof.
  induction d as [|[k' v'] d IH].
  { cbn. rewrite bool_decide_eq_false_2; [done|]. by intros ?%elem_of_nil. }
  cbn [dict_set]. destruct (decide (k' = k)) as [->|Hk].
  - rewrite (bool_decide_eq_true_2 (k = k)) by done. cbn.
    rewrite bool_decide_eq_true_2; [done|by left].
  - rewrite (bool_decide_eq_false_2 (k' = k)) by done. cbn. rewrite IH.
    destruct (decide (k ∈ d.*1)) as [Hin|Hin].
    + rewrite !bool_decide_eq_true_2; [done|by right|done].
    + rewrite !bool_decide_eq_false_2; [done| |done].
      intros [?|?]%elem_of_cons; [congruence|done].
Qed.

Lemma dict_set_NoDup k v d : NoDup d.*1 -> NoDup (dict_set k v d).*1.
Proof.
  intros Hnd. rewrite dict_set_keys. case_bool_decide as Hk; [done|].
  apply NoDup_app. split; [done|]. split; [|apply NoDup_singleton].
  by intros x ? ->%list_elem_of_singleton.
Qed.

Lemma dict_set_elem k v d k' v' :
  NoDup d.*1 ->
  (k', v') ∈ dict_set k v d -> k' = k /\ v' = v \/ k' <> k /\ (k', v') ∈ d.
Proof.
  induction d as [|[k0 v0] d IH]; cbn [dict_set].
  - intros _ [= -> ->]%list_elem_of_singleton. by left.
  - cbn. intros [Hk0 Hnd]%NoDup_cons. destruct (decide (k0 = k)) as [->|Hk].
    + rewrite (bool_decide_eq_true_2 (k = k)) by done.
      intros [[= -> ->]|Hin]%elem_of_cons; [by left|]. right. split; [|by right].
      intros ->. apply Hk0. apply list_elem_of_fmap. by exists (k, v').
    + rewrite (bool_decide_eq_false_2 (k0 = k)) by done.
      intros [[= -> ->]|Hin]%elem_of_cons.
      * right. split; [done|by left].
      * destruct (IH Hnd Hin) as [?|[? ?]]; [by left|]. right. split; [done|by right].
Qed.
End Dicts.

Lemma last_aggregation_snoc aggs col a b :
  last_aggregation aggs col a -> as_name (b !! "column") <> Some col ->
  last_aggregation (aggs ++ [b]) col a.
Proof.
  intros (pre & post & -> & Ha & Hpost) Hb. exists pre, (post ++ [b]).
  split; [by rewrite <- app_assoc|]. split; [done|].
  apply Forall_app. split; [done|]. by apply Forall_singleton.
Qed.

Section GroupAggregate.
Context `{Pandas}.

(** [group_aggregate] with a [group_by] computes at most one aggregation
    per column.  The aggregations that name a column of the table are
    collected in a dictionary keyed by the column, so of several
    aggregations of one column only the last is computed, with its
    function and under its alias; the aggregations of columns the table
    does not have are dropped. *)
Theorem group_aggregate_keeps_the_last_aggregation df config s :
  let d := heap s !!! df in
  let group_by := as_name_or_names (config !! "group_by") in
  let aggs := as_dicts (config !! "aggregations") in
  group_by <> [] ->
  exists agg_dict rename_dict,
    _execute_group_aggregate df config s
    = (if bool_decide (agg_dict = [])
       then df_call (fun d => pd_groupby_agg d group_by []) df
       else result ← df_call (fun d => pd_groupby_agg d group_by agg_dict) df;
            df_call (fun d => Ok (rename d rename_dict)) result) s /\
    NoDup agg_dict.*1 /\ rename_dict.*1 = agg_dict.*1 /\
    (forall col, col ∈ agg_dict.*1 <->
       col ∈ columns d /\ exists a, a ∈ aggs /\ as_name (a !! "column") = Some col) /\
    (forall col func, (col, func) ∈ agg_dict ->
       exists a, last_aggregation aggs col a /\ func = aggregation_func a) /\
    (forall col alias, (col, alias) ∈ rename_dict ->
       exists a, last_aggregation aggs col a /\ alias = aggregation_alias col a).
Proof.
  intros d group_by aggs Hg. unfold _execute_group_aggregate. cbn zeta.
  fold group_by aggs. rewrite bool_decide_eq_false_2 by done. rewrite get_bind. fold d.
  match goal with |- context [foldl ?f ?a aggs] => set (step := f); set (acc0 := a) end.
  exists (foldl step acc0 aggs).1, (foldl step acc0 aggs).2. split; [done|].
  induction aggs as [|a aggs IH] using rev_ind.
  - cbn. split; [constructor|]. split; [done|]. split; [|split].
    + intros col. split; [by intros ?%elem_of_nil|].
      by intros (_ & a & ?%elem_of_nil & _).
    + by intros col func ?%elem_of_nil.
    + by intros col alias ?%elem_of_nil.
  - rewrite foldl_app. cbn [foldl]. set (acc := foldl step acc0 aggs) in *.
    destruct IH as (Hnd & Hkeys & Hdom & Hfunc & Halias).
    assert (Hskip : forall col,
              col ∈ acc.1.*1 -> as_name (a !! "column") <> Some col \/
                                has_column d col = false ->
              as_name (a !! "column") <> Some col).
    { intros col Hcol [?|Hno]; [done|]. apply Hdom in Hcol as [Hcol _].
      apply bool_decide_eq_false in Hno. done. }
    assert (Hsame : step acc a = acc ->
              as_name (a !! "column") = None \/
              (exists c, as_name (a !! "column") = Some c /\ has_column d c = false) ->
              NoDup (step acc a).1.*1 /\ (step acc a).2.*1 = (step acc a).1.*1 /\
              (forall col, col ∈ (step acc a).1.*1 <->
                 col ∈ columns d /\
                 exists a0, a0 ∈ aggs ++ [a] /\ as_name (a0 !! "column") = Some col) /\
              (forall col func, (col, func) ∈ (step acc a).1 ->
                 exists a0, last_aggregation (aggs ++ [a]) col a0 /\
                            func = aggregation_func a0) /\
              (forall col alias, (col, alias) ∈ (step acc a).2 ->
                 exists a0, last_aggregation (aggs ++ [a]) col a0 /\
                            alias = aggregation_alias col a0)).
    { intros -> Hnone.
      assert (Hother : forall col, col ∈ columns d -> as_name (a !! "column") <> Some col).
      { intros col Hcol Ha. destruct Hnone as [Hn|(c & Hc & Hno)]; [congruence|].
        rewrite Ha in Hc. injection Hc as <-.
        apply bool_decide_eq_false in Hno. done. }
      split; [done|]. split; [done|]. split; [|split].
      - intros col. rewrite Hdom. split.
        + intros (Hcol & a0 & Ha0 & Hn). split; [done|]. exists a0.
          split; [|done]. apply elem_of_app. by left.
        + intros (Hcol & a0 & [Ha0|Ha0%list_elem_of_singleton]%elem_of_app & Hn).
          * split; [done|]. by exists a0.
          * subst a0. by destruct (Hother col Hcol).
      - intros col func Hin. destruct (Hfunc col func Hin) as (a0 & Hlast & ->).
        exists a0. split; [|done]. apply last_aggregation_snoc; [done|].
        apply Hother. apply Hdom. apply list_elem_of_fmap. by exists (col, aggregation_func a0).
      - intros col alias Hin. destruct (Halias col alias Hin) as (a0 & Hlast & ->).
        exists a0. split; [|done]. apply last_aggregation_snoc; [done|].
        apply Hother. apply Hdom. rewrite <- Hkeys. apply list_elem_of_fmap.
        by exists (col, aggregation_alias col a0). }
    destruct (as_name (a !! "column")) as [c|] eqn:Hc.
    + destruct (has_column d c) eqn:Hhas.
      * assert (Hstep : step acc a
                        = (dict_set c (aggregation_func a) acc.1,
                           dict_set c (aggregation_alias c a) acc.2)).
        { unfold step. by rewrite Hc, Hhas. }
        rewrite Hstep. cbn [fst snd]. clear Hsame.
        assert (Hlast : last_aggregation (aggs ++ [a]) c a).
        { exists aggs, []. by repeat split. }
        split; [by apply dict_set_NoDup|].
        split; [by rewrite !dict_set_keys, Hkeys|]. split; [|split].
        -- intros col. rewrite dict_set_keys.
           assert (col ∈ (if bool_decide (c ∈ acc.1.*1) then acc.1.*1 else acc.1.*1 ++ [c])
                   <-> col ∈ acc.1.*1 \/ col = c) as ->.
           { case_bool_decide.
             - split; [by left|]. by intros [?| ->].
             - rewrite elem_of_app, list_elem_of_singleton. done. }
           rewrite Hdom. split.
           ++ intros [(Hcol & a0 & Ha0 & Hn)| ->].
              ** split; [done|]. exists a0. split; [|done]. apply elem_of_app. by left.
              ** split; [by apply bool_decide_eq_true in Hhas|]. exists a.
                 split; [|done]. apply elem_of_app. right. by apply list_elem_of_singleton.
           ++ intros (Hcol & a0 & [Ha0|Ha0%list_elem_of_singleton]%elem_of_app & Hn).
              ** left. split; [done|]. by exists a0.
              ** subst a0. right. congruence.
        -- intros col func [[-> ->]|[Hne Hin]]%dict_set_elem; [by exists a| |done].
           destruct (Hfunc col func Hin) as (a0 & Hl & ->). exists a0.
           split; [|done]. apply last_aggregation_snoc; [done|congruence].
        -- intros col alias [[-> ->]|[Hne Hin]]%dict_set_elem;
             [by exists a| |by rewrite Hkeys].
           destruct (Halias col alias Hin) as (a0 & Hl & ->). exists a0.
           split; [|done]. apply last_aggregation_snoc; [done|congruence].
      * apply Hsame; [|right; by exists c]. unfold step. by rewrite Hc, Hhas.
    + apply Hsame; [|by left]. unfold step. by rewrite Hc.
Qed.
End GroupAggregate.

(** ** The checks of the reconcile *)

Section ReconcileChecks.
Context `{Pandas}.

Lemma check_join_keys_first detail summary pre key post s :
  Forall (fun k => k ∈ columns detail /\ k ∈ columns summary) pre ->
  key ∉ columns detail \/ key ∉ columns summary ->
  check_join_keys detail summary (pre ++ key :: post) s
  = (Raise (if bool_decide (key ∈ columns detail)
            then reconcile_column_missing "汇总表" "关联列" key summary
            else reconcile_column_missing "明细表" "关联列" key detail), s).
Proof.
  intros Hpre Hkey. unfold check_join_keys. rewrite for_each_app.
  pose proof (check_join_keys_ok detail summary pre s Hpre) as Hok.
  unfold check_join_keys in Hok. rewrite Hok.
  cbn [for_each]. unfold mbind, M_bind, has_column.
  case_bool_decide as Hd; cbn [negb].
  - destruct Hkey as [?|Hs]; [done|]. by rewrite (bool_decide_eq_false_2 _ Hs).
  - done.
Qed.

(** The checks of [reconcile] run before anything is computed, and a
    failed check leaves the heap as it is.  A tolerance that is not a
    number raises first.  Then come the missing settings: the join keys,
    the detail amount, the summary amount.  Then the columns: the join
    keys in order, each in the detail table and then in the summary table,
    and after them the detail amount and the summary amount; the first
    column that is not there is reported with its table's columns. *)
Theorem reconcile_checks_before_it_computes detail_df summary_df config s :
  let detail := heap s !!! detail_df in
  let summary := heap s !!! summary_df in
  let join_keys :=
    as_name_or_names (py_or (config !! "join_keys") (config !! "detail_key")) in
  let left_column :=
    as_name (py_or (config !! "left_column") (config !! "detail_amount")) in
  let right_column :=
    as_name (py_or (config !! "right_column") (config !! "summary_amount")) in
  let raises msg := _execute_reconcile detail_df summary_df config s = (Raise msg, s) in
  (forall e, py_float (default (PNum 0%Qc) (config !! "tolerance")) = Raise e ->
     raises e) /\
  (forall tolerance,
     py_float (default (PNum 0%Qc) (config !! "tolerance")) = Ok tolerance ->
     (join_keys = [] -> raises "对账核算必须指定关联键 (join_keys 或 detail_key)") /\
     (join_keys <> [] -> left_column = None ->
      raises "对账核算必须指定明细表金额列 (left_column 或 detail_amount)") /\
     (join_keys <> [] -> is_Some left_column -> right_column = None ->
      raises "对账核算必须指定汇总表金额列 (right_column 或 summary_amount)") /\
     (forall left right,
        left_column = Some left -> right_column = Some right ->
        (forall pre key post,
           join_keys = pre ++ key :: post ->
           Forall (fun k => k ∈ columns detail /\ k ∈ columns summary) pre ->
           (key ∉ columns detail ->
            raises (reconcile_column_missing "明细表" "关联列" key detail)) /\
           (key ∈ columns detail -> key ∉ columns summary ->
            raises (reconcile_column_missing "汇总表" "关联列" key summary))) /\
        (join_keys <> [] ->
         Forall (fun k => k ∈ columns detail /\ k ∈ columns summary) join_keys ->
         (left ∉ columns detail ->
          raises (reconcile_column_missing "明细表" "金额列" left detail)) /\
         (left ∈ columns detail -> right ∉ columns summary ->
          raises (reconcile_column_missing "汇总表" "金额列" right summary))))).
Proof.
  intros detail summary join_keys left_column right_column raises.
  unfold raises, _execute_reconcile. cbn zeta.
  fold join_keys left_column right_column. clearbody join_keys left_column right_column.
  split.
  - intros e He. unfold mbind, M_bind, lift. by rewrite He.
  - intros tolerance Ht.
    assert (Hlift : lift (py_float (default (PNum 0%Qc) (config !! "tolerance"))) s
                    = (Ok tolerance, s)) by (unfold lift; by rewrite Ht).
    split; [|split; [|split]].
    + intros ->. by rewrite (bind_ok _ _ _ _ _ Hlift).
    + intros Hk ->. rewrite (bind_ok _ _ _ _ _ Hlift). by destruct join_keys.
    + intros Hk [left ->] ->. rewrite (bind_ok _ _ _ _ _ Hlift). by destruct join_keys.
    + intros left right -> ->. split.
      * intros pre key post Hkeys Hpre. split.
        -- intros Hd. rewrite (bind_ok _ _ _ _ _ Hlift).
           destruct join_keys as [|k0 ks]; [by destruct pre|].
           rewrite !get_bind. fold detail summary. rewrite Hkeys.
           unfold mbind, M_bind.
           rewrite check_join_keys_first by (done || by left).
           by rewrite bool_decide_eq_false_2.
        -- intros Hd Hs. rewrite (bind_ok _ _ _ _ _ Hlift).
           destruct join_keys as [|k0 ks]; [by destruct pre|].
           rewrite !get_bind. fold detail summary. rewrite Hkeys.
           unfold mbind, M_bind.
           rewrite check_join_keys_first by (done || by right).
           by rewrite bool_decide_eq_true_2.
      * intros Hne Hall.
        pose proof (check_join_keys_ok detail summary _ s Hall) as Hrun.
        split.
        -- intros Hl. rewrite (bind_ok _ _ _ _ _ Hlift).
           destruct join_keys as [|k0 ks]; [done|].
           rewrite !get_bind. fold detail summary. rewrite (bind_ok _ _ _ _ _ Hrun).
           unfold has_column. by rewrite (bool_decide_eq_false_2 _ Hl).
        -- intros Hl Hr. rewrite (bind_ok _ _ _ _ _ Hlift).
           destruct join_keys as [|k0 ks]; [done|].
           rewrite !get_bind. fold detail summary. rewrite (bind_ok _ _ _ _ _ Hrun).
           unfold has_column.
           by rewrite (bool_decide_eq_true_2 _ Hl), (bool_decide_eq_false_2 _ Hr).
Qed.
End ReconcileChecks.

(** * The theorems on example documents and tables *)

(** C1 on a source feeding a join with a single input: the join raises,
    the source keeps its status. *)
Lemma fail_fast_witness :
  success (execute_workflow (demo_world noon demo_sheet) source_then_join ∅) = false /\
  error (execute_workflow (demo_world noon demo_sheet) source_then_join ∅)
  = Some "合并节点需要至少两个输入" /\
  node_status (execute_workflow (demo_world noon demo_sheet) source_then_join ∅) !! "join"
  = Some "error" /\
  node_status (execute_workflow (demo_world noon demo_sheet) source_then_join ∅) !! "source"
  = Some "success".
Proof.
  edestruct (fail_fast (demo_world noon demo_sheet) source_then_join ∅ ["source"] [] "join")
    as (Hs & He & Hn & _ & _ & Hdone & _).
  - compute_done.
  - vm_compute. reflexivity.
  - vm_compute. reflexivity.
  - vm_compute. reflexivity.
  - vm_compute. reflexivity.
  - split; [exact Hs|]. split; [exact He|]. split; [exact Hn|].
    apply (Hdone "source"). by left.
Defined.

(** C2: a document with an edge from an undeclared node and a cycle runs
    to a report with success=true, the source having run; and the join
    with a single input fails only after the source has run, with a
    message that names no node. *)
Lemma graph_defects_counterexample :
  success (execute_workflow (demo_world noon demo_sheet) ghost_and_cycle ∅) = true /\
  error (execute_workflow (demo_world noon demo_sheet) ghost_and_cycle ∅) = None /\
  node_status (execute_workflow (demo_world noon demo_sheet) ghost_and_cycle ∅) !! "source"
  = Some "success" /\
  node_status (execute_workflow (demo_world noon demo_sheet) ghost_and_cycle ∅) !! "b"
  = Some "pending" /\
  node_status (execute_workflow (demo_world noon demo_sheet) source_then_join ∅) !! "source"
  = Some "success" /\
  error (execute_workflow (demo_world noon demo_sheet) source_then_join ∅)
  = Some "合并节点需要至少两个输入".
Proof. vm_compute. done. Qed.

(** C10 on a node of type "mystery". *)
Lemma unrecognized_type_witness :
  cur_status (execute_node (demo_world noon demo_sheet) source_then_mystery ∅ "x"
                mystery_node (initial_run source_then_mystery)).1 !! "x"
  = Some "success" /\
  cur_results (execute_node (demo_world noon demo_sheet) source_then_mystery ∅ "x"
                 mystery_node (initial_run source_then_mystery)).1
  = cur_results (initial_run source_then_mystery).
Proof.
  destruct (unrecognized_type_is_success (demo_world noon demo_sheet) source_then_mystery ∅
              (dict_of_nodes (fun n => n) (nodes source_then_mystery)) "x" mystery_node []
              (initial_run source_then_mystery))
    as (_ & Hnode & Hstatus & Hresults & _).
  - reflexivity.
  - vm_compute. reflexivity.
  - rewrite Hnode. split; [exact Hstatus|exact Hresults].
Defined.

(** C4 on the example of the specification: three main rows, two of them
    with a match. *)
Lemma vlookup_witness :
  exists r s',
    _execute_vlookup 0 1 name_by_sku (mkState [skus; names] [] 0 []) = (Ok r, s') /\
    len (heap s' !!! r) = 3.
Proof.
  destruct (vlookup_is_a_left_join 0 1 name_by_sku (mkState [skus; names] [] 0 [])
              skus names "sku" "sku")
    as (r & s' & narrowed & i & Hrun & _ & _ & _ & _ & _ & _ & _ & _ & _ & _ & _ & _ & Hunique).
  - split; [cbn; lia|reflexivity].
  - split; [cbn; lia|reflexivity].
  - vm_compute. reflexivity.
  - vm_compute. reflexivity.
  - vm_compute. reflexivity.
  - vm_compute. reflexivity.
  - exists r, s'. split; [exact Hrun|]. apply Hunique. compute_done.
Defined.

(** C4: a lookup table with the key of the single main row twice gives
    two rows. *)
Lemma vlookup_counterexample :
  value_of (_execute_vlookup 0 1 name_by_sku
              (mkState [mkDF ["sku"] [[int 1]]; names_twice] [] 0 []))
  = Ok (mkDF ["sku"; "name"] [[Str "1"; Str "x"]; [Str "1"; Str "y"]]).
Proof. vm_compute. reflexivity. Qed.

(** C6 on a sheet without the column "nope". *)
Lemma missing_sort_column_witness :
  success (execute_workflow (demo_world noon demo_sheet)
             (source_then_sort book_config "nope") ∅) = true /\
  node_status (execute_workflow (demo_world noon demo_sheet)
                 (source_then_sort book_config "nope") ∅) !! "sort" = Some "success".
Proof.
  edestruct (missing_sort_column_is_skipped (demo_world noon demo_sheet) ∅ book_config "nope")
    as (Hs & _ & _ & Hsort & _).
  - done.
  - vm_compute. reflexivity.
  - vm_compute. reflexivity.
  - vm_compute. reflexivity.
  - split; [exact Hs|exact Hsort].
Defined.

Lemma missing_sort_column_counterexample :
  error (execute_workflow (demo_world noon demo_sheet)
           (source_then_sort book_config "nope") ∅) = None /\
  node_status (execute_workflow (demo_world noon demo_sheet)
                 (source_then_sort book_config "nope") ∅) !! "sort" = Some "success" /\
  node_results (execute_workflow (demo_world noon demo_sheet)
                  (source_then_sort book_config "nope") ∅) !! "sort"
  = Some (ResultTable (table_of demo_sheet demo_sheet)).
Proof. vm_compute. done. Qed.

(** C7 on a source feeding an output node that names its file. *)
Lemma rerun_witness :
  output_file (execute_workflow (demo_world noon demo_sheet)
                 (source_then_output {[ "filename" := PStr "report" ]}) ∅)
  = output_file (execute_workflow
                   (retime midnight (fun _ => "ffffffff") (demo_world noon demo_sheet))
                   (source_then_output {[ "filename" := PStr "report" ]}) ∅) /\
  Forall2 same_message
    (logs (execute_workflow (demo_world noon demo_sheet)
             (source_then_output {[ "filename" := PStr "report" ]}) ∅))
    (logs (execute_workflow
             (retime midnight (fun _ => "ffffffff") (demo_world noon demo_sheet))
             (source_then_output {[ "filename" := PStr "report" ]}) ∅)).
Proof.
  destruct (rerun_agrees_up_to_timestamps (demo_world noon demo_sheet) midnight
              (fun _ => "ffffffff") (source_then_output {[ "filename" := PStr "report" ]}) ∅)
    as (_ & _ & _ & _ & _ & Hfile & Hlogs).
  - intros n Hn Ht.
    apply elem_of_cons in Hn as [->|Hn]; [|apply elem_of_cons in Hn as [->|Hn]].
    + destruct Ht as [Ht|Ht]; discriminate Ht.
    + by eexists.
    + by apply elem_of_nil in Hn.
  - split; [exact Hfile|exact Hlogs].
Defined.

(** C7: the same document at two times of the day has two logs, and
    without a file name two uuid sources give two output files. *)
Lemma rerun_counterexample :
  bool_decide
    (logs (execute_workflow (demo_world noon demo_sheet) (source_then_output ∅) ∅)
     = logs (execute_workflow (demo_world midnight demo_sheet) (source_then_output ∅) ∅))
  = false /\
  bool_decide
    (output_file (execute_workflow (demo_world noon demo_sheet) (source_then_output ∅) ∅)
     = output_file (execute_workflow
                      (retime noon (fun _ => "ffffffff") (demo_world noon demo_sheet))
                      (source_then_output ∅) ∅))
  = false.
Proof. vm_compute. done. Qed.

(** C8 on a sheet of two rows. *)
Lemma llm_rows_witness :
  exists r s',
    _execute_ai_agent (demo_world noon demo_sheet) 0 {[ "prompt" := PStr "Classify {sku}" ]}
      (mkState [demo_sheet] [] 0 []) = (Ok r, s') /\
    len (heap s' !!! r) = 2.
Proof.
  destruct (llm_rows_are_capped_at_twenty (demo_world noon demo_sheet) 0
              {[ "prompt" := PStr "Classify {sku}" ]} (mkState [demo_sheet] [] 0 []))
    as ((r & s' & replies & Hrun & _ & Hlen & _) & _).
  - vm_compute. discriminate.
  - exists r, s'. split; [exact Hrun|exact Hlen].
Defined.

(** C8: with [row_limit] 1 both rows of the sheet are sent, and an
    endpoint that cannot be reached gives the text of the failed call. *)
Lemma llm_rows_counterexample :
  len <$> value_of (_execute_ai_agent (demo_world noon demo_sheet) 0
                      {[ "prompt" := PStr "Classify {sku}"; "row_limit" := PNum 1%Qc ]}
                      (mkState [demo_sheet] [] 0 []))
  = Ok 2 /\
  length (requests (_execute_ai_agent (demo_world noon demo_sheet) 0
                      {[ "prompt" := PStr "Classify {sku}"; "row_limit" := PNum 1%Qc ]}
                      (mkState [demo_sheet] [] 0 [])).2)
  = 2 /\
  (fun d => column d "AI_Result")
    <$> value_of (_execute_ai_agent offline_world 0 {[ "prompt" := PStr "Classify {sku}" ]}
                    (mkState [demo_sheet] [] 0 []))
  = Ok [Str "调用失败: connection refused"; Str "调用失败: connection refused"].
Proof. vm_compute. done. Qed.



(** ** More of the engine, on the example documents *)

(** The join of the example document runs after its source. *)
Lemma execution_order_respects_edges_witness :
  execution_order source_then_join = ["source"; "join"] /\
  source (mkEdge "source" "join") ∈ ["source"].
Proof.
  split; [vm_compute; reflexivity|].
  apply (execution_order_respects_edges source_then_join ltac:(compute_done)
           ["source"] "join" [] (mkEdge "source" "join")).
  - vm_compute. reflexivity.
  - by left.
  - vm_compute. reflexivity.
  - reflexivity.
Defined.

(** The transform "b" of the example document is never scheduled: it is on
    the cycle between "b" and "c". *)
Lemma unscheduled_witness :
  bool_decide ("b" ∈ execution_order ghost_and_cycle) = false /\
  on_or_after_cycle (nodes ghost_and_cycle) (edges ghost_and_cycle) "b".
Proof.
  split; [vm_compute; reflexivity|].
  destruct (unscheduled_iff_on_or_after_cycle ghost_and_cycle ltac:(compute_done))
    as [Hiff _].
  apply (Hiff "b"); [compute_done|]. compute_done.
Defined.

(** The preview of a source feeding an output node shows the two rows of
    the sheet. *)
Lemma preview_witness :
  exists p,
    preview (execute_workflow (demo_world noon demo_sheet)
               (source_then_output {[ "filename" := PStr "report" ]}) ∅) = Some p /\
    success (execute_workflow (demo_world noon demo_sheet)
               (source_then_output {[ "filename" := PStr "report" ]}) ∅) = true /\
    length (table_data p) = min 100 (total_rows p).
Proof.
  pose proof (preview_is_the_head_of_an_output (demo_world noon demo_sheet)
                (source_then_output {[ "filename" := PStr "report" ]}) ∅
                ltac:(compute_done)) as [_ Hp].
  destruct (preview _) as [p|] eqn:Heq; [|vm_compute in Heq; discriminate Heq].
  exists p. split; [reflexivity|].
  destruct (Hp p eq_refl) as (Hs & Hl & _). split; [exact Hs|exact Hl].
Defined.

(** The file of an output node configured with the name "report". *)
Lemma saved_file_name_witness :
  exists f s' stem,
    _save_output (demo_world noon demo_sheet) 0 {[ "filename" := PStr "report" ]}
                 (Some "output") (mkState [demo_sheet] [] 0 []) = (Ok f, s') /\
    f = stem +:+ ".xlsx" /\
    written s' = [(f, demo_sheet)].
Proof.
  eexists _, _.
  edestruct (saved_file_name_ends_with_the_extension (demo_world noon demo_sheet) 0
               {[ "filename" := PStr "report" ]} (Some "output")
               (mkState [demo_sheet] [] 0 []))
    as ([stem Hstem] & _ & _ & Hwritten & _).
  - vm_compute. reflexivity.
  - exists stem. split; [reflexivity|]. split; [exact Hstem|exact Hwritten].
Defined.

(** The source of the example documents reads the stored file
    "book.xlsx" for the id "book". *)
Lemma source_reads_witness :
  _execute_source (demo_world noon demo_sheet) book_config ∅ empty_state
  = (Ok 0, mkState [demo_sheet] [] 0 []).
Proof.
  destruct (source_reads_the_first_match (demo_world noon demo_sheet) book_config ∅
              "book" empty_state)
    as [(before & f & after & Hl & _ & _ & Hx & _)|(Hall & _)].
  - vm_compute. reflexivity.
  - rewrite Hx. reflexivity.
  - apply Forall_inv in Hall. destruct Hall. by exists ".xlsx".
Defined.

(** A join on a key column that the left table does not have. *)
Lemma join_missing_key_witness :
  exists s',
    _execute_join 0 1 {[ "on" := PStr "id" ]} (mkState [skus; names] [] 0 [])
    = (Raise (join_key_missing "左表" "id" skus), s').
Proof.
  destruct (join_reports_the_first_missing_key 0 1 {[ "on" := PStr "id" ]}
              (mkState [skus; names] [] 0 []))
    as (_ & Hleft & _).
  - cbn. lia.
  - apply (Hleft [] "id" []).
    + vm_compute. discriminate.
    + vm_compute. reflexivity.
    + constructor.
    + compute_done.
Defined.

(** The mean of a column the sheet does not have. *)
Lemma fill_na_missing_column_witness :
  exists s',
    _execute_fill_na 0 {[ "strategy" := PStr "mean"; "columns" := PList [PStr "nope"] ]}
                     (mkState [demo_sheet] [] 0 [])
    = (Raise "KeyError", s').
Proof.
  destruct (fill_na_statistic_reads_every_target 0
              {[ "strategy" := PStr "mean"; "columns" := PList [PStr "nope"] ]}
              (mkState [demo_sheet] [] 0 []))
    as (_ & Hmissing).
  - left. vm_compute. reflexivity.
  - apply (Hmissing [] "nope" []).
    + vm_compute. reflexivity.
    + constructor.
    + compute_done.
Defined.

(** When the join of the example document starts, its source has run. *)
Lemma upstream_witness :
  cur_status (run_nodes (demo_world noon demo_sheet) source_then_join ∅
                (dict_of_nodes (fun n => n) (nodes source_then_join)) ["source"]
                (initial_run source_then_join)).1 !! "source"
  = Some "success".
Proof.
  edestruct (upstream_nodes_have_succeeded (demo_world noon demo_sheet) source_then_join ∅
               ["source"] "join" []) as [Hready _].
  - compute_done.
  - vm_compute. reflexivity.
  - vm_compute. reflexivity.
  - destruct (Hready (mkEdge "source" "join")) as (_ & Hs & _).
    + by left.
    + reflexivity.
    + compute_done.
    + exact Hs.
Defined.

(** The sum and the mean of one column: a single aggregation is computed. *)
Lemma group_aggregate_witness :
  exists agg_dict rename_dict,
    _execute_group_aggregate 0
      {[ "group_by" := PStr "sku";
         "aggregations" := PList [PDict [("column", PStr "qty"); ("func", PStr "sum")];
                                  PDict [("column", PStr "qty"); ("func", PStr "mean")]] ]}
      (mkState [demo_sheet] [] 0 [])
    = (if bool_decide (agg_dict = [])
       then df_call (fun d => pd_groupby_agg d ["sku"] []) 0
       else result ← df_call (fun d => pd_groupby_agg d ["sku"] agg_dict) 0;
            df_call (fun d => Ok (rename d rename_dict)) result)
        (mkState [demo_sheet] [] 0 []) /\
    NoDup agg_dict.*1 /\ rename_dict.*1 = agg_dict.*1.
Proof.
  destruct (group_aggregate_keeps_the_last_aggregation 0
              {[ "group_by" := PStr "sku";
                 "aggregations" :=
                   PList [PDict [("column", PStr "qty"); ("func", PStr "sum")];
                          PDict [("column", PStr "qty"); ("func", PStr "mean")]] ]}
              (mkState [demo_sheet] [] 0 []))
    as (agg_dict & rename_dict & Hrun & Hnd & Hkeys & _).
  - vm_compute. discriminate.
  - exists agg_dict, rename_dict. split; [exact Hrun|]. split; [exact Hnd|exact Hkeys].
Defined.

(** The report of the source feeding a join with a single input has one
    node in error, with the error of the report. *)
Lemma report_witness :
  exists k e,
    error (execute_workflow (demo_world noon demo_sheet) source_then_join ∅) = Some e /\
    node_results (execute_workflow (demo_world noon demo_sheet) source_then_join ∅) !! k
    = Some (ResultError e) /\
    node_status (execute_workflow (demo_world noon demo_sheet) source_then_join ∅) !! "source"
    = Some "success".
Proof.
  destruct (report_is_consistent (demo_world noon demo_sheet) source_then_join ∅)
    as (_ & _ & _ & _ & Htable & _ & _ & Hfailed).
  destruct Hfailed as (k & e & He & Hk & _); [vm_compute; reflexivity|].
  exists k, e. split; [exact He|]. split; [exact Hk|].
  eapply Htable. vm_compute. reflexivity.
Defined.

(** A transform of the sheet returns a frame that was not on the heap. *)
Lemma new_frame_witness :
  exists r s',
    _execute_node_by_type (demo_world noon demo_sheet) (Some "transform") ∅ [0] ∅
      (mkState [demo_sheet] [] 0 []) = (Ok (Some r), s') /\
    1 <= r.
Proof.
  destruct (results_are_new_frame_objects (demo_world noon demo_sheet) ∅ [0] ∅
              (mkState [demo_sheet] [] 0 [])) as [Hnew _].
  eexists _, _. split; [vm_compute; reflexivity|].
  edestruct (Hnew "transform") as [Hr _]; [compute_done|vm_compute; reflexivity|].
  exact Hr.
Defined.

(** Converting the quantities of the sheet to text leaves the column of
    the product codes as it is. *)
Lemma type_convert_witness :
  exists d',
    _execute_type_convert 0
      {[ "conversions" := PList [PDict [("column", PStr "qty"); ("dtype", PStr "str")]] ]}
      (mkState [demo_sheet] [] 0 [])
    = (Ok 1, mkState [demo_sheet; d'] [] 0 []) /\
    columns d' = ["sku"; "qty"] /\
    column d' "sku" = [Str "b"; Str "a"].
Proof.
  pose proof (type_convert_keeps_the_shape 0
                {[ "conversions" :=
                     PList [PDict [("column", PStr "qty"); ("dtype", PStr "str")]] ]}
                (mkState [demo_sheet] [] 0 [])) as [Hshape _].
  destruct Hshape as (d' & Hrun & Hcols & _ & Hother & _).
  exists d'. split; [exact Hrun|]. split; [exact Hcols|].
  apply (Hother "sku"). compute_done.
Defined.

(** Lower-casing the quantities of the sheet turns the numbers into
    text. *)
Lemma text_process_witness :
  exists d',
    _execute_text_process 0 {[ "column" := PStr "qty"; "operation" := PStr "lower" ]}
      (mkState [demo_sheet] [] 0 [])
    = (Ok 1, mkState [demo_sheet; d'] [] 0 []) /\
    column d' "qty" = [Str "2"; Str "1"].
Proof.
  destruct (text_process_rewrites_one_column 0
              {[ "column" := PStr "qty"; "operation" := PStr "lower" ]}
              (mkState [demo_sheet] [] 0 [])) as [_ Hop].
  destruct (Hop "qty" "lower" str_lower) as (d' & Hrun & _ & _ & _ & Hcol).
  - vm_compute. reflexivity.
  - compute_done.
  - vm_compute. reflexivity.
  - reflexivity.
  - exists d'. split; [exact Hrun|]. rewrite Hcol; [vm_compute; reflexivity|].
    repeat constructor.
Defined.

(** Reconciling on a key that the detail lines do not have. *)
Lemma reconcile_checks_witness :
  _execute_reconcile 0 1
    {[ "join_keys" := PList [PStr "region"]; "left_column" := PStr "amount";
       "right_column" := PStr "total" ]}
    (mkState [detail_lines; summary_lines] [] 0 [])
  = (Raise (reconcile_column_missing "明细表" "关联列" "region" detail_lines),
     mkState [detail_lines; summary_lines] [] 0 []).
Proof.
  destruct (reconcile_checks_before_it_computes 0 1
              {[ "join_keys" := PList [PStr "region"]; "left_column" := PStr "amount";
                 "right_column" := PStr "total" ]}
              (mkState [detail_lines; summary_lines] [] 0 [])) as [_ Hchecks].
  destruct (Hchecks 0%Qc) as (_ & _ & _ & Hcolumns); [vm_compute; reflexivity|].
  destruct (Hcolumns "amount" "total") as [Hkeys _]; [vm_compute; reflexivity..|].
  destruct (Hkeys [] "region" []) as [Hmissing _]; [vm_compute; reflexivity|constructor|].
  apply Hmissing. compute_done.
Defined.

(** The log of the source feeding a join with a single input ends with
    the failure of the join. *)
Lemma failure_log_witness :
  exists earlier time,
    logs (execute_workflow (demo_world noon demo_sheet) source_then_join ∅)
    = earlier ++ ["[" +:+ time +:+ "] 节点 join 执行失败: 合并节点需要至少两个输入"].
Proof.
  destruct (failed_run_logs_the_failure_last (demo_world noon demo_sheet) source_then_join ∅)
    as (node & e & earlier & time & Hnode & He & Hstatus & Hlogs).
  - vm_compute. reflexivity.
  - exists earlier, time. rewrite Hlogs.
    assert (e = "合并节点需要至少两个输入") as -> by (vm_compute in He; congruence).
    assert (node_label node = "join") as ->; [|reflexivity].
    apply elem_of_cons in Hnode as [->|Hnode].
    + vm_compute in Hstatus. discriminate Hstatus.
    + apply list_elem_of_singleton in Hnode as ->. reflexivity.
Defined.

(** ** The examples of the specification *)

(** Vlookup name fill. *)
Example vlookup_name_fill :
  value_of (_execute_vlookup 0 1 name_by_sku (mkState [skus; names] [] 0 []))
  = Ok (mkDF ["sku"; "name"]
             [[Str "1"; Str "x"]; [Str "2"; Str "y"]; [Str "3"; NaN]]).
Proof. vm_compute. reflexivity. Qed.

(** Reconcile with tolerance: |30 - 29.995| <= 0.01. *)
Example reconcile_with_tolerance :
  rows <$> value_of (_execute_reconcile 0 1 (reconcile_m "diff_only")
                       (mkState [detail_m; summary_m] [] 0 []))
  = Ok [].
Proof. vm_compute. reflexivity. Qed.

(** The same tables with every row reported: in float64, 30 - 29.995 is
    0.004999999999999005. *)
Example reconcile_all_rows :
  value_of (_execute_reconcile 0 1 (reconcile_m "all") (mkState [detail_m; summary_m] [] 0 []))
  = Ok (mkDF ["m"; "明细汇总金额"; "汇总表金额"; "差额"; "核算结果"]
             [[Str "A"; int 30; dec 29995 1000;
               dec 4999999999999005 1000000000000000000; Str "✅ 一致"];
              [Str "B"; int 5; dec 5 1; dec 0 1; Str "✅ 一致"]]).
Proof. vm_compute. reflexivity. Qed.

(** Without a tolerance the first group is a mismatch. *)
Example reconcile_without_tolerance :
  rows <$> value_of (_execute_reconcile 0 1
                       {[ "join_keys" := PList [PStr "m"]; "left_column" := PStr "a";
                          "right_column" := PStr "s" ]}
                       (mkState [detail_m; summary_m] [] 0 []))
  = Ok [[Str "A"; int 30; dec 29995 1000;
         dec 4999999999999005 1000000000000000000; Str "❌ 不一致"]].
Proof. vm_compute. reflexivity. Qed.

(** Totals of floats: 0.1 + 0.2 is not 0.3 in float64, and the group is
    reported. *)
Example reconcile_float_totals :
  rows <$> value_of
             (_execute_reconcile 0 1
                {[ "join_keys" := PList [PStr "m"]; "left_column" := PStr "a";
                   "right_column" := PStr "s" ]}
                (mkState [mkDF ["m"; "a"] [[Str "A"; dec 1 10]; [Str "A"; dec 2 10]];
                          mkDF ["m"; "s"] [[Str "A"; dec 3 10]]] [] 0 []))
  = Ok [[Str "A"; dec 30000000000000004 100000000000000000; dec 3 10;
         dec 5551115123125783 100000000000000000000000000000000; Str "❌ 不一致"]].
Proof. vm_compute. reflexivity. Qed.

(** Integer keys in the main table and float keys in the lookup table: as
    text, 1 and 1.0 are different keys, and no name is found. *)
Example vlookup_float_keys :
  value_of (_execute_vlookup 0 1 name_by_sku
              (mkState [skus; mkDF ["sku"; "name"] [[dec 1 1; Str "x"]; [dec 2 1; Str "y"]]]
                       [] 0 []))
  = Ok (mkDF ["sku"; "name"] [[Str "1"; NaN]; [Str "2"; NaN]; [Str "3"; NaN]]).
Proof. vm_compute. reflexivity. Qed.

(** Looked-up integers next to a null are floats. *)
Example vlookup_integers_with_null :
  value_of (_execute_vlookup 0 1
              {[ "left_key" := PStr "sku"; "columns_to_get" := PList [PStr "qty"] ]}
              (mkState [skus; mkDF ["sku"; "qty"] [[int 1; int 10]; [int 2; int 20]]] [] 0 []))
  = Ok (mkDF ["sku"; "qty"] [[Str "1"; dec 10 1]; [Str "2"; dec 20 1]; [Str "3"; NaN]]).
Proof. vm_compute. reflexivity. Qed.

(** A rename that gives two columns one label, and a selection of that
    label: both columns are kept. *)
Example transform_selects_both_columns :
  value_of (_execute_transform 0
              {[ "rename_map" := PDict [("note", PStr "sku")];
                 "selected_columns" := PList [PStr "sku"] ]}
              (mkState [mkDF ["sku"; "qty"; "note"] [[Str "a"; int 1; Str "n"]]] [] 0 []))
  = Ok (mkDF ["sku"; "sku"] [[Str "a"; Str "n"]]).
Proof. vm_compute. reflexivity. Qed.

(** A conversion that is not a dictionary. *)
Example type_convert_of_a_name :
  (_execute_type_convert 0 {[ "conversions" := PList [PStr "qty"] ]}
     (mkState [demo_sheet] [] 0 [])).1
  = Raise "'str' object has no attribute 'get'".
Proof. vm_compute. reflexivity. Qed.

(** A reply with status 200 and no content, and one with another status. *)
Example replies_without_content :
  reply_text (HttpResponse 200 "{}" (Raise "'choices'")) = "调用失败: 'choices'" /\
  reply_text (HttpResponse 503 "对账服务不可用" (Raise "'choices'"))
  = "AI调用失败: HTTP 503 - 对账服务不可用".
Proof. vm_compute. done. Qed.
